(* ===== verification/_CoqProject ===== *)
-Q . S2P
Prelude.v
Kernel.v
Spinlock.v
Queue.v
Memory.v
CString.v
Doprnt.v
Kio.v
Qsort.v
Config.v
ConfigLang.v
ConfigSpec.v
ConfigScan.v
ConfigParse.v
ConfigGrammar.v
ConfigOut.v
Ctype.v
Doscan.v
Stdio.v
Thread.v
Proc.v
ProcOps.v
Message.v
Interrupt.v
Effects.v
Lifecycle.v
Mmu.v
Checks.v
System.v
Init.v
Run.v
Programs.v
Startup.v
Syscall.v
Runtime.v
Paging.v
Dtb.v
Scenario.v
Witnesses.v
LibWitnesses.v
RiscvWitnesses.v
SystemWitnesses.v
ConfigWitnesses.v
