(* ===== verification/Prelude.v ===== *)
(** * Embedded Xinu on the Raspberry Pi 3: a verification library

    ** The program

    The repository is the kernel and C library of Embedded Xinu.  The kernel
    (system/) keeps a table of processes and schedules them on four cores by
    priority with aging (resched.c, create.c, ready.c, kill.c); processes and
    blocked senders wait in queues threaded through one table (queue.c); the
    heap is a free list per core (getmem.c, freemem.c, malloc.c, free.c);
    processes exchange one-word messages (send.c, recv.c and their variants);
    spinlocks protect the tables (spinlock.c); interrupts reach the clock
    handler, which preempts (dispatch.c, clkhandler.c, timer.c); and
    nulluser (initialize.c) brings all of it up.  The library (lib/libxc/)
    has strings, formatted output and input, sorting and more.  The modelled
    build is the one compile/Makefile makes: ARM, [int], [long] and pointers
    32 bits wide, [char] unsigned, wrapping signed arithmetic, PREEMPT and
    AGING on.  The repository also holds parts of a port to 64-bit RISC-V:
    page tables (safeInit.c, safeKmapInit.c) and the device tree (dtb.c);
    they are modelled for that machine, apart from the rest.  The device table of
    the kernel is written at build time by a host program (compile/config/).

    ** How it is modelled

    C code is translated statement by statement into state-passing
    computations [M S A := S -> outcome (A * S)] (this file).  [Ret] is a
    return, error codes such as [SYSERR] included; [Fault] is what C leaves
    undefined or never returns from: an access outside an object, a spin on a
    lock nobody can release, a loop out of its bound.  Integers are [Z] with
    the wrap of their width written out ([u32], [s32], [u8], ...).  Loops are
    recursive functions on the data they walk, on a number of iterations the
    code fixes, or on fuel; where there is fuel, theorems state that the
    amount given is enough (the queue walk of [remove] has [NQENT] steps, a
    free list walk as many as there are words of memory, a format as many as
    its characters, a 32-bit mask 33).

    - Kernel.v: the global variables of initialize.c, queue.c, spinlock.c,
      clkinit.c, dispatch.c and kprintf.c, and the device registers, as one
      record [kernel]; [K A] is a computation over it.
    - Spinlock.v: lock_create, lock_free, lock_acquire, lock_release; in
      [LockStep] the load/store-exclusive loops of spinlock_util.S as a step
      relation of any number of cores.
    - Queue.v: enqueue, dequeue, remove, newqueue; the lists they represent
      ([queues_wf]); the interface [FifoQueues] against which the scheduler
      and the messages are verified.
    - Memory.v: getmem, freemem, malloc, free over word-addressed memory.
    - CString.v: the str* and mem* functions over buffers.
    - Doprnt.v: _doprnt over any character sink (class [CharSink]), sprintf.
    - Kio.v: kgetc, kungetc, kcheckc, kputc, kprintf over the UART.
    - Qsort.v: qsort over the bytes of the array, the callback a parameter.
    - Ctype.v: the character table and the macros of ctype.h.
    - Doscan.v: _doscan over any character source, sscanf.
    - Stdio.v: fgetc, fgets, fputc, fputs, printf, fprintf, fscanf over
      devices with an interface ([InputDevice], [OutputDevice]); atol, atoi,
      abs, labs, rand.
    - Thread.v: computations that can give up the processor in ctxsw and are
      resumed later with another kernel state.
    - Proc.v: ctxsw, resched, ready, create, kill, userret; the abstract
      scheduler ([acore], [spec_resched]) and the refinement.
    - ProcOps.v: the behaviour of create, ready and kill on every branch.
    - Message.v: send, sendnow, recv, recvnow; mailboxes.
    - Interrupt.v: interrupt lines, dispatch, the clock, udelay.
    - Effects.v, Lifecycle.v: what each operation changes and what it leaves
      alone, and the life of a slot of the process table.
    - Mmu.v: the section table.
    - System.v: all calls together: processes as streams of calls, cores that
      start, leave and resume them in any order, and the invariant of the
      whole ([sound]); Run.v: every state that can be reached from the start
      ([reaches]), and the theorems about all of them.
    - Init.v: platforminit, sysinit, unparkcore, nulluser, core_nulluser.
    - Programs.v: the main process, the tests of testcases.c and printpid;
      what starting a process and rescheduling do to a kernel that has room
      ([can_start]); Startup.v: nulluser and these programs one after the other.
    - Syscall.v: syscall_dispatch and the handlers of its table.
    - Runtime.v: getstk and the runtime functions of minijava.c.
    - Paging.v: pgalloc, pgfree, mapAddress, mapPage, printPageTable, safeInit,
      safeKmapInit over page frames of 64-bit words; the walk of the hardware.
    - Dtb.v: parseDtb over the bytes of the tree; flattened trees.
    - Config.v: the tables and output of the configuration generator, with
      the computations [G A], which return or exit; ConfigLang.v: its scanner
      (the longest match of the rules of scan.l), its parser (the grammar of
      parse.y with the actions) and main.
    - ConfigSpec.v: those tables as lists ([rep]), their types ([typed]), and
      the actions on them; ConfigScan.v: the tokens of a text; ConfigParse.v:
      the parser on tokens and lists ([parse_tokens]) and the refinement;
      ConfigGrammar.v: configuration files as trees, their tokens and their
      meaning, and that the parser accepts exactly these;
      ConfigOut.v: conf.h and conf.c as texts ([conf_h], [conf_c]).
    - Checks.v, Scenario.v: the invariants as conditions that evaluate, and
      kernels obtained by running the modelled code.
    - Witnesses.v, LibWitnesses.v, RiscvWitnesses.v, SystemWitnesses.v,
      ConfigWitnesses.v: every theorem with hypotheses applied to concrete
      inputs.

    ** What is shown

    - The whole system: from the start on, every sequence of calls of
      processes on any cores, in any order, runs without a fault and keeps all
      invariants; messages arrive once and in order; nobody is stranded; calls
      return.  Processes are [polite]: they pass the arguments the calls
      expect and do not use those the defects below break.
    - Scheduling: [resched] refines the abstract aging scheduler and keeps
      its invariant; the clock preempts after at most a quantum; in every run
      of the whole system that never ends, a core that the clock interrupts
      again and again runs every process in its ready lists.
    - Processes: create, ready and kill do what their comments say, on all
      branches, and keep the invariants of scheduler and heap.
    - Queues: every sequence of operations refines lists with FIFO order;
      malformed requests are refused without effect.
    - Heap: first fit, coalescing, no overlap and no loss over any sequence
      of operations; round trips of getmem/freemem and malloc/free.
    - Messages: mailboxes are FIFO, senders and receivers block and wake as
      they should.
    - Locks: mutual exclusion in every interleaving; allocation.
    - Interrupts: exactly the enabled and pending lines are served, in order;
      udelay waits long enough but for one case, which is stated.
    - Start: from the loader's state the start code establishes all of these
      invariants, so that they are not assumptions; the main process is
      created, gets its core and runs the tests, which print what is written
      in them and start processes that the scheduler takes by priority.
    - Library: conversions write the numeral of the number, sprintf the
      meaning of its format, sscanf reads back what sprintf wrote; qsort
      sorts; fgets takes a line; the string functions meet their contracts.
    - Runtime: objects of MiniJava are fresh and zeroed, numbers are read as
      written.
    - Page tables: the tables are a tree apart from the free pages;
      mapAddress maps its range and nothing else; the start code maps exactly
      the kernel's ranges, and no page writable and executable.
    - Device tree: of a flattened tree every property takes effect, in order.
    - Configuration: for every command line, text and content of the memory
      malloc returns, the generator has written what the declarations mean,
      with its tables well typed, or exits with 1 when they are refused or a
      file cannot be opened; it accepts exactly the language of its grammar;
      minor numbers and sizes fit each other.  Three things can go wrong, and
      the theorems say when ([verdict]): more names than the symbol table has
      room for, a search along a link that malloc left, and an array it left
      without a terminator.  Loops have the length of the text as fuel: each
      takes a character.

    Some theorems state defects: the off-by-one of isbadlock, the wrap of
    getmem, the lost stack of create, the stranded senders of recvnow and
    kill, the early return of udelay, the lost carry of CLKUPDATE, the
    unchecked allocation of _new; in the device tree the lost high words and
    the clock frequency read in the wrong byte order; in the generator the
    symbol table without a check, the link and the names that are not
    initialised and the declarations without a device.

    ** Not modelled

    Processor set-up and trap entry in assembly (start.S, irq_handler.S,
    setupCore.S, setupHart.S, mmu_util.S, halt.S): register and coprocessor
    code without data structures.  The trap report of xtrap.c: it prints
    64-bit numbers, which the 32-bit build of _doprnt does not have, and is
    in no build.  main/main.c and the user_ functions of syscall_dispatch.c:
    one trap instruction each, and the trap entry that would lead to
    syscall_dispatch is not in the repository.  lib/libxc/malloc.c and free.c:
    older forms of the modelled ones in system/, marked as deprecated.  Interrupts
    that arrive between two statements of the programs of Programs.v; in
    System.v the clock may interrupt any process between its calls.  The
    devices behind getc and putc, whose drivers are not in the
    repository.  The memory model of the processors beyond the exclusive monitor:
    steps of different cores interleave. *)

From stdpp Require Import base numbers list gmap.
From Stdlib Require Import ZArith Lia.

#[global] Open Scope Z_scope.

(** ** Outcomes of C code *)

(** What can go wrong in an operation besides returning an error code:
    an access outside an array, a spin on a lock that nobody can release,
    a loop that exhausts the bound given to it. *)
Inductive fault :=
  | OutOfBounds
  | Deadlock
  | OutOfFuel.

Inductive outcome (A : Type) :=
  | Ret (a : A)
  | Fault (f : fault).
Arguments Ret {A} a.
Arguments Fault {A} f.

#[export] Instance fault_eq_dec : EqDecision fault.
Proof. solve_decision. Defined.
#[export] Instance outcome_eq_dec {A} `{EqDecision A} : EqDecision (outcome A).
Proof. solve_decision. Defined.

(** State-passing computations over a state [S] that may fault. *)
Definition M (S A : Type) : Type := S -> outcome (A * S).

Definition ret {S A} (a : A) : M S A := fun s => Ret (a, s).

Definition bind {S A B} (m : M S A) (k : A -> M S B) : M S B :=
  fun s => match m s with
           | Ret (a, s') => k a s'
           | Fault f => Fault f
           end.

Definition gets {S A} (f : S -> A) : M S A := fun s => Ret (f s, s).

Definition modify {S} (f : S -> S) : M S unit := fun s => Ret (tt, f s).

Definition failwith {S A} (f : fault) : M S A := fun _ => Fault f.

(** A value that must be present; its absence is an access out of bounds. *)
Definition must {S A} (o : option A) : M S A :=
  match o with Some a => ret a | None => failwith OutOfBounds end.

Declare Scope c_scope.
Delimit Scope c_scope with c.
#[global] Open Scope c_scope.

Notation "x <-- m ;; k" := (bind m (fun x => k))
  (at level 100, m at next level, right associativity) : c_scope.
Notation "m ;;; k" := (bind m (fun _ => k))
  (at level 100, right associativity) : c_scope.

(** Pure computations that may fault. *)
Definition obind {A B} (m : outcome A) (k : A -> outcome B) : outcome B :=
  match m with Ret a => k a | Fault f => Fault f end.
Notation "x <~ m ;; k" := (obind m (fun x => k))
  (at level 100, m at next level, right associativity) : c_scope.

Notation "' pat <~ m ;; k" := (obind m (fun x => match x with pat => k end))
  (at level 100, pat pattern, m at next level, right associativity) : c_scope.
Notation "' pat <-- m ;; k" := (bind m (fun x => match x with pat => k end))
  (at level 100, pat pattern, m at next level, right associativity) : c_scope.

(** A pure computation inside a state-passing one. *)
Definition pure {S A} (o : outcome A) : M S A :=
  match o with Ret a => ret a | Fault f => failwith f end.

Lemma bind_pure {S A B} (o : outcome A) a (k : A -> M S B) s :
  o = Ret a -> bind (pure o) k s = k a s.
Proof. by intros ->. Qed.

Lemma obind_Ret {A B} (o : outcome A) a (k : A -> outcome B) : o = Ret a -> obind o k = k a.
Proof. by intros ->. Qed.

Lemma bind_Ret {S A B} (m : M S A) (k : A -> M S B) s a s' :
  m s = Ret (a, s') -> bind m k s = k a s'.
Proof. intros H. unfold bind. by rewrite H. Qed.

Lemma bind_ret_l {S A B} (a : A) (k : A -> M S B) s : bind (ret a) k s = k a s.
Proof. done. Qed.

Lemma bind_gets {S A B} (f : S -> A) (k : A -> M S B) s : bind (gets f) k s = k (f s) s.
Proof. done. Qed.

Lemma bind_modify {S B} (f : S -> S) (k : unit -> M S B) s :
  bind (modify f) k s = k tt (f s).
Proof. done. Qed.

Lemma bind_must {S A B} (o : option A) a (k : A -> M S B) s :
  o = Some a -> bind (must o) k s = k a s.
Proof. by intros ->. Qed.

Lemma bind_inv {S A B} (m : M S A) (k : A -> M S B) s r :
  bind m k s = Ret r -> exists a s', m s = Ret (a, s') /\ k a s' = Ret r.
Proof. unfold bind. destruct (m s) as [[a s']|]; [eauto|done]. Qed.

Lemma bind_assoc {S A B C} (m : M S A) (f : A -> M S B) (g : B -> M S C) s :
  bind (bind m f) g s = bind m (fun a => bind (f a) g) s.
Proof. unfold bind. by destruct (m s) as [[? ?]|]. Qed.

(** Keep the tests and the arithmetic of the code folded under [simpl]. *)
#[global] Arguments Z.eqb : simpl never.
#[global] Arguments Z.ltb : simpl never.
#[global] Arguments Z.leb : simpl never.
#[global] Arguments Z.gtb : simpl never.
#[global] Arguments Z.add : simpl never.
#[global] Arguments Z.sub : simpl never.
#[global] Arguments Z.mul : simpl never.
#[global] Arguments Z.pow : simpl never.
#[global] Arguments Z.land : simpl never.
#[global] Arguments Z.lor : simpl never.
#[global] Arguments Z.modulo : simpl never.
#[global] Arguments Z.div : simpl never.

(** Case analysis on a Boolean test of the code, leaving the propositions
    [lia] understands. *)
Ltac btest :=
  repeat match goal with
  | H : (_ && _) = true |- _ => apply andb_prop in H as [? ?]
  | H : (_ || _) = false |- _ => apply orb_false_elim in H as [? ?]
  | H : negb _ = true |- _ => apply negb_true_iff in H
  | H : negb _ = false |- _ => apply negb_false_iff in H
  | H : (_ <? _)%Z = true |- _ => apply Z.ltb_lt in H
  | H : (_ <? _)%Z = false |- _ => apply Z.ltb_ge in H
  | H : (_ <=? _)%Z = true |- _ => apply Z.leb_le in H
  | H : (_ <=? _)%Z = false |- _ => apply Z.leb_gt in H
  | H : (_ =? _)%Z = true |- _ => apply Z.eqb_eq in H
  | H : (_ =? _)%Z = false |- _ => apply Z.eqb_neq in H
  end.

Ltac case_if :=
  match goal with
  | |- context [if ?b then _ else _] => destruct b eqn:?; btest
  end.

(** ** Arrays indexed by C integers *)

Definition nthZ {A} (l : list A) (i : Z) : option A :=
  if 0 <=? i then l !! Z.to_nat i else None.

Definition updZ {A} (i : Z) (x : A) (l : list A) : list A :=
  if 0 <=? i then <[Z.to_nat i := x]> l else l.

Definition lenZ {A} (l : list A) : Z := Z.of_nat (length l).

Lemma nthZ_Some_lt {A} (l : list A) i x : nthZ l i = Some x -> 0 <= i < lenZ l.
Proof.
  unfold nthZ, lenZ. case_if; [|done]. intros H.
  apply lookup_lt_Some in H. lia.
Qed.

Lemma nthZ_lt_Some {A} (l : list A) i : 0 <= i < lenZ l -> exists x, nthZ l i = Some x.
Proof.
  unfold nthZ, lenZ. intros H. rewrite (proj2 (Z.leb_le 0 i)) by lia.
  destruct (lookup_lt_is_Some_2 l (Z.to_nat i)) as [x Hx]; [lia|]. eauto.
Qed.

Lemma nthZ_None {A} (l : list A) i : i < 0 \/ lenZ l <= i -> nthZ l i = None.
Proof.
  unfold nthZ, lenZ. intros H. case_if; [|done].
  apply lookup_ge_None. lia.
Qed.

Lemma nthZ_cons_pos {A} (x : A) l j : 0 < j -> nthZ (x :: l) j = nthZ l (j - 1).
Proof.
  intros H. unfold nthZ. rewrite (proj2 (Z.leb_le 0 j)), (proj2 (Z.leb_le 0 (j - 1))) by lia.
  by replace (Z.to_nat j) with (S (Z.to_nat (j - 1))) by lia.
Qed.

Lemma lenZ_updZ {A} i (x : A) l : lenZ (updZ i x l) = lenZ l.
Proof. unfold lenZ, updZ. case_if; [by rewrite length_insert|done]. Qed.

Lemma nthZ_updZ_eq {A} i (x : A) l : 0 <= i < lenZ l -> nthZ (updZ i x l) i = Some x.
Proof.
  unfold nthZ, updZ, lenZ. intros H. rewrite (proj2 (Z.leb_le 0 i)) by lia.
  apply list_lookup_insert_eq. lia.
Qed.

Lemma nthZ_updZ_ne {A} i j (x : A) l : i <> j -> nthZ (updZ i x l) j = nthZ l j.
Proof.
  unfold nthZ, updZ. intros H. repeat case_if; try done.
  apply list_lookup_insert_ne. lia.
Qed.

Lemma nthZ_updZ {A} i j (x : A) l :
  0 <= i < lenZ l -> nthZ (updZ i x l) j = if decide (i = j) then Some x else nthZ l j.
Proof.
  intros H. case_decide as E; [subst; by apply nthZ_updZ_eq|by apply nthZ_updZ_ne].
Qed.

Lemma updZ_id {A} i (x : A) l : nthZ l i = Some x -> updZ i x l = l.
Proof. unfold nthZ, updZ. case_if; [apply list_insert_id|done]. Qed.

Lemma updZ_updZ {A} i (x y : A) l : updZ i x (updZ i y l) = updZ i x l.
Proof. unfold updZ. case_if; [apply list_insert_insert_eq|done]. Qed.

Lemma nthZ_ext {A} (l1 l2 : list A) : (forall i, nthZ l1 i = nthZ l2 i) -> l1 = l2.
Proof.
  intros H. apply list_eq. intros i. specialize (H (Z.of_nat i)).
  unfold nthZ in H. rewrite (proj2 (Z.leb_le 0 (Z.of_nat i))) in H by lia.
  by rewrite Nat2Z.id in H.
Qed.

Lemma lenZ_fmap_ext {A B} (l : list A) (l' : list B) (f : Z -> A -> B) :
  (forall i, nthZ l' i = f i <$> nthZ l i) -> lenZ l' = lenZ l.
Proof.
  intros H. destruct (Z.lt_trichotomy (lenZ l) (lenZ l')) as [Hlt|[?|Hgt]]; [|done|].
  - destruct (nthZ_lt_Some l' (lenZ l)) as [y Hy]; [unfold lenZ in *; lia|].
    rewrite H, nthZ_None in Hy by lia. done.
  - destruct (nthZ_lt_Some l (lenZ l')) as [x Hx]; [unfold lenZ in *; lia|].
    specialize (H (lenZ l')). rewrite Hx, nthZ_None in H by lia. done.
Qed.

(** ** Machine integers *)

(** [wrap w x]: the value of [x] converted to a [w]-bit unsigned type. *)
Definition wrap (w x : Z) : Z := x mod 2 ^ w.

(** [swrap w x]: the value of [x] converted to a [w]-bit signed type
    (two's complement; the kernel is compiled with -fwrapv). *)
Definition swrap (w x : Z) : Z :=
  let u := wrap w x in if u <? 2 ^ (w - 1) then u else u - 2 ^ w.

Abbreviation u8 := (wrap 8).
Abbreviation u32 := (wrap 32).
Abbreviation s32 := (swrap 32).
Abbreviation u64 := (wrap 64).

Lemma wrap_range w x : 0 <= w -> 0 <= wrap w x < 2 ^ w.
Proof. intros. apply Z.mod_pos_bound. by apply Z.pow_pos_nonneg. Qed.

Lemma wrap_small w x : 0 <= x < 2 ^ w -> wrap w x = x.
Proof. apply Z.mod_small. Qed.

Lemma wrap_wrap w x : wrap w (wrap w x) = wrap w x.
Proof. unfold wrap. apply Z.mod_mod_divide. done. Qed.

Lemma swrap_small w x : 1 <= w -> - 2 ^ (w - 1) <= x < 2 ^ (w - 1) -> swrap w x = x.
Proof.
  intros Hw Hx. unfold swrap, wrap.
  assert (2 ^ w = 2 * 2 ^ (w - 1)) as Hp.
  { rewrite <- Z.pow_succ_r by lia. f_equal. lia. }
  destruct (Z.leb_spec 0 x).
  - rewrite Z.mod_small by lia. case_if; lia.
  - replace (x mod 2 ^ w) with (x + 2 ^ w); [case_if; lia|].
    apply Z.mod_unique with (-1); lia.
Qed.

Lemma wrap_swrap w x : 0 <= w -> wrap w (swrap w x) = wrap w x.
Proof.
  intros Hw. unfold swrap. case_if; [apply wrap_wrap|]. unfold wrap.
  replace (x mod 2 ^ w - 2 ^ w) with (x mod 2 ^ w + (-1) * 2 ^ w) by lia.
  rewrite Z.mod_add, Z.mod_mod; [done|..]; apply Z.pow_nonzero; lia.
Qed.

Lemma wrap_narrow a b x : 0 <= a <= b -> wrap a (wrap b x) = wrap a x.
Proof.
  intros H. unfold wrap. apply Z.mod_mod_divide. exists (2 ^ (b - a)).
  rewrite <- Z.pow_add_r by lia. f_equal. lia.
Qed.

Lemma swrap_add_l w x y : 0 <= w -> swrap w (swrap w x + y) = swrap w (x + y).
Proof.
  intros Hw. unfold swrap at 1 3. replace (wrap w (swrap w x + y)) with (wrap w (x + y)); [done|].
  pose proof (wrap_swrap w x Hw) as E. unfold wrap in *. assert (2 ^ w <> 0) by (apply Z.pow_nonzero; lia).
  by rewrite <- (Z.add_mod_idemp_l (swrap w x)), E, Z.add_mod_idemp_l.
Qed.

(** ** Bits *)

(** Clearing the low [k] bits rounds down to a multiple of [2^k]. *)
Lemma land_lnot_ones x k : 0 <= k -> Z.land x (Z.lnot (Z.ones k)) = x - x mod 2 ^ k.
Proof.
  intros Hk. rewrite <- Z.ldiff_land, <- Z.land_ones by done.
  rewrite Z.sub_nocarry_ldiff.
  - apply Z.bits_inj'. intros n Hn. rewrite !Z.ldiff_spec, Z.land_spec.
    by destruct (Z.testbit x n), (Z.testbit (Z.ones k) n).
  - apply Z.bits_inj'. intros n Hn.
    rewrite Z.ldiff_spec, Z.land_spec, Z.testbit_0_l.
    by destruct (Z.testbit x n), (Z.testbit (Z.ones k) n).
Qed.

(** A number is below [2^n] exactly when its bits from [n] on are clear. *)
Lemma bits_bound x n : 0 <= n -> (0 <= x < 2 ^ n <-> 0 <= x /\ forall j, n <= j -> Z.testbit x j = false).
Proof.
  intros Hn. split.
  - intros Hx. split; [lia|]. intros j Hj. rewrite <- (Z.mod_small x (2 ^ n)) by lia.
    by apply Z.mod_pow2_bits_high.
  - intros [Hx Hb]. assert (x = x mod 2 ^ n) as ->; [|by apply Z.mod_pos_bound, Z.pow_pos_nonneg].
    apply Z.bits_inj'. intros j Hj. destruct (Z.ltb_spec j n).
    + by rewrite Z.mod_pow2_bits_low.
    + by rewrite Z.mod_pow2_bits_high, Hb by lia.
Qed.

Lemma shiftl_lor_disjoint a b k :
  0 <= k -> 0 <= b < 2 ^ k -> Z.lor (Z.shiftl a k) b = a * 2 ^ k + b.
Proof.
  intros Hk Hb. rewrite <- Z.shiftl_mul_pow2 by done.
  rewrite Z.add_nocarry_lxor; [rewrite Z.lxor_lor; [done|]|];
    apply Z.bits_inj'; intros n Hn; rewrite Z.land_spec, Z.testbit_0_l,
      Z.shiftl_spec by done;
    (destruct (Z.ltb_spec n k);
     [rewrite (Z.testbit_neg_r a (n - k)) by lia; done
     |rewrite <- (Z.mod_small b (2 ^ k)), Z.mod_pow2_bits_high by lia;
      apply andb_false_r]).
Qed.

(** ** Lists *)

Lemma NoDup_range_length (l : list Z) (n : Z) :
  NoDup l -> (forall x, x ∈ l -> 0 <= x < n) -> lenZ l <= Z.max 0 n.
Proof.
  intros Hnd Hr. assert (l ⊆+ seqZ 0 n) as Hs.
  { apply NoDup_submseteq; [done|]. intros x Hx. apply elem_of_seqZ. specialize (Hr x Hx). lia. }
  apply submseteq_length in Hs. rewrite length_seqZ in Hs. unfold lenZ. lia.
Qed.

Lemma foldl_reverse {A B} (f : B -> A -> B) a l :
  foldl f a (reverse l) = foldr (fun x y => f y x) a l.
Proof. induction l as [|x l IH]; [done|]. by rewrite reverse_cons, foldl_app, IH. Qed.

Lemma lenZ_app {A} (l1 l2 : list A) : lenZ (l1 ++ l2) = lenZ l1 + lenZ l2.
Proof. unfold lenZ. rewrite length_app. lia. Qed.

Lemma lenZ_cons {A} (x : A) l : lenZ (x :: l) = lenZ l + 1.
Proof. unfold lenZ. simpl length. lia. Qed.

Lemma lenZ_replicate {A} n (x : A) : lenZ (replicate n x) = Z.of_nat n.
Proof. unfold lenZ. by rewrite length_replicate. Qed.

Lemma lenZ_take {A} n (l : list A) : lenZ (take n l) = Z.min (Z.of_nat n) (lenZ l).
Proof. unfold lenZ. rewrite length_take. lia. Qed.

Lemma nthZ_app_mid {A} (l1 : list A) x l2 : nthZ (l1 ++ x :: l2) (lenZ l1) = Some x.
Proof. unfold nthZ, lenZ. rewrite (proj2 (Z.leb_le 0 _)), Nat2Z.id by lia. by apply list_lookup_middle. Qed.

Lemma updZ_app_mid {A} (l1 : list A) x y l2 : updZ (lenZ l1) y (l1 ++ x :: l2) = l1 ++ y :: l2.
Proof.
  unfold updZ, lenZ. rewrite (proj2 (Z.leb_le 0 _)), Nat2Z.id by lia.
  by rewrite insert_app_r_alt, Nat.sub_diag by done.
Qed.
