(* ===== verification/Kernel.v ===== *)
(** * The kernel's global state

    The tables and variables that system/initialize.c, queue.c, spinlock.c,
    create.c and clkinit.c declare, as one record, with the structure types
    of include/proc.h, queue.h, spinlock.h and memory.h.  An operation of the
    kernel is a state-passing computation [K A] over this record.  The
    platform is the one compile/Makefile builds, arm-rpi3: [int], [unsigned
    long] and pointers are 32 bits wide, [char] is unsigned. *)

From stdpp Require Import base numbers list gmap.
From S2P Require Import Prelude.

(** ** Constants *)

(** include/stddef.h *)
Definition OK : Z := 1.
Definition NULL : Z := 0.
Definition SYSERR : Z := -1.
Definition TRUE : Z := 1.
Definition FALSE : Z := 0.

(** include/proc.h *)
Definition NPROC : Z := 50.
Definition PRFREE : Z := 0.
Definition PRCURR : Z := 1.
Definition PRSUSP : Z := 2.
Definition PRREADY : Z := 3.
Definition PRRECV : Z := 4.
Definition PRSEND : Z := 5.
Definition PNMLEN : Z := 16.
Definition RESCHED_YES : Z := 1.
Definition RESCHED_NO : Z := 0.
Definition NULLPROC : Z := 0.
Definition NULLPROC1 : Z := 1.
Definition NULLPROC2 : Z := 2.
Definition NULLPROC3 : Z := 3.
Definition MINSTK : Z := 4096.
Definition INITSTK : Z := 65536.
Definition PRIORITY_LOW : Z := 0.
Definition PRIORITY_MED : Z := 1.
Definition PRIORITY_HIGH : Z := 2.
Definition STACKMAGIC : Z := 0x0A0AAA99.

(** include/queue.h *)
Definition NQENT : Z := NPROC + 24 + NPROC + NPROC.
Definition EMPTY : Z := -2.

(** include/spinlock.h *)
Definition SPINLOCK_FREE : Z := 1.
Definition SPINLOCK_USED : Z := 2.
Definition SPINLOCK_LOCKED : Z := 1.
Definition SPINLOCK_UNLOCKED : Z := 0.
Definition NLOCK : Z := 150.

(** include/conf.h, include/clock.h, include/arm.h *)
Definition NCORES : Z := 4.
Definition QUANTUM : Z := 3.
Definition CLKTICKS_PER_SEC : Z := 1000.
Definition PREG_SP : Z := 13.
Definition PREG_LR : Z := 14.
Definition PREG_PC : Z := 15.
Definition PREGS : Z := 16.
Definition ARM_I_BIT : Z := 0x80.

(** [lia] after unfolding the constants of the headers. *)
Ltac kconst :=
  unfold NQENT, NPROC, NLOCK, NCORES, EMPTY, SYSERR, OK, NULL, PRFREE, PRCURR,
    PRSUSP, PRREADY, PRRECV, PRSEND, PNMLEN, NULLPROC, NULLPROC1, NULLPROC2,
    NULLPROC3, PRIORITY_LOW, PRIORITY_MED, PRIORITY_HIGH, SPINLOCK_FREE,
    SPINLOCK_USED, SPINLOCK_LOCKED, SPINLOCK_UNLOCKED, QUANTUM, TRUE, FALSE,
    RESCHED_YES, RESCHED_NO, CLKTICKS_PER_SEC, MINSTK, INITSTK in *.
Ltac klia := kconst; lia.

(** ** Structures *)

(** struct qentry (include/queue.h) *)
Record qentry := mkQentry {
  q_next : Z;
  q_prev : Z;
  q_lock : Z
}.

(** struct lockent (include/spinlock.h) *)
Record lockent := mkLockent {
  l_state : Z;
  l_lock : Z;
  l_core : Z
}.

(** struct pcb_msg (include/proc.h) *)
Record pmessage := mkPmessage {
  hasMessage : Z;
  msgin : Z;
  msgout : Z;
  msgqueue : Z;
  core_com_lock : Z
}.

(** struct pentry (include/proc.h) *)
Record pcb := mkPcb {
  p_state : Z;
  p_priority : Z;
  p_stkbase : Z;
  p_stklen : Z;
  p_core_affinity : Z;
  p_name : list Z;
  p_regs : list Z;
  p_msg : pmessage
}.

(** struct memhead (include/memory.h) *)
Record memhead := mkMemhead {
  mh_head : Z;
  mh_length : Z;
  mh_base : Z;
  mh_bound : Z;
  mh_memlock : Z
}.

#[export] Instance qentry_eq_dec : EqDecision qentry.
Proof. solve_decision. Defined.
#[export] Instance lockent_eq_dec : EqDecision lockent.
Proof. solve_decision. Defined.
#[export] Instance pmessage_eq_dec : EqDecision pmessage.
Proof. solve_decision. Defined.
#[export] Instance pcb_eq_dec : EqDecision pcb.
Proof. solve_decision. Defined.
#[export] Instance memhead_eq_dec : EqDecision memhead.
Proof. solve_decision. Defined.

Definition set_q_next v (e : qentry) := mkQentry v (q_prev e) (q_lock e).
Definition set_q_prev v (e : qentry) := mkQentry (q_next e) v (q_lock e).
Definition set_q_lock v (e : qentry) := mkQentry (q_next e) (q_prev e) v.

Definition set_l_state v (e : lockent) := mkLockent v (l_lock e) (l_core e).
Definition set_l_lock v (e : lockent) := mkLockent (l_state e) v (l_core e).
Definition set_l_core v (e : lockent) := mkLockent (l_state e) (l_lock e) v.

Definition set_hasMessage v (m : pmessage) :=
  mkPmessage v (msgin m) (msgout m) (msgqueue m) (core_com_lock m).
Definition set_msgin v (m : pmessage) :=
  mkPmessage (hasMessage m) v (msgout m) (msgqueue m) (core_com_lock m).
Definition set_msgout v (m : pmessage) :=
  mkPmessage (hasMessage m) (msgin m) v (msgqueue m) (core_com_lock m).
Definition set_msgqueue v (m : pmessage) :=
  mkPmessage (hasMessage m) (msgin m) (msgout m) v (core_com_lock m).
Definition set_core_com_lock v (m : pmessage) :=
  mkPmessage (hasMessage m) (msgin m) (msgout m) (msgqueue m) v.

Definition set_p_state v (p : pcb) :=
  mkPcb v (p_priority p) (p_stkbase p) (p_stklen p) (p_core_affinity p) (p_name p)
    (p_regs p) (p_msg p).
Definition set_p_priority v (p : pcb) :=
  mkPcb (p_state p) v (p_stkbase p) (p_stklen p) (p_core_affinity p) (p_name p)
    (p_regs p) (p_msg p).
Definition set_p_stkbase v (p : pcb) :=
  mkPcb (p_state p) (p_priority p) v (p_stklen p) (p_core_affinity p) (p_name p)
    (p_regs p) (p_msg p).
Definition set_p_stklen v (p : pcb) :=
  mkPcb (p_state p) (p_priority p) (p_stkbase p) v (p_core_affinity p) (p_name p)
    (p_regs p) (p_msg p).
Definition set_p_core_affinity v (p : pcb) :=
  mkPcb (p_state p) (p_priority p) (p_stkbase p) (p_stklen p) v (p_name p)
    (p_regs p) (p_msg p).
Definition set_p_name v (p : pcb) :=
  mkPcb (p_state p) (p_priority p) (p_stkbase p) (p_stklen p) (p_core_affinity p) v
    (p_regs p) (p_msg p).
Definition set_p_regs v (p : pcb) :=
  mkPcb (p_state p) (p_priority p) (p_stkbase p) (p_stklen p) (p_core_affinity p)
    (p_name p) v (p_msg p).
Definition upd_p_msg f (p : pcb) :=
  mkPcb (p_state p) (p_priority p) (p_stkbase p) (p_stklen p) (p_core_affinity p)
    (p_name p) (p_regs p) (f (p_msg p)).

Definition set_mh_head v (h : memhead) :=
  mkMemhead v (mh_length h) (mh_base h) (mh_bound h) (mh_memlock h).
Definition set_mh_length v (h : memhead) :=
  mkMemhead (mh_head h) v (mh_base h) (mh_bound h) (mh_memlock h).

(** ** The global variables *)

(** An access to a peripheral register.  Reads are noted where they take
    something out of the device. *)
Inductive access := Wr (addr v : Z) | Rd (addr v : Z).

(** The platform record, the tables of dispatch.c and kprintf.c, and what the
    peripherals hold: the pending bits of the interrupt controller, the
    interrupt sources of the cores, the counter and the compare register of
    the system timer, the count and the compare value of each core's own timer,
    the characters the UART has received, and the accesses to peripheral
    registers, latest first. *)
Record devices := mkDevices {
  serial_lock : Z;                (* initialize.c: spinlock_t serial_lock    *)
  family : list Z;                (* platform.family                         *)
  plt_name : list Z;              (* platform.name                           *)
  clkfreq : Z;                    (* platform.clkfreq                        *)
  interruptVector : list Z;       (* dispatch.c, handlers by address         *)
  arm_enabled_irqs : list Z;      (* dispatch.c: static uint [3]             *)
  irq_pending : list Z;           (* IRQ_pending_1, _2, IRQ_basic_pending    *)
  core_source : list Z;           (* 0x40000060 + 4 * cpuid                  *)
  timer_clo : Z;                  (* CLO of the system timer                 *)
  timer_c3 : Z;                   (* C3 of the system timer                  *)
  core_cnt : list Z;              (* CNTPCT, the 64-bit count of each core   *)
  core_cval : list Z;             (* CNTP_CVAL, the compare value            *)
  ungetArray : list Z;            (* kprintf.c                               *)
  bufp : Z;                       (* kprintf.c                               *)
  uart_lcrh : Z;                  (* line control register of the UART       *)
  uart_rx : list Z;               (* received, not yet read                  *)
  corestart : list Z;             (* unparkcore.c: void *corestart[4]        *)
  init_args : list Z;             (* unparkcore.c: void *init_args[4]        *)
  mmio : list access              (* register accesses, latest first         *)
}.

(** Memory is a map from word addresses to 32-bit words; the RAM the map
    does not mention reads as zero. *)
Record kernel := mkKernel {
  proctab : list pcb;             (* initialize.c: pcb proctab[NPROC]        *)
  queuetab : list qentry;         (* queue.c: struct qentry queuetab[NQENT]  *)
  nextqueue : Z;                  (* queue.c: static int nextqueue           *)
  locktab : list lockent;         (* spinlock.c: struct lockent locktab[]    *)
  nextlock : Z;                   (* lock_alloc: static spinlock_t nextlock  *)
  readylist : list (list Z);      (* initialize.c: qid_typ readylist[][3]    *)
  freelist : list memhead;        (* initialize.c: memhead freelist[NCORES]  *)
  numproc : Z;                    (* initialize.c: int numproc               *)
  currpid : list Z;               (* initialize.c: int currpid[NCORES]       *)
  nextpid : Z;                    (* newpid: static pid_typ nextpid          *)
  memheap : Z;                    (* initialize.c: void *memheap             *)
  maxaddr : Z;                    (* platform.maxaddr                        *)
  memory : gmap Z Z;              (* RAM                                     *)
  cpsr : list Z;                  (* program status word of each core        *)
  regfile : list (list Z);        (* general registers of each core          *)
  preempt : list Z;               (* clkinit.c: volatile ulong preempt[]     *)
  promote_medium : list Z;        (* clkinit.c                               *)
  promote_low : list Z;           (* clkinit.c                               *)
  clkticks : list Z;              (* clkinit.c                               *)
  clktime : list Z;               (* clkinit.c                               *)
  devs : devices                  (* the platform and its devices            *)
}.

Definition K (A : Type) : Type := M kernel A.

Definition set_proctab v (k : kernel) : kernel :=
  mkKernel v (queuetab k) (nextqueue k) (locktab k) (nextlock k) (readylist
    k) (freelist k) (numproc k) (currpid k) (nextpid k) (memheap k) (maxaddr
    k) (memory k) (cpsr k) (regfile k) (preempt k) (promote_medium k)
    (promote_low k) (clkticks k) (clktime k) (devs k).
Definition set_queuetab v (k : kernel) : kernel :=
  mkKernel (proctab k) v (nextqueue k) (locktab k) (nextlock k) (readylist
    k) (freelist k) (numproc k) (currpid k) (nextpid k) (memheap k) (maxaddr
    k) (memory k) (cpsr k) (regfile k) (preempt k) (promote_medium k)
    (promote_low k) (clkticks k) (clktime k) (devs k).
Definition set_nextqueue v (k : kernel) : kernel :=
  mkKernel (proctab k) (queuetab k) v (locktab k) (nextlock k) (readylist k)
    (freelist k) (numproc k) (currpid k) (nextpid k) (memheap k) (maxaddr k)
    (memory k) (cpsr k) (regfile k) (preempt k) (promote_medium k)
    (promote_low k) (clkticks k) (clktime k) (devs k).
Definition set_locktab v (k : kernel) : kernel :=
  mkKernel (proctab k) (queuetab k) (nextqueue k) v (nextlock k) (readylist
    k) (freelist k) (numproc k) (currpid k) (nextpid k) (memheap k) (maxaddr
    k) (memory k) (cpsr k) (regfile k) (preempt k) (promote_medium k)
    (promote_low k) (clkticks k) (clktime k) (devs k).
Definition set_nextlock v (k : kernel) : kernel :=
  mkKernel (proctab k) (queuetab k) (nextqueue k) (locktab k) v (readylist
    k) (freelist k) (numproc k) (currpid k) (nextpid k) (memheap k) (maxaddr
    k) (memory k) (cpsr k) (regfile k) (preempt k) (promote_medium k)
    (promote_low k) (clkticks k) (clktime k) (devs k).
Definition set_readylist v (k : kernel) : kernel :=
  mkKernel (proctab k) (queuetab k) (nextqueue k) (locktab k) (nextlock k) v
    (freelist k) (numproc k) (currpid k) (nextpid k) (memheap k) (maxaddr k)
    (memory k) (cpsr k) (regfile k) (preempt k) (promote_medium k)
    (promote_low k) (clkticks k) (clktime k) (devs k).
Definition set_freelist v (k : kernel) : kernel :=
  mkKernel (proctab k) (queuetab k) (nextqueue k) (locktab k) (nextlock k)
    (readylist k) v (numproc k) (currpid k) (nextpid k) (memheap k) (maxaddr
    k) (memory k) (cpsr k) (regfile k) (preempt k) (promote_medium k)
    (promote_low k) (clkticks k) (clktime k) (devs k).
Definition set_numproc v (k : kernel) : kernel :=
  mkKernel (proctab k) (queuetab k) (nextqueue k) (locktab k) (nextlock k)
    (readylist k) (freelist k) v (currpid k) (nextpid k) (memheap k)
    (maxaddr k) (memory k) (cpsr k) (regfile k) (preempt k) (promote_medium
    k) (promote_low k) (clkticks k) (clktime k) (devs k).
Definition set_currpid v (k : kernel) : kernel :=
  mkKernel (proctab k) (queuetab k) (nextqueue k) (locktab k) (nextlock k)
    (readylist k) (freelist k) (numproc k) v (nextpid k) (memheap k)
    (maxaddr k) (memory k) (cpsr k) (regfile k) (preempt k) (promote_medium
    k) (promote_low k) (clkticks k) (clktime k) (devs k).
Definition set_nextpid v (k : kernel) : kernel :=
  mkKernel (proctab k) (queuetab k) (nextqueue k) (locktab k) (nextlock k)
    (readylist k) (freelist k) (numproc k) (currpid k) v (memheap k)
    (maxaddr k) (memory k) (cpsr k) (regfile k) (preempt k) (promote_medium
    k) (promote_low k) (clkticks k) (clktime k) (devs k).
Definition set_memheap v (k : kernel) : kernel :=
  mkKernel (proctab k) (queuetab k) (nextqueue k) (locktab k) (nextlock k)
    (readylist k) (freelist k) (numproc k) (currpid k) (nextpid k) v
    (maxaddr k) (memory k) (cpsr k) (regfile k) (preempt k) (promote_medium
    k) (promote_low k) (clkticks k) (clktime k) (devs k).
Definition set_maxaddr v (k : kernel) : kernel :=
  mkKernel (proctab k) (queuetab k) (nextqueue k) (locktab k) (nextlock k)
    (readylist k) (freelist k) (numproc k) (currpid k) (nextpid k) (memheap
    k) v (memory k) (cpsr k) (regfile k) (preempt k) (promote_medium k)
    (promote_low k) (clkticks k) (clktime k) (devs k).
Definition set_memory v (k : kernel) : kernel :=
  mkKernel (proctab k) (queuetab k) (nextqueue k) (locktab k) (nextlock k)
    (readylist k) (freelist k) (numproc k) (currpid k) (nextpid k) (memheap
    k) (maxaddr k) v (cpsr k) (regfile k) (preempt k) (promote_medium k)
    (promote_low k) (clkticks k) (clktime k) (devs k).
Definition set_cpsr v (k : kernel) : kernel :=
  mkKernel (proctab k) (queuetab k) (nextqueue k) (locktab k) (nextlock k)
    (readylist k) (freelist k) (numproc k) (currpid k) (nextpid k) (memheap
    k) (maxaddr k) (memory k) v (regfile k) (preempt k) (promote_medium k)
    (promote_low k) (clkticks k) (clktime k) (devs k).
Definition set_regfile v (k : kernel) : kernel :=
  mkKernel (proctab k) (queuetab k) (nextqueue k) (locktab k) (nextlock k)
    (readylist k) (freelist k) (numproc k) (currpid k) (nextpid k) (memheap
    k) (maxaddr k) (memory k) (cpsr k) v (preempt k) (promote_medium k)
    (promote_low k) (clkticks k) (clktime k) (devs k).
Definition set_preempt v (k : kernel) : kernel :=
  mkKernel (proctab k) (queuetab k) (nextqueue k) (locktab k) (nextlock k)
    (readylist k) (freelist k) (numproc k) (currpid k) (nextpid k) (memheap
    k) (maxaddr k) (memory k) (cpsr k) (regfile k) v (promote_medium k)
    (promote_low k) (clkticks k) (clktime k) (devs k).
Definition set_promote_medium v (k : kernel) : kernel :=
  mkKernel (proctab k) (queuetab k) (nextqueue k) (locktab k) (nextlock k)
    (readylist k) (freelist k) (numproc k) (currpid k) (nextpid k) (memheap
    k) (maxaddr k) (memory k) (cpsr k) (regfile k) (preempt k) v
    (promote_low k) (clkticks k) (clktime k) (devs k).
Definition set_promote_low v (k : kernel) : kernel :=
  mkKernel (proctab k) (queuetab k) (nextqueue k) (locktab k) (nextlock k)
    (readylist k) (freelist k) (numproc k) (currpid k) (nextpid k) (memheap
    k) (maxaddr k) (memory k) (cpsr k) (regfile k) (preempt k)
    (promote_medium k) v (clkticks k) (clktime k) (devs k).
Definition set_clkticks v (k : kernel) : kernel :=
  mkKernel (proctab k) (queuetab k) (nextqueue k) (locktab k) (nextlock k)
    (readylist k) (freelist k) (numproc k) (currpid k) (nextpid k) (memheap
    k) (maxaddr k) (memory k) (cpsr k) (regfile k) (preempt k)
    (promote_medium k) (promote_low k) v (clktime k) (devs k).
Definition set_clktime v (k : kernel) : kernel :=
  mkKernel (proctab k) (queuetab k) (nextqueue k) (locktab k) (nextlock k)
    (readylist k) (freelist k) (numproc k) (currpid k) (nextpid k) (memheap
    k) (maxaddr k) (memory k) (cpsr k) (regfile k) (preempt k)
    (promote_medium k) (promote_low k) (clkticks k) v (devs k).
Definition set_devs v (k : kernel) : kernel :=
  mkKernel (proctab k) (queuetab k) (nextqueue k) (locktab k) (nextlock k)
    (readylist k) (freelist k) (numproc k) (currpid k) (nextpid k) (memheap
    k) (maxaddr k) (memory k) (cpsr k) (regfile k) (preempt k)
    (promote_medium k) (promote_low k) (clkticks k) (clktime k) v.

Definition set_serial_lock v (d : devices) : devices :=
  mkDevices v (family d) (plt_name d) (clkfreq d) (interruptVector d)
    (arm_enabled_irqs d) (irq_pending d) (core_source d) (timer_clo d)
    (timer_c3 d) (core_cnt d) (core_cval d) (ungetArray d) (bufp d) (uart_lcrh
    d) (uart_rx d) (corestart d) (init_args d) (mmio d).
Definition set_family v (d : devices) : devices :=
  mkDevices (serial_lock d) v (plt_name d) (clkfreq d) (interruptVector d)
    (arm_enabled_irqs d) (irq_pending d) (core_source d) (timer_clo d)
    (timer_c3 d) (core_cnt d) (core_cval d) (ungetArray d) (bufp d) (uart_lcrh
    d) (uart_rx d) (corestart d) (init_args d) (mmio d).
Definition set_plt_name v (d : devices) : devices :=
  mkDevices (serial_lock d) (family d) v (clkfreq d) (interruptVector d)
    (arm_enabled_irqs d) (irq_pending d) (core_source d) (timer_clo d)
    (timer_c3 d) (core_cnt d) (core_cval d) (ungetArray d) (bufp d) (uart_lcrh
    d) (uart_rx d) (corestart d) (init_args d) (mmio d).
Definition set_clkfreq v (d : devices) : devices :=
  mkDevices (serial_lock d) (family d) (plt_name d) v (interruptVector d)
    (arm_enabled_irqs d) (irq_pending d) (core_source d) (timer_clo d)
    (timer_c3 d) (core_cnt d) (core_cval d) (ungetArray d) (bufp d) (uart_lcrh
    d) (uart_rx d) (corestart d) (init_args d) (mmio d).
Definition set_interruptVector v (d : devices) : devices :=
  mkDevices (serial_lock d) (family d) (plt_name d) (clkfreq d) v
    (arm_enabled_irqs d) (irq_pending d) (core_source d) (timer_clo d)
    (timer_c3 d) (core_cnt d) (core_cval d) (ungetArray d) (bufp d) (uart_lcrh
    d) (uart_rx d) (corestart d) (init_args d) (mmio d).
Definition set_arm_enabled_irqs v (d : devices) : devices :=
  mkDevices (serial_lock d) (family d) (plt_name d) (clkfreq d)
    (interruptVector d) v (irq_pending d) (core_source d) (timer_clo d)
    (timer_c3 d) (core_cnt d) (core_cval d) (ungetArray d) (bufp d) (uart_lcrh
    d) (uart_rx d) (corestart d) (init_args d) (mmio d).
Definition set_irq_pending v (d : devices) : devices :=
  mkDevices (serial_lock d) (family d) (plt_name d) (clkfreq d)
    (interruptVector d) (arm_enabled_irqs d) v (core_source d) (timer_clo d)
    (timer_c3 d) (core_cnt d) (core_cval d) (ungetArray d) (bufp d) (uart_lcrh
    d) (uart_rx d) (corestart d) (init_args d) (mmio d).
Definition set_core_source v (d : devices) : devices :=
  mkDevices (serial_lock d) (family d) (plt_name d) (clkfreq d)
    (interruptVector d) (arm_enabled_irqs d) (irq_pending d) v (timer_clo d)
    (timer_c3 d) (core_cnt d) (core_cval d) (ungetArray d) (bufp d) (uart_lcrh
    d) (uart_rx d) (corestart d) (init_args d) (mmio d).
Definition set_timer_clo v (d : devices) : devices :=
  mkDevices (serial_lock d) (family d) (plt_name d) (clkfreq d)
    (interruptVector d) (arm_enabled_irqs d) (irq_pending d) (core_source d) v
    (timer_c3 d) (core_cnt d) (core_cval d) (ungetArray d) (bufp d) (uart_lcrh
    d) (uart_rx d) (corestart d) (init_args d) (mmio d).
Definition set_timer_c3 v (d : devices) : devices :=
  mkDevices (serial_lock d) (family d) (plt_name d) (clkfreq d)
    (interruptVector d) (arm_enabled_irqs d) (irq_pending d) (core_source d)
    (timer_clo d) v (core_cnt d) (core_cval d) (ungetArray d) (bufp d)
    (uart_lcrh d) (uart_rx d) (corestart d) (init_args d) (mmio d).
Definition set_core_cnt v (d : devices) : devices :=
  mkDevices (serial_lock d) (family d) (plt_name d) (clkfreq d)
    (interruptVector d) (arm_enabled_irqs d) (irq_pending d) (core_source d)
    (timer_clo d) (timer_c3 d) v (core_cval d) (ungetArray d) (bufp d)
    (uart_lcrh d) (uart_rx d) (corestart d) (init_args d) (mmio d).
Definition set_core_cval v (d : devices) : devices :=
  mkDevices (serial_lock d) (family d) (plt_name d) (clkfreq d)
    (interruptVector d) (arm_enabled_irqs d) (irq_pending d) (core_source d)
    (timer_clo d) (timer_c3 d) (core_cnt d) v (ungetArray d) (bufp d)
    (uart_lcrh d) (uart_rx d) (corestart d) (init_args d) (mmio d).
Definition set_ungetArray v (d : devices) : devices :=
  mkDevices (serial_lock d) (family d) (plt_name d) (clkfreq d)
    (interruptVector d) (arm_enabled_irqs d) (irq_pending d) (core_source d)
    (timer_clo d) (timer_c3 d) (core_cnt d) (core_cval d) v (bufp d)
    (uart_lcrh d) (uart_rx d) (corestart d) (init_args d) (mmio d).
Definition set_bufp v (d : devices) : devices :=
  mkDevices (serial_lock d) (family d) (plt_name d) (clkfreq d)
    (interruptVector d) (arm_enabled_irqs d) (irq_pending d) (core_source d)
    (timer_clo d) (timer_c3 d) (core_cnt d) (core_cval d) (ungetArray d) v
    (uart_lcrh d) (uart_rx d) (corestart d) (init_args d) (mmio d).
Definition set_uart_lcrh v (d : devices) : devices :=
  mkDevices (serial_lock d) (family d) (plt_name d) (clkfreq d)
    (interruptVector d) (arm_enabled_irqs d) (irq_pending d) (core_source d)
    (timer_clo d) (timer_c3 d) (core_cnt d) (core_cval d) (ungetArray d) (bufp
    d) v (uart_rx d) (corestart d) (init_args d) (mmio d).
Definition set_uart_rx v (d : devices) : devices :=
  mkDevices (serial_lock d) (family d) (plt_name d) (clkfreq d)
    (interruptVector d) (arm_enabled_irqs d) (irq_pending d) (core_source d)
    (timer_clo d) (timer_c3 d) (core_cnt d) (core_cval d) (ungetArray d) (bufp
    d) (uart_lcrh d) v (corestart d) (init_args d) (mmio d).
Definition set_corestart v (d : devices) : devices :=
  mkDevices (serial_lock d) (family d) (plt_name d) (clkfreq d)
    (interruptVector d) (arm_enabled_irqs d) (irq_pending d) (core_source d)
    (timer_clo d) (timer_c3 d) (core_cnt d) (core_cval d) (ungetArray d) (bufp
    d) (uart_lcrh d) (uart_rx d) v (init_args d) (mmio d).
Definition set_init_args v (d : devices) : devices :=
  mkDevices (serial_lock d) (family d) (plt_name d) (clkfreq d)
    (interruptVector d) (arm_enabled_irqs d) (irq_pending d) (core_source d)
    (timer_clo d) (timer_c3 d) (core_cnt d) (core_cval d) (ungetArray d) (bufp
    d) (uart_lcrh d) (uart_rx d) (corestart d) v (mmio d).
Definition set_mmio v (d : devices) : devices :=
  mkDevices (serial_lock d) (family d) (plt_name d) (clkfreq d)
    (interruptVector d) (arm_enabled_irqs d) (irq_pending d) (core_source d)
    (timer_clo d) (timer_c3 d) (core_cnt d) (core_cval d) (ungetArray d) (bufp
    d) (uart_lcrh d) (uart_rx d) (corestart d) (init_args d) v.

(** ** Accesses *)

Definition upd_devs (f : devices -> devices) : K unit := modify (fun k => set_devs (f (devs k)) k).
Definition rd_devs {A} (f : devices -> A) : K A := gets (fun k => f (devs k)).
(** A word written to a peripheral register. *)
Definition put32 (addr v : Z) : K unit := upd_devs (fun d => set_mmio (Wr addr v :: mmio d) d).

Definition rd_proc (i : Z) : K pcb := fun k => must (nthZ (proctab k) i) k.
Definition upd_proc (i : Z) (f : pcb -> pcb) : K unit :=
  p <-- rd_proc i ;; modify (fun k => set_proctab (updZ i (f p) (proctab k)) k).

Definition rd_q (i : Z) : K qentry := fun k => must (nthZ (queuetab k) i) k.
Definition upd_q (i : Z) (f : qentry -> qentry) : K unit :=
  e <-- rd_q i ;; modify (fun k => set_queuetab (updZ i (f e) (queuetab k)) k).

Definition rd_lock (i : Z) : K lockent := fun k => must (nthZ (locktab k) i) k.
Definition upd_lock (i : Z) (f : lockent -> lockent) : K unit :=
  e <-- rd_lock i ;; modify (fun k => set_locktab (updZ i (f e) (locktab k)) k).

Definition rd_free (i : Z) : K memhead := fun k => must (nthZ (freelist k) i) k.
Definition upd_free (i : Z) (f : memhead -> memhead) : K unit :=
  e <-- rd_free i ;; modify (fun k => set_freelist (updZ i (f e) (freelist k)) k).

Definition rd_currpid (cpu : Z) : K Z := fun k => must (nthZ (currpid k) cpu) k.
Definition rd_readylist (cpu prio : Z) : K Z :=
  fun k => (row <-- must (nthZ (readylist k) cpu) ;; must (nthZ row prio)) k.

(** A 32-bit word of RAM. *)
Definition mload (m : gmap Z Z) (a : Z) : Z := default 0 (m !! a).
Definition load (a : Z) : K Z := gets (fun k => mload (memory k) a).
Definition store (a v : Z) : K unit := modify (fun k => set_memory (<[a := v]> (memory k)) k).

Lemma mload_insert_eq m a v : mload (<[a := v]> m) a = v.
Proof. unfold mload. by rewrite lookup_insert_eq. Qed.

Lemma mload_insert_ne m a b v : a <> b -> mload (<[a := v]> m) b = mload m b.
Proof. intros. unfold mload. by rewrite lookup_insert_ne. Qed.

(** ** Interrupt masking (system/intutils.S) *)

(** [mrs r0, cpsr; cpsid i]: return the status word, set the I bit. *)
Definition disable (cpu : Z) : K Z :=
  im <-- (fun k => must (nthZ (cpsr k) cpu) k) ;;
  modify (fun k => set_cpsr (updZ cpu (Z.lor im ARM_I_BIT) (cpsr k)) k) ;;;
  ret im.

(** [cpsie i]: clear the I bit. *)
Definition enable (cpu : Z) : K unit :=
  c <-- (fun k => must (nthZ (cpsr k) cpu) k) ;;
  modify (fun k => set_cpsr (updZ cpu (Z.ldiff c ARM_I_BIT) (cpsr k)) k).

(** [msr cpsr_c, r0]: the low byte of the status word is replaced. *)
Definition restore (cpu im : Z) : K unit :=
  c <-- (fun k => must (nthZ (cpsr k) cpu) k) ;;
  modify (fun k => set_cpsr (updZ cpu (Z.lor (Z.ldiff c 0xFF) (Z.land im 0xFF)) (cpsr k)) k).

Lemma restore_disable_bits im : 
  Z.lor (Z.ldiff (Z.lor im ARM_I_BIT) 0xFF) (Z.land im 0xFF) = im.
Proof.
  apply Z.bits_inj'. intros n Hn. unfold ARM_I_BIT.
  rewrite Z.lor_spec, Z.ldiff_spec, Z.land_spec, Z.lor_spec.
  change 0xFF with (Z.ones 8). change 0x80 with (2 ^ 7).
  destruct (Z.ltb_spec n 8).
  - rewrite Z.ones_spec_low by lia. by destruct (Z.testbit im n), (Z.testbit (2 ^ 7) n).
  - rewrite Z.ones_spec_high, Z.pow2_bits_false by lia. by destruct (Z.testbit im n).
Qed.

(** ** Atomic operations (system/atomic.S) *)

(** [_atomic_increment]: the value after the increment. *)
Definition atomic_increment (v : Z) : Z := s32 (v + 1).
Definition atomic_decrement (v : Z) : Z := s32 (v - 1).
(** [_atomic_increment_mod]: increment, and wrap to zero at the limit. *)
Definition atomic_increment_mod (v m : Z) : Z :=
  let r := s32 (v + 1) in if m <=? r then 0 else r.

(** ** Symbolic execution *)

Lemma bind_rd_proc {B} i p (c : pcb -> K B) k :
  nthZ (proctab k) i = Some p -> bind (rd_proc i) c k = c p k.
Proof. intros H. unfold bind, rd_proc. by rewrite H. Qed.
Lemma bind_upd_proc {B} i p f (c : unit -> K B) k :
  nthZ (proctab k) i = Some p ->
  bind (upd_proc i f) c k = c tt (set_proctab (updZ i (f p) (proctab k)) k).
Proof. intros H. unfold upd_proc, bind, rd_proc. by rewrite H. Qed.
Lemma bind_rd_q {B} i e (c : qentry -> K B) k :
  nthZ (queuetab k) i = Some e -> bind (rd_q i) c k = c e k.
Proof. intros H. unfold bind, rd_q. by rewrite H. Qed.
Lemma bind_upd_q {B} i e f (c : unit -> K B) k :
  nthZ (queuetab k) i = Some e ->
  bind (upd_q i f) c k = c tt (set_queuetab (updZ i (f e) (queuetab k)) k).
Proof. intros H. unfold upd_q, bind, rd_q. by rewrite H. Qed.
Lemma bind_rd_lock {B} i e (c : lockent -> K B) k :
  nthZ (locktab k) i = Some e -> bind (rd_lock i) c k = c e k.
Proof. intros H. unfold bind, rd_lock. by rewrite H. Qed.
Lemma bind_upd_lock {B} i e f (c : unit -> K B) k :
  nthZ (locktab k) i = Some e ->
  bind (upd_lock i f) c k = c tt (set_locktab (updZ i (f e) (locktab k)) k).
Proof. intros H. unfold upd_lock, bind, rd_lock. by rewrite H. Qed.
Lemma bind_rd_free {B} i e (c : memhead -> K B) k :
  nthZ (freelist k) i = Some e -> bind (rd_free i) c k = c e k.
Proof. intros H. unfold bind, rd_free. by rewrite H. Qed.
Lemma bind_upd_free {B} i e f (c : unit -> K B) k :
  nthZ (freelist k) i = Some e ->
  bind (upd_free i f) c k = c tt (set_freelist (updZ i (f e) (freelist k)) k).
Proof. intros H. unfold upd_free, bind, rd_free. by rewrite H. Qed.
Lemma bind_rd_currpid {B} i p (c : Z -> K B) k :
  nthZ (currpid k) i = Some p -> bind (rd_currpid i) c k = c p k.
Proof. intros H. unfold bind, rd_currpid. by rewrite H. Qed.
Lemma bind_rd_readylist {B} i j row q (c : Z -> K B) k :
  nthZ (readylist k) i = Some row -> nthZ row j = Some q ->
  bind (rd_readylist i j) c k = c q k.
Proof. intros H1 H2. unfold bind at 1, rd_readylist, bind. by rewrite H1; simpl; rewrite H2. Qed.
Lemma bind_load {B} a (c : Z -> K B) k : bind (load a) c k = c (mload (memory k) a) k.
Proof. done. Qed.
Lemma bind_store {B} a v (c : unit -> K B) k :
  bind (store a v) c k = c tt (set_memory (<[a := v]> (memory k)) k).
Proof. done. Qed.
Lemma bind_disable {B} cpu im (c : Z -> K B) k :
  nthZ (cpsr k) cpu = Some im ->
  bind (disable cpu) c k =
  c im (set_cpsr (updZ cpu (Z.lor im ARM_I_BIT) (cpsr k)) k).
Proof. intros H. unfold disable, bind. by rewrite H. Qed.
Lemma bind_restore {B} cpu im c0 (c : unit -> K B) k :
  nthZ (cpsr k) cpu = Some c0 ->
  bind (restore cpu im) c k =
  c tt (set_cpsr (updZ cpu (Z.lor (Z.ldiff c0 0xFF) (Z.land im 0xFF)) (cpsr k)) k).
Proof. intros H. unfold restore, bind. by rewrite H. Qed.
