(* ===== verification/Spinlock.v ===== *)
(** * Spinlocks (system/spinlock.c, system/spinlock_util.S)

    The lock table and its operations as the kernel calls them, and, in
    [LockStep], the acquire and release routines of spinlock_util.S as a step
    relation of several cores over one lock word, for mutual exclusion. *)

From stdpp Require Import base numbers functions list gmap.
From S2P Require Import Prelude Kernel.

(** ** Definitions *)

(** The macro [isbadlock] of spinlock.h. A [spinlock_t] is unsigned. *)
Definition isbadlock (x : Z) : K bool :=
  if (x <? 0) || (x >? NLOCK) then ret true
  else e <-- rd_lock x ;; ret (l_state e =? SPINLOCK_FREE).

(** [_lock_acquire] run by one core alone: on a locked word it spins, and
    nobody else runs to release it. *)
Definition _lock_acquire (lock : Z) : K unit :=
  e <-- rd_lock lock ;;
  if l_lock e =? SPINLOCK_LOCKED then failwith Deadlock
  else upd_lock lock (set_l_lock SPINLOCK_LOCKED).

Definition _lock_release (lock : Z) : K unit :=
  upd_lock lock (set_l_lock SPINLOCK_UNLOCKED).

Fixpoint lock_alloc_loop (n : nat) : K Z :=
  match n with
  | O => ret (u32 SYSERR)
  | S n' =>
      modify (fun k => set_nextlock (atomic_increment_mod (nextlock k) NLOCK) k) ;;;
      i <-- gets nextlock ;;
      e <-- rd_lock i ;;
      if l_state e =? SPINLOCK_FREE then
        upd_lock i (set_l_state SPINLOCK_USED) ;;; ret i
      else lock_alloc_loop n'
  end.

Definition lock_alloc : K Z := lock_alloc_loop (Z.to_nat NLOCK).

Definition lock_create : K Z :=
  lock <-- lock_alloc ;;
  if u32 SYSERR =? lock then ret (u32 SYSERR)
  else
    upd_lock lock (set_l_lock SPINLOCK_UNLOCKED) ;;;
    ret lock.

Definition lock_free (lock : Z) : K Z :=
  b <-- isbadlock lock ;;
  if b then ret SYSERR
  else
    upd_lock lock (set_l_state SPINLOCK_FREE) ;;;
    ret OK.

Definition lock_acquire (cpu lock : Z) : K Z :=
  b <-- isbadlock lock ;;
  if b then ret SYSERR
  else
    _lock_acquire lock ;;;
    upd_lock lock (set_l_core cpu) ;;;
    ret OK.

Definition lock_release (lock : Z) : K Z :=
  b <-- isbadlock lock ;;
  if b then ret SYSERR
  else
    upd_lock lock (set_l_core (-1)) ;;;
    _lock_release lock ;;;
    ret OK.

(** ** Locks at rest *)

(** A lock that is allocated and not held. *)
Definition unheld : lockent := mkLockent SPINLOCK_USED SPINLOCK_UNLOCKED (-1).
Definition heldby (cpu : Z) : lockent := mkLockent SPINLOCK_USED SPINLOCK_LOCKED cpu.

Definition at_rest (k : kernel) (l : Z) : Prop := nthZ (locktab k) l = Some unheld.

Lemma isbadlock_used k l e :
  0 <= l < NLOCK -> nthZ (locktab k) l = Some e -> l_state e = SPINLOCK_USED ->
  isbadlock l k = Ret (false, k).
Proof.
  intros Hr He Hs. unfold isbadlock.
  destruct (Z.ltb_spec l 0); [lia|]. rewrite Z.gtb_ltb.
  destruct (Z.ltb_spec NLOCK l); [lia|]. simpl.
  rewrite (bind_rd_lock _ _ _ _ He), Hs. done.
Qed.

Lemma lock_acquire_rest cpu k l :
  0 <= l < NLOCK -> at_rest k l ->
  lock_acquire cpu l k = Ret (OK, set_locktab (updZ l (heldby cpu) (locktab k)) k).
Proof.
  intros Hr He. unfold lock_acquire.
  rewrite (bind_Ret _ _ _ _ _ (isbadlock_used _ _ _ Hr He eq_refl)).
  unfold _lock_acquire. rewrite bind_assoc, (bind_rd_lock _ _ _ _ He). simpl.
  rewrite (bind_upd_lock _ _ _ _ _ He).
  pose proof (nthZ_Some_lt _ _ _ He) as Hl.
  erewrite bind_upd_lock; [|simpl; by apply nthZ_updZ_eq].
  simpl. rewrite updZ_updZ. done.
Qed.

Lemma lock_release_held cpu k l :
  0 <= l < NLOCK -> nthZ (locktab k) l = Some (heldby cpu) ->
  lock_release l k = Ret (OK, set_locktab (updZ l unheld (locktab k)) k).
Proof.
  intros Hr He. unfold lock_release.
  rewrite (bind_Ret _ _ _ _ _ (isbadlock_used _ _ _ Hr He eq_refl)).
  rewrite (bind_upd_lock _ _ _ _ _ He).
  pose proof (nthZ_Some_lt _ _ _ He) as Hl.
  unfold _lock_release. erewrite bind_upd_lock; [|simpl; by apply nthZ_updZ_eq].
  simpl. rewrite updZ_updZ. done.
Qed.

Lemma bind_acquire {B} cpu k l (c : Z -> K B) :
  0 <= l < NLOCK -> at_rest k l ->
  bind (lock_acquire cpu l) c k = c OK (set_locktab (updZ l (heldby cpu) (locktab k)) k).
Proof. intros. by rewrite (bind_Ret _ _ _ _ _ (lock_acquire_rest _ _ _ H H0)). Qed.

Lemma bind_release {B} cpu k l (c : Z -> K B) :
  0 <= l < NLOCK -> nthZ (locktab k) l = Some (heldby cpu) ->
  bind (lock_release l) c k = c OK (set_locktab (updZ l unheld (locktab k)) k).
Proof. intros. by rewrite (bind_Ret _ _ _ _ _ (lock_release_held _ _ _ H H0)). Qed.

(** Releasing after acquiring gives back the table of a lock at rest. *)
Lemma release_acquire_tab cpu k l :
  at_rest k l -> updZ l unheld (updZ l (heldby cpu) (locktab k)) = locktab k.
Proof. intros H. rewrite updZ_updZ. by apply updZ_id. Qed.

(** ** Allocation *)

(** The invariant of the lock table: its size, the cursor of [lock_alloc] in
    range, and free entries reset as [platforminit] and [lock_release] leave
    them. *)
Record locks_wf (k : kernel) : Prop := {
  lw_len : lenZ (locktab k) = NLOCK;
  lw_next : 0 <= nextlock k < NLOCK;
  lw_free : forall i e, nthZ (locktab k) i = Some e -> l_state e = SPINLOCK_FREE ->
    l_lock e = SPINLOCK_UNLOCKED /\ l_core e = -1
}.

Definition lock_is_free (k : kernel) (i : Z) : Prop :=
  exists e, nthZ (locktab k) i = Some e /\ l_state e = SPINLOCK_FREE.

Lemma atomic_increment_mod_cyclic v m :
  0 <= v < m -> m <= 1000 -> atomic_increment_mod v m = (v + 1) mod m.
Proof.
  intros Hv Hm. unfold atomic_increment_mod.
  rewrite swrap_small by (change (2 ^ (32 - 1)) with 2147483648; lia).
  case_if; [|symmetry; apply Z.mod_small; lia].
  assert (v + 1 = m) as -> by lia. symmetry. apply Z.mod_same. lia.
Qed.

Lemma lock_alloc_loop_found n k :
  lenZ (locktab k) = NLOCK -> 0 <= nextlock k < NLOCK ->
  (exists j, 1 <= j <= Z.of_nat n /\ lock_is_free k ((nextlock k + j) mod NLOCK)) ->
  exists l e, 0 <= l < NLOCK /\ nthZ (locktab k) l = Some e /\
    l_state e = SPINLOCK_FREE /\
    lock_alloc_loop n k =
      Ret (l, set_locktab (updZ l (set_l_state SPINLOCK_USED e) (locktab k)) (set_nextlock l k)).
Proof.
  revert k. induction n as [|n IH]; intros k Hlen Hs (j & Hj & Hf); [lia|].
  simpl. rewrite bind_modify, bind_gets. simpl.
  rewrite atomic_increment_mod_cyclic by klia.
  set (i := (nextlock k + 1) mod NLOCK).
  assert (0 <= i < NLOCK) as Hi by (apply Z.mod_pos_bound; klia).
  destruct (nthZ_lt_Some (locktab k) i) as [e He]; [lia|].
  erewrite bind_rd_lock by exact He.
  destruct (Z.eqb_spec (l_state e) SPINLOCK_FREE) as [Hfree|Hused].
  - exists i, e. repeat (split; [done|]). erewrite bind_upd_lock by exact He. done.
  - destruct (IH (set_nextlock i k)) as (l & e' & Hl & He' & Hs' & Hrun);
      [done|done| |].
    + exists (j - 1). assert (j <> 1) as Hj1.
      { intros ->. destruct Hf as (e0 & He0 & ?). fold i in He0. congruence. }
      split; [lia|]. simpl. unfold i. rewrite Z.add_mod_idemp_l by klia.
      by replace (nextlock k + 1 + (j - 1)) with (nextlock k + j) by lia.
    + exists l, e'. split; [done|]. split; [done|]. split; [done|]. rewrite Hrun. done.
Qed.

Lemma lock_alloc_loop_full n k :
  lenZ (locktab k) = NLOCK -> 0 <= nextlock k < NLOCK ->
  (forall i, ~ lock_is_free k i) ->
  exists s, 0 <= s < NLOCK /\ lock_alloc_loop n k = Ret (u32 SYSERR, set_nextlock s k).
Proof.
  revert k. induction n as [|n IH]; intros k Hlen Hs Hf.
  - exists (nextlock k). split; [done|]. by destruct k.
  - simpl. rewrite bind_modify, bind_gets. simpl.
    rewrite atomic_increment_mod_cyclic by klia.
    set (i := (nextlock k + 1) mod NLOCK).
    assert (0 <= i < NLOCK) as Hi by (apply Z.mod_pos_bound; klia).
    destruct (nthZ_lt_Some (locktab k) i) as [e He]; [lia|].
    erewrite bind_rd_lock by exact He.
    destruct (Z.eqb_spec (l_state e) SPINLOCK_FREE) as [Hfree|Hused].
    + exfalso. apply (Hf i). by exists e.
    + destruct (IH (set_nextlock i k)) as (s & ? & Hrun); [done|done|done|].
      exists s. split; [done|]. rewrite Hrun. done.
Qed.

Lemma lock_alloc_found k i :
  locks_wf k -> lock_is_free k i ->
  exists l e, 0 <= l < NLOCK /\ nthZ (locktab k) l = Some e /\
    l_state e = SPINLOCK_FREE /\
    lock_alloc k =
      Ret (l, set_locktab (updZ l (set_l_state SPINLOCK_USED e) (locktab k)) (set_nextlock l k)).
Proof.
  intros [Hlen Hs _] Hf. apply lock_alloc_loop_found; [done|done|].
  assert (0 <= i < NLOCK) as Hi.
  { destruct Hf as (e & He%nthZ_Some_lt & _). lia. }
  exists ((i - nextlock k - 1) mod NLOCK + 1).
  assert (0 <= (i - nextlock k - 1) mod NLOCK < NLOCK) by (apply Z.mod_pos_bound; klia).
  split; [klia|].
  replace (nextlock k + ((i - nextlock k - 1) mod NLOCK + 1))
    with (nextlock k + 1 + (i - nextlock k - 1) mod NLOCK) by lia.
  rewrite Z.add_mod_idemp_r by klia.
  replace (nextlock k + 1 + (i - nextlock k - 1)) with i by lia.
  by rewrite Z.mod_small.
Qed.

Lemma lock_create_found k i :
  locks_wf k -> lock_is_free k i ->
  exists l, 0 <= l < NLOCK /\ lock_is_free k l /\
    lock_create k = Ret (l, set_locktab (updZ l unheld (locktab k)) (set_nextlock l k)).
Proof.
  intros Hwf Hf. destruct (lock_alloc_found k i Hwf Hf) as (l & e & Hl & He & Hfree & Hrun).
  exists l. split; [done|]. split; [by exists e|].
  unfold lock_create. rewrite (bind_Ret _ _ _ _ _ Hrun).
  rewrite (proj2 (Z.eqb_neq (u32 SYSERR) l)) by (change (u32 SYSERR) with 4294967295; klia).
  destruct (lw_free _ Hwf _ _ He Hfree) as [_ Hcore].
  erewrite bind_upd_lock; [|simpl; apply nthZ_updZ_eq; by eapply nthZ_Some_lt].
  simpl. rewrite updZ_updZ. unfold unheld, set_l_lock. simpl. by rewrite Hcore.
Qed.

Lemma lock_create_wf k l :
  locks_wf k -> 0 <= l < NLOCK ->
  locks_wf (set_locktab (updZ l unheld (locktab k)) (set_nextlock l k)).
Proof.
  intros [Hlen Hs Hf] Hl. constructor; simpl; [by rewrite lenZ_updZ|done|].
  intros i e. rewrite nthZ_updZ by lia. case_decide; [|apply Hf].
  intros [= <-]. done.
Qed.

(** ** Theorems on the lock table *)

(** On a well-formed lock table [lock_create] either finds no free entry
    in its cyclic scan and returns [SYSERR] (as an unsigned), leaving every
    entry as it was, or returns the index of an entry that was free and is
    now used and unlocked, changing no other entry; the table stays well
    formed. *)
Theorem lock_create_total k :
  locks_wf k ->
  ((forall i, ~ lock_is_free k i) /\
   exists s, lock_create k = Ret (u32 SYSERR, set_nextlock s k) /\ locks_wf (set_nextlock s k))
  \/
  (exists l, lock_is_free k l /\
    let k' := set_locktab (updZ l unheld (locktab k)) (set_nextlock l k) in
    lock_create k = Ret (l, k') /\ at_rest k' l /\ locks_wf k' /\
    forall i, i <> l -> nthZ (locktab k') i = nthZ (locktab k) i).
Proof.
  intros Hwf.
  destruct (decide (Exists (fun e => l_state e = SPINLOCK_FREE) (locktab k))) as [Hex|Hno].
  - right. apply Exists_exists in Hex as (e & He & Hs).
    apply list_elem_of_lookup in He as (n & Hn).
    assert (lock_is_free k (Z.of_nat n)) as Hf.
    { exists e. split; [|done]. unfold nthZ.
      rewrite (proj2 (Z.leb_le 0 (Z.of_nat n))) by lia. by rewrite Nat2Z.id. }
    destruct (lock_create_found k _ Hwf Hf) as (l & Hl & Hfl & Hrun).
    exists l. split; [done|]. cbv zeta. split; [done|].
    split; [apply nthZ_updZ_eq; by rewrite (lw_len _ Hwf)|].
    split; [by apply lock_create_wf|]. intros i Hi. by apply nthZ_updZ_ne.
  - left. assert (forall i, ~ lock_is_free k i) as Hn.
    { intros i (e & He & Hs). apply Hno, Exists_exists. exists e. split; [|done].
      unfold nthZ in He. destruct (0 <=? i); [|done]. apply list_elem_of_lookup. eauto. }
    split; [done|]. destruct Hwf as [Hlen Hnx Hfr].
    destruct (lock_alloc_loop_full (Z.to_nat NLOCK) k Hlen Hnx Hn) as (s & Hs & Hrun).
    exists s. split; [|by constructor].
    unfold lock_create, lock_alloc. by rewrite (bind_Ret _ _ _ _ _ Hrun).
Qed.

(** Acquiring and then releasing a lock that is allocated and not held
    succeeds twice and gives back exactly the state before; acquiring it a
    second time without the release would spin forever. *)
Theorem lock_acquire_release cpu k l :
  0 <= l < NLOCK -> at_rest k l ->
  (r1 <-- lock_acquire cpu l ;; r2 <-- lock_release l ;; ret (r1, r2)) k = Ret ((OK, OK), k) /\
  (lock_acquire cpu l ;;; lock_acquire cpu l) k = Fault Deadlock.
Proof.
  intros Hl Hr. rewrite !bind_acquire by done.
  assert (nthZ (updZ l (heldby cpu) (locktab k)) l = Some (heldby cpu)) as Hheld.
  { apply nthZ_updZ_eq. by eapply nthZ_Some_lt. }
  split.
  - erewrite bind_release by done. unfold ret. simpl.
    rewrite release_acquire_tab by done. by destruct k.
  - unfold lock_acquire. erewrite bind_Ret; [|by apply (isbadlock_used _ _ (heldby cpu))].
    unfold _lock_acquire. rewrite bind_assoc. by erewrite bind_rd_lock by done.
Qed.

(** [lock_free] of an allocated lock makes it available again, and the
    next [lock_create] that reaches it may return it; using the freed
    identifier fails with [SYSERR] and changes nothing. *)
Theorem lock_free_reusable cpu k l :
  locks_wf k -> 0 <= l < NLOCK -> at_rest k l ->
  exists k', lock_free l k = Ret (OK, k') /\ locks_wf k' /\ lock_is_free k' l /\
    lock_acquire cpu l k' = Ret (SYSERR, k') /\ lock_release l k' = Ret (SYSERR, k') /\
    lock_free l k' = Ret (SYSERR, k').
Proof.
  intros [Hlen Hnx Hfr] Hl Hr.
  exists (set_locktab (updZ l (set_l_state SPINLOCK_FREE unheld) (locktab k)) k).
  set (k' := set_locktab _ _).
  assert (nthZ (locktab k') l = Some (set_l_state SPINLOCK_FREE unheld)) as He.
  { apply nthZ_updZ_eq. lia. }
  assert (isbadlock l k' = Ret (true, k')) as Hb.
  { unfold isbadlock. rewrite Z.gtb_ltb.
    rewrite (proj2 (Z.ltb_ge l 0)), (proj2 (Z.ltb_ge NLOCK l)) by lia. simpl.
    erewrite bind_rd_lock by exact He. done. }
  split; [|split; [|split; [by eexists|]]].
  - unfold lock_free. erewrite bind_Ret; [|by apply (isbadlock_used _ _ unheld)].
    cbv beta iota. by erewrite bind_upd_lock by exact Hr.
  - constructor; simpl; [by rewrite lenZ_updZ|done|].
    intros i e. rewrite nthZ_updZ by lia. case_decide; [|apply Hfr].
    intros [= <-]. done.
  - unfold lock_acquire, lock_release, lock_free.
    by rewrite !(bind_Ret _ _ _ _ _ Hb).
Qed.

(** The range test of [isbadlock] accepts [NLOCK] itself, so the lock
    operations read past the table instead of returning [SYSERR]; for every
    larger identifier they do return [SYSERR]. *)
Theorem isbadlock_off_by_one cpu k :
  lenZ (locktab k) = NLOCK ->
  lock_acquire cpu NLOCK k = Fault OutOfBounds /\
  lock_release NLOCK k = Fault OutOfBounds /\
  forall x, NLOCK < x -> lock_acquire cpu x k = Ret (SYSERR, k).
Proof.
  intros Hlen.
  assert (isbadlock NLOCK k = Fault OutOfBounds) as Hb.
  { unfold isbadlock, bind, rd_lock. simpl. rewrite nthZ_None by lia. done. }
  split; [|split].
  - unfold lock_acquire, bind. by rewrite Hb.
  - unfold lock_release, bind. by rewrite Hb.
  - intros x Hx. unfold lock_acquire, isbadlock. rewrite Z.gtb_ltb.
    rewrite (proj2 (Z.ltb_lt NLOCK x)) by done. by rewrite orb_true_r.
Qed.

(** ** Mutual exclusion of the assembly routines *)

Module LockStep.

(** Where a core is in [_lock_acquire] / [_lock_release]. *)
Inductive pcst :=
  | Idle       (* outside both routines, not holding the lock            *)
  | Loading    (* at [ldrex r1, [r0]]                                    *)
  | Storing    (* at [strex r2, r1, [r0]], having loaded an unlocked word *)
  | Holding    (* returned from [_lock_acquire]                          *).

(** The lock word, and per core its position and its exclusive monitor. *)
Record st := mkSt {
  word : Z;
  pc : Z -> pcst;
  monitor : Z -> bool
}.

(** A store to the word ends every reservation on it. *)
Definition no_monitor : Z -> bool := fun _ => false.

Inductive step : st -> st -> Prop :=
  | s_enter s c : pc s c = Idle ->
      step s (mkSt (word s) (<[c := Loading]> (pc s)) (monitor s))
  | s_ldrex_locked s c : pc s c = Loading -> word s = SPINLOCK_LOCKED ->
      step s (mkSt (word s) (pc s) (<[c := true]> (monitor s)))
  | s_ldrex_free s c : pc s c = Loading -> word s <> SPINLOCK_LOCKED ->
      step s (mkSt (word s) (<[c := Storing]> (pc s)) (<[c := true]> (monitor s)))
  | s_strex_fail s c : pc s c = Storing -> monitor s c = false ->
      step s (mkSt (word s) (<[c := Loading]> (pc s)) (monitor s))
  | s_strex_ok s c : pc s c = Storing -> monitor s c = true ->
      step s (mkSt SPINLOCK_LOCKED (<[c := Holding]> (pc s)) no_monitor)
  | s_release s c : pc s c = Holding ->
      step s (mkSt SPINLOCK_UNLOCKED (<[c := Idle]> (pc s)) no_monitor)
  | s_lose s c : (* the monitor may be lost at any time *)
      step s (mkSt (word s) (pc s) (<[c := false]> (monitor s))).

Definition init : st := mkSt SPINLOCK_UNLOCKED (fun _ => Idle) (fun _ => false).

Inductive reachable : st -> Prop :=
  | r_init : reachable init
  | r_step s s' : reachable s -> step s s' -> reachable s'.

(** The word is locked exactly while some core holds the lock, one core
    at most, and a core about to store with a live monitor saw a word that
    is still unlocked. *)
Record inv (s : st) : Prop := {
  i_word : word s = SPINLOCK_LOCKED <-> exists c, pc s c = Holding;
  i_excl : forall c d, pc s c = Holding -> pc s d = Holding -> c = d;
  i_mon : forall c, pc s c = Storing -> monitor s c = true -> word s <> SPINLOCK_LOCKED
}.

(** A step that moves core [c] between positions other than [Holding] and
    keeps the word. *)
Lemma inv_move s c p m :
  inv s -> pc s c <> Holding -> p <> Holding ->
  (forall d, (<[c := p]> (pc s)) d = Storing -> m d = true -> word s <> SPINLOCK_LOCKED) ->
  inv (mkSt (word s) (<[c := p]> (pc s)) m).
Proof.
  intros [Hw He _] Hc Hp Hm. constructor; simpl; [|intros a b|done].
  - rewrite Hw. split; intros [d Hd]; exists d.
    + rewrite fn_lookup_insert_ne; [done|]. by intros ->.
    + destruct (decide (d = c)) as [->|Hne].
      * by rewrite fn_lookup_insert in Hd.
      * by rewrite fn_lookup_insert_ne in Hd.
  - destruct (decide (a = c)) as [->|Ha]; [by rewrite fn_lookup_insert|].
    destruct (decide (b = c)) as [->|Hb]; [by rewrite fn_lookup_insert|].
    rewrite !fn_lookup_insert_ne by done. apply He.
Qed.

Lemma inv_step s s' : inv s -> step s s' -> inv s'.
Proof.
  intros Hi Hs. destruct Hs as [s c H|s c H1 H2|s c H1 H2|s c H1 H2|s c H1 H2|s c H|s c].
  - apply inv_move; [done|congruence|done|]. intros d.
    destruct (decide (d = c)) as [->|Hd]; [by rewrite fn_lookup_insert|].
    rewrite fn_lookup_insert_ne by done. apply Hi.
  - destruct Hi as [Hw He Hm]. constructor; simpl; [done|done|]. intros d Hd.
    destruct (decide (d = c)) as [->|Hne]; [congruence|].
    rewrite fn_lookup_insert_ne by done. by apply Hm.
  - apply inv_move; [done|congruence|done|]. intros d.
    destruct (decide (d = c)) as [->|Hd]; [done|].
    rewrite !fn_lookup_insert_ne by done. apply Hi.
  - apply inv_move; [done|congruence|done|]. intros d.
    destruct (decide (d = c)) as [->|Hd]; [by rewrite fn_lookup_insert|].
    rewrite fn_lookup_insert_ne by done. apply Hi.
  - destruct Hi as [Hw He Hm]. pose proof (Hm c H1 H2) as Hfree.
    assert (forall d, pc s d <> Holding) as Hnone by (intros d Hd; apply Hfree, Hw; eauto).
    constructor; simpl.
    + split; [|done]. intros _. exists c. by rewrite fn_lookup_insert.
    + assert (forall a, (<[c := Holding]> (pc s)) a = Holding -> a = c) as Honly.
      { intros a. destruct (decide (a = c)) as [->|Ha]; [done|].
        rewrite fn_lookup_insert_ne by done. intros Hx. by apply Hnone in Hx. }
      intros a b Ha%Honly Hb%Honly. congruence.
    + done.
  - destruct Hi as [Hw He Hm].
    assert (forall d, (<[c := Idle]> (pc s)) d <> Holding) as Hnone.
    { intros d. destruct (decide (d = c)) as [->|Hd]; [by rewrite fn_lookup_insert|].
      rewrite fn_lookup_insert_ne by done. intros Hx. apply Hd. by apply He. }
    constructor; simpl.
    + split; [done|]. intros [d Hd]. exfalso. by apply (Hnone d).
    + intros a b Ha. exfalso. by apply (Hnone a).
    + done.
  - destruct Hi as [Hw He Hm]. constructor; simpl; [done|done|]. intros d Hd.
    destruct (decide (d = c)) as [->|Hne]; [by rewrite fn_lookup_insert|].
    rewrite fn_lookup_insert_ne by done. by apply Hm.
Qed.

Lemma reachable_inv s : reachable s -> inv s.
Proof.
  induction 1 as [|s s' _ IH Hs]; [|by eapply inv_step].
  constructor; simpl; [|done|done]. split; [done|]. by intros [c Hc].
Qed.

(** C14: In every interleaving of any number of cores running
    [_lock_acquire] and [_lock_release] on one lock word, at most one core
    is past the acquire, and the word reads locked exactly while one is. *)
Theorem mutual_exclusion s :
  reachable s ->
  (forall c d, pc s c = Holding -> pc s d = Holding -> c = d) /\
  (word s = SPINLOCK_LOCKED <-> exists c, pc s c = Holding).
Proof. intros H%reachable_inv. split; apply H. Qed.

End LockStep.
