(* ===== verification/Queue.v ===== *)
(** * Process queues (system/queue.c, include/queue.h)

    A queue is a doubly linked list threaded through [queuetab]: its head and
    tail are two consecutive entries above [NPROC], its members are process
    entries below.  [qrep] says that a queue of the table holds a given list
    of process ids; the operations are proved to act on that list as a FIFO
    with removal. *)

From stdpp Require Import base numbers functions list gmap.
From S2P Require Import Prelude Kernel Spinlock.

(** ** Definitions *)

(** The macros of queue.h and [isbadpid] of proc.h. *)
Definition queuehead (q : Z) : Z := Z.land (Z.shiftr q 16) 0xFFFF.
Definition queuetail (q : Z) : Z := Z.land q 0xFFFF.

Definition isbadqueue (q : Z) : bool :=
  (queuehead q <? 0) || negb (queuehead q =? u32 (queuetail q - 1))
    || (NQENT <=? queuetail q).

Definition isbadpid (x : Z) : K bool :=
  if (x <? 0) || (NPROC <=? x) then ret true
  else p <-- rd_proc x ;; ret (PRFREE =? p_state p).

Definition nonempty (q : Z) : K bool :=
  e <-- rd_q (queuehead q) ;; ret (q_next e <? NPROC).
Definition isempty (q : Z) : K bool :=
  e <-- rd_q (queuehead q) ;; ret (NPROC <=? q_next e).
Definition firstid (q : Z) : K Z :=
  e <-- rd_q (queuehead q) ;; ret (q_next e).

(** queuetab[a].next = v, queuetab[a].prev = v *)
Definition set_next (a v : Z) : K unit := upd_q a (set_q_next v).
Definition set_prev (a v : Z) : K unit := upd_q a (set_q_prev v).
Definition get_next (a : Z) : K Z := e <-- rd_q a ;; ret (q_next e).
Definition get_prev (a : Z) : K Z := e <-- rd_q a ;; ret (q_prev e).
Definition get_qlock (a : Z) : K Z := e <-- rd_q a ;; ret (q_lock e).

Definition enqueue (cpu pid q : Z) : K Z :=
  badpid <-- (if isbadqueue q then ret true else isbadpid pid) ;;
  if badpid then ret SYSERR
  else
    let head := queuehead q in
    let tail := queuetail q in
    l <-- get_qlock head ;;
    lock_acquire cpu l ;;;
    set_next pid tail ;;;
    tp <-- get_prev tail ;;
    set_prev pid tp ;;;
    tp <-- get_prev tail ;;
    set_next tp pid ;;;
    set_prev tail pid ;;;
    l <-- get_qlock head ;;
    lock_release l ;;;
    ret pid.

(** The loop of [remove]: [n] is [NQENT - steps]; [None] when it ends
    without having met the head of a queue. *)
Fixpoint remove_loop (n : nat) (temp : Z) : K (option Z * nat) :=
  match n with
  | O => ret (None, n)
  | S n' =>
      temp' <-- get_prev temp ;;
      let temp' := u32 temp' in
      pp <-- get_prev temp' ;;
      if EMPTY =? pp then ret (Some temp', n')
      else remove_loop n' temp'
  end.

Definition remove (cpu pid : Z) : K Z :=
  b <-- isbadpid pid ;;
  if b then ret SYSERR
  else
    r <-- remove_loop (Z.to_nat NQENT) pid ;;
    (* steps >= NQENT *)
    if Nat.eqb (snd r) 0 then ret SYSERR
    else
      match fst r with
      | None => ret SYSERR
      | Some head =>
          l <-- get_qlock head ;;
          lock_acquire cpu l ;;;
          pp <-- get_prev pid ;;
          pn <-- get_next pid ;;
          set_next pp pn ;;;
          pn <-- get_next pid ;;
          pp <-- get_prev pid ;;
          set_prev pn pp ;;;
          l <-- get_qlock head ;;
          lock_release l ;;;
          ret pid
      end.

Definition dequeue (cpu q : Z) : K Z :=
  let head := queuehead q in
  if isbadqueue q then ret SYSERR
  else
    l <-- get_qlock head ;;
    lock_acquire cpu l ;;;
    pid <-- get_next head ;;
    if pid <? NPROC then
      pp <-- get_prev pid ;;
      pn <-- get_next pid ;;
      set_next pp pn ;;;
      pn <-- get_next pid ;;
      pp <-- get_prev pid ;;
      set_prev pn pp ;;;
      set_prev pid pid ;;;
      set_next pid pid ;;;
      l <-- get_qlock head ;;
      lock_release l ;;;
      ret pid
    else
      l <-- get_qlock head ;;
      lock_release l ;;;
      ret EMPTY.

Definition newqueue : K Z :=
  modify (fun k => set_nextqueue (atomic_increment (nextqueue k)) k) ;;;
  head <-- gets (fun k => s32 (nextqueue k - 1)) ;;
  modify (fun k => set_nextqueue (atomic_increment (nextqueue k)) k) ;;;
  tail <-- gets (fun k => s32 (nextqueue k - 1)) ;;
  set_next head tail ;;;
  set_prev head EMPTY ;;;
  set_next tail EMPTY ;;;
  set_prev tail head ;;;
  l <-- lock_create ;;
  upd_q head (set_q_lock l) ;;;
  ret (u32 (Z.lor (s32 (Z.shiftl head 16)) (Z.land tail 0xFFFF))).

(** ** The table as links *)

Definition nx (tab : list qentry) (i : Z) : option Z := q_next <$> nthZ tab i.
Definition pv (tab : list qentry) (i : Z) : option Z := q_prev <$> nthZ tab i.
Definition lk (tab : list qentry) (i : Z) : option Z := q_lock <$> nthZ tab i.

Definition tset (f : qentry -> qentry) (i : Z) (tab : list qentry) : list qentry :=
  match nthZ tab i with Some e => updZ i (f e) tab | None => tab end.
Definition tset_next (i v : Z) := tset (set_q_next v) i.
Definition tset_prev (i v : Z) := tset (set_q_prev v) i.
Definition tset_lock (i v : Z) := tset (set_q_lock v) i.

Lemma lenZ_tset f i tab : lenZ (tset f i tab) = lenZ tab.
Proof. unfold tset. destruct (nthZ tab i); [apply lenZ_updZ|done]. Qed.

Lemma nthZ_tset f i j tab :
  nthZ (tset f i tab) j = if decide (i = j) then f <$> nthZ tab j else nthZ tab j.
Proof.
  unfold tset. destruct (nthZ tab i) as [e|] eqn:E.
  - pose proof (nthZ_Some_lt _ _ _ E). rewrite nthZ_updZ by done.
    case_decide; [subst; by rewrite E|done].
  - case_decide; [subst; by rewrite E|done].
Qed.

Section Links.
Context (tab : list qentry).

Lemma nx_tset_next i v j :
  0 <= i < lenZ tab -> nx (tset_next i v tab) j = if decide (i = j) then Some v else nx tab j.
Proof.
  intros H. unfold nx, tset_next. rewrite nthZ_tset. case_decide; [subst|done].
  destruct (nthZ_lt_Some _ _ H) as [e ->]. done.
Qed.
Lemma pv_tset_prev i v j :
  0 <= i < lenZ tab -> pv (tset_prev i v tab) j = if decide (i = j) then Some v else pv tab j.
Proof.
  intros H. unfold pv, tset_prev. rewrite nthZ_tset. case_decide; [subst|done].
  destruct (nthZ_lt_Some _ _ H) as [e ->]. done.
Qed.
Lemma lk_tset_lock i v j :
  0 <= i < lenZ tab -> lk (tset_lock i v tab) j = if decide (i = j) then Some v else lk tab j.
Proof.
  intros H. unfold lk, tset_lock. rewrite nthZ_tset. case_decide; [subst|done].
  destruct (nthZ_lt_Some _ _ H) as [e ->]. done.
Qed.
Lemma pv_tset_next i v j : pv (tset_next i v tab) j = pv tab j.
Proof.
  unfold pv, tset_next. rewrite nthZ_tset. case_decide; [|done]. by destruct (nthZ tab j).
Qed.
Lemma nx_tset_prev i v j : nx (tset_prev i v tab) j = nx tab j.
Proof.
  unfold nx, tset_prev. rewrite nthZ_tset. case_decide; [|done]. by destruct (nthZ tab j).
Qed.
Lemma lk_tset_next i v j : lk (tset_next i v tab) j = lk tab j.
Proof.
  unfold lk, tset_next. rewrite nthZ_tset. case_decide; [|done]. by destruct (nthZ tab j).
Qed.
Lemma lk_tset_prev i v j : lk (tset_prev i v tab) j = lk tab j.
Proof.
  unfold lk, tset_prev. rewrite nthZ_tset. case_decide; [|done]. by destruct (nthZ tab j).
Qed.
Lemma nx_tset_lock i v j : nx (tset_lock i v tab) j = nx tab j.
Proof.
  unfold nx, tset_lock. rewrite nthZ_tset. case_decide; [|done]. by destruct (nthZ tab j).
Qed.
Lemma pv_tset_lock i v j : pv (tset_lock i v tab) j = pv tab j.
Proof.
  unfold pv, tset_lock. rewrite nthZ_tset. case_decide; [|done]. by destruct (nthZ tab j).
Qed.
End Links.

Lemma lenZ_tset_next i v tab : lenZ (tset_next i v tab) = lenZ tab.
Proof. apply lenZ_tset. Qed.
Lemma lenZ_tset_prev i v tab : lenZ (tset_prev i v tab) = lenZ tab.
Proof. apply lenZ_tset. Qed.
Lemma lenZ_tset_lock i v tab : lenZ (tset_lock i v tab) = lenZ tab.
Proof. apply lenZ_tset. Qed.

Create Rewrite HintDb links.
#[export] Hint Rewrite lenZ_tset_next lenZ_tset_prev lenZ_tset_lock
  pv_tset_next nx_tset_prev lk_tset_next lk_tset_prev nx_tset_lock pv_tset_lock : links.

(** Evaluate reads of an updated table, deciding each index comparison. *)
Ltac links_step :=
  first
    [ progress autorewrite with links
    | rewrite nx_tset_next by (autorewrite with links; lia)
    | rewrite pv_tset_prev by (autorewrite with links; lia)
    | rewrite lk_tset_lock by (autorewrite with links; lia)
    | rewrite decide_True by lia
    | rewrite decide_False by lia ].
Ltac links := repeat links_step.

(** ** Chains *)

Definition linked (tab : list qentry) (a b : Z) : Prop :=
  nx tab a = Some b /\ pv tab b = Some a.

(** Following [next] from [a] meets exactly [l] and then [b], and the [prev]
    fields lead back. *)
Fixpoint chain (tab : list qentry) (a : Z) (l : list Z) (b : Z) : Prop :=
  match l with
  | [] => linked tab a b
  | x :: l' => linked tab a x /\ chain tab x l' b
  end.

Lemma chain_app tab a l1 x l2 b :
  chain tab a (l1 ++ x :: l2) b <-> chain tab a l1 x /\ chain tab x l2 b.
Proof.
  revert a. induction l1 as [|y l1 IH]; intros a; simpl; [done|].
  rewrite IH. naive_solver.
Qed.

(** A chain only depends on the [next] fields of its start and members and
    on the [prev] fields of its members and end. *)
Lemma chain_frame tab tab' a l b :
  (forall i, i = a \/ i ∈ l -> nx tab' i = nx tab i) ->
  (forall i, i = b \/ i ∈ l -> pv tab' i = pv tab i) ->
  chain tab a l b -> chain tab' a l b.
Proof.
  revert a. induction l as [|x l IH]; intros a Hn Hp; simpl; unfold linked.
  - rewrite Hn, Hp by auto. done.
  - rewrite Hn, Hp by set_solver. intros [? ?]. split; [done|].
    apply IH; [| |done]; intros i Hi; [apply Hn|apply Hp]; set_solver.
Qed.

(** The element before the end of a chain. *)
Fixpoint lastd (a : Z) (l : list Z) : Z :=
  match l with [] => a | x :: l' => lastd x l' end.

Lemma lastd_elem a l : lastd a l ∈ a :: l.
Proof. revert a. induction l as [|x l IH]; intros a; simpl; [left|right; apply IH]. Qed.

Lemma lastd_app a l x : lastd a (l ++ [x]) = x.
Proof. revert a. induction l as [|y l IH]; intros a; simpl; [done|apply IH]. Qed.

Lemma chain_prev tab a l b : chain tab a l b -> linked tab (lastd a l) b.
Proof. revert a. induction l as [|x l IH]; intros a; simpl; [done|]. intros [_ ?]. auto. Qed.

(** Relinking the last element of a chain gives the chain a new end. *)
Lemma chain_retarget tab tab' a l b b' :
  chain tab a l b -> NoDup (a :: l) ->
  (forall i, i ∈ a :: l -> i <> lastd a l -> nx tab' i = nx tab i) ->
  (forall i, i ∈ l -> pv tab' i = pv tab i) ->
  linked tab' (lastd a l) b' -> chain tab' a l b'.
Proof.
  revert a. induction l as [|x l IH]; intros a; simpl; [done|].
  intros [[Hn Hp] Hc] Hnd Hnx Hpv Hl.
  apply NoDup_cons in Hnd as [Hna Hnd]. split.
  - split; [rewrite Hnx; [done|left|]|rewrite Hpv; [done|left]].
    intros Ha. apply Hna. rewrite Ha. apply lastd_elem.
  - apply IH; try done.
    + intros i Hi. apply Hnx. by right.
    + intros i Hi. apply Hpv. by right.
Qed.

(** The first element of a list, or where the chain ends. *)
Definition hdd (l : list Z) (b : Z) : Z := match l with [] => b | y :: _ => y end.

(** The links [remove] writes, [p] and [n] being the neighbours. *)
Definition unlink_tab (p n : Z) (tab : list qentry) : list qentry :=
  tset_prev n p (tset_next p n tab).

Lemma chain_unlink tab a l1 x l2 b :
  chain tab a (l1 ++ x :: l2) b ->
  NoDup ((a :: l1) ++ x :: l2 ++ [b]) ->
  (forall i, i ∈ a :: l1 ++ x :: l2 \/ i = b -> 0 <= i < lenZ tab) ->
  nx tab x = Some (hdd l2 b) /\ pv tab x = Some (lastd a l1) /\
  chain (unlink_tab (lastd a l1) (hdd l2 b) tab) a (l1 ++ l2) b.
Proof.
  intros [Hc1 Hc2]%chain_app (Hnd1 & Hdis & [_ Hnd2]%NoDup_cons)%NoDup_app Hr.
  pose proof (lastd_elem a l1) as Hp. pose proof (chain_prev _ _ _ _ Hc1) as [_ Hpx].
  set (p := lastd a l1) in *.
  assert (0 <= p < lenZ tab) as Hpr by (apply Hr; set_solver).
  assert (hdd l2 b ∈ l2 ++ [b]) as Hn by (destruct l2; simpl; left).
  assert (0 <= hdd l2 b < lenZ tab) as Hnr.
  { apply Hr. destruct l2; [by right|left]. simpl. set_solver. }
  set (n := hdd l2 b) in *.
  assert (forall i, i ∈ a :: l1 -> i <> n) as Hin.
  { intros i Hi ->. apply (Hdis n Hi). by right. }
  assert (chain (unlink_tab p n tab) a l1 n) as Hc1'.
  { unfold unlink_tab. eapply chain_retarget; [exact Hc1|done| | |].
    - intros i Hi Hip. fold p in Hip. by links.
    - intros i Hi. assert (i <> n) by (apply Hin; by right). by links.
    - fold p. split; links; done. }
  destruct l2 as [|y l2]; simpl in n, Hc2.
  - rewrite app_nil_r. by destruct Hc2.
  - destruct Hc2 as [[? ?] Hc2]. split; [done|]. split; [done|].
    apply chain_app. split; [done|].
    apply NoDup_app in Hnd2 as ([Hy _]%NoDup_cons & Hb & _).
    eapply chain_frame; [| |exact Hc2]; unfold unlink_tab; intros i Hi.
    + assert (i <> p) by (intros ->; apply (Hdis p Hp); set_solver). by links.
    + assert (i <> n).
      { destruct Hi as [->|Hi]; intros ->; [|done].
        apply (Hb n); [left|by apply list_elem_of_singleton]. }
      by links.
Qed.

(** ** Queues of the table *)

Record qrep (tab : list qentry) (h : Z) (l : list Z) : Prop := {
  qr_chain : chain tab h l (h + 1);
  qr_head : pv tab h = Some EMPTY;
  qr_tail : nx tab (h + 1) = Some EMPTY;
  qr_mem : forall x, x ∈ l -> 0 <= x < NPROC;
  qr_nodup : NoDup l
}.

(** The links [enqueue] writes: [p] is the entry before the tail [t]. *)
Definition enq_tab (pid t p : Z) (tab : list qentry) : list qentry :=
  tset_prev t pid (tset_next p pid (tset_prev pid p (tset_next pid t tab))).

(** [dequeue] also makes the removed entry point to itself. *)
Definition deq_tab (pid p n : Z) (tab : list qentry) : list qentry :=
  tset_next pid pid (tset_prev pid pid (unlink_tab p n tab)).

Section TableLemmas.
Context (tab : list qentry) (h : Z) (l : list Z).
Context (Hlen : lenZ tab = NQENT) (Hh : NPROC <= h) (Ht : h + 1 < NQENT).
Context (Hrep : qrep tab h l).

Lemma qrep_elem_range i : i ∈ h :: l -> 0 <= i < NQENT /\ i <> h + 1.
Proof.
  intros [->|Hi]%elem_of_cons; [klia|].
  pose proof (qr_mem _ _ _ Hrep _ Hi). klia.
Qed.

Lemma qrep_nodup_head : NoDup (h :: l).
Proof.
  apply NoDup_cons. split; [|apply Hrep].
  intros Hi%(qr_mem _ _ _ Hrep). lia.
Qed.

Lemma enq_tab_rep pid :
  0 <= pid < NPROC -> pid ∉ l ->
  qrep (enq_tab pid (h + 1) (lastd h l) tab) h (l ++ [pid]).
Proof.
  intros Hpid Hnot. pose proof (lastd_elem h l) as Hpl.
  destruct (qrep_elem_range _ Hpl) as [Hpr Hpt].
  assert (forall i, i ∈ h :: l -> i <> pid) as Hne.
  { intros i [->|Hi]%elem_of_cons; [klia|]. intros ->. done. }
  pose proof (Hne _ Hpl) as Hpp.
  assert (forall i, i ∈ l -> i <> pid /\ i <> h + 1) as Hl.
  { intros i Hi. split; [apply Hne; by right|].
    apply qrep_elem_range. by right. }
  destruct (Hrep) as [Hc Hhd Htl Hm Hnd]. unfold enq_tab.
  constructor; [|links; done || klia|links; done || klia| |].
  - apply chain_app. split; [|unfold chain, linked; split; links; done || klia].
    eapply chain_retarget; [exact Hc|apply qrep_nodup_head| | |].
    + intros i Hi Hil. pose proof (Hne i Hi). by links.
    + intros i Hi. pose proof (Hl i Hi). by links.
    + split; links; done || klia.
  - intros x [Hx| ->%list_elem_of_singleton]%elem_of_app; auto.
  - apply NoDup_app. split; [done|]. split; [|apply NoDup_singleton].
    intros x Hx ->%list_elem_of_singleton. done.
Qed.

Lemma unlink_tab_rep l1 pid l2 :
  l = l1 ++ pid :: l2 ->
  nx tab pid = Some (hdd l2 (h + 1)) /\ pv tab pid = Some (lastd h l1) /\
  qrep (unlink_tab (lastd h l1) (hdd l2 (h + 1)) tab) h (l1 ++ l2).
Proof.
  intros El. destruct (Hrep) as [Hc Hhd Htl Hm Hnd]. rewrite El in Hc.
  assert (NoDup ((h :: l1) ++ pid :: l2 ++ [h + 1])) as Hnda.
  { pose proof qrep_nodup_head as Hn. rewrite El in Hn.
    replace ((h :: l1) ++ pid :: l2 ++ [h + 1]) with ((h :: l1 ++ pid :: l2) ++ [h + 1])
      by (simpl; by rewrite <- !app_assoc).
    apply NoDup_app. split; [done|]. split; [|apply NoDup_singleton].
    intros i Hi ->%list_elem_of_singleton. rewrite <- El in Hi.
    by apply qrep_elem_range in Hi as [_ ?]. }
  destruct (chain_unlink _ _ _ _ _ _ Hc Hnda) as (Hn & Hp & Hch).
  { rewrite Hlen. intros i Hi. rewrite <- El in Hi.
    destruct Hi as [Hi| ->]; [by apply qrep_elem_range|klia]. }
  split; [done|]. split; [done|].
  assert (lastd h l1 <> h + 1 /\ 0 <= lastd h l1 < NQENT) as [Hl1 Hl1r].
  { pose proof (lastd_elem h l1) as Hi.
    assert (lastd h l1 ∈ h :: l) as Hi' by (rewrite El; set_solver).
    apply qrep_elem_range in Hi'. tauto. }
  assert (hdd l2 (h + 1) <> h /\ 0 <= hdd l2 (h + 1) < NQENT) as [Hhd2 Hhd2r].
  { destruct l2 as [|y l2]; simpl; [klia|].
    assert (y ∈ l) as Hy by (rewrite El; set_solver). apply Hm in Hy. klia. }
  unfold unlink_tab in *. constructor; [done|links; done || klia|links; done || klia| |].
  - intros x Hx. apply Hm. rewrite El. set_solver.
  - rewrite El in Hnd. apply NoDup_app in Hnd as (? & Hd & [? ?]%NoDup_cons).
    apply NoDup_app. split; [done|]. split; [|done]. intros x Hx Hx2.
    apply (Hd x Hx). by right.
Qed.
End TableLemmas.

(** ** The invariant of the queue system *)

Lemma nx_agree tab tab' i : nthZ tab' i = nthZ tab i -> nx tab' i = nx tab i.
Proof. unfold nx. by intros ->. Qed.
Lemma pv_agree tab tab' i : nthZ tab' i = nthZ tab i -> pv tab' i = pv tab i.
Proof. unfold pv. by intros ->. Qed.

Lemma qrep_frame tab tab' h l :
  (forall i, i = h \/ i = h + 1 \/ i ∈ l -> nthZ tab' i = nthZ tab i) ->
  qrep tab h l -> qrep tab' h l.
Proof.
  intros Ha [Hc Hh Ht Hm Hnd]. constructor; try done.
  - eapply chain_frame; [| |exact Hc]; intros i Hi;
      [apply nx_agree|apply pv_agree]; apply Ha; tauto.
  - rewrite (pv_agree _ _ _ (Ha h (or_introl eq_refl))). done.
  - rewrite (nx_agree _ _ _ (Ha (h + 1) (or_intror (or_introl eq_refl)))). done.
Qed.

Lemma enq_tab_agree pid t p tab i :
  i <> pid -> i <> t -> i <> p -> nthZ (enq_tab pid t p tab) i = nthZ tab i.
Proof.
  intros. unfold enq_tab, tset_prev, tset_next.
  rewrite !nthZ_tset, !decide_False by done. done.
Qed.

Lemma unlink_tab_agree p n tab i :
  i <> p -> i <> n -> nthZ (unlink_tab p n tab) i = nthZ tab i.
Proof.
  intros. unfold unlink_tab, tset_prev, tset_next.
  rewrite !nthZ_tset, !decide_False by done. done.
Qed.

Lemma deq_tab_agree pid p n tab i :
  i <> pid -> nthZ (deq_tab pid p n tab) i = nthZ (unlink_tab p n tab) i.
Proof.
  intros. unfold deq_tab, tset_prev, tset_next.
  rewrite (nthZ_tset _ pid), (nthZ_tset _ pid), !decide_False by done. done.
Qed.

(** The identifier of the queue whose head entry is [h]. *)
Definition qid (h : Z) : Z := h * 65536 + (h + 1).

Lemma queuehead_qid h : 0 <= h < 65535 -> queuehead (qid h) = h.
Proof.
  intros H. unfold queuehead, qid. change 0xFFFF with (Z.ones 16).
  rewrite Z.land_ones, Z.shiftr_div_pow2 by lia.
  rewrite Z.div_add_l, Z.div_small, Z.add_0_r, Z.mod_small by lia. done.
Qed.

Lemma queuetail_qid h : 0 <= h < 65535 -> queuetail (qid h) = h + 1.
Proof.
  intros H. unfold queuetail, qid. change 0xFFFF with (Z.ones 16).
  rewrite Z.land_ones by lia. change 65536 with (2 ^ 16).
  rewrite Z.add_comm, Z.mod_add, Z.mod_small by lia. done.
Qed.

Lemma isbadqueue_qid h : 0 <= h -> h + 1 < NQENT -> isbadqueue (qid h) = false.
Proof.
  intros. assert (0 <= h < 65535) by klia. unfold isbadqueue.
  rewrite queuehead_qid, queuetail_qid by done.
  rewrite wrap_small by klia.
  rewrite (proj2 (Z.ltb_ge h 0)), (proj2 (Z.eqb_eq h _)), (proj2 (Z.leb_gt NQENT _)) by lia.
  done.
Qed.

(** [h] is the head entry of a queue that [newqueue] has handed out. *)
Definition is_qhead (k : kernel) (h : Z) : Prop :=
  NPROC <= h /\ h + 1 < nextqueue k /\ (2 | h).

(** The queues of the table hold the lists [L], each process is in at most
    one of them (invariant 3 of queue.h), and the lock of every queue is
    allocated and not held. *)
Record queues_wf (k : kernel) (L : Z -> list Z) : Prop := {
  qw_len : lenZ (queuetab k) = NQENT;
  qw_next : NPROC <= nextqueue k <= NQENT;
  qw_rep : forall h, is_qhead k h -> qrep (queuetab k) h (L h);
  qw_disj : forall h1 h2 x, is_qhead k h1 -> is_qhead k h2 ->
    x ∈ L h1 -> x ∈ L h2 -> h1 = h2;
  qw_lock : forall h, is_qhead k h ->
    exists l, lk (queuetab k) h = Some l /\ 0 <= l < NLOCK /\ at_rest k l
}.

(** [pid] is in no queue. *)
Definition unqueued (k : kernel) (L : Z -> list Z) (pid : Z) : Prop :=
  forall h, is_qhead k h -> pid ∉ L h.

(** [pid] names a process that is not free. *)
Definition live (k : kernel) (pid : Z) : Prop :=
  0 <= pid < NPROC /\ exists p, nthZ (proctab k) pid = Some p /\ p_state p <> PRFREE.

Lemma isbadpid_live k pid : live k pid -> isbadpid pid k = Ret (false, k).
Proof.
  intros [Hr (p & Hp & Hs)]. unfold isbadpid.
  rewrite (proj2 (Z.ltb_ge pid 0)), (proj2 (Z.leb_gt NPROC pid)) by lia. simpl.
  rewrite (bind_rd_proc _ _ _ _ Hp).
  rewrite (proj2 (Z.eqb_neq PRFREE _)) by congruence. done.
Qed.

Section ReadWrite.
Context {B : Type}.

Lemma bind_get_next i v (c : Z -> K B) k :
  nx (queuetab k) i = Some v -> bind (get_next i) c k = c v k.
Proof.
  unfold nx. destruct (nthZ (queuetab k) i) eqn:E; simpl; [|done]. intros [= <-].
  unfold get_next. rewrite bind_assoc, (bind_rd_q _ _ _ _ E). done.
Qed.
Lemma bind_get_prev i v (c : Z -> K B) k :
  pv (queuetab k) i = Some v -> bind (get_prev i) c k = c v k.
Proof.
  unfold pv. destruct (nthZ (queuetab k) i) eqn:E; simpl; [|done]. intros [= <-].
  unfold get_prev. rewrite bind_assoc, (bind_rd_q _ _ _ _ E). done.
Qed.
Lemma bind_get_qlock i v (c : Z -> K B) k :
  lk (queuetab k) i = Some v -> bind (get_qlock i) c k = c v k.
Proof.
  unfold lk. destruct (nthZ (queuetab k) i) eqn:E; simpl; [|done]. intros [= <-].
  unfold get_qlock. rewrite bind_assoc, (bind_rd_q _ _ _ _ E). done.
Qed.
Lemma bind_upd_tset f i (c : unit -> K B) k :
  0 <= i < lenZ (queuetab k) ->
  bind (upd_q i f) c k = c tt (set_queuetab (tset f i (queuetab k)) k).
Proof.
  intros [e He]%nthZ_lt_Some. rewrite (bind_upd_q _ _ _ _ _ He).
  unfold tset. by rewrite He.
Qed.
Lemma bind_set_next i v (c : unit -> K B) k :
  0 <= i < lenZ (queuetab k) ->
  bind (set_next i v) c k = c tt (set_queuetab (tset_next i v (queuetab k)) k).
Proof. apply bind_upd_tset. Qed.
Lemma bind_set_prev i v (c : unit -> K B) k :
  0 <= i < lenZ (queuetab k) ->
  bind (set_prev i v) c k = c tt (set_queuetab (tset_prev i v (queuetab k)) k).
Proof. apply bind_upd_tset. Qed.
End ReadWrite.

(** One step of symbolic execution of a queue operation. *)
Ltac qstep :=
  first
    [ rewrite bind_set_next by (simpl; autorewrite with links; klia)
    | rewrite bind_set_prev by (simpl; autorewrite with links; klia)
    | erewrite bind_get_next by (simpl; links; first [eassumption | reflexivity])
    | erewrite bind_get_prev by (simpl; links; first [eassumption | reflexivity])
    | erewrite bind_get_qlock by (simpl; links; first [eassumption | reflexivity])
    | erewrite bind_release by
        (first [eassumption | simpl; apply nthZ_updZ_eq; eapply nthZ_Some_lt; eassumption]) ].

(** ** What the operations compute on a well-formed queue system *)

Section Runs.
Context (k : kernel) (L : Z -> list Z) (Hwf : queues_wf k L).
Context (cpu h : Z) (Hq : is_qhead k h).

Lemma qhead_range : NPROC <= h /\ h + 1 < NQENT.
Proof. destruct Hq as (? & ? & _), Hwf as [_ ? _ _ _]. lia. Qed.

Lemma qhead_rep : qrep (queuetab k) h (L h).
Proof. by apply Hwf. Qed.

Lemma qhead_tail_prev : pv (queuetab k) (h + 1) = Some (lastd h (L h)).
Proof. apply chain_prev, qhead_rep. Qed.

Lemma lastd_range : 0 <= lastd h (L h) < NQENT.
Proof.
  pose proof qhead_range. eapply qrep_elem_range; [..|apply lastd_elem];
    try apply qhead_rep; lia.
Qed.

Lemma enqueue_run pid :
  live k pid ->
  enqueue cpu pid (qid h) k =
  Ret (pid, set_queuetab (enq_tab pid (h + 1) (lastd h (L h)) (queuetab k)) k).
Proof.
  intros Hl. pose proof qhead_range as Hr. pose proof qhead_tail_prev as Htp.
  pose proof lastd_range as Hlr. pose proof (qw_len _ _ Hwf) as Hlen.
  destruct (qw_lock _ _ Hwf h Hq) as (l & Hlk & Hlr' & Hrest).
  assert (0 <= pid < NPROC) as Hp by apply Hl.
  unfold enqueue. rewrite isbadqueue_qid by klia.
  rewrite (bind_Ret _ _ _ _ _ (isbadpid_live _ _ Hl)).
  rewrite queuehead_qid, queuetail_qid by klia. cbv zeta.
  erewrite bind_get_qlock by exact Hlk. rewrite bind_acquire by done.
  assert (h + 1 <> pid /\ h <> pid) as [? ?] by klia.
  repeat qstep. simpl. rewrite release_acquire_tab by done. done.
Qed.

Lemma unlink_range l1 pid l2 :
  L h = l1 ++ pid :: l2 ->
  0 <= pid < NPROC /\ 0 <= lastd h l1 < NQENT /\ 0 <= hdd l2 (h + 1) < NQENT /\
  lastd h l1 <> pid /\ hdd l2 (h + 1) <> pid.
Proof.
  intros El. pose proof qhead_range as Hr. pose proof qhead_rep as Hrep.
  assert (forall i, i ∈ L h -> 0 <= i < NPROC) as Hm by apply Hrep.
  pose proof (qr_nodup _ _ _ Hrep) as Hnd. rewrite El in Hm, Hnd.
  apply NoDup_app in Hnd as (_ & Hd & [Hp _]%NoDup_cons).
  assert (0 <= pid < NPROC) as Hpid by (apply Hm; set_solver).
  pose proof (lastd_elem h l1) as Hl1. split; [done|].
  split; [|split; [|split]].
  - apply elem_of_cons in Hl1 as [->|Hi]; [klia|].
    assert (0 <= lastd h l1 < NPROC) by (apply Hm, elem_of_app; by left). klia.
  - destruct l2 as [|y l2]; simpl; [klia|].
    assert (0 <= y < NPROC) by (apply Hm; set_solver). klia.
  - intros E. rewrite E in Hl1. apply elem_of_cons in Hl1 as [->|Hi]; [klia|].
    apply (Hd pid Hi). left.
  - destruct l2 as [|y l2]; simpl; [klia|]. intros ->. apply Hp. left.
Qed.

Lemma dequeue_run_cons pid l' :
  L h = pid :: l' ->
  dequeue cpu (qid h) k =
  Ret (pid, set_queuetab (deq_tab pid h (hdd l' (h + 1)) (queuetab k)) k).
Proof.
  intros El. pose proof qhead_range as Hr. pose proof (qw_len _ _ Hwf) as Hlen.
  destruct (unlink_range [] pid l' El) as (Hp & Hr1 & Hr2 & Hn1 & Hn2). simpl in Hn1.
  destruct (unlink_tab_rep _ _ _ Hlen (proj1 Hr) (proj2 Hr) qhead_rep [] pid l' El)
    as (Hnx & Hpv & _). simpl in Hpv.
  destruct (qw_lock _ _ Hwf h Hq) as (l & Hlk & Hlr' & Hrest).
  assert (nx (queuetab k) h = Some pid) as Hhn.
  { pose proof (qr_chain _ _ _ qhead_rep) as Hc. rewrite El in Hc. apply Hc. }
  unfold dequeue. rewrite isbadqueue_qid, queuehead_qid by klia. cbv zeta.
  erewrite bind_get_qlock by exact Hlk. rewrite bind_acquire by done.
  erewrite bind_get_next by exact Hhn. rewrite (proj2 (Z.ltb_lt pid NPROC)) by lia.
  repeat qstep. simpl. rewrite release_acquire_tab by done. done.
Qed.

Lemma dequeue_run_nil : L h = [] -> dequeue cpu (qid h) k = Ret (EMPTY, k).
Proof.
  intros El. pose proof qhead_range as Hr.
  destruct (qw_lock _ _ Hwf h Hq) as (l & Hlk & Hlr' & Hrest).
  assert (nx (queuetab k) h = Some (h + 1)) as Hhn.
  { pose proof (qr_chain _ _ _ qhead_rep) as Hc. rewrite El in Hc. apply Hc. }
  unfold dequeue. rewrite isbadqueue_qid, queuehead_qid by klia. cbv zeta.
  erewrite bind_get_qlock by exact Hlk. rewrite bind_acquire by done.
  erewrite bind_get_next by exact Hhn. rewrite (proj2 (Z.ltb_ge (h + 1) NPROC)) by lia.
  repeat qstep. simpl. rewrite release_acquire_tab by done. by destruct k.
Qed.

(** Walking back from [x] over [l1] reaches the head. *)
Lemma remove_loop_run l1 x n :
  chain (queuetab k) h l1 x -> (forall i, i ∈ l1 -> 0 <= i < NPROC) ->
  (length l1 < n)%nat ->
  remove_loop n x k = Ret ((Some h, (n - S (length l1))%nat), k).
Proof.
  revert x n. induction l1 as [|y l1 IH] using rev_ind; intros x n Hc Hm Hn.
  - destruct Hc as [_ Hc]. destruct n as [|n]; [simpl in Hn; lia|]. simpl.
    pose proof qhead_range. rewrite Nat.sub_0_r.
    erewrite bind_get_prev by exact Hc. rewrite wrap_small by klia.
    erewrite bind_get_prev by apply qhead_rep. done.
  - apply chain_app in Hc as [Hc1 [_ Hc2]]. rewrite length_app in Hn |- *. simpl in Hn |- *.
    destruct n as [|n]; [lia|]. simpl. erewrite bind_get_prev by exact Hc2.
    assert (0 <= y < NPROC) by (apply Hm; set_solver). rewrite wrap_small by klia.
    destruct (chain_prev _ _ _ _ Hc1) as [_ Hpv]. erewrite bind_get_prev by exact Hpv.
    assert (0 <= lastd h l1) as Hl.
    { pose proof (lastd_elem h l1) as [->|Hi]%elem_of_cons; [pose proof qhead_range; klia|].
      apply Hm. apply elem_of_app. by left. }
    rewrite (proj2 (Z.eqb_neq EMPTY _)) by klia.
    rewrite IH; [|done|intros i Hi; apply Hm, elem_of_app; by left|lia].
    do 3 f_equal. lia.
Qed.

Lemma remove_run l1 pid l2 :
  L h = l1 ++ pid :: l2 -> live k pid ->
  remove cpu pid k =
  Ret (pid, set_queuetab (unlink_tab (lastd h l1) (hdd l2 (h + 1)) (queuetab k)) k).
Proof.
  intros El Hl. pose proof qhead_range as Hr. pose proof (qw_len _ _ Hwf) as Hlen.
  destruct (unlink_range l1 pid l2 El) as (Hp & Hr1 & Hr2 & Hn1 & Hn2).
  pose proof qhead_rep as Hrep.
  destruct (unlink_tab_rep _ _ _ Hlen (proj1 Hr) (proj2 Hr) Hrep l1 pid l2 El)
    as (Hnx & Hpv & _).
  destruct (qw_lock _ _ Hwf h Hq) as (l & Hlk & Hlr' & Hrest).
  assert (lenZ (L h) <= NPROC) as Hbound.
  { pose proof (NoDup_range_length _ NPROC (qr_nodup _ _ _ Hrep) (qr_mem _ _ _ Hrep)). klia. }
  unfold lenZ in Hbound. rewrite El, length_app in Hbound. simpl in Hbound.
  unfold remove. rewrite (bind_Ret _ _ _ _ _ (isbadpid_live _ _ Hl)).
  erewrite bind_Ret; [|apply remove_loop_run with (l1 := l1)].
  - cbn [fst snd]. destruct (Nat.eqb_spec (Z.to_nat NQENT - S (length l1)) 0); [klia|].
    erewrite bind_get_qlock by exact Hlk. rewrite bind_acquire by done.
    repeat qstep. simpl. rewrite release_acquire_tab by done. done.
  - pose proof (qr_chain _ _ _ Hrep) as Hc. rewrite El in Hc. apply chain_app in Hc. tauto.
  - intros i Hi. apply (qr_mem _ _ _ Hrep). rewrite El. apply elem_of_app. by left.
  - klia.
Qed.
End Runs.

(** ** Preservation of the invariant *)

Lemma qheads_apart k h h' :
  is_qhead k h -> is_qhead k h' -> h <> h' -> h' <> h + 1 /\ h' + 1 <> h /\ h' + 1 <> h + 1.
Proof. intros (_ & _ & [a ->]) (_ & _ & [b ->]). lia. Qed.

Lemma queues_wf_update k L h l' tab' :
  queues_wf k L -> is_qhead k h -> lenZ tab' = NQENT -> qrep tab' h l' ->
  (forall i, i <> h -> i <> h + 1 -> i ∉ L h -> i ∉ l' ->
    nthZ tab' i = nthZ (queuetab k) i) ->
  (forall i, lk tab' i = lk (queuetab k) i) ->
  (forall x, x ∈ l' -> x ∈ L h \/ unqueued k L x) ->
  queues_wf (set_queuetab tab' k) (<[h := l']> L).
Proof.
  intros [Hlen Hnq Hrep Hdisj Hlk] Hq Hlen' Hrep' Hag Hlk' Hnew.
  assert (forall h' x, is_qhead k h' -> h' <> h -> x ∈ l' -> x ∈ L h' -> False) as Hsep.
  { intros h' x Hq' Hne Hx Hx'. destruct (Hnew x Hx) as [Hx2|Hu].
    - apply Hne. by apply (Hdisj h' h x).
    - by apply (Hu h'). }
  constructor; simpl; [done|done| | |].
  - intros h' Hq'. destruct (decide (h' = h)) as [->|Hne].
    + by rewrite fn_lookup_insert.
    + rewrite fn_lookup_insert_ne by done.
      pose proof (qheads_apart k h h' Hq Hq' (not_eq_sym Hne)) as (? & ? & ?).
      destruct Hq' as (Hh1 & Hh2 & Hh3).
      assert (is_qhead k h') as Hq' by done.
      eapply qrep_frame; [|by apply Hrep]. intros i Hi. apply Hag.
      * destruct Hi as [->|[->|Hi]]; [done|done|].
        pose proof (qr_mem _ _ _ (Hrep h' Hq') _ Hi). destruct Hq. lia.
      * destruct Hi as [->|[->|Hi]]; [done|done|].
        pose proof (qr_mem _ _ _ (Hrep h' Hq') _ Hi). destruct Hq. lia.
      * intros Hi2. pose proof (qr_mem _ _ _ (Hrep h Hq) _ Hi2).
        destruct Hi as [->|[->|Hi]]; [lia|lia|]. apply Hne. by apply (Hdisj h' h i).
      * intros Hi2. pose proof (qr_mem _ _ _ Hrep' _ Hi2).
        destruct Hi as [->|[->|Hi]]; [lia|lia|]. by apply (Hsep h' i).
  - intros h1 h2 x Hq1 Hq2.
    destruct (decide (h1 = h)) as [->|Hn1], (decide (h2 = h)) as [->|Hn2];
      rewrite ?fn_lookup_insert, ?fn_lookup_insert_ne by done; [done| | |by apply Hdisj].
    + intros Hx1 Hx2. exfalso. by apply (Hsep h2 x).
    + intros Hx1 Hx2. exfalso. by apply (Hsep h1 x).
  - intros h' Hq'. rewrite Hlk'. by apply Hlk.
Qed.

(** ** The operations on well-formed queues *)

Lemma enq_tab_lk pid t p tab i : lk (enq_tab pid t p tab) i = lk tab i.
Proof. unfold enq_tab. by autorewrite with links. Qed.
Lemma unlink_tab_lk p n tab i : lk (unlink_tab p n tab) i = lk tab i.
Proof. unfold unlink_tab. by autorewrite with links. Qed.
Lemma deq_tab_lk pid p n tab i : lk (deq_tab pid p n tab) i = lk tab i.
Proof. unfold deq_tab. autorewrite with links. apply unlink_tab_lk. Qed.

Lemma enqueue_wf k L h pid :
  queues_wf k L -> is_qhead k h -> live k pid -> unqueued k L pid ->
  queues_wf (set_queuetab (enq_tab pid (h + 1) (lastd h (L h)) (queuetab k)) k)
    (<[h := L h ++ [pid]]> L).
Proof.
  intros Hwf Hq Hl Hu. pose proof (qhead_range _ _ Hwf _ Hq) as Hr.
  pose proof (qw_len _ _ Hwf) as Hlen.
  assert (0 <= pid < NPROC) as Hp by apply Hl.
  apply queues_wf_update; [done|done| | | | |].
  - unfold enq_tab. by autorewrite with links.
  - apply enq_tab_rep; try done; try lia; by apply Hwf || apply Hu.
  - intros i Hi1 Hi2 Hi3 Hi4. apply enq_tab_agree; [|done|].
    + intros ->. apply Hi4. apply elem_of_app. right. by left.
    + intros ->. pose proof (lastd_elem h (L h)) as [E|E]%elem_of_cons; [|done].
      done.
  - intros i. apply enq_tab_lk.
  - intros x [Hx| ->%list_elem_of_singleton]%elem_of_app; auto.
Qed.

Lemma remove_wf k L h l1 pid l2 :
  queues_wf k L -> is_qhead k h -> L h = l1 ++ pid :: l2 ->
  queues_wf (set_queuetab (unlink_tab (lastd h l1) (hdd l2 (h + 1)) (queuetab k)) k)
    (<[h := l1 ++ l2]> L).
Proof.
  intros Hwf Hq El. pose proof (qhead_range _ _ Hwf _ Hq) as Hr.
  pose proof (qw_len _ _ Hwf) as Hlen.
  apply queues_wf_update; [done|done| | | | |].
  - unfold unlink_tab. by autorewrite with links.
  - eapply unlink_tab_rep; try done; try lia. by apply Hwf.
  - intros i Hi1 Hi2 Hi3 Hi4. rewrite El in Hi3. apply unlink_tab_agree.
    + intros ->. pose proof (lastd_elem h l1) as [E|E]%elem_of_cons; [done|].
      apply Hi3, elem_of_app. by left.
    + intros ->. destruct l2; [done|]. simpl in Hi3. set_solver.
  - intros i. apply unlink_tab_lk.
  - intros x Hx. left. rewrite El. set_solver.
Qed.

Lemma dequeue_wf k L h pid l' :
  queues_wf k L -> is_qhead k h -> L h = pid :: l' ->
  queues_wf (set_queuetab (deq_tab pid h (hdd l' (h + 1)) (queuetab k)) k) (<[h := l']> L).
Proof.
  intros Hwf Hq El. pose proof (qhead_range _ _ Hwf _ Hq) as Hr.
  pose proof (remove_wf k L h [] pid l' Hwf Hq El) as Hu. simpl in Hu.
  pose proof (qr_nodup _ _ _ (qw_rep _ _ Hwf _ Hq)) as Hnd. rewrite El in Hnd.
  apply NoDup_cons in Hnd as [Hni _].
  assert (0 <= pid < NPROC) as Hp.
  { apply (qr_mem _ _ _ (qw_rep _ _ Hwf _ Hq)). rewrite El. left. }
  assert (lenZ (deq_tab pid h (hdd l' (h + 1)) (queuetab k)) = NQENT) as Hlen.
  { unfold deq_tab. rewrite lenZ_tset_next, lenZ_tset_prev. apply (qw_len _ _ Hu). }
  apply queues_wf_update; [done|done|done| | | |].
  - pose proof (qw_rep _ _ Hu h Hq) as Hrep. rewrite fn_lookup_insert in Hrep.
    eapply qrep_frame; [|exact Hrep]. intros i Hi. apply deq_tab_agree.
    destruct Hi as [->|[->|Hi]]; [lia|lia|]. intros ->. done.
  - intros i Hi1 Hi2 Hi3 Hi4. rewrite El in Hi3.
    rewrite deq_tab_agree by set_solver. apply unlink_tab_agree; [done|].
    intros ->. destruct l'; [done|]. simpl in Hi4. set_solver.
  - intros i. apply deq_tab_lk.
  - intros x Hx. left. rewrite El. by right.
Qed.

(** On a well-formed queue system, [enqueue] of a live process that is in
    no queue returns its id, changes nothing but [queuetab], and appends the
    process at the tail of the chosen queue, leaving every other queue as it
    was and the whole system well formed. *)
Theorem enqueue_fifo cpu k L h pid :
  queues_wf k L -> is_qhead k h -> live k pid -> unqueued k L pid ->
  exists tab',
    enqueue cpu pid (qid h) k = Ret (pid, set_queuetab tab' k) /\
    queues_wf (set_queuetab tab' k) (<[h := L h ++ [pid]]> L).
Proof.
  intros Hwf Hq Hl Hu. eexists. split; [by apply enqueue_run|by apply enqueue_wf].
Qed.

(** On a well-formed queue system, [dequeue] returns [EMPTY] and changes
    nothing when the queue is empty; otherwise it removes and returns the
    first process, changes nothing but [queuetab], leaves the removed entry
    pointing to itself and the system well formed. *)
Theorem dequeue_fifo cpu k L h :
  queues_wf k L -> is_qhead k h ->
  match L h with
  | [] => dequeue cpu (qid h) k = Ret (EMPTY, k)
  | pid :: l' =>
      exists tab',
        dequeue cpu (qid h) k = Ret (pid, set_queuetab tab' k) /\
        queues_wf (set_queuetab tab' k) (<[h := l']> L) /\
        nx tab' pid = Some pid /\ pv tab' pid = Some pid
  end.
Proof.
  intros Hwf Hq. destruct (L h) as [|pid l'] eqn:El.
  - by apply (dequeue_run_nil k L).
  - eexists. split; [by apply (dequeue_run_cons k L)|].
    split; [by apply dequeue_wf|].
    pose proof (qw_len _ _ Hwf) as Hlen.
    assert (0 <= pid < NPROC) as Hp.
    { apply (qr_mem _ _ _ (qw_rep _ _ Hwf _ Hq)). rewrite El. left. }
    assert (0 <= pid < NQENT) as Hp' by klia.
    unfold deq_tab, unlink_tab. split; links; done.
Qed.

(** On a well-formed queue system, [remove] of a live process that is
    somewhere in a queue finds the head of that queue within its step bound,
    returns the process id, changes nothing but [queuetab], and takes the
    process out without changing the order of the others. *)
Theorem remove_anywhere cpu k L h l1 pid l2 :
  queues_wf k L -> is_qhead k h -> live k pid -> L h = l1 ++ pid :: l2 ->
  exists tab',
    remove cpu pid k = Ret (pid, set_queuetab tab' k) /\
    queues_wf (set_queuetab tab' k) (<[h := l1 ++ l2]> L).
Proof.
  intros Hwf Hq Hl El. eexists. split; [by apply (remove_run k L)|by apply (remove_wf _ _ _ _ pid)].
Qed.

(** [enqueue] refuses with [SYSERR] and changes nothing when the queue
    identifier is malformed, the process id is out of range, or the process
    slot is free. *)
Theorem enqueue_rejects cpu k q pid :
  lenZ (proctab k) = NPROC ->
  isbadqueue q = true \/ pid < 0 \/ NPROC <= pid \/
    (p_state <$> nthZ (proctab k) pid) = Some PRFREE ->
  enqueue cpu pid q k = Ret (SYSERR, k).
Proof.
  intros Hlen H. unfold enqueue. destruct (isbadqueue q); [done|].
  assert (isbadpid pid k = Ret (true, k)) as Hb.
  { unfold isbadpid. destruct H as [H|H]; [done|].
    destruct (Z.ltb_spec pid 0); [done|]. destruct (Z.leb_spec NPROC pid); [done|].
    destruct H as [?|[?|H]]; [lia|lia|]. simpl.
    destruct (nthZ (proctab k) pid) as [p|] eqn:E; [|done]. injection H as H.
    rewrite (bind_rd_proc _ _ _ _ E), H. done. }
  rewrite (bind_Ret _ _ _ _ _ Hb). done.
Qed.

Lemma qid_of_shift h :
  0 <= h < 32768 -> h + 1 < 65536 ->
  u32 (Z.lor (s32 (Z.shiftl h 16)) (Z.land (h + 1) 0xFFFF)) = qid h.
Proof.
  intros. rewrite Z.shiftl_mul_pow2 by lia.
  rewrite swrap_small by (change (2 ^ (32 - 1)) with (32768 * 2 ^ 16); lia).
  change 0xFFFF with (Z.ones 16). rewrite Z.land_ones, Z.mod_small by lia.
  rewrite <- Z.shiftl_mul_pow2, shiftl_lor_disjoint by lia.
  unfold qid. rewrite wrap_small; change (2 ^ 16) with 65536; [done|].
  change (2 ^ 32) with 4294967296. lia.
Qed.

(** The links [newqueue] writes for the pair of entries [n], [n + 1]. *)
Definition newq_tab (n l : Z) (tab : list qentry) : list qentry :=
  tset_lock n l (tset_prev (n + 1) n (tset_next (n + 1) EMPTY
    (tset_prev n EMPTY (tset_next n (n + 1) tab)))).

Lemma newq_tab_agree n l tab i :
  i <> n -> i <> n + 1 -> nthZ (newq_tab n l tab) i = nthZ tab i.
Proof.
  intros. unfold newq_tab, tset_lock, tset_prev, tset_next.
  rewrite !nthZ_tset, !decide_False by done. done.
Qed.

Lemma newq_tab_rep n l tab :
  0 <= n -> n + 1 < lenZ tab -> qrep (newq_tab n l tab) n [].
Proof.
  intros. unfold newq_tab. constructor; simpl.
  - unfold linked. split; links; done.
  - links. done.
  - links. done.
  - intros x Hx. by apply not_elem_of_nil in Hx.
  - apply NoDup_nil_2.
Qed.

(** The state after [newqueue] has taken lock [l]. *)
Definition newq_state (l : Z) (k : kernel) : kernel :=
  set_queuetab (newq_tab (nextqueue k) l (queuetab k))
    (set_nextqueue (nextqueue k + 2)
      (set_locktab (updZ l unheld (locktab k)) (set_nextlock l k))).

Lemma newqueue_run k i :
  lenZ (queuetab k) = NQENT -> locks_wf k -> lock_is_free k i ->
  0 <= nextqueue k -> nextqueue k + 2 <= NQENT ->
  exists l, 0 <= l < NLOCK /\ lock_is_free k l /\
    newqueue k = Ret (qid (nextqueue k), newq_state l k).
Proof.
  intros Hlen Hlw Hf Hn0 Hn.
  set (n := nextqueue k) in *. unfold newqueue.
  rewrite bind_modify, bind_gets, bind_modify, bind_gets. simpl. fold n.
  unfold atomic_increment. fold n.
  rewrite !(swrap_small 32) by (rewrite ?(swrap_small 32);
    change (2 ^ (32 - 1)) with 2147483648; klia).
  replace (n + 1 - 1) with n by lia. replace (n + 1 + 1 - 1) with (n + 1) by lia.
  do 4 qstep.
  set (k1 := set_queuetab _ _).
  destruct (lock_create_found k1 i) as (l & Hl & Hfl & Hrun); [|done|].
  { destruct Hlw. by constructor. }
  exists l. split; [done|]. split; [done|].
  rewrite (bind_Ret _ _ _ _ _ Hrun).
  rewrite bind_upd_tset by (subst k1; simpl; autorewrite with links; klia).
  unfold ret. rewrite qid_of_shift by klia. subst k1. unfold newq_state, newq_tab.
  cbn. fold n. by replace (n + 1 + 1) with (n + 2) by lia.
Qed.

(** While entries and locks remain, [newqueue] returns the identifier of
    a queue at the next two free entries; the new queue is empty, the old
    ones keep their contents, and the system stays well formed. *)
Theorem newqueue_fresh k L i :
  queues_wf k L -> locks_wf k -> lock_is_free k i ->
  (2 | nextqueue k) -> nextqueue k + 2 <= NQENT ->
  exists k',
    newqueue k = Ret (qid (nextqueue k), k') /\
    nextqueue k' = nextqueue k + 2 /\ is_qhead k' (nextqueue k) /\
    locks_wf k' /\ queues_wf k' (<[nextqueue k := []]> L).
Proof.
  intros Hwf Hlw Hf Hdiv Hn. pose proof (qw_next _ _ Hwf) as Hnr.
  pose proof (qw_len _ _ Hwf) as Hlen.
  destruct (newqueue_run k i) as (l & Hl & Hfl & Hrun); [done|done|done|klia|done|].
  exists (newq_state l k). split; [done|]. split; [done|].
  split; [split; simpl; [lia|split; [lia|done]]|].
  split; [destruct (lock_create_wf k l Hlw Hl); by constructor|].
  set (n := nextqueue k) in *.
  assert (forall h, is_qhead (newq_state l k) h -> h <> n -> is_qhead k h) as Hold.
  { intros h (H1 & H2 & [a ->]) Hne. simpl in H2. destruct Hdiv as [b Hb].
    split; [done|]. split; [lia|by exists a]. }
  constructor; simpl; fold n.
  - unfold newq_tab. by autorewrite with links.
  - lia.
  - intros h Hq. destruct (decide (h = n)) as [->|Hne].
    + rewrite fn_lookup_insert. apply newq_tab_rep; klia.
    + rewrite fn_lookup_insert_ne by done. specialize (Hold h Hq Hne).
      pose proof (qw_rep _ _ Hwf h Hold) as Hrep. destruct Hold as (? & ? & ?).
      eapply qrep_frame; [|done]. intros j Hj. fold n in H0.
      assert (j < n) by (destruct Hj as [->|[->|Hj%(qr_mem _ _ _ Hrep)]]; lia).
      apply newq_tab_agree; lia.
  - intros h1 h2 x Hq1 Hq2.
    destruct (decide (h1 = n)) as [->|Hn1], (decide (h2 = n)) as [->|Hn2];
      rewrite ?fn_lookup_insert, ?fn_lookup_insert_ne by done; [done| | |].
    + by intros Hx%not_elem_of_nil.
    + by intros _ Hx%not_elem_of_nil.
    + apply (qw_disj _ _ Hwf); auto.
  - intros h Hq. destruct (decide (h = n)) as [->|Hne].
    + exists l. split; [unfold newq_tab; rewrite lk_tset_lock by
        (autorewrite with links; klia); by rewrite decide_True|].
      split; [done|]. unfold at_rest. simpl. apply nthZ_updZ_eq.
      destruct Hfl as (e & He%nthZ_Some_lt & _). lia.
    + specialize (Hold h Hq Hne). destruct (qw_lock _ _ Hwf h Hold) as (l' & Hlk & Hl' & Hr).
      exists l'. split; [|split; [done|]].
      * unfold newq_tab. rewrite lk_tset_lock by (autorewrite with links; klia).
        rewrite decide_False by done. by autorewrite with links.
      * unfold at_rest in *. simpl. rewrite nthZ_updZ_ne; [done|]. intros ->.
        destruct Hfl as (e & He & Hs). rewrite Hr in He. by injection He as <-.
Qed.

(** ** Refinement of an abstract FIFO system *)

(** Operations a client may request, naming queues by their head entry. *)
Inductive qop :=
  | Enq (pid h : Z)
  | Deq (h : Z)
  | Rem (pid : Z).

Definition run_qop (cpu : Z) (op : qop) : K Z :=
  match op with
  | Enq pid h => enqueue cpu pid (qid h)
  | Deq h => dequeue cpu (qid h)
  | Rem pid => remove cpu pid
  end.

Fixpoint run_qops (cpu : Z) (ops : list qop) : K (list Z) :=
  match ops with
  | [] => ret []
  | op :: ops' => r <-- run_qop cpu op ;; rs <-- run_qops cpu ops' ;; ret (r :: rs)
  end.

(** The abstract system: a list of process ids per queue. *)
Inductive spec_qop (k : kernel) : (Z -> list Z) -> qop -> Z -> (Z -> list Z) -> Prop :=
  | spec_enq L pid h :
      is_qhead k h -> live k pid -> unqueued k L pid ->
      spec_qop k L (Enq pid h) pid (<[h := L h ++ [pid]]> L)
  | spec_deq_empty L h :
      is_qhead k h -> L h = [] -> spec_qop k L (Deq h) EMPTY L
  | spec_deq L h pid l :
      is_qhead k h -> L h = pid :: l -> spec_qop k L (Deq h) pid (<[h := l]> L)
  | spec_rem L h l1 pid l2 :
      is_qhead k h -> live k pid -> L h = l1 ++ pid :: l2 ->
      spec_qop k L (Rem pid) pid (<[h := l1 ++ l2]> L).

Inductive spec_qops (k : kernel) :
    (Z -> list Z) -> list qop -> list Z -> (Z -> list Z) -> Prop :=
  | spec_nil L : spec_qops k L [] [] L
  | spec_cons L op r L1 ops rs L2 :
      spec_qop k L op r L1 -> spec_qops k L1 ops rs L2 ->
      spec_qops k L (op :: ops) (r :: rs) L2.

Lemma qop_refines cpu k L op r L' :
  queues_wf k L -> spec_qop k L op r L' ->
  exists tab', run_qop cpu op k = Ret (r, set_queuetab tab' k) /\
    queues_wf (set_queuetab tab' k) L'.
Proof.
  intros Hwf H. destruct H; simpl.
  - eexists. split; [by apply enqueue_run|by apply enqueue_wf].
  - exists (queuetab k). rewrite (dequeue_run_nil k L) by done. by destruct k.
  - eexists. split; [by apply (dequeue_run_cons k L)|by apply dequeue_wf].
  - eexists. split; [by apply (remove_run k L)|by apply (remove_wf _ _ _ _ pid)].
Qed.

(** C9: The queue table implements the abstract system: any sequence of
    enqueue, dequeue and remove requests that the list specification allows
    returns exactly the specified results, touches only [queuetab], and ends
    in a table that represents the specified lists. *)
Theorem queue_refinement cpu k L ops rs L' :
  queues_wf k L -> spec_qops k L ops rs L' ->
  exists tab', run_qops cpu ops k = Ret (rs, set_queuetab tab' k) /\
    queues_wf (set_queuetab tab' k) L'.
Proof.
  intros Hwf H. revert Hwf. cut (forall tab, queues_wf (set_queuetab tab k) L ->
    exists tab', run_qops cpu ops (set_queuetab tab k) = Ret (rs, set_queuetab tab' k) /\
      queues_wf (set_queuetab tab' k) L').
  { intros Hc Hwf. destruct k. by apply Hc. }
  induction H as [L|L op r L1 ops rs L2 H1 _ IH]; intros tab Hwf.
  - exists tab. done.
  - assert (spec_qop (set_queuetab tab k) L op r L1) as H1'.
    { destruct H1; econstructor; eassumption. }
    destruct (qop_refines cpu _ _ _ _ _ Hwf H1') as (tab1 & Hr1 & Hwf1).
    destruct (IH tab1 Hwf1) as (tab2 & Hr2 & Hwf2).
    exists tab2. split; [|done]. simpl. rewrite (bind_Ret _ _ _ _ _ Hr1).
    change (set_queuetab tab1 (set_queuetab tab k)) with (set_queuetab tab1 k).
    rewrite (bind_Ret _ _ _ _ _ Hr2). done.
Qed.

(** ** The interface of queues *)

Lemma nonempty_run k L h :
  queues_wf k L -> is_qhead k h ->
  nonempty (qid h) k = Ret (match L h with [] => false | _ => true end, k).
Proof.
  intros Hwf Hq. pose proof (qhead_range _ _ Hwf _ Hq) as Hr.
  pose proof (qw_rep _ _ Hwf h Hq) as [Hc _ _ Hm _].
  unfold nonempty. rewrite queuehead_qid by klia.
  assert (nx (queuetab k) h = Some (hdd (L h) (h + 1))) as Hnx.
  { destruct (L h); simpl in Hc; apply Hc. }
  unfold nx in Hnx. destruct (nthZ (queuetab k) h) as [e|] eqn:E; [|done].
  injection Hnx as Hnx. rewrite (bind_rd_q _ _ _ _ E), Hnx. unfold ret. do 3 f_equal.
  destruct (L h) as [|y l]; simpl; [apply Z.ltb_ge; lia|apply Z.ltb_lt, Hm; left].
Qed.

Lemma queues_wf_frame k k' L :
  queuetab k' = queuetab k -> nextqueue k' = nextqueue k -> locktab k' = locktab k ->
  queues_wf k L -> queues_wf k' L.
Proof.
  intros E1 E2 E3 [H1 H2 H3 H4 H5].
  assert (forall h, is_qhead k' h -> is_qhead k h) as Hq by (unfold is_qhead; by rewrite E2).
  constructor; rewrite ?E1, ?E2; auto; [eauto|].
  intros h Hh. destruct (H5 h (Hq h Hh)) as (l & ? & ? & ?). exists l. unfold at_rest. by rewrite E3.
Qed.

Lemma queues_wf_ext k L L' : (forall h, L' h = L h) -> queues_wf k L -> queues_wf k L'.
Proof.
  intros E [H1 H2 H3 H4 H5]. constructor; [done|done| | |done].
  - intros h Hh. rewrite E. auto.
  - intros h1 h2 x ? ?. rewrite !E. eauto.
Qed.

#[export] Instance queues_wf_proper :
  Proper (eq ==> pointwise_relation Z eq ==> iff) queues_wf.
Proof.
  intros k ? <- L L' E. split; apply queues_wf_ext; intros h; by rewrite E.
Qed.

(** What the clients of the queues rely on, for an invariant [wf] that ties
    the kernel to the lists its queues hold. *)
Class FifoQueues (wf : kernel -> (Z -> list Z) -> Prop) : Prop := {
  fq_nonempty k L h : wf k L -> is_qhead k h ->
    nonempty (qid h) k = Ret (match L h with [] => false | _ => true end, k);
  fq_enqueue cpu k L h pid : wf k L -> is_qhead k h -> live k pid -> unqueued k L pid ->
    exists tab', enqueue cpu pid (qid h) k = Ret (pid, set_queuetab tab' k) /\
      wf (set_queuetab tab' k) (<[h := L h ++ [pid]]> L);
  fq_dequeue cpu k L h pid l : wf k L -> is_qhead k h -> L h = pid :: l ->
    exists tab', dequeue cpu (qid h) k = Ret (pid, set_queuetab tab' k) /\
      wf (set_queuetab tab' k) (<[h := l]> L);
  fq_remove cpu k L h l1 pid l2 : wf k L -> is_qhead k h -> live k pid -> L h = l1 ++ pid :: l2 ->
    exists tab', remove cpu pid k = Ret (pid, set_queuetab tab' k) /\
      wf (set_queuetab tab' k) (<[h := l1 ++ l2]> L);
  fq_nodup k L h : wf k L -> is_qhead k h -> NoDup (L h);
  fq_range k L h x : wf k L -> is_qhead k h -> x ∈ L h -> 0 <= x < NPROC;
  fq_disj k L h1 h2 x : wf k L -> is_qhead k h1 -> is_qhead k h2 -> x ∈ L h1 -> x ∈ L h2 -> h1 = h2;
  fq_frame k k' L : queuetab k' = queuetab k -> nextqueue k' = nextqueue k ->
    locktab k' = locktab k -> wf k L -> wf k' L;
  fq_ext k L L' : (forall h, L' h = L h) -> wf k L -> wf k L'
}.

#[export] Instance queuetab_fifo : FifoQueues queues_wf.
Proof.
  constructor.
  - apply nonempty_run.
  - intros. eexists. split; [by apply enqueue_run|by apply enqueue_wf].
  - intros. eexists. split; [by apply (dequeue_run_cons k L)|by apply dequeue_wf].
  - intros. eexists. split; [by apply (remove_run k L)|by apply (remove_wf _ _ _ _ pid)].
  - intros k L h Hwf Hq. apply (qw_rep _ _ Hwf h Hq).
  - intros k L h x Hwf Hq. apply (qw_rep _ _ Hwf h Hq).
  - intros k L h1 h2 x Hwf. apply (qw_disj _ _ Hwf).
  - apply queues_wf_frame.
  - apply queues_wf_ext.
Qed.

(** The same invariant with the locks of the queues known: [QL h] is the lock
    of the queue at [h]. *)
Definition queues_at (QL : Z -> Z) (k : kernel) (L : Z -> list Z) : Prop :=
  queues_wf k L /\ forall h, is_qhead k h -> lk (queuetab k) h = Some (QL h).

#[export] Instance queues_at_fifo QL : FifoQueues (queues_at QL).
Proof.
  constructor.
  - intros k L h [Hwf _]. by apply nonempty_run.
  - intros cpu k L h pid [Hwf Hl] ? ? ?. eexists. split; [by apply enqueue_run|].
    split; [by apply enqueue_wf|]. intros h' Hh'. simpl. rewrite enq_tab_lk. by apply Hl.
  - intros cpu k L h pid l [Hwf Hl] ? ?. eexists. split; [by apply (dequeue_run_cons k L)|].
    split; [by apply dequeue_wf|]. intros h' Hh'. simpl. rewrite deq_tab_lk. by apply Hl.
  - intros cpu k L h l1 pid l2 [Hwf Hl] ? ? ?. eexists. split; [by apply (remove_run k L)|].
    split; [by apply (remove_wf _ _ _ _ pid)|]. intros h' Hh'. simpl. rewrite unlink_tab_lk. by apply Hl.
  - intros k L h [Hwf _] Hq. apply (qw_rep _ _ Hwf h Hq).
  - intros k L h x [Hwf _] Hq. apply (qw_rep _ _ Hwf h Hq).
  - intros k L h1 h2 x [Hwf _]. apply (qw_disj _ _ Hwf).
  - intros k k' L E1 E2 E3 [Hwf Hl]. split; [by apply (queues_wf_frame k)|].
    intros h Hh. rewrite E1. apply Hl. unfold is_qhead in *. by rewrite <- E2.
  - intros k L L' E [Hwf Hl]. split; [by apply (queues_wf_ext k L)|done].
Qed.

(** Taking a lock that is no queue's. *)
Lemma queues_at_lock QL k L l v :
  queues_at QL k L -> 0 <= l < lenZ (locktab k) -> (forall h, is_qhead k h -> QL h <> l) ->
  queues_at QL (set_locktab (updZ l v (locktab k)) k) L.
Proof.
  intros [[H1 H2 H3 H4 H5] Hl] Hr Hne. split; [|done]. constructor; try done.
  intros h Hh. destruct (H5 h Hh) as (l' & Hlk & Hl' & Hat). exists l'. split; [done|]. split; [done|].
  unfold at_rest. simpl. rewrite nthZ_updZ_ne; [done|]. intros ->. apply (Hne h Hh).
  pose proof (Hl h Hh) as E. simpl in Hlk. congruence.
Qed.
