(* ===== verification/Memory.v ===== *)
(** * Heap memory (system/getmem.c, freemem.c, malloc.c, free.c)

    Every core has a free list threaded through the heap: a block holds the
    address of the next block in its first word and its length in its second.
    [lseg] says that memory holds a given list of blocks, [fl_ok] that the
    list is sorted, aligned, disjoint and coalesced; the operations are
    proved to act on that list as first-fit allocation and coalescing
    release. *)

From stdpp Require Import base numbers functions list gmap.
From S2P Require Import Prelude Kernel Spinlock.

(** ** Definitions *)

(** roundmb and truncmb of include/memory.h: [~0x07] as a 32-bit mask. *)
Definition roundmb (x : Z) : Z := Z.land (u32 (7 + x)) 0xFFFFFFF8.
Definition truncmb (x : Z) : Z := Z.land x 0xFFFFFFF8.

(** struct memblock: offsets of its fields and its size. *)
Definition mb_next : Z := 0.
Definition mb_length : Z := 4.
Definition mb_marked : Z := 8.
Definition sizeof_memblock : Z := 12.

(** A [memblk *] that is either the list head seen as a block, or a block. *)
Inductive lptr :=
  | PHead
  | PBlk (a : Z).

Section Getmem.
Context (cpu : Z).

(** prev->next = v, where the head of the list is the first field of
    [freelist[cpuid]]. *)
Definition set_blk_next (n : Z) (prev : lptr) (v : Z) : K unit :=
  match prev with
  | PHead => upd_free n (set_mh_head v)
  | PBlk a => store (a + mb_next) v
  end.

(** lock_release(freelist[n].memlock); restore(im); return v; *)
Definition mem_return (n im v : Z) : K Z :=
  h <-- rd_free n ;;
  lock_release (mh_memlock h) ;;;
  restore cpu im ;;;
  ret v.

(** curr->length == nbytes *)
Definition getmem_exact (nbytes im : Z) (prev : lptr) (curr : Z) : K Z :=
  nxt <-- load (curr + mb_next) ;;
  set_blk_next cpu prev nxt ;;;
  upd_free cpu (fun h => set_mh_length (u32 (mh_length h - nbytes)) h) ;;;
  mem_return cpu im curr.

(** curr->length > nbytes: split block into two *)
Definition getmem_split (nbytes im : Z) (prev : lptr) (curr : Z) : K Z :=
  let leftover := u32 (curr + nbytes) in
  set_blk_next cpu prev leftover ;;;
  nxt <-- load (curr + mb_next) ;;
  store (leftover + mb_next) nxt ;;;
  len <-- load (curr + mb_length) ;;
  store (leftover + mb_length) (u32 (len - nbytes)) ;;;
  upd_free cpu (fun h => set_mh_length (u32 (mh_length h - nbytes)) h) ;;;
  mem_return cpu im curr.

(** The while loop; a turn per block of the list. *)
Fixpoint getmem_loop (fuel : nat) (nbytes im : Z) (prev : lptr) (curr : Z) : K Z :=
  match fuel with
  | O => failwith OutOfFuel
  | S fuel' =>
      if curr =? NULL then mem_return cpu im (u32 SYSERR)
      else
        len <-- load (curr + mb_length) ;;
        if len =? nbytes then getmem_exact nbytes im prev curr
        else if len >? nbytes then getmem_split nbytes im prev curr
        else
          nxt <-- load (curr + mb_next) ;;
          getmem_loop fuel' nbytes im (PBlk curr) nxt
  end.

Definition getmem (nbytes : Z) : K Z :=
  if 0 =? nbytes then ret (u32 SYSERR)
  else
    let nbytes := roundmb nbytes in
    im <-- disable cpu ;;
    h <-- rd_free cpu ;;
    lock_acquire cpu (mh_memlock h) ;;;
    h <-- rd_free cpu ;;
    fuel <-- gets (fun k => S (size (memory k))) ;;
    getmem_loop fuel nbytes im PHead (mh_head h).

(** for (n = 0; n < NCORES; n++) if (...) break; *)
Fixpoint which_freelist (c : nat) (n memptr : Z) : K Z :=
  match c with
  | O => ret n
  | S c' =>
      h <-- rd_free n ;;
      if (mh_base h <=? memptr) && (memptr <? u32 (mh_base h + mh_bound h)) then ret n
      else which_freelist c' (n + 1) memptr
  end.

(** while ((next != NULL) && (next < block)) *)
Fixpoint freemem_walk (fuel : nat) (block : Z) (prev : lptr) (next : Z) : K (lptr * Z) :=
  match fuel with
  | O => failwith OutOfFuel
  | S fuel' =>
      if negb (next =? NULL) && (next <? block) then
        nn <-- load (next + mb_next) ;;
        freemem_walk fuel' block (PBlk next) nn
      else ret (prev, next)
  end.

(** coalesce with next block if adjacent *)
Definition coalesce_next (block next : Z) : K unit :=
  len <-- load (block + mb_length) ;;
  if u32 (block + len) =? next then
    nlen <-- load (next + mb_length) ;;
    store (block + mb_length) (u32 (len + nlen)) ;;;
    nn <-- load (next + mb_next) ;;
    store (block + mb_next) nn
  else ret tt.

(** find top of previous memblock *)
Definition top_of_prev (prev : lptr) : K Z :=
  match prev with
  | PHead => ret NULL
  | PBlk a => len <-- load (a + mb_length) ;; ret (u32 (a + len))
  end.

(** coalesce with previous block if adjacent; the block to go on with.
    [top] equal to [block] with no previous block would be the null block,
    which lies below the heap. *)
Definition place_block (n top nbytes : Z) (prev : lptr) (block next : Z) : K Z :=
  if top =? block then
    match prev with
    | PHead => failwith OutOfBounds
    | PBlk a =>
        len <-- load (a + mb_length) ;;
        store (a + mb_length) (u32 (len + nbytes)) ;;;
        ret a
    end
  else
    store (block + mb_next) next ;;;
    store (block + mb_length) nbytes ;;;
    set_blk_next n prev block ;;;
    ret block.

(** The part of [freemem] between taking and dropping the lock. *)
Definition freemem_locked (n im block nbytes : Z) (prev : lptr) (next : Z) : K Z :=
  top <-- top_of_prev prev ;;
  (* make sure block is not overlapping on prev or next blocks *)
  if (top >? block) || (negb (next =? NULL) && (u32 (block + nbytes) >? next)) then
    mem_return n im SYSERR
  else
    upd_free n (fun h => set_mh_length (u32 (mh_length h + nbytes)) h) ;;;
    blk <-- place_block n top nbytes prev block next ;;
    coalesce_next blk next ;;;
    mem_return n im OK.

Definition freemem (memptr nbytes : Z) : K Z :=
  heap <-- gets memheap ;;
  top_of_ram <-- gets maxaddr ;;
  if (0 =? nbytes) || (memptr <? heap) || (memptr >? top_of_ram) then ret SYSERR
  else
    let nbytes := roundmb nbytes in
    n <-- which_freelist (Z.to_nat NCORES) 0 memptr ;;
    im <-- disable cpu ;;
    h <-- rd_free n ;;
    lock_acquire cpu (mh_memlock h) ;;;
    h <-- rd_free n ;;
    fuel <-- gets (fun k => S (size (memory k))) ;;
    pn <-- freemem_walk fuel memptr PHead (mh_head h) ;;
    freemem_locked n im memptr nbytes (fst pn) (snd pn).

(** system/malloc.c; [marked] is one byte, the low byte of its word. *)
Definition malloc (size : Z) : K Z :=
  if 0 =? size then ret NULL
  else
    let size := u32 (size + sizeof_memblock) in
    pmem <-- getmem size ;;
    if u32 SYSERR =? pmem then ret NULL
    else
      store (pmem + mb_next) pmem ;;;
      w <-- load (pmem + mb_marked) ;;
      store (pmem + mb_marked) (Z.ldiff w 0xFF) ;;;
      store (pmem + mb_length) size ;;;
      ret (u32 (pmem + sizeof_memblock)).

(** system/free.c *)
Definition free (ptr : Z) : K Z :=
  let block := u32 (ptr - sizeof_memblock) in
  nxt <-- load (block + mb_next) ;;
  if negb (nxt =? block) then ret SYSERR
  else
    len <-- load (block + mb_length) ;;
    freemem block len ;;;
    ret OK.
End Getmem.

(** ** Rounding *)

Lemma land_mask8 x : 0 <= x < 2 ^ 32 -> Z.land x 0xFFFFFFF8 = x - x mod 8.
Proof.
  intros Hx. change 0xFFFFFFF8 with (Z.land (Z.ones 32) (Z.lnot (Z.ones 3))).
  rewrite Z.land_assoc, Z.land_ones by lia. rewrite (Z.mod_small x) by lia.
  by rewrite land_lnot_ones.
Qed.

Lemma roundmb_spec x :
  0 <= x <= 2 ^ 32 - 8 -> x <= roundmb x < x + 8 /\ (8 | roundmb x) /\ roundmb x < 2 ^ 32.
Proof.
  intros Hx. unfold roundmb. change (2 ^ 32) with 4294967296 in *.
  rewrite wrap_small by (change (2 ^ 32) with 4294967296; lia).
  rewrite land_mask8 by (change (2 ^ 32) with 4294967296; lia).
  pose proof (Z.mod_pos_bound (7 + x) 8 ltac:(lia)).
  pose proof (Z.div_mod (7 + x) 8 ltac:(lia)).
  split; [lia|]. split; [|lia]. exists ((7 + x) / 8). lia.
Qed.

Lemma roundmb_id x : 0 <= x <= 2 ^ 32 - 8 -> (8 | x) -> roundmb x = x.
Proof.
  intros Hx [a Ha]. destruct (roundmb_spec x Hx) as (H1 & [b Hb] & _). lia.
Qed.

Lemma truncmb_spec x :
  0 <= x < 2 ^ 32 -> x - 8 < truncmb x <= x /\ (8 | truncmb x) /\ 0 <= truncmb x.
Proof.
  intros Hx. unfold truncmb. rewrite land_mask8 by done.
  pose proof (Z.mod_pos_bound x 8 ltac:(lia)). pose proof (Z.div_mod x 8 ltac:(lia)).
  pose proof (Z.div_pos x 8 ltac:(lia) ltac:(lia)).
  split; [lia|]. split; [|lia]. exists (x / 8). lia.
Qed.

(** ** Free lists in memory *)

(** A block: its address and its length. *)
Abbreviation block := (Z * Z)%type.

(** From [p], following the next pointers of memory [m] meets exactly the
    blocks of [l] and then the pointer [q]. *)
Fixpoint lseg (m : gmap Z Z) (p : Z) (l : list block) (q : Z) : Prop :=
  match l with
  | [] => p = q
  | b :: l' =>
      p = fst b /\ mload m (fst b + mb_length) = snd b /\
      lseg m (mload m (fst b + mb_next)) l' q
  end.

Lemma lseg_app m p l1 l2 q :
  lseg m p (l1 ++ l2) q <-> exists r, lseg m p l1 r /\ lseg m r l2 q.
Proof.
  revert p. induction l1 as [|b l1 IH]; intros p; simpl.
  - naive_solver.
  - rewrite IH. naive_solver.
Qed.

(** The words of a block header. *)
Definition hdr (b : block) (x : Z) : Prop := x = fst b + mb_next \/ x = fst b + mb_length.

Lemma lseg_store m p l q x v :
  (forall b, b ∈ l -> ~ hdr b x) -> lseg m p l q -> lseg (<[x := v]> m) p l q.
Proof.
  revert p. induction l as [|b l IH]; intros p Hx; simpl; [done|].
  assert (~ hdr b x) as Hb by (apply Hx; left). unfold hdr in Hb.
  rewrite !mload_insert_ne by tauto. intros (-> & ? & ?). repeat split; [done|].
  apply IH; [|done]. intros b' Hb'. apply Hx. by right.
Qed.

(** Overwriting the next pointer of the last block changes where the
    segment ends. *)
Lemma lseg_store_last m p l b q v :
  (forall b', b' ∈ l -> ~ hdr b' (fst b + mb_next)) ->
  lseg m p (l ++ [b]) q -> lseg (<[fst b + mb_next := v]> m) p (l ++ [b]) v.
Proof.
  intros Hl (r & H1 & H2)%lseg_app. apply lseg_app. exists r.
  split; [by apply lseg_store|]. simpl in H2 |- *. destruct H2 as (-> & ? & ?).
  rewrite mload_insert_eq, mload_insert_ne by (unfold mb_next, mb_length; lia). done.
Qed.

(** Sorted by address, aligned, non-empty, inside [lo, hi), and with a gap
    between neighbours, so that nothing is left to coalesce. *)
Fixpoint fl_ok (lo : Z) (l : list block) (hi : Z) : Prop :=
  match l with
  | [] => True
  | b :: l' =>
      lo <= fst b /\ (8 | fst b) /\ (8 | snd b) /\ 0 < snd b /\ fst b + snd b <= hi /\
      fl_ok (fst b + snd b + 1) l' hi
  end.

Fixpoint total (l : list block) : Z :=
  match l with [] => 0 | b :: l' => snd b + total l' end.

(** [x] is a byte of some block of [l]. *)
Definition covers (l : list block) (x : Z) : Prop :=
  exists b, b ∈ l /\ fst b <= x < fst b + snd b.

Lemma total_app l1 l2 : total (l1 ++ l2) = total l1 + total l2.
Proof. induction l1 as [|b l1 IH]; simpl; lia. Qed.

(** The end of the last block, or the lower bound. *)
Fixpoint fl_top (lo : Z) (l : list block) : Z :=
  match l with [] => lo | b :: l' => fl_top (fst b + snd b + 1) l' end.

Lemma fl_ok_app lo l1 l2 hi :
  fl_ok lo (l1 ++ l2) hi <-> fl_ok lo l1 hi /\ fl_ok (fl_top lo l1) l2 hi.
Proof.
  revert lo. induction l1 as [|b l1 IH]; intros lo; simpl; [naive_solver|].
  rewrite IH. naive_solver.
Qed.

Lemma fl_top_app lo l b : fl_top lo (l ++ [b]) = fst b + snd b + 1.
Proof. revert lo. induction l as [|c l IH]; intros lo; simpl; [done|apply IH]. Qed.

Lemma fl_ok_weaken lo lo' l hi : lo' <= lo -> fl_ok lo l hi -> fl_ok lo' l hi.
Proof. destruct l as [|b l]; simpl; [done|]. intros ? (?&?&?&?&?&?). repeat split; try done. lia. Qed.

Lemma fl_ok_elem lo l hi b :
  fl_ok lo l hi -> b ∈ l ->
  lo <= fst b /\ (8 | fst b) /\ (8 | snd b) /\ 8 <= snd b /\ fst b + snd b <= hi.
Proof.
  revert lo. induction l as [|c l IH]; intros lo Hok Hb; [by apply not_elem_of_nil in Hb|].
  destruct Hok as (H1 & H2 & H3 & H4 & H5 & H6). apply elem_of_cons in Hb as [->|Hb].
  - repeat split; try done. destruct H3 as [z Hz]. lia.
  - destruct (IH _ H6 Hb) as (? & ?). split; [lia|done].
Qed.

(** Blocks before and after a point of the list. *)
Lemma fl_ok_before lo l1 l2 hi b1 b2 :
  fl_ok lo (l1 ++ l2) hi -> b1 ∈ l1 -> b2 ∈ l2 -> fst b1 + snd b1 < fst b2.
Proof.
  revert lo. induction l1 as [|c l1 IH]; intros lo Hok Hb1 Hb2;
    [by apply not_elem_of_nil in Hb1|].
  simpl in Hok. destruct Hok as (H1 & H2 & H3 & H4 & H5 & H6).
  apply elem_of_cons in Hb1 as [->|Hb1]; [|by eapply IH].
  assert (b2 ∈ l1 ++ l2) as Hin by (apply elem_of_app; by right).
  destruct (fl_ok_elem _ _ _ _ H6 Hin). lia.
Qed.

(** Distinct aligned addresses have disjoint headers. *)
Lemma hdr_disjoint b x y :
  (8 | fst b) -> (8 | x) -> y = x + mb_next \/ y = x + mb_length -> fst b <> x -> ~ hdr b y.
Proof. unfold hdr, mb_next, mb_length. intros [a Ha] [c Hc] Hy Hne. lia. Qed.

(** There are at most as many blocks as words in the memory map. *)
Lemma lseg_size m p l q lo hi : lseg m p l q -> fl_ok lo l hi -> (length l <= size m)%nat.
Proof.
  intros Hs Hok.
  assert (forall b, b ∈ l -> fst b + mb_length ∈ dom m) as Hdom.
  { intros b Hb. destruct (fl_ok_elem _ _ _ _ Hok Hb) as (_ & _ & _ & Hpos & _).
    apply list_elem_of_split in Hb as (l1 & l2 & ->).
    apply lseg_app in Hs as (r & _ & (_ & Hlen & _)).
    apply elem_of_dom. unfold mload in Hlen.
    destruct (m !! (fst b + mb_length)); [eauto|simpl in Hlen; lia]. }
  assert (NoDup ((fun b : block => fst b + mb_length) <$> l)) as Hnd.
  { clear Hs Hdom. revert lo Hok. induction l as [|b l IH]; intros lo Hok; simpl; [constructor|].
    pose proof Hok as (_ & _ & _ & Hb & _ & Hok'). constructor; [|by eapply IH].
    intros (c & Hc1 & Hc2)%list_elem_of_fmap. destruct (fl_ok_elem _ _ _ _ Hok' Hc2). lia. }
  rewrite <- (size_dom (D := gset Z)), <- (length_fmap (fun b : block => fst b + mb_length)).
  rewrite <- (size_list_to_set (C := gset Z) _ Hnd).
  apply subseteq_size. intros x (b & -> & Hb)%elem_of_list_to_set%list_elem_of_fmap. auto.
Qed.

(** ** The critical section of the allocator *)

Section Inside.
Context (k : kernel) (cpu im l : Z).
Context (Him : nthZ (cpsr k) cpu = Some im).
Context (Hl : 0 <= l < NLOCK) (Hrest : at_rest k l).

(** The state between acquiring and releasing lock [l] with interrupts
    off, when memory is [m] and the list heads are [f]. *)
Definition inside (m : gmap Z Z) (f : list memhead) : kernel :=
  set_memory m (set_freelist f
    (set_locktab (updZ l (heldby cpu) (locktab k))
      (set_cpsr (updZ cpu (Z.lor im ARM_I_BIT) (cpsr k)) k))).

Lemma bind_load_in {B} m f a (c : Z -> K B) :
  bind (load a) c (inside m f) = c (mload m a) (inside m f).
Proof. done. Qed.
Lemma bind_store_in {B} m f a v (c : unit -> K B) :
  bind (store a v) c (inside m f) = c tt (inside (<[a := v]> m) f).
Proof. done. Qed.
Lemma bind_rd_free_in {B} m f n h (c : memhead -> K B) :
  nthZ f n = Some h -> bind (rd_free n) c (inside m f) = c h (inside m f).
Proof. intros H. by apply bind_rd_free. Qed.
Lemma bind_upd_free_in {B} m f n h g (c : unit -> K B) :
  nthZ f n = Some h -> bind (upd_free n g) c (inside m f) = c tt (inside m (updZ n (g h) f)).
Proof. intros H. by erewrite bind_upd_free. Qed.

Lemma enter {B} (n : Z) h (c : K B) :
  nthZ (freelist k) n = Some h -> mh_memlock h = l ->
  (lock_acquire cpu (mh_memlock h) ;;; c) (set_cpsr (updZ cpu (Z.lor im ARM_I_BIT) (cpsr k)) k)
  = c (inside (memory k) (freelist k)).
Proof. intros Hh ->. by rewrite bind_acquire. Qed.

Lemma leave m f n h v :
  nthZ f n = Some h -> mh_memlock h = l ->
  mem_return cpu n im v (inside m f) = Ret (v, set_memory m (set_freelist f k)).
Proof.
  intros Hh Hm. unfold mem_return. erewrite bind_rd_free by exact Hh. rewrite Hm.
  erewrite bind_release; [|done|]; cycle 1.
  { simpl. apply nthZ_updZ_eq. by eapply nthZ_Some_lt. }
  erewrite bind_restore; [|simpl; apply nthZ_updZ_eq; by eapply nthZ_Some_lt].
  unfold ret, inside. simpl. rewrite restore_disable_bits, updZ_updZ, (updZ_id _ _ _ Him).
  by rewrite release_acquire_tab.
Qed.

Lemma leave_len m f n h nb v :
  nthZ f n = Some h -> mh_memlock h = l ->
  (upd_free n (fun h => set_mh_length (u32 (mh_length h - nb)) h) ;;; mem_return cpu n im v)
    (inside m f) =
  Ret (v, set_memory m (set_freelist
    (updZ n (set_mh_length (u32 (mh_length h - nb)) h) f) k)).
Proof.
  intros Hh Hm. rewrite (bind_upd_free_in _ _ _ h) by done.
  eapply leave; [apply nthZ_updZ_eq; by eapply nthZ_Some_lt|done].
Qed.
End Inside.

(** ** First fit *)

(** The pointer behind the last block walked over. *)
Fixpoint lastp (p : lptr) (l : list block) : lptr :=
  match l with [] => p | b :: l' => lastp (PBlk (fst b)) l' end.

Lemma lastp_app p l b : lastp p (l ++ [b]) = PBlk (fst b).
Proof. revert p. induction l as [|c l IH]; intros p; simpl; [done|apply IH]. Qed.

(** The first block of at least [nb] bytes, with the blocks around it. *)
Fixpoint first_fit (nb : Z) (l : list block) : option (list block * block * list block) :=
  match l with
  | [] => None
  | b :: l' =>
      if nb <=? snd b then Some ([], b, l')
      else match first_fit nb l' with
           | Some (l1, c, l2) => Some (b :: l1, c, l2)
           | None => None
           end
  end.

Lemma first_fit_Some nb l l1 b l2 :
  first_fit nb l = Some (l1, b, l2) ->
  l = l1 ++ b :: l2 /\ nb <= snd b /\ forall c, c ∈ l1 -> snd c < nb.
Proof.
  revert l1. induction l as [|c l IH]; intros l1; simpl; [done|].
  destruct (Z.leb_spec nb (snd c)).
  - intros [= <- <- <-]. split; [done|]. split; [done|]. by intros ? ?%not_elem_of_nil.
  - destruct (first_fit nb l) as [[[l1' b'] l2']|]; [|done]. intros [= <- <- <-].
    destruct (IH _ eq_refl) as (-> & ? & Hlt). split; [done|]. split; [done|].
    intros c' [->|Hc]%elem_of_cons; auto.
Qed.

Lemma first_fit_None nb l : first_fit nb l = None -> forall c, c ∈ l -> snd c < nb.
Proof.
  induction l as [|b l IH]; simpl; intros H c Hc; [by apply not_elem_of_nil in Hc|].
  destruct (Z.leb_spec nb (snd b)); [done|].
  destruct (first_fit nb l) as [[[? ?] ?]|]; [done|].
  apply elem_of_cons in Hc as [->|Hc]; auto.
Qed.

(** What is left of a block when its first [nb] bytes are taken. *)
Definition leftover (nb : Z) (b : block) : list block :=
  if snd b =? nb then [] else [(fst b + nb, snd b - nb)].

Lemma getmem_loop_run cpu fuel nb im k l prev curr lo hi :
  lseg (memory k) curr l NULL -> fl_ok lo l hi -> 0 < lo -> (length l < fuel)%nat ->
  getmem_loop cpu fuel nb im prev curr k =
  match first_fit nb l with
  | None => mem_return cpu cpu im (u32 SYSERR) k
  | Some (l1, b, l2) =>
      if snd b =? nb then getmem_exact cpu nb im (lastp prev l1) (fst b) k
      else getmem_split cpu nb im (lastp prev l1) (fst b) k
  end.
Proof.
  revert fuel prev curr lo. induction l as [|b l IH]; intros fuel prev curr lo Hs Hok Hlo Hf.
  - destruct fuel as [|fuel]; [simpl in Hf; lia|]. simpl in Hs. subst. done.
  - destruct fuel as [|fuel]; [simpl in Hf; lia|].
    destruct Hs as (-> & Hlen & Hs). destruct Hok as (H1 & H2 & H3 & H4 & H5 & Hok). simpl.
    rewrite (proj2 (Z.eqb_neq (fst b) NULL)) by klia.
    rewrite bind_load, Hlen, Z.gtb_ltb.
    destruct (Z.leb_spec nb (snd b)).
    + destruct (Z.eqb_spec (snd b) nb); [done|].
      rewrite (proj2 (Z.ltb_lt nb (snd b))) by lia. done.
    + rewrite (proj2 (Z.eqb_neq (snd b) nb)), (proj2 (Z.ltb_ge nb (snd b))) by lia.
      rewrite bind_load. rewrite (IH fuel _ _ (fst b + snd b + 1)); [|done|done|lia|simpl in Hf; lia].
      by destruct (first_fit nb l) as [[[? ?] ?]|].
Qed.

(** ** The free list of a core *)

(** Core [n]'s list head is [h], memory holds the blocks [l] behind it, the
    list is in order, its length field is the number of free bytes, and its
    lock is not held. *)
Record heap_wf (k : kernel) (n : Z) (h : memhead) (l : list block) : Prop := {
  hw_head : nthZ (freelist k) n = Some h;
  hw_list : lseg (memory k) (mh_head h) l NULL;
  hw_ok : fl_ok (mh_base h) l (mh_base h + mh_bound h);
  hw_total : mh_length h = total l;
  hw_base : 0 < mh_base h;
  hw_bound : 0 <= mh_bound h /\ mh_base h + mh_bound h < 2 ^ 32;
  hw_lockid : 0 <= mh_memlock h < NLOCK;
  hw_rest : at_rest k (mh_memlock h)
}.

(** [h'] is [h] up to its head pointer and length. *)
Definition same_region (h h' : memhead) : Prop :=
  mh_base h' = mh_base h /\ mh_bound h' = mh_bound h /\ mh_memlock h' = mh_memlock h.

(** Two memories that agree outside the region of [h]. *)
Definition agree_outside (h : memhead) (m m' : gmap Z Z) : Prop :=
  forall x, ~ (mh_base h <= x < mh_base h + mh_bound h) -> mload m' x = mload m x.

Lemma agree_outside_refl h m : agree_outside h m m.
Proof. done. Qed.
Lemma agree_outside_store h m m' x v :
  agree_outside h m m' -> mh_base h <= x < mh_base h + mh_bound h ->
  agree_outside h m (<[x := v]> m').
Proof. intros Ha Hx y Hy. rewrite mload_insert_ne by (intros ->; done). by apply Ha. Qed.

Lemma total_bound lo l hi : fl_ok lo l hi -> 0 <= total l <= Z.max 0 (hi - lo).
Proof.
  revert lo. induction l as [|b l IH]; intros lo; simpl; [lia|].
  intros (H1 & H2 & H3 & H4 & H5 & H6). specialize (IH _ H6). lia.
Qed.

Lemma lseg_store_hdr m p l q x y v lo hi :
  fl_ok lo l hi -> (8 | x) -> (forall c, c ∈ l -> fst c <> x) ->
  y = x + mb_next \/ y = x + mb_length ->
  lseg m p l q -> lseg (<[y := v]> m) p l q.
Proof.
  intros Hok Hx Hne Hy. apply lseg_store. intros c Hc.
  destruct (fl_ok_elem _ _ _ _ Hok Hc) as (_ & Hd & _).
  apply (hdr_disjoint c x y); auto.
Qed.

(** Writing the next pointer of the predecessor of a point of the list. *)
Definition relink_mem (p : lptr) (v : Z) (m : gmap Z Z) : gmap Z Z :=
  match p with PHead => m | PBlk a => <[a + mb_next := v]> m end.
Definition relink_head (p : lptr) (v : Z) (h : memhead) : memhead :=
  match p with PHead => set_mh_head v h | PBlk _ => h end.

Lemma relink_seg m h l1 r v lo hi :
  fl_ok lo l1 hi -> lseg m (mh_head h) l1 r ->
  lseg (relink_mem (lastp PHead l1) v m) (mh_head (relink_head (lastp PHead l1) v h)) l1 v.
Proof.
  intros Hok Hs. destruct l1 as [|c l1 _] using rev_ind; [done|].
  rewrite lastp_app. simpl. eapply lseg_store_last; [|done].
  intros c' Hc'. pose proof (fl_ok_before _ _ _ _ c' c Hok Hc' ltac:(left)) as Hlt.
  apply fl_ok_app in Hok as [Hok1 Hok2]. destruct (fl_ok_elem _ _ _ _ Hok1 Hc') as (_ & Hd & _ & ? & _).
  destruct Hok2 as (_ & Hd2 & _). eapply hdr_disjoint; [done|exact Hd2|by left|lia].
Qed.

Lemma relink_seg_other m l1 v p l q lo hi lo' hi' :
  fl_ok lo l1 hi -> fl_ok lo' l hi' -> (forall c b, c ∈ l1 -> b ∈ l -> fst b <> fst c) ->
  lseg m p l q -> lseg (relink_mem (lastp PHead l1) v m) p l q.
Proof.
  intros Hok1 Hok Hne Hs. destruct l1 as [|c l1 _] using rev_ind; [done|].
  rewrite lastp_app. simpl.
  apply fl_ok_app in Hok1 as [_ (_ & Hd & _)].
  eapply lseg_store_hdr; [exact Hok|exact Hd| |by left|done].
  intros b Hb. apply Hne; [|done]. apply elem_of_app. right. left.
Qed.

Lemma relink_load m l1 v x lo hi :
  fl_ok lo l1 hi -> (forall c, c ∈ l1 -> x <> fst c + mb_next) ->
  mload (relink_mem (lastp PHead l1) v m) x = mload m x.
Proof.
  intros Hok Hx. destruct l1 as [|c l1 _] using rev_ind; [done|].
  rewrite lastp_app. simpl. apply mload_insert_ne. intros E.
  apply (Hx c); [|done]. apply elem_of_app. right. left.
Qed.

Lemma relink_agree h m m' l1 v :
  fl_ok (mh_base h) l1 (mh_base h + mh_bound h) -> agree_outside h m m' ->
  agree_outside h m (relink_mem (lastp PHead l1) v m').
Proof.
  intros Hok Ha. destruct l1 as [|c l1 _] using rev_ind; [done|].
  rewrite lastp_app. apply agree_outside_store; [done|].
  assert (c ∈ l1 ++ [c]) as Hc by (apply elem_of_app; right; left).
  destruct (fl_ok_elem _ _ _ _ Hok Hc). unfold mb_next. lia.
Qed.

Lemma relink_head_region p v h : same_region h (relink_head p v h).
Proof. by destruct p. Qed.

(** Executing [prev->next = v] inside the critical section. *)
Lemma bind_relink_in {B} k cpu im l m f n h p v (c : unit -> K B) :
  nthZ f n = Some h ->
  bind (set_blk_next n p v) c (inside k cpu im l m f) =
  c tt (inside k cpu im l (relink_mem p v m) (updZ n (relink_head p v h) f)).
Proof.
  intros Hh. destruct p as [|a]; simpl.
  - by erewrite bind_upd_free_in.
  - rewrite bind_store_in. by rewrite (updZ_id n h f).
Qed.

Lemma fl_ok_mid lo l1 b l2 hi :
  fl_ok lo (l1 ++ b :: l2) hi ->
  fl_ok lo l1 hi /\ fl_ok (fst b + snd b + 1) l2 hi /\ fl_top lo l1 <= fst b /\
  (8 | fst b) /\ (8 | snd b) /\ 8 <= snd b /\ lo <= fst b /\ fst b + snd b <= hi /\
  (forall c, c ∈ l1 -> fst c + snd c < fst b) /\
  (forall c, c ∈ l2 -> fst b + snd b < fst c).
Proof.
  intros Hok. assert (b ∈ l1 ++ b :: l2) as Hb by (apply elem_of_app; right; left).
  destruct (fl_ok_elem _ _ _ _ Hok Hb) as (? & ? & ? & ? & ?).
  pose proof Hok as Hok'. apply fl_ok_app in Hok' as [Hl1 (Ht & _ & _ & _ & _ & Hl2)].
  repeat split; try done.
  - intros c Hc. eapply fl_ok_before; [exact Hok|done|left].
  - intros c Hc. assert (fl_ok lo ((l1 ++ [b]) ++ l2) hi) as Hok2 by (by rewrite <- app_assoc).
    eapply fl_ok_before; [exact Hok2| |done]. apply elem_of_app. right. left.
Qed.

Section Take.
Context (k : kernel) (cpu im : Z) (h : memhead) (l1 l2 : list block) (b : block) (nb : Z).
Context (Hwf : heap_wf k cpu h (l1 ++ b :: l2)).
Context (Him : nthZ (cpsr k) cpu = Some im).
Context (Hnb : 0 < nb <= snd b) (Hdiv : (8 | nb)).

Let lp := lastp PHead l1.
Let inn := inside k cpu im (mh_memlock h).

Lemma take_len : u32 (mh_length h - nb) = total (l1 ++ leftover nb b ++ l2).
Proof.
  pose proof (hw_bound _ _ _ _ Hwf) as Hbd. pose proof (hw_base _ _ _ _ Hwf) as Hbs.
  pose proof (total_bound _ _ _ (hw_ok _ _ _ _ Hwf)) as Ht.
  rewrite (hw_total _ _ _ _ Hwf). rewrite !total_app in *. simpl in *.
  destruct (fl_ok_mid _ _ _ _ _ (hw_ok _ _ _ _ Hwf)) as (Hl1 & Hl2 & _).
  apply total_bound in Hl1, Hl2.
  rewrite wrap_small by lia. unfold leftover.
  destruct (Z.eqb_spec (snd b) nb); simpl; lia.
Qed.

Lemma take_ok : fl_ok (mh_base h) (l1 ++ leftover nb b ++ l2) (mh_base h + mh_bound h).
Proof.
  destruct (fl_ok_mid _ _ _ _ _ (hw_ok _ _ _ _ Hwf)) as (H1 & H2 & Ht & H3 & H4 & H5 & H6 & H7 & _).
  apply fl_ok_app. split; [done|]. unfold leftover.
  destruct (Z.eqb_spec (snd b) nb) as [E|E]; simpl.
  - eapply fl_ok_weaken; [|done]. lia.
  - replace (fst b + nb + (snd b - nb) + 1) with (fst b + snd b + 1) by lia.
    repeat split; try done; try lia; [by apply Z.divide_add_r|by apply Z.divide_sub_r].
Qed.

(** The header of the leftover, written in free memory. *)
Definition split_mem (m : gmap Z Z) : gmap Z Z :=
  <[fst b + nb + mb_length := snd b - nb]>
    (<[fst b + nb + mb_next := mload m (fst b + mb_next)]> (relink_mem lp (fst b + nb) m)).

Definition take_mem : gmap Z Z :=
  if snd b =? nb then relink_mem lp (mload (memory k) (fst b + mb_next)) (memory k)
  else split_mem (memory k).
Definition take_head : memhead :=
  set_mh_length (u32 (mh_length h - nb))
    (relink_head lp (if snd b =? nb then mload (memory k) (fst b + mb_next) else fst b + nb) h).

Lemma take_list : lseg take_mem (mh_head take_head) (l1 ++ leftover nb b ++ l2) NULL.
Proof.
  destruct (fl_ok_mid _ _ _ _ _ (hw_ok _ _ _ _ Hwf))
    as (H1 & H2 & Ht & H3 & H4 & H5 & H6 & H7 & Hb1 & Hb2).
  destruct (proj1 (lseg_app _ _ _ _ _) (hw_list _ _ _ _ Hwf)) as (r & Hs1 & -> & Hlen & Hs2).
  assert (forall c d, c ∈ l1 -> d ∈ l2 -> fst d <> fst c) as Hne.
  { intros c d Hc Hd. specialize (Hb1 c Hc). specialize (Hb2 d Hd).
    destruct (fl_ok_elem _ _ _ _ H1 Hc). lia. }
  apply lseg_app. unfold take_mem, take_head, leftover, lp.
  destruct (Z.eqb_spec (snd b) nb) as [E|E]; simpl.
  - eexists. split; [by eapply relink_seg|].
    eapply relink_seg_other; [exact H1|exact H2|done|done].
  - exists (fst b + nb).
    assert ((8 | fst b + nb)) as Hd by (by apply Z.divide_add_r).
    unfold split_mem. split; [|repeat split].
    + eapply (lseg_store_hdr _ _ _ _ (fst b + nb)); [exact H1|done| |by right|].
      { intros c Hc. specialize (Hb1 c Hc). destruct (fl_ok_elem _ _ _ _ H1 Hc). lia. }
      eapply (lseg_store_hdr _ _ _ _ (fst b + nb)); [exact H1|done| |by left|].
      { intros c Hc. specialize (Hb1 c Hc). destruct (fl_ok_elem _ _ _ _ H1 Hc). lia. }
      by eapply relink_seg.
    + apply mload_insert_eq.
    + rewrite mload_insert_ne, mload_insert_eq by (unfold mb_next, mb_length; lia).
      eapply (lseg_store_hdr _ _ _ _ (fst b + nb)); [exact H2|done| |by right|].
      { intros c Hc. specialize (Hb2 c Hc). lia. }
      eapply (lseg_store_hdr _ _ _ _ (fst b + nb)); [exact H2|done| |by left|].
      { intros c Hc. specialize (Hb2 c Hc). lia. }
      eapply relink_seg_other; [exact H1|exact H2|done|done].
Qed.

Lemma take_agree : agree_outside h (memory k) take_mem.
Proof.
  destruct (fl_ok_mid _ _ _ _ _ (hw_ok _ _ _ _ Hwf))
    as (H1 & _ & _ & _ & [z Hz] & _ & H6 & H7 & _).
  destruct Hdiv as [y Hy]. unfold take_mem, split_mem.
  destruct (Z.eqb_spec (snd b) nb).
  - apply relink_agree; [done|apply agree_outside_refl].
  - apply agree_outside_store; [|unfold mb_length; lia].
    apply agree_outside_store; [|unfold mb_next; lia].
    apply relink_agree; [done|apply agree_outside_refl].
Qed.

Lemma take_run :
  (if snd b =? nb then getmem_exact cpu nb im lp (fst b)
   else getmem_split cpu nb im lp (fst b)) (inn (memory k) (freelist k)) =
  Ret (fst b, set_memory take_mem (set_freelist (updZ cpu take_head (freelist k)) k)).
Proof.
  pose proof (hw_head _ _ _ _ Hwf) as Hh. pose proof (nthZ_Some_lt _ _ _ Hh) as Hc.
  pose proof (hw_lockid _ _ _ _ Hwf) as Hl. pose proof (hw_rest _ _ _ _ Hwf) as Hr.
  destruct (fl_ok_mid _ _ _ _ _ (hw_ok _ _ _ _ Hwf))
    as (H1 & H2 & Ht & H3 & H4 & H5 & H6 & H7 & Hb1 & Hb2).
  destruct (proj1 (lseg_app _ _ _ _ _) (hw_list _ _ _ _ Hwf)) as (r & Hs1 & -> & Hlen & Hs2).
  pose proof (hw_bound _ _ _ _ Hwf) as Hbd. pose proof (hw_base _ _ _ _ Hwf) as Hbs.
  unfold take_mem, take_head, inn. destruct (Z.eqb_spec (snd b) nb) as [E|E].
  - unfold getmem_exact. rewrite bind_load_in. erewrite bind_relink_in by done.
    rewrite leave_len with (h := relink_head lp (mload (memory k) (fst b + mb_next)) h);
      [by rewrite updZ_updZ; destruct lp|done|done|done|by apply nthZ_updZ_eq|by destruct lp].
  - unfold getmem_split. rewrite (wrap_small 32 (fst b + nb)) by lia. cbv zeta.
    erewrite bind_relink_in by done. rewrite bind_load_in, bind_store_in, bind_load_in, bind_store_in.
    rewrite leave_len with (h := relink_head lp (fst b + nb) h);
      [|done|done|done|by apply nthZ_updZ_eq|by destruct lp].
    replace (mh_length (relink_head lp (fst b + nb) h)) with (mh_length h) by (by destruct lp).
    rewrite updZ_updZ.
    assert (forall c, c ∈ l1 -> fst b + mb_next <> fst c + mb_next /\
      fst b + mb_length <> fst c + mb_next) as Hne.
    { intros c Hin. specialize (Hb1 c Hin).
      destruct (fl_ok_elem _ _ _ _ H1 Hin) as (_ & _ & _ & ? & _).
      unfold mb_next, mb_length. lia. }
    unfold split_mem. rewrite mload_insert_ne by (unfold mb_next, mb_length;
      destruct H3, Hdiv; lia).
    unfold lp. rewrite (relink_load _ _ _ (fst b + mb_next) _ _ H1) by (intros c ?; by apply Hne).
    rewrite (relink_load _ _ _ (fst b + mb_length) _ _ H1) by (intros c ?; by apply Hne).
    rewrite Hlen, (wrap_small 32 (snd b - nb)) by lia. done.
Qed.

Lemma take_wf :
  heap_wf (set_memory take_mem (set_freelist (updZ cpu take_head (freelist k)) k)) cpu
    take_head (l1 ++ leftover nb b ++ l2).
Proof.
  pose proof (hw_head _ _ _ _ Hwf) as Hh. pose proof (nthZ_Some_lt _ _ _ Hh) as Hc.
  destruct (relink_head_region lp (if snd b =? nb then mload (memory k) (fst b + mb_next)
    else fst b + nb) h) as (E1 & E2 & E3).
  destruct Hwf. unfold take_head in *. constructor; simpl; rewrite ?E1, ?E2, ?E3; try done.
  - by apply nthZ_updZ_eq.
  - apply take_list.
  - apply take_ok.
  - apply take_len.
Qed.
End Take.

Lemma getmem_run cpu k h l im nbytes :
  heap_wf k cpu h l -> nthZ (cpsr k) cpu = Some im -> 0 < nbytes <= 2 ^ 32 - 8 ->
  getmem cpu nbytes k =
  match first_fit (roundmb nbytes) l with
  | None => Ret (u32 SYSERR, k)
  | Some (l1, b, l2) =>
      Ret (fst b, set_memory (take_mem k l1 b (roundmb nbytes))
        (set_freelist (updZ cpu (take_head k h l1 b (roundmb nbytes)) (freelist k)) k))
  end.
Proof.
  intros Hwf Him Hn. destruct (roundmb_spec nbytes) as (Hr & Hd & _); [lia|].
  pose proof (hw_head _ _ _ _ Hwf) as Hh. pose proof (hw_ok _ _ _ _ Hwf) as Hok.
  pose proof (hw_list _ _ _ _ Hwf) as Hs.
  unfold getmem. rewrite (proj2 (Z.eqb_neq 0 nbytes)) by lia. cbv zeta.
  erewrite bind_disable by exact Him. erewrite bind_rd_free by exact Hh.
  erewrite enter; [|exact (hw_lockid _ _ _ _ Hwf)|exact (hw_rest _ _ _ _ Hwf)|exact Hh|done].
  erewrite bind_rd_free_in by exact Hh. rewrite bind_gets.
  erewrite getmem_loop_run; [|exact Hs|exact Hok|exact (hw_base _ _ _ _ Hwf)|].
  2: { pose proof (lseg_size _ _ _ _ _ _ Hs Hok). simpl. lia. }
  destruct (first_fit (roundmb nbytes) l) as [[[l1 b] l2]|] eqn:E.
  - destruct (first_fit_Some _ _ _ _ _ E) as (-> & Hle & _). 
    rewrite <- (take_run k cpu im h l1 l2 b) by (done || lia). by destruct (snd b =? _).
  - erewrite leave; [by destruct k|exact Him|apply Hwf|apply Hwf|exact Hh|done].
Qed.

(** C12: [getmem] on a well-formed free list, for a request that survives
    rounding up to a multiple of eight: when no block is large enough it
    returns [SYSERR] and changes nothing (locks and interrupt mask
    included); otherwise it returns the address of the first block large
    enough, the list loses exactly the rounded number of bytes from the
    front of that block, the list head, length field and lock stay
    consistent, and no memory outside the core's region is written. *)
Theorem getmem_first_fit cpu k h l im nbytes :
  heap_wf k cpu h l -> nthZ (cpsr k) cpu = Some im -> 0 < nbytes <= 2 ^ 32 - 8 ->
  match first_fit (roundmb nbytes) l with
  | None => getmem cpu nbytes k = Ret (u32 SYSERR, k)
  | Some (l1, b, l2) =>
      exists m' h',
        let k' := set_memory m' (set_freelist (updZ cpu h' (freelist k)) k) in
        getmem cpu nbytes k = Ret (fst b, k') /\
        heap_wf k' cpu h' (l1 ++ leftover (roundmb nbytes) b ++ l2) /\
        same_region h h' /\ agree_outside h (memory k) m'
  end.
Proof.
  intros Hwf Him Hn. rewrite (getmem_run _ _ _ _ _ _ Hwf Him Hn).
  destruct (first_fit (roundmb nbytes) l) as [[[l1 b] l2]|] eqn:E; [|done].
  destruct (first_fit_Some _ _ _ _ _ E) as (-> & Hle & _).
  destruct (roundmb_spec nbytes) as (Hr & Hd & _); [lia|].
  do 2 eexists. cbv zeta. split; [done|].
  split; [apply take_wf; done || lia|]. split.
  - unfold take_head, same_region. by destruct (lastp PHead l1).
  - eapply take_agree; [exact Hwf|lia|done].
Qed.

(** ** Bytes *)

Lemma covers_app l1 l2 x : covers (l1 ++ l2) x <-> covers l1 x \/ covers l2 x.
Proof.
  unfold covers. split.
  - intros (b & [Hb|Hb]%elem_of_app & Hx); eauto.
  - intros [(b & Hb & Hx)|(b & Hb & Hx)]; exists b; (split; [apply elem_of_app; auto|done]).
Qed.
Lemma covers_cons b l x : covers (b :: l) x <-> fst b <= x < fst b + snd b \/ covers l x.
Proof.
  unfold covers. split.
  - intros (c & [->|Hc]%elem_of_cons & Hx); eauto.
  - intros [Hx|(c & Hc & Hx)]; [exists b|exists c]; (split; [set_solver|done]).
Qed.
Lemma covers_nil x : ~ covers [] x.
Proof. by intros (b & Hb%not_elem_of_nil & _). Qed.

Lemma covers_range lo l hi x : fl_ok lo l hi -> covers l x -> lo <= x < hi.
Proof. intros Hok (b & Hb & Hx). destruct (fl_ok_elem _ _ _ _ Hok Hb). lia. Qed.

(** A free list is determined by the set of its bytes. *)
Lemma fl_ok_unique lo l l' hi :
  fl_ok lo l hi -> fl_ok lo l' hi -> (forall x, covers l x <-> covers l' x) -> l = l'.
Proof.
  revert lo l'. induction l as [|[a n] l IH]; intros lo [|[a' n'] l'] H H' Hc.
  - done.
  - exfalso. apply (covers_nil a'), Hc, covers_cons. left. destruct H'. simpl in *. lia.
  - exfalso. apply (covers_nil a), Hc, covers_cons. left. destruct H. simpl in *. lia.
  - destruct H as (H1 & H2 & H3 & H4 & H5 & H6), H' as (H1' & H2' & H3' & H4' & H5' & H6').
    simpl in *.
    assert (forall x, a <= x < a + n \/ covers l x <-> a' <= x < a' + n' \/ covers l' x) as Hx.
    { intros x. specialize (Hc x). rewrite !covers_cons in Hc. done. }
    assert (forall x, covers l x -> a + n + 1 <= x) as Hl.
    { intros x Hcx. apply (covers_range _ _ _ _ H6) in Hcx. lia. }
    assert (forall x, covers l' x -> a' + n' + 1 <= x) as Hl'.
    { intros x Hcx. apply (covers_range _ _ _ _ H6') in Hcx. lia. }
    assert (a = a') as ->.
    { destruct (proj1 (Hx a)) as [?|Ha%Hl']; [lia| |]; destruct (proj2 (Hx a')) as [?|Ha'%Hl]; lia. }
    assert (n = n') as ->.
    { destruct (Z.lt_trichotomy n n') as [Hlt|[?|Hgt]]; [|done|].
      - destruct (proj2 (Hx (a' + n))) as [?|Ha%Hl]; lia.
      - destruct (proj1 (Hx (a' + n'))) as [?|Ha%Hl']; lia. }
    f_equal. eapply IH; [exact H6|exact H6'|]. intros x. split; intros Hcx.
    + destruct (proj1 (Hx x) (or_intror Hcx)) as [?|?]; [|done]. apply Hl in Hcx. lia.
    + destruct (proj2 (Hx x) (or_intror Hcx)) as [?|?]; [|done]. apply Hl' in Hcx. lia.
Qed.

(** Taking [nb] bytes from a block: what remains and what was taken are
    disjoint and make up the free bytes before. *)
Lemma take_bytes lo l1 b l2 hi nb x :
  fl_ok lo (l1 ++ b :: l2) hi -> 0 < nb <= snd b ->
  (covers (l1 ++ b :: l2) x <->
    fst b <= x < fst b + nb \/ covers (l1 ++ leftover nb b ++ l2) x) /\
  ~ (fst b <= x < fst b + nb /\ covers (l1 ++ leftover nb b ++ l2) x).
Proof.
  intros Hok Hnb.
  destruct (fl_ok_mid _ _ _ _ _ Hok) as (H1 & H2 & _ & _ & _ & _ & _ & _ & Hb1 & Hb2).
  rewrite !covers_app, covers_cons.
  assert (covers (leftover nb b) x <-> fst b + nb <= x < fst b + snd b) as Hlo.
  { unfold leftover. destruct (Z.eqb_spec (snd b) nb).
    - split; [by intros ?%covers_nil|lia].
    - rewrite covers_cons. simpl. split; [intros [?|?%covers_nil]; [lia|done]|lia]. }
  assert (covers l1 x -> x < fst b) as Hc1.
  { intros (c & Hc & Hx). specialize (Hb1 c Hc). lia. }
  assert (covers l2 x -> fst b + snd b < x) as Hc2.
  { intros (c & Hc & Hx). specialize (Hb2 c Hc). lia. }
  rewrite Hlo. split; [|intuition lia]. split.
  - intros [?|[?|?]]; [auto| |auto]. destruct (Z.ltb_spec x (fst b + nb)); [left; lia|].
    right. right. left. lia.
  - intros [?|[?|[?|?]]]; [right; left; lia|by left|right; left; lia|by right; right].
Qed.

(** ** Release *)

(** The blocks below [blk] and the others. *)
Fixpoint fm_split (blk : Z) (l : list block) : list block * list block :=
  match l with
  | [] => ([], [])
  | b :: l' =>
      if fst b <? blk then let r := fm_split blk l' in (b :: fst r, snd r) else ([], l)
  end.

Definition nextptr (l : list block) : Z := match l with [] => NULL | b :: _ => fst b end.

Lemma fm_split_app blk l : l = fst (fm_split blk l) ++ snd (fm_split blk l).
Proof.
  induction l as [|b l IH]; simpl; [done|]. destruct (fst b <? blk); simpl; [by f_equal|done].
Qed.

Lemma fm_split_below blk l c : c ∈ fst (fm_split blk l) -> fst c < blk.
Proof.
  induction l as [|b l IH]; simpl; [by intros ?%not_elem_of_nil|].
  destruct (Z.ltb_spec (fst b) blk); simpl; [|by intros ?%not_elem_of_nil].
  intros [->|?]%elem_of_cons; auto.
Qed.

Lemma fm_split_above blk l : snd (fm_split blk l) = [] \/ blk <= nextptr (snd (fm_split blk l)).
Proof.
  induction l as [|b l IH]; simpl; [by left|].
  destruct (Z.ltb_spec (fst b) blk); simpl; [done|by right].
Qed.

Lemma lseg_nextptr m p l : lseg m p l NULL -> p = nextptr l.
Proof. destruct l; simpl; [done|]. by intros (-> & _). Qed.

Lemma freemem_walk_run fuel blk prev next k l lo hi :
  lseg (memory k) next l NULL -> fl_ok lo l hi -> 0 < lo -> (length l < fuel)%nat ->
  freemem_walk fuel blk prev next k =
  Ret ((lastp prev (fst (fm_split blk l)), nextptr (snd (fm_split blk l))), k).
Proof.
  revert fuel prev next lo. induction l as [|b l IH]; intros fuel prev next lo Hs Hok Hlo Hf.
  - destruct fuel as [|fuel]; [simpl in Hf; lia|]. simpl in Hs. by subst.
  - destruct fuel as [|fuel]; [simpl in Hf; lia|].
    destruct Hs as (-> & Hlen & Hs). destruct Hok as (H1 & H2 & H3 & H4 & H5 & Hok). simpl.
    rewrite (proj2 (Z.eqb_neq (fst b) NULL)) by klia. simpl.
    destruct (Z.ltb_spec (fst b) blk); [|done].
    rewrite bind_load. rewrite (IH fuel _ _ (fst b + snd b + 1)); [|done|done|lia|simpl in Hf; lia].
    done.
Qed.

(** A block joined with the list behind it. *)
Definition join_next (b : block) (l2 : list block) : list block :=
  match l2 with
  | [] => [b]
  | c :: l2' =>
      if fst b + snd b =? fst c then (fst b, snd b + snd c) :: l2' else b :: l2
  end.

(** A block put between two lists, joined with its neighbours. *)
Fixpoint put (l1 : list block) (b : block) (l2 : list block) : list block :=
  match l1 with
  | [] => join_next b l2
  | c :: l1' =>
      match l1' with
      | [] => if fst c + snd c =? fst b then join_next (fst c, snd c + snd b) l2
              else c :: join_next b l2
      | _ => c :: put l1' b l2
      end
  end.

Lemma put_snoc l1 c b l2 :
  put (l1 ++ [c]) b l2 =
  if fst c + snd c =? fst b then l1 ++ join_next (fst c, snd c + snd b) l2
  else l1 ++ c :: join_next b l2.
Proof.
  induction l1 as [|d l1 IH]; [done|]. simpl. rewrite IH.
  destruct (l1 ++ [c]) eqn:E; [by destruct l1|]. by destruct (_ =? _).
Qed.

Lemma covers_join b l2 x : 0 < snd b -> (forall c, c ∈ l2 -> 0 < snd c) ->
  covers (join_next b l2) x <-> fst b <= x < fst b + snd b \/ covers l2 x.
Proof.
  intros Hb Hl. destruct l2 as [|c l2]; simpl; [apply covers_cons|].
  destruct (Z.eqb_spec (fst b + snd b) (fst c)); rewrite !covers_cons; simpl; [|done].
  assert (0 < snd c) by (apply Hl; left). split.
  - intros [?|?]; [|auto]. destruct (Z.ltb_spec x (fst c)); [left|right; left]; lia.
  - intros [?|[?|?]]; auto; left; lia.
Qed.

Lemma covers_put l1 b l2 x : 0 < snd b ->
  (forall c, c ∈ l1 -> 0 < snd c) -> (forall c, c ∈ l2 -> 0 < snd c) ->
  covers (put l1 b l2) x <-> covers l1 x \/ fst b <= x < fst b + snd b \/ covers l2 x.
Proof.
  intros Hb H1 H2. destruct l1 as [|c l1 _] using rev_ind.
  - simpl. rewrite covers_join by done. split; [auto|]. by intros [?%covers_nil|?].
  - assert (0 < snd c) by (apply H1, elem_of_app; right; left).
    rewrite put_snoc. destruct (Z.eqb_spec (fst c + snd c) (fst b)).
    + rewrite !covers_app, covers_join, covers_cons by (simpl; done || lia). simpl.
      split.
      * intros [?|[?|?]]; auto. destruct (Z.ltb_spec x (fst b));
          [left; right; left; lia|right; left; lia].
      * intros [[?|[?|?%covers_nil]]|[?|?]]; auto; try done; right; left; lia.
    + rewrite !covers_app, !covers_cons, covers_join by done.
      split; [naive_solver|]. intros [[?|[?|?%covers_nil]]|[?|?]]; auto; done.
Qed.

Lemma total_join b l2 : total (join_next b l2) = snd b + total l2.
Proof.
  destruct l2 as [|c l2]; simpl; [lia|]. destruct (_ =? _); simpl; lia.
Qed.

Lemma total_put l1 b l2 : total (put l1 b l2) = total l1 + snd b + total l2.
Proof.
  destruct l1 as [|c l1 _] using rev_ind; simpl; [rewrite total_join; lia|].
  rewrite put_snoc. destruct (_ =? _); rewrite !total_app; simpl; rewrite total_join; simpl; lia.
Qed.

Lemma join_ok lo b l2 hi :
  lo <= fst b -> (8 | fst b) -> (8 | snd b) -> 0 < snd b -> fst b + snd b <= hi ->
  fl_ok (fst b + snd b) l2 hi -> fl_ok lo (join_next b l2) hi.
Proof.
  intros H1 H2 H3 H4 H5 Hl. destruct l2 as [|c l2]; simpl; [done|].
  destruct Hl as (Hc1 & Hc2 & Hc3 & Hc4 & Hc5 & Hc6).
  destruct (Z.eqb_spec (fst b + snd b) (fst c)) as [E|E]; simpl.
  - replace (fst b + (snd b + snd c)) with (fst c + snd c) by lia.
    repeat split; try done; [by apply Z.divide_add_r|lia].
  - repeat split; try done. lia.
Qed.

(** [coalesce_next] on a block followed by the list [l2] joins the two when
    they touch, and writes only inside the region. *)
Lemma coalesce_run {C} k cpu im lock h hd lx b l2 m f (c : unit -> K C) :
  lseg m hd (lx ++ b :: l2) NULL -> 0 < mh_base h -> mh_base h + mh_bound h < 2 ^ 32 ->
  fl_ok (mh_base h) lx (mh_base h + mh_bound h) -> fl_top (mh_base h) lx <= fst b ->
  mh_base h <= fst b -> (8 | fst b) -> (8 | snd b) -> 0 < snd b ->
  fst b + snd b <= mh_base h + mh_bound h ->
  fl_ok (fst b + snd b) l2 (mh_base h + mh_bound h) ->
  exists m',
    bind (coalesce_next (fst b) (nextptr l2)) c (inside k cpu im lock m f) =
      c tt (inside k cpu im lock m' f) /\
    lseg m' hd (lx ++ join_next b l2) NULL /\ agree_outside h m m'.
Proof.
  intros Hs Hbase Hhi Hlx Htop Hbb Hd1 Hd2 Hpos Hend Hl2.
  pose proof Hs as (r & Hs1 & -> & Hlen & Hs2)%lseg_app.
  unfold coalesce_next. rewrite bind_assoc, bind_load_in, Hlen, wrap_small by lia.
  destruct l2 as [|d l2]; simpl.
  - rewrite (proj2 (Z.eqb_neq (fst b + snd b) NULL)) by klia. by exists m.
  - destruct (Z.eqb_spec (fst b + snd b) (fst d)) as [E|E]; [|by exists m].
    simpl in Hs2. destruct Hs2 as (Hnx & Hdlen & Hs2).
    destruct Hl2 as (H1 & H2 & H3 & H4 & H5 & H6).
    rewrite bind_assoc, bind_load_in, Hdlen, bind_assoc, bind_store_in, bind_assoc, bind_load_in.
    rewrite bind_store_in, (wrap_small 32 (snd b + snd d)) by lia.
    eexists. split; [done|].
    assert (forall x, x ∈ lx -> fst x <> fst b) as Hne.
    { intros x Hx. assert (fl_ok (mh_base h) (lx ++ [b]) (mh_base h + mh_bound h)) as Hall.
      { apply fl_ok_app. split; [done|]. simpl. repeat split; try done; lia. }
      pose proof (fl_ok_before _ _ _ _ x b Hall Hx ltac:(left)).
      destruct (fl_ok_elem _ _ _ _ Hlx Hx) as (_ & _ & _ & ? & _). lia. }
    assert (forall x, x ∈ l2 -> fst x <> fst b) as Hne2.
    { intros x Hx. destruct (fl_ok_elem _ _ _ _ H6 Hx). lia. }
    destruct Hd1 as [y Hy], H2 as [z Hz].
    split.
    + apply lseg_app. exists (fst b). split.
      * eapply lseg_store_hdr; [exact Hlx|by exists y|exact Hne|by left|].
        eapply lseg_store_hdr; [exact Hlx|by exists y|exact Hne|by right|done].
      * simpl. split; [done|].
        rewrite mload_insert_ne, mload_insert_eq by (unfold mb_next, mb_length; lia).
        split; [done|]. rewrite mload_insert_eq, mload_insert_ne by (unfold mb_next, mb_length; lia).
        eapply lseg_store_hdr; [exact H6|by exists y|exact Hne2|by left|].
        eapply lseg_store_hdr; [exact H6|by exists y|exact Hne2|by right|done].
    + destruct Hd2. apply agree_outside_store; [|unfold mb_next; lia].
      apply agree_outside_store; [done|unfold mb_length; lia].
Qed.

(** The block lies in the region, on aligned addresses, and overlaps no free
    block around it. *)
Record fits (h : memhead) (l1 : list block) (b : block) (l2 : list block) : Prop := {
  ft_base : mh_base h <= fst b;
  ft_al : (8 | fst b);
  ft_al2 : (8 | snd b);
  ft_pos : 0 < snd b;
  ft_end : fst b + snd b <= mh_base h + mh_bound h;
  ft_l1 : fl_ok (mh_base h) l1 (mh_base h + mh_bound h);
  ft_l2 : fl_ok (fst b + snd b) l2 (mh_base h + mh_bound h);
  ft_low : forall c, c ∈ l1 -> fst c + snd c <= fst b
}.

(** The result of [place_block]: the list with the block [b'] in front of
    [l2], to be joined with it. *)
Definition placed (h : memhead) (m : gmap Z Z) (l1 : list block) (b : block) (l2 : list block)
    (h' : memhead) (m' : gmap Z Z) (lx : list block) (b' : block) : Prop :=
  put l1 b l2 = lx ++ join_next b' l2 /\ fits h lx b' l2 /\
  fl_top (mh_base h) lx <= fst b' /\
  lseg m' (mh_head h') (lx ++ b' :: l2) NULL /\ agree_outside h m m' /\
  same_region h h' /\ mh_length h' = mh_length h.

Lemma place_merge h m l1 c nb l2 :
  let b := (fst c + snd c, nb) in
  fits h (l1 ++ [c]) b l2 -> 0 < mh_base h ->
  lseg m (mh_head h) ((l1 ++ [c]) ++ l2) NULL ->
  placed h m (l1 ++ [c]) b l2 h (<[fst c + mb_length := snd c + nb]> m) l1 (fst c, snd c + nb).
Proof.
  cbv zeta. intros [Hb1 Hb2 Hb3 Hb4 Hb5 Hl1 Hl2 Hlow] Hbase Hs. simpl in *.
  apply fl_ok_app in Hl1 as [Hl1 Hc]. destruct Hc as (Hc1 & Hc2 & Hc3 & Hc4 & Hc5 & _).
  assert (forall x, x ∈ l1 -> fst x + snd x < fst c) as Hlt.
  { intros x Hx. assert (fl_ok (mh_base h) (l1 ++ [c]) (mh_base h + mh_bound h)) as Hall.
    { apply fl_ok_app. done. }
    apply (fl_ok_before _ _ _ _ x c Hall Hx). left. }
  assert (mh_base h <= fst c) as Hcb.
  { assert (fl_ok (mh_base h) (l1 ++ [c]) (mh_base h + mh_bound h)) as Hall by (apply fl_ok_app; done).
    apply (fl_ok_elem _ _ _ c Hall). apply elem_of_app. right. left. }
  unfold placed. rewrite put_snoc. simpl.
  rewrite Z.eqb_refl. split; [done|]. split; [|split; [done|split; [|split]]].
  - constructor; simpl; try done; try lia.
    + by apply Z.divide_add_r.
    + by rewrite Z.add_assoc.
    + intros x Hx. specialize (Hlt x Hx). lia.
  - rewrite <- app_assoc in Hs. simpl in Hs. apply lseg_app in Hs as (r & Hs1 & -> & Hlen & Hs2).
    apply lseg_app. exists (fst c). split.
    + eapply lseg_store_hdr; [exact Hl1|exact Hc2| |by right|done].
      intros x Hx. specialize (Hlt x Hx). destruct (fl_ok_elem _ _ _ _ Hl1 Hx). lia.
    + simpl. split; [done|]. rewrite mload_insert_eq. split; [done|].
      rewrite mload_insert_ne by (unfold mb_next, mb_length; lia).
      eapply lseg_store_hdr; [exact Hl2|exact Hc2| |by right|done].
      intros x Hx. destruct (fl_ok_elem _ _ _ _ Hl2 Hx). lia.
  - apply agree_outside_store; [done|]. unfold mb_length. destruct Hc3; lia.
  - done.
Qed.

Lemma put_new l1 b l2 :
  (forall c, c ∈ l1 -> fst c + snd c <> fst b) -> put l1 b l2 = l1 ++ join_next b l2.
Proof.
  intros Hne. destruct l1 as [|c l1 _] using rev_ind; [done|]. rewrite put_snoc.
  rewrite (proj2 (Z.eqb_neq (fst c + snd c) (fst b))).
  - by rewrite <- app_assoc.
  - apply Hne, elem_of_app. right. left.
Qed.

Lemma fl_top_low lo l hi x :
  fl_ok lo l hi -> lo <= x -> (forall c, c ∈ l -> fst c + snd c < x) -> fl_top lo l <= x.
Proof.
  intros Hok Hx Hlt. destruct l as [|c l _] using rev_ind; [done|]. rewrite fl_top_app.
  assert (fst c + snd c < x); [|lia]. apply Hlt, elem_of_app. right. left.
Qed.

Lemma place_new h m l1 b l2 :
  fits h l1 b l2 -> 0 < mh_base h -> (forall c, c ∈ l1 -> fst c + snd c < fst b) ->
  lseg m (mh_head h) (l1 ++ l2) NULL ->
  placed h m l1 b l2 (relink_head (lastp PHead l1) (fst b) h)
    (relink_mem (lastp PHead l1) (fst b)
      (<[fst b + mb_length := snd b]> (<[fst b + mb_next := nextptr l2]> m))) l1 b.
Proof.
  intros Hfit Hbase Hlt Hs. pose proof Hfit as [Hb1 Hb2 Hb3 Hb4 Hb5 Hl1 Hl2 Hlow].
  apply lseg_app in Hs as (r & Hs1 & Hs2). pose proof (lseg_nextptr _ _ _ Hs2) as ->.
  assert (forall c, c ∈ l1 -> fst c <> fst b) as Hne1.
  { intros c Hc. specialize (Hlt c Hc). destruct (fl_ok_elem _ _ _ _ Hl1 Hc). lia. }
  assert (forall c, c ∈ l2 -> fst c <> fst b) as Hne2.
  { intros c Hc. destruct (fl_ok_elem _ _ _ _ Hl2 Hc). lia. }
  assert (forall x, x = fst b + mb_next \/ x = fst b + mb_length ->
    forall c, c ∈ l1 -> x <> fst c + mb_next) as Hx.
  { intros x Hx c Hc. specialize (Hlt c Hc). destruct (fl_ok_elem _ _ _ _ Hl1 Hc) as (_ & _ & _ & ? & _).
    unfold mb_next, mb_length in *. lia. }
  unfold placed. rewrite put_new by (intros c Hc; specialize (Hlt c Hc); lia).
  split; [done|]. split; [done|]. split; [by eapply fl_top_low|].
  destruct (relink_head_region (lastp PHead l1) (fst b) h) as (E1 & E2 & E3).
  split; [|split; [|split; [done|by destruct (lastp PHead l1)]]].
  - apply lseg_app. exists (fst b). split.
    + eapply relink_seg; [done|].
      eapply lseg_store_hdr; [exact Hl1|exact Hb2|exact Hne1|by right|].
      eapply lseg_store_hdr; [exact Hl1|exact Hb2|exact Hne1|by left|done].
    + simpl. split; [done|].
      rewrite !(relink_load _ _ _ _ _ _ Hl1) by (apply Hx; auto).
      rewrite mload_insert_eq. split; [done|].
      rewrite mload_insert_ne, mload_insert_eq by (unfold mb_next, mb_length; lia).
      eapply relink_seg_other; [exact Hl1|exact Hl2| |].
      { intros c d Hc Hd. specialize (Hlt c Hc). destruct (fl_ok_elem _ _ _ _ Hl2 Hd), 
          (fl_ok_elem _ _ _ _ Hl1 Hc). lia. }
      eapply lseg_store_hdr; [exact Hl2|exact Hb2|exact Hne2|by right|].
      eapply lseg_store_hdr; [exact Hl2|exact Hb2|exact Hne2|by left|done].
  - eapply relink_agree; [done|]. destruct Hb2, Hb3.
    apply agree_outside_store; [|unfold mb_length; lia].
    apply agree_outside_store; [done|unfold mb_next; lia].
Qed.

(** The end of the block before a point of the list; zero when there is none. *)
Definition topv (l1 : list block) : Z :=
  match last l1 with None => NULL | Some c => fst c + snd c end.

Lemma topv_snoc l c : topv (l ++ [c]) = fst c + snd c.
Proof. unfold topv. by rewrite last_snoc. Qed.

Lemma top_of_prev_run {C} k cpu im lock m f hd l1 l2 lo hi (c : Z -> K C) :
  lseg m hd (l1 ++ l2) NULL -> fl_ok lo l1 hi -> 0 < lo -> hi < 2 ^ 32 ->
  bind (top_of_prev (lastp PHead l1)) c (inside k cpu im lock m f) =
  c (topv l1) (inside k cpu im lock m f).
Proof.
  intros Hs Hok Hlo Hhi. destruct l1 as [|d l1 _] using rev_ind; [done|].
  rewrite lastp_app, topv_snoc. unfold top_of_prev. rewrite bind_assoc, bind_load_in.
  rewrite <- app_assoc in Hs. apply lseg_app in Hs as (r & _ & _ & Hlen & _). rewrite Hlen.
  destruct (fl_ok_elem _ _ _ d Hok) as (? & _ & _ & ? & ?); [apply elem_of_app; right; left|].
  rewrite wrap_small by lia. done.
Qed.

Lemma place_run {C} k cpu im lock m f n h l1 b l2 (c : Z -> K C) :
  nthZ f n = Some h -> fits h l1 b l2 -> 0 < mh_base h -> mh_base h + mh_bound h < 2 ^ 32 ->
  lseg m (mh_head h) (l1 ++ l2) NULL ->
  exists h' m' lx b',
    bind (place_block n (topv l1) (snd b) (lastp PHead l1) (fst b) (nextptr l2)) c
      (inside k cpu im lock m f) = c (fst b') (inside k cpu im lock m' (updZ n h' f)) /\
    placed h m l1 b l2 h' m' lx b'.
Proof.
  intros Hh Hfit Hbase Hhi Hs. unfold place_block.
  destruct (Z.eqb_spec (topv l1) (fst b)) as [E|E].
  - destruct l1 as [|d l1 _] using rev_ind.
    { unfold topv in E. simpl in E. destruct Hfit. klia. }
    rewrite topv_snoc in E. rewrite lastp_app.
    destruct b as [blk nb]. simpl in E |- *. subst blk. do 4 eexists.
    split; [|apply place_merge; done].
    pose proof Hs as Hs'. rewrite <- app_assoc in Hs'. apply lseg_app in Hs' as (r & _ & _ & Hlen & _).
    destruct (fl_ok_elem _ _ _ d (ft_l1 _ _ _ _ Hfit)) as (? & _ & _ & ? & ?);
      [apply elem_of_app; right; left|].
    destruct Hfit as [_ _ _ ? ? _ _ _]. simpl in *.
    rewrite bind_assoc, bind_load_in, Hlen, bind_assoc, bind_store_in, (wrap_small 32 (snd d + nb)) by lia.
    rewrite (updZ_id n h f) by done. done.
  - exists (relink_head (lastp PHead l1) (fst b) h). do 3 eexists. split; [|apply place_new; try done].
    + rewrite bind_assoc, bind_store_in, bind_assoc, bind_store_in, bind_assoc.
      erewrite bind_relink_in by done. done.
    + intros d Hd. pose proof (ft_low _ _ _ _ Hfit d Hd).
      destruct l1 as [|d' l1 _] using rev_ind; [by apply not_elem_of_nil in Hd|].
      rewrite topv_snoc in E. apply elem_of_app in Hd as [Hd|Hd%list_elem_of_singleton]; [|subst; lia].
      pose proof (fl_ok_before _ _ _ _ d d' (ft_l1 _ _ _ _ Hfit) Hd ltac:(left)).
      assert (d' ∈ l1 ++ [d']) as Hd' by (apply elem_of_app; right; left).
      pose proof (ft_low _ _ _ _ Hfit d' Hd').
      destruct (fl_ok_elem _ _ _ _ (ft_l1 _ _ _ _ Hfit) Hd') as (_ & _ & _ & ? & _). lia.
Qed.

(** ** The owner of an address *)

Definition in_region (h : memhead) (p : Z) : Prop := mh_base h <= p < mh_base h + mh_bound h.

(** Core [n]'s region is the first that contains [p]. *)
Definition owner (k : kernel) (p n : Z) : Prop :=
  0 <= n < NCORES /\ lenZ (freelist k) = NCORES /\
  (forall i h, nthZ (freelist k) i = Some h -> 0 <= mh_base h /\ mh_base h + mh_bound h < 2 ^ 32 /\
     0 <= mh_bound h /\ (i < n -> ~ in_region h p) /\ (i = n -> in_region h p)).

Lemma which_freelist_from k p n i c :
  owner k p n -> 0 <= i <= n -> i + Z.of_nat c = NCORES ->
  which_freelist c i p k = Ret (n, k).
Proof.
  intros (Hn & Hlen & Hr). revert i. induction c as [|c IH]; intros i Hi Hc; [lia|].
  destruct (nthZ_lt_Some (freelist k) i) as [h Hh]; [lia|]. simpl.
  erewrite bind_rd_free by exact Hh. destruct (Hr i h Hh) as (H1 & H2 & H3 & H4 & H5).
  rewrite wrap_small by lia. unfold in_region in *.
  destruct (decide (i = n)) as [->|Hne].
  - rewrite (proj2 (Z.leb_le _ _)), (proj2 (Z.ltb_lt _ _)) by (specialize (H5 eq_refl); lia). done.
  - rewrite (proj2 (andb_false_iff _ _)), IH; [done|lia|lia|].
    rewrite Z.leb_gt, Z.ltb_ge. specialize (H4 ltac:(lia)). lia.
Qed.

Lemma which_freelist_owner k p n :
  owner k p n -> which_freelist (Z.to_nat NCORES) 0 p k = Ret (n, k).
Proof. intros H. eapply which_freelist_from; [done|destruct H; lia|klia]. Qed.

(** ** [freemem] *)

Section Release.
Context (k : kernel) (cpu n im : Z) (h : memhead) (l : list block) (blk nb : Z).
Context (Hwf : heap_wf k n h l) (Him : nthZ (cpsr k) cpu = Some im).
Context (Hin : mh_base h <= blk /\ blk + nb <= mh_base h + mh_bound h).
Context (Hal : (8 | blk)) (Hnb : 0 < nb) (Hnal : (8 | nb)).

Let l1 := fst (fm_split blk l).
Let l2 := snd (fm_split blk l).
Let inn := inside k cpu im (mh_memlock h).

Definition overlap_test : bool :=
  (topv l1 >? blk) || (negb (nextptr l2 =? NULL) && (u32 (blk + nb) >? nextptr l2)).

Lemma split_ok : fl_ok (mh_base h) l1 (mh_base h + mh_bound h) /\
  fl_ok (mh_base h) l2 (mh_base h + mh_bound h).
Proof.
  pose proof (hw_ok _ _ _ _ Hwf) as Hok. rewrite (fm_split_app blk l) in Hok.
  pose proof Hok as [H1 H2]%fl_ok_app. split; [done|].
  unfold l2. destruct (snd (fm_split blk l)) as [|d l']; [done|].
  destruct (fl_ok_elem _ _ _ d Hok) as (? & _); [apply elem_of_app; right; left|].
  simpl in H2 |- *. intuition.
Qed.

Lemma overlap_test_false : overlap_test = false -> fits h l1 (blk, nb) l2.
Proof.
  unfold overlap_test. rewrite !Z.gtb_ltb. intros [Ht Hn]%orb_false_elim.
  destruct split_ok as [H1 H2]. pose proof (hw_bound _ _ _ _ Hwf). pose proof (hw_base _ _ _ _ Hwf).
  apply Z.ltb_ge in Ht. constructor; simpl; try done; try lia.
  - destruct l2 as [|d l']; [done|]. simpl in Hn, H2 |- *. destruct H2 as (? & ? & ? & ? & ? & ?).
    rewrite (proj2 (Z.eqb_neq (fst d) NULL)) in Hn by klia. simpl in Hn.
    apply Z.ltb_ge in Hn. rewrite wrap_small in Hn by lia. done.
  - intros c Hc. destruct l1 as [|d l' _] using rev_ind; [by apply not_elem_of_nil in Hc|].
    rewrite topv_snoc in Ht. apply elem_of_app in Hc as [Hc|Hc%list_elem_of_singleton]; [|by subst].
    pose proof (fl_ok_before _ _ _ _ c d H1 Hc ltac:(left)).
    assert (d ∈ l' ++ [d]) as Hd by (apply elem_of_app; right; left).
    destruct (fl_ok_elem _ _ _ _ H1 Hd) as (_ & _ & _ & ? & _). lia.
Qed.

Lemma overlap_test_true : overlap_test = true -> exists x, blk <= x < blk + nb /\ covers l x.
Proof.
  unfold overlap_test. rewrite !Z.gtb_ltb. destruct split_ok as [H1 H2].
  pose proof (hw_bound _ _ _ _ Hwf). pose proof (hw_base _ _ _ _ Hwf).
  intros [Ht|[Hnz Hn]%andb_prop]%orb_prop.
  - apply Z.ltb_lt in Ht. exists blk. split; [lia|]. rewrite (fm_split_app blk l), covers_app. left.
    fold l1. unfold topv in Ht. destruct (last l1) as [d|] eqn:E; [|klia].
    apply last_Some in E as (l' & E).
    assert (d ∈ l1) as Hd by (rewrite E; apply elem_of_app; right; left).
    exists d. split; [done|]. split; [|done]. by apply Z.lt_le_incl, (fm_split_below blk l).
  - apply Z.ltb_lt in Hn. rewrite wrap_small in Hn by lia. apply negb_true_iff, Z.eqb_neq in Hnz.
    exists (nextptr l2). destruct (fm_split_above blk l) as [E|E]; fold l2 in E.
    { rewrite E in Hnz. done. }
    split; [lia|]. rewrite (fm_split_app blk l), covers_app. right. fold l2.
    destruct l2 as [|d l']; [done|]. exists d. split; [left|].
    simpl. destruct H2 as (_ & _ & _ & ? & _). lia.
Qed.

Lemma fits_no_overlap x :
  fits h l1 (blk, nb) l2 -> blk <= x < blk + nb -> ~ covers l x.
Proof.
  intros Hfit Hx. rewrite (fm_split_app blk l), covers_app. fold l1 l2.
  intros [(c & Hc & Hcx)|(c & Hc & Hcx)].
  - pose proof (ft_low _ _ _ _ Hfit c Hc). simpl in *. lia.
  - destruct (fl_ok_elem _ _ _ _ (ft_l2 _ _ _ _ Hfit) Hc). simpl in *. lia.
Qed.

Lemma freed_length :
  fits h l1 (blk, nb) l2 ->
  fl_ok (mh_base h) (put l1 (blk, nb) l2) (mh_base h + mh_bound h) ->
  u32 (mh_length h + nb) = total (put l1 (blk, nb) l2).
Proof.
  intros Hfit Hok. apply total_bound in Hok. rewrite total_put in *. simpl in *.
  pose proof (hw_bound _ _ _ _ Hwf). pose proof (hw_base _ _ _ _ Hwf).
  pose proof (hw_total _ _ _ _ Hwf) as Ht. rewrite (fm_split_app blk l), total_app in Ht.
  fold l1 l2 in Ht. rewrite wrap_small; lia.
Qed.

Lemma freemem_locked_run :
  fits h l1 (blk, nb) l2 ->
  exists m' h',
    let k' := set_memory m' (set_freelist (updZ n h' (freelist k)) k) in
    freemem_locked cpu n im blk nb (lastp PHead l1) (nextptr l2)
      (inn (memory k) (freelist k)) = Ret (OK, k') /\
    heap_wf k' n h' (put l1 (blk, nb) l2) /\
    same_region h h' /\ agree_outside h (memory k) m'.
Proof.
  intros Hfit. pose proof (hw_head _ _ _ _ Hwf) as Hh. pose proof (nthZ_Some_lt _ _ _ Hh) as Hn.
  pose proof (hw_list _ _ _ _ Hwf) as Hs. rewrite (fm_split_app blk l) in Hs. fold l1 l2 in Hs.
  destruct split_ok as [Hl1 _]. destruct (hw_bound _ _ _ _ Hwf) as [Hb0 Hhi].
  pose proof (hw_base _ _ _ _ Hwf) as Hbase.
  destruct (overlap_test) eqn:Etest.
  { exfalso. destruct (overlap_test_true Etest) as (x & Hx & Hc). by eapply fits_no_overlap. }
  unfold freemem_locked, inn. erewrite top_of_prev_run by done. unfold overlap_test in Etest.
  rewrite Etest. clear Etest. erewrite bind_upd_free_in by done.
  set (h0 := set_mh_length (u32 (mh_length h + nb)) h).
  assert (fits h0 l1 (blk, nb) l2) as Hfit0 by (destruct Hfit; by constructor).
  destruct (place_run k cpu im (mh_memlock h) (memory k) (updZ n h0 (freelist k)) n h0 l1 (blk, nb) l2
    (fun b => coalesce_next b (nextptr l2) ;;; mem_return cpu n im OK))
    as (h' & m1 & lx & b & Hrun & Hput & Hfx & Htop & Hs1 & Hag & Hsr & Hlen);
    [by apply nthZ_updZ_eq|done..|]. cbn [fst snd] in Hrun.
  rewrite Hrun, updZ_updZ. clear Hrun.
  destruct (coalesce_run k cpu im (mh_memlock h) h (mh_head h') lx b l2 m1 (updZ n h' (freelist k))
    (fun _ => mem_return cpu n im OK)) as (m2 & Hrun & Hs2 & Hag2); [try apply Hfx; done..|].
  rewrite Hrun. clear Hrun. rewrite <- Hput in Hs2. destruct Hsr as (E1 & E2 & E3). simpl in E1, E2, E3.
  assert (fl_ok (mh_base h) (put l1 (blk, nb) l2) (mh_base h + mh_bound h)) as Hok.
  { rewrite Hput. apply fl_ok_app. split; [apply Hfx|]. apply join_ok; try apply Hfx; done. }
  exists m2, h'. cbv zeta. split; [|split; [|split; [done|]]].
  - eapply leave; [done|apply (hw_lockid _ _ _ _ Hwf)|apply (hw_rest _ _ _ _ Hwf)|by apply nthZ_updZ_eq|done].
  - destruct Hwf. constructor; simpl; rewrite ?E1, ?E2, ?E3; try done; [by apply nthZ_updZ_eq|].
    rewrite Hlen. simpl. by apply freed_length.
  - intros x Hx. rewrite (Hag2 x Hx). by apply Hag.
Qed.
End Release.

Lemma freemem_run cpu n k h l im memptr nbytes :
  heap_wf k n h l -> nthZ (cpsr k) cpu = Some im -> owner k memptr n ->
  memheap k <= memptr <= maxaddr k -> 0 < nbytes <= 2 ^ 32 - 8 -> (8 | memptr) ->
  memptr + roundmb nbytes <= mh_base h + mh_bound h ->
  let freed x := memptr <= x < memptr + roundmb nbytes in
  ((exists x, freed x /\ covers l x) /\ freemem cpu memptr nbytes k = Ret (SYSERR, k)) \/
  ((forall x, freed x -> ~ covers l x) /\
   exists m' h' l',
     let k' := set_memory m' (set_freelist (updZ n h' (freelist k)) k) in
     freemem cpu memptr nbytes k = Ret (OK, k') /\ heap_wf k' n h' l' /\
     (forall x, covers l' x <-> covers l x \/ freed x) /\
     same_region h h' /\ agree_outside h (memory k) m').
Proof.
  intros Hwf Him Hown Hmem Hnz Hal Hend. cbv zeta.
  destruct (roundmb_spec nbytes) as (Hr & Hd & _); [lia|].
  pose proof (hw_head _ _ _ _ Hwf) as Hh. pose proof (hw_ok _ _ _ _ Hwf) as Hok.
  pose proof (hw_list _ _ _ _ Hwf) as Hs.
  assert (mh_base h <= memptr) as Hlo by (destruct Hown as (_ & _ & Ho); apply (Ho n h Hh); done).
  assert (freemem cpu memptr nbytes k =
    freemem_locked cpu n im memptr (roundmb nbytes) (lastp PHead (fst (fm_split memptr l)))
      (nextptr (snd (fm_split memptr l))) (inside k cpu im (mh_memlock h) (memory k) (freelist k))) as ->.
  { unfold freemem. rewrite !bind_gets. rewrite (proj2 (Z.eqb_neq 0 nbytes)) by lia.
    rewrite (proj2 (Z.ltb_ge _ _)), Z.gtb_ltb, (proj2 (Z.ltb_ge _ _)) by lia. simpl. cbv zeta.
    erewrite bind_Ret by (by apply which_freelist_owner).
    erewrite bind_disable by exact Him. erewrite bind_rd_free by exact Hh.
    erewrite enter; [|exact (hw_lockid _ _ _ _ Hwf)|exact (hw_rest _ _ _ _ Hwf)|exact Hh|done].
    erewrite bind_rd_free_in by exact Hh. rewrite bind_gets.
    erewrite bind_Ret; [|eapply freemem_walk_run; [exact Hs|exact Hok|apply Hwf|]]; [done|].
    pose proof (lseg_size _ _ _ _ _ _ Hs Hok). simpl. lia. }
  destruct (overlap_test l memptr (roundmb nbytes)) eqn:E.
  - left. split; [eapply overlap_test_true; eauto; lia|].
    unfold freemem_locked. rewrite (fm_split_app memptr l) in Hs.
    erewrite top_of_prev_run; [|exact Hs|eapply split_ok; eauto|apply Hwf|apply Hwf].
    unfold overlap_test in E. rewrite E.
    erewrite leave; [by destruct k|exact Him|apply Hwf|apply Hwf|exact Hh|done].
  - right. assert (fits h (fst (fm_split memptr l)) (memptr, roundmb nbytes) (snd (fm_split memptr l)))
      as Hfit by (eapply overlap_test_false; eauto; lia).
    split; [intros x Hx; by eapply fits_no_overlap|].
    destruct (freemem_locked_run k cpu n im h l memptr (roundmb nbytes)) as (m' & h' & Hrun & Hwf' & Hsr & Hag);
      try done; try lia.
    exists m', h', (put (fst (fm_split memptr l)) (memptr, roundmb nbytes) (snd (fm_split memptr l))).
    split; [done|]. split; [done|]. split; [|done]. intros x.
    rewrite covers_put; [|simpl; lia| |].
    + rewrite (fm_split_app memptr l) at 3. rewrite covers_app. simpl. tauto.
    + intros c Hc. destruct (fl_ok_elem _ _ _ c (ft_l1 _ _ _ _ Hfit) Hc) as (_ & _ & _ & ? & _). lia.
    + intros c Hc. destruct (fl_ok_elem _ _ _ c (ft_l2 _ _ _ _ Hfit) Hc) as (_ & _ & _ & ? & _). lia.
Qed.

(** C11: [freemem] of an aligned block that lies inside the region of its
    owning core: when a byte of the block is already free it returns
    [SYSERR] and changes nothing (double frees and overlapping frees are
    caught); otherwise it returns [OK], the free bytes are those before and
    those of the block, the list is again sorted, disjoint and coalesced,
    the length field counts it, and no memory outside the region is
    written. *)
Theorem freemem_coalesces cpu n k h l im memptr nbytes :
  heap_wf k n h l -> nthZ (cpsr k) cpu = Some im -> owner k memptr n ->
  memheap k <= memptr <= maxaddr k -> 0 < nbytes <= 2 ^ 32 - 8 -> (8 | memptr) ->
  memptr + roundmb nbytes <= mh_base h + mh_bound h ->
  let freed x := memptr <= x < memptr + roundmb nbytes in
  ((exists x, freed x /\ covers l x) /\ freemem cpu memptr nbytes k = Ret (SYSERR, k)) \/
  ((forall x, freed x -> ~ covers l x) /\
   exists m' h' l',
     let k' := set_memory m' (set_freelist (updZ n h' (freelist k)) k) in
     freemem cpu memptr nbytes k = Ret (OK, k') /\ heap_wf k' n h' l' /\
     (forall x, covers l' x <-> covers l x \/ freed x) /\
     same_region h h' /\ agree_outside h (memory k) m').
Proof. apply freemem_run. Qed.

(** ** All the heaps *)

(** Every core's free list is well formed, the regions lie between the
    addresses [freemem] accepts, and no two of them share a byte. *)
Record heaps_wf (k : kernel) (FL : Z -> list block) : Prop := {
  hs_len : lenZ (freelist k) = NCORES;
  hs_each : forall n h, nthZ (freelist k) n = Some h ->
    heap_wf k n h (FL n) /\ memheap k <= mh_base h /\ mh_base h + mh_bound h <= maxaddr k + 1;
  hs_disj : forall i j hi hj p, nthZ (freelist k) i = Some hi -> nthZ (freelist k) j = Some hj ->
    i <> j -> in_region hi p -> in_region hj p -> False
}.

Lemma lseg_agree m m' p l q :
  (forall b, b ∈ l -> mload m' (fst b + mb_next) = mload m (fst b + mb_next) /\
     mload m' (fst b + mb_length) = mload m (fst b + mb_length)) ->
  lseg m p l q -> lseg m' p l q.
Proof.
  revert p. induction l as [|b l IH]; intros p Ha; simpl; [done|].
  intros (-> & Hlen & Hs). destruct (Ha b ltac:(left)) as [-> ->]. split; [done|]. split; [done|].
  apply IH; [|done]. intros c Hc. apply Ha. by right.
Qed.

Lemma heaps_owner k FL n h p :
  heaps_wf k FL -> nthZ (freelist k) n = Some h -> in_region h p -> owner k p n.
Proof.
  intros [Hlen Heach Hdisj] Hh Hp. split; [|split; [done|]].
  { rewrite <- Hlen. by eapply nthZ_Some_lt. }
  intros i hi Hi. destruct (Heach i hi Hi) as ([] & _).
  split; [lia|]. split; [lia|]. split; [lia|]. split.
  - intros Hlt Hp'. by eapply (Hdisj i n); eauto; lia.
  - intros ->. congruence.
Qed.

(** One core's list and region contents change; the others are as before. *)
Lemma heaps_update k FL n h h' l' m' :
  heaps_wf k FL -> nthZ (freelist k) n = Some h -> same_region h h' ->
  agree_outside h (memory k) m' ->
  let k' := set_memory m' (set_freelist (updZ n h' (freelist k)) k) in
  heap_wf k' n h' l' -> heaps_wf k' (<[n := l']> FL).
Proof.
  intros [Hlen Heach Hdisj] Hh (E1 & E2 & E3) Hag k' Hwf'.
  pose proof (nthZ_Some_lt _ _ _ Hh) as Hn.
  constructor; simpl; [by rewrite lenZ_updZ| |].
  - intros i hi. rewrite nthZ_updZ by done. case_decide as E; [subst i; intros [= <-]|intros Hi].
    + rewrite fn_lookup_insert, E1, E2. split; [done|]. by destruct (Heach _ _ Hh).
    + rewrite fn_lookup_insert_ne by done. destruct (Heach i hi Hi) as (Hw & Hr). split; [|done].
      destruct Hw. constructor; simpl; try done.
      * by rewrite nthZ_updZ_ne.
      * eapply lseg_agree; [|done]. intros b Hb.
        destruct (fl_ok_elem _ _ _ _ hw_ok0 Hb) as (? & _ & _ & ? & ?).
        unfold mb_next, mb_length.
        split; apply Hag; intros Hx; apply (Hdisj n i h hi _ Hh Hi E Hx); unfold in_region; lia.
  - assert (forall i hi p, nthZ (updZ n h' (freelist k)) i = Some hi -> in_region hi p ->
      exists hi', nthZ (freelist k) i = Some hi' /\ in_region hi' p) as Hold.
    { intros i hi p. rewrite nthZ_updZ by done. case_decide; [|eauto]. subst i. intros [= <-] Hp.
      exists h. split; [done|]. unfold in_region in *. by rewrite <- E1, <- E2. }
    intros i j hi hj p Hi Hj Hij Hp1 Hp2.
    destruct (Hold _ _ _ Hi Hp1) as (hi' & ? & ?), (Hold _ _ _ Hj Hp2) as (hj' & ? & ?).
    by eapply (Hdisj i j).
Qed.

Definition free_byte (FL : Z -> list block) (x : Z) : Prop := exists n, 0 <= n < NCORES /\ covers (FL n) x.

(** What a heap operation leaves alone: everything but memory and the list
    heads, whose regions stay. *)
Definition heap_frame (k k' : kernel) : Prop :=
  (exists m f, k' = set_memory m (set_freelist f k)) /\
  forall n h, nthZ (freelist k) n = Some h ->
    exists h', nthZ (freelist k') n = Some h' /\ same_region h h'.

Lemma heap_frame_upd k n h h' m :
  nthZ (freelist k) n = Some h -> same_region h h' ->
  heap_frame k (set_memory m (set_freelist (updZ n h' (freelist k)) k)).
Proof.
  intros Hh Hs. split; [by do 2 eexists|]. simpl. intros i hi Hi.
  rewrite nthZ_updZ by (by eapply nthZ_Some_lt). case_decide; [|by exists hi].
  subst i. exists h'. split; [done|]. by replace hi with h by congruence.
Qed.

Lemma heap_frame_trans k1 k2 k3 : heap_frame k1 k2 -> heap_frame k2 k3 -> heap_frame k1 k3.
Proof.
  intros [(m & f & ->) H1] [(m2 & f2 & ->) H2]. split; [by exists m2, f2|].
  intros n h Hh. destruct (H1 n h Hh) as (h1 & Hh1 & S1), (H2 n h1 Hh1) as (h2 & Hh2 & S2).
  exists h2. split; [done|]. unfold same_region in *. intuition congruence.
Qed.

Lemma heap_frame_memory k m : heap_frame k (set_memory m k).
Proof.
  split; [exists m, (freelist k); by destruct k|]. simpl. intros n h Hh. by exists h.
Qed.

(** A block inside the region of core [n]. *)
Definition block_of (k : kernel) (n : Z) (b : block) : Prop :=
  exists h, nthZ (freelist k) n = Some h /\ mh_base h <= fst b /\
    fst b + snd b <= mh_base h + mh_bound h /\ (8 | fst b) /\ 0 < snd b.

Lemma block_of_frame k k' n b : heap_frame k k' -> block_of k n b -> block_of k' n b.
Proof.
  intros [_ Hf] (h & Hh & Hb). destruct (Hf n h Hh) as (h' & Hh' & E1 & E2 & _).
  exists h'. by rewrite E1, E2.
Qed.

Definition inb (b : block) (x : Z) : Prop := fst b <= x < fst b + snd b.

(** [getmem] on any core takes the start of the first block that is large
    enough. *)
Lemma getmem_taken cpu k FL im nbytes l1 b0 l2 :
  heaps_wf k FL -> 0 <= cpu < NCORES -> nthZ (cpsr k) cpu = Some im -> 0 < nbytes <= 2 ^ 32 - 8 ->
  first_fit (roundmb nbytes) (FL cpu) = Some (l1, b0, l2) ->
  exists k', let b := (fst b0, roundmb nbytes) in let l' := l1 ++ leftover (roundmb nbytes) b0 ++ l2 in
    getmem cpu nbytes k = Ret (fst b0, k') /\ heaps_wf k' (<[cpu := l']> FL) /\
    heap_frame k k' /\ block_of k cpu b /\
    forall x, (covers (FL cpu) x <-> inb b x \/ covers l' x) /\ ~ (inb b x /\ covers l' x).
Proof.
  intros Hhs Hcpu Him Hn E. destruct (nthZ_lt_Some (freelist k) cpu) as [h Hh]; [rewrite (hs_len _ _ Hhs); done|].
  destruct (hs_each _ _ Hhs cpu h Hh) as (Hwf & _). destruct (roundmb_spec nbytes) as (Hr & Hd & _); [lia|].
  rewrite (getmem_run _ _ _ _ _ _ Hwf Him Hn), E. destruct (first_fit_Some _ _ _ _ _ E) as (El & Hle & _).
  rewrite El in Hwf. pose proof (hw_ok _ _ _ _ Hwf) as Hok.
  destruct (fl_ok_mid _ _ _ _ _ Hok) as (_ & _ & _ & ? & _ & _ & ? & ? & _).
  assert (same_region h (take_head k h l1 b0 (roundmb nbytes))) as Hsr.
  { unfold take_head, same_region. by destruct (lastp PHead l1). }
  eexists. cbv zeta. split; [done|]. split.
  { eapply heaps_update; [done|exact Hh|done| |apply take_wf; done || lia].
    eapply take_agree; [exact Hwf|lia|done]. }
  split; [by eapply heap_frame_upd|]. split; [exists h; simpl; repeat split; done || lia|].
  rewrite El. intros x. apply (take_bytes _ _ _ _ _ (roundmb nbytes) _ Hok). clear -Hr Hn Hle. lia.
Qed.

(** [getmem] on any core: no block of that core is large enough and nothing
    changes, or a block of free bytes leaves the core's list. *)
Lemma getmem_heaps cpu k FL im nbytes :
  heaps_wf k FL -> 0 <= cpu < NCORES -> nthZ (cpsr k) cpu = Some im -> 0 < nbytes <= 2 ^ 32 - 8 ->
  (getmem cpu nbytes k = Ret (u32 SYSERR, k) /\ forall b, b ∈ FL cpu -> snd b < nbytes) \/
  (exists p k' l', let b := (p, roundmb nbytes) in
    getmem cpu nbytes k = Ret (p, k') /\ heaps_wf k' (<[cpu := l']> FL) /\
    heap_frame k k' /\ block_of k cpu b /\
    forall x, (covers (FL cpu) x <-> inb b x \/ covers l' x) /\ ~ (inb b x /\ covers l' x)).
Proof.
  intros Hhs Hcpu Him Hn. destruct (first_fit (roundmb nbytes) (FL cpu)) as [[[l1 b] l2]|] eqn:E.
  - right. destruct (getmem_taken cpu k FL im nbytes l1 b l2 Hhs Hcpu Him Hn E) as (k' & Hk').
    by exists (fst b), k', (l1 ++ leftover (roundmb nbytes) b ++ l2).
  - left. destruct (nthZ_lt_Some (freelist k) cpu) as [h Hh]; [rewrite (hs_len _ _ Hhs); done|].
    destruct (hs_each _ _ Hhs cpu h Hh) as (Hwf & _).
    rewrite (getmem_run _ _ _ _ _ _ Hwf Him Hn), E. split; [done|].
    intros b Hb. pose proof (first_fit_None _ _ E b Hb) as Hlt.
    destruct (fl_ok_elem _ _ _ b (hw_ok _ _ _ _ Hwf) Hb) as (_ & _ & [z Hz] & _ & _).
    destruct (roundmb_spec nbytes) as (? & [y Hy] & _); lia.
Qed.

(** [freemem], called on any core, of a block of core [n] none of whose bytes
    is free. *)
Lemma freemem_heaps cpu n k FL im p nbytes :
  heaps_wf k FL -> nthZ (cpsr k) cpu = Some im -> 0 < nbytes <= 2 ^ 32 - 8 ->
  let b := (p, roundmb nbytes) in
  block_of k n b -> (forall x, inb b x -> ~ covers (FL n) x) ->
  exists k' l', freemem cpu p nbytes k = Ret (OK, k') /\ heaps_wf k' (<[n := l']> FL) /\
    heap_frame k k' /\ forall x, covers l' x <-> covers (FL n) x \/ inb b x.
Proof.
  intros Hhs Him Hn b (h & Hh & Hlo & Hhi & Hal & Hpos) Hno. subst b. simpl in *.
  destruct (hs_each _ _ Hhs n h Hh) as (Hwf & Hm1 & Hm2).
  destruct (freemem_run cpu n k h (FL n) im p nbytes) as [[(x & Hx & Hc) _]|(_ & Hr)]; try done.
  - eapply heaps_owner; [done|exact Hh|]. unfold in_region. lia.
  - lia.
  - by apply Hno in Hc.
  - destruct Hr as (m' & h' & l' & Hrun & Hwf' & Hc & Hsr & Hag).
    eexists. exists l'. split; [done|]. split; [by eapply heaps_update|].
    split; [by eapply heap_frame_upd|done].
Qed.

(** ** The allocator as a whole *)

(** Sequences of allocations and releases on any cores, with the blocks
    handed out and not yet released.  A release gives back a block with the
    size it was requested with. *)
Inductive heap_step : kernel * list block -> kernel * list block -> Prop :=
  | alloc_ok k live cpu nbytes p k' :
      0 <= cpu < NCORES -> 0 < nbytes <= 2 ^ 32 - 8 ->
      getmem cpu nbytes k = Ret (p, k') -> p <> u32 SYSERR ->
      heap_step (k, live) (k', (p, roundmb nbytes) :: live)
  | alloc_fail k live cpu nbytes k' :
      0 <= cpu < NCORES -> 0 < nbytes <= 2 ^ 32 - 8 ->
      getmem cpu nbytes k = Ret (u32 SYSERR, k') ->
      heap_step (k, live) (k', live)
  | release k l1 l2 cpu p nbytes r k' :
      0 <= cpu < NCORES -> 0 < nbytes <= 2 ^ 32 - 8 ->
      freemem cpu p nbytes k = Ret (r, k') ->
      heap_step (k, l1 ++ (p, roundmb nbytes) :: l2) (k', l1 ++ l2).

(** No byte is in two blocks. *)
Fixpoint apart (l : list block) : Prop :=
  match l with [] => True | b :: l' => (forall x, inb b x -> ~ covers l' x) /\ apart l' end.

Lemma apart_mid l1 b l2 :
  apart (l1 ++ b :: l2) -> apart (l1 ++ l2) /\ forall x, inb b x -> ~ covers (l1 ++ l2) x.
Proof.
  induction l1 as [|c l1 IH]; simpl; [tauto|]. intros [Hc H]. destruct (IH H) as [H1 H2].
  split; [split; [|done]|].
  - intros x Hx Hcx. apply (Hc x Hx). rewrite covers_app in Hcx |- *. rewrite covers_cons. tauto.
  - intros x Hx. rewrite covers_cons. intros [Hx'|Hx']; [|by apply (H2 x)].
    apply (Hc x Hx'). unfold inb in *. rewrite covers_app, covers_cons. tauto.
Qed.

(** The invariant: the lists are well formed, the blocks handed out are
    blocks of some region, apart from each other, and they and the free
    bytes together are exactly the bytes [F0] free at the start. *)
Record alloc_inv (F0 : Z -> Prop) (k : kernel) (live : list block) : Prop := {
  ai_cpsr : forall cpu, 0 <= cpu < NCORES -> exists im, nthZ (cpsr k) cpu = Some im;
  ai_apart : apart live;
  ai_block : forall b, b ∈ live -> exists n, 0 <= n < NCORES /\ block_of k n b;
  ai_heaps : exists FL, heaps_wf k FL /\
    forall x, (F0 x <-> free_byte FL x \/ covers live x) /\ ~ (free_byte FL x /\ covers live x)
}.

Lemma free_byte_split FL n x :
  0 <= n < NCORES ->
  free_byte FL x <-> covers (FL n) x \/ exists i, i <> n /\ 0 <= i < NCORES /\ covers (FL i) x.
Proof.
  intros Hn. split; [|intros [?|(i & _ & ? & ?)]; by eexists].
  intros (i & Hi & Hc). destruct (decide (i = n)) as [->|Hne]; [by left|right; by exists i].
Qed.

Lemma free_byte_insert FL n l x :
  0 <= n < NCORES ->
  free_byte (<[n := l]> FL) x <-> covers l x \/ exists i, i <> n /\ 0 <= i < NCORES /\ covers (FL i) x.
Proof.
  intros Hn. rewrite (free_byte_split _ n) by done. rewrite fn_lookup_insert.
  split; (intros [?|(i & Hne & ? & Hc)]; [by left|right; exists i]).
  - by rewrite fn_lookup_insert_ne in Hc.
  - by rewrite fn_lookup_insert_ne.
Qed.

(** Free bytes of different cores are different bytes. *)
Lemma free_byte_one k FL n i x :
  heaps_wf k FL -> 0 <= n < NCORES -> 0 <= i < NCORES ->
  covers (FL n) x -> covers (FL i) x -> n = i.
Proof.
  intros Hhs Hn Hi Hcn Hci. destruct (decide (n = i)) as [|Hne]; [done|]. exfalso.
  destruct (nthZ_lt_Some (freelist k) n) as [hn Hhn]; [by rewrite (hs_len _ _ Hhs)|].
  destruct (nthZ_lt_Some (freelist k) i) as [hi Hhi]; [by rewrite (hs_len _ _ Hhs)|].
  eapply (hs_disj _ _ Hhs n i); try done; 
    (eapply covers_range; [eapply hw_ok, (hs_each _ _ Hhs); done|done]).
Qed.

(** A block of core [n] has no free bytes of another core. *)
Lemma block_of_other k FL n i b x :
  heaps_wf k FL -> block_of k n b -> inb b x -> 0 <= i < NCORES -> i <> n -> ~ covers (FL i) x.
Proof.
  intros Hhs (h & Hh & H1 & H2 & _) Hx Hi Hne Hc.
  destruct (nthZ_lt_Some (freelist k) i) as [hi Hhi]; [by rewrite (hs_len _ _ Hhs)|].
  eapply (hs_disj _ _ Hhs n i h hi x); try done; [unfold in_region, inb in *; lia|].
  eapply covers_range; [eapply hw_ok, (hs_each _ _ Hhs); done|done].
Qed.

Lemma alloc_inv_step F0 k live k' live' :
  alloc_inv F0 k live -> heap_step (k, live) (k', live') -> alloc_inv F0 k' live'.
Proof.
  intros [Hcp Hap Hbl (FL & Hhs & HF)] Hstep. inversion Hstep as
    [? ? cpu nbytes p ? Hc Hn Hrun Hp|? ? cpu nbytes ? Hc Hn Hrun|? l1 l2 cpu p nbytes r ? Hc Hn Hrun];
    subst; destruct (Hcp cpu Hc) as [im Him].
  - destruct (getmem_heaps cpu k FL im nbytes Hhs Hc Him Hn) as
      [[Hr _]|(p' & k2 & l' & Hr & Hhs' & Hfr & Hb & Hx)]; [congruence|].
    assert (p' = p) as -> by congruence. assert (k2 = k') as -> by congruence. clear Hr.
    pose proof Hfr as [(m & f & ->) _]. constructor; [done| | |].
    + split; [|done]. intros x Hbx Hcx. apply (proj2 (HF x)). split; [|done].
      exists cpu. split; [done|]. apply (proj1 (Hx x)). by left.
    + intros b [->|Hin]%elem_of_cons; [exists cpu; split; [done|]; by eapply block_of_frame|].
      destruct (Hbl b Hin) as (n & Hn' & Hbn). exists n. split; [done|]. by eapply block_of_frame.
    + eexists. split; [done|]. intros x. destruct (Hx x) as [Hx1 Hx2], (HF x) as [HF1 HF2].
      rewrite covers_cons. rewrite free_byte_insert by done.
      pose proof (free_byte_split FL cpu x Hc) as Hfb.
      assert (inb (p, roundmb nbytes) x -> ~ exists i, i <> cpu /\ 0 <= i < NCORES /\ covers (FL i) x) as Ho.
      { intros Hbx (i & Hne & Hi & Hci). exact (block_of_other _ _ _ _ _ _ Hhs Hb Hbx Hi Hne Hci). }
      unfold inb in *. simpl in *. tauto.
  - destruct (getmem_heaps cpu k FL im nbytes Hhs Hc Him Hn) as
      [[Hr _]|(p' & k2 & l' & Hr & _ & _ & (h & Hh & ? & ? & [y Hy] & ?) & _)].
    + assert (k' = k) as -> by congruence. constructor; eauto.
    + exfalso. assert (p' = u32 SYSERR) as -> by congruence.
      simpl in Hy. change (u32 SYSERR) with 4294967295 in Hy. lia.
  - destruct (apart_mid _ _ _ Hap) as [Hap1 Hap2].
    destruct (Hbl (p, roundmb nbytes)) as (n & Hn' & Hb); [apply elem_of_app; right; left|].
    assert (forall x, inb (p, roundmb nbytes) x -> ~ covers (FL n) x) as Hno.
    { intros x Hx Hcx. apply (proj2 (HF x)). split; [by exists n|]. unfold inb in Hx; rewrite covers_app, covers_cons; tauto. }
    destruct (freemem_heaps cpu n k FL im p nbytes Hhs Him Hn Hb Hno) as (k2 & l' & Hr & Hhs' & Hfr & Hx).
    assert (k2 = k') as -> by congruence. pose proof Hfr as [(m & f & ->) _]. constructor; [done|done| |].
    + intros b Hin. destruct (Hbl b) as (i & Hi & Hbi); [set_solver|].
      exists i. split; [done|]. by eapply block_of_frame.
    + eexists. split; [done|]. intros x. specialize (Hx x). specialize (Hap2 x).
      destruct (HF x) as [HF1 HF2]. rewrite free_byte_insert by done.
      pose proof (free_byte_split FL n x Hn') as Hfb.
      rewrite covers_app in *. rewrite covers_cons in *. unfold inb in *. simpl in *. tauto.
Qed.

(** C10: From any well-formed heap, after any sequence of allocations and
    releases on any cores: the blocks handed out are pairwise disjoint,
    aligned to eight bytes and inside the heap regions; no byte of them is
    on a free list; and the free bytes and the handed-out bytes together are
    exactly the bytes that were free at the start, so nothing is lost and
    nothing is handed out twice. *)
Theorem allocator_safe k0 FL0 k live :
  heaps_wf k0 FL0 -> lenZ (cpsr k0) = NCORES -> rtc heap_step (k0, []) (k, live) ->
  apart live /\
  (forall b, b ∈ live -> exists n, 0 <= n < NCORES /\ block_of k n b) /\
  exists FL, heaps_wf k FL /\
    forall x, (free_byte FL0 x <-> free_byte FL x \/ covers live x) /\
      ~ (free_byte FL x /\ covers live x).
Proof.
  intros Hhs Hcp Hsteps.
  assert (alloc_inv (free_byte FL0) k0 []) as Hinit.
  { constructor; [|done|by intros b ?%not_elem_of_nil|].
    - intros cpu Hc. apply nthZ_lt_Some. lia.
    - exists FL0. split; [done|]. intros x. split; [|by intros [_ ?%covers_nil]].
      split; [by left|]. by intros [?|?%covers_nil]. }
  assert (forall s s', rtc heap_step s s' -> alloc_inv (free_byte FL0) (fst s) (snd s) ->
    alloc_inv (free_byte FL0) (fst s') (snd s')) as Hind.
  { induction 1 as [|[k1 v1] [k2 v2] s3 Hst _ IH]; [done|]. intros Hi. apply IH.
    by eapply alloc_inv_step. }
  destruct (Hind _ _ Hsteps Hinit) as [_ H1 H2 H3]. done.
Qed.

(** ** Allocation followed by release *)

Lemma heaps_wf_ext k FL FL' : (forall n, FL' n = FL n) -> heaps_wf k FL -> heaps_wf k FL'.
Proof.
  intros E [H1 H2 H3]. constructor; [done| |done]. intros n h Hh. rewrite E. by apply H2.
Qed.

Lemma heaps_fl_ok k FL n h :
  heaps_wf k FL -> nthZ (freelist k) n = Some h ->
  fl_ok (mh_base h) (FL n) (mh_base h + mh_bound h).
Proof. intros Hhs Hh. eapply hw_ok, (hs_each _ _ Hhs); done. Qed.

(** A core's list after a block has left it and come back. *)
Lemma heaps_restored k FL k1 FL1 n l1 l2 (b : block) :
  heaps_wf k FL -> heap_frame k k1 -> 0 <= n < NCORES ->
  heaps_wf k1 (<[n := l2]> FL1) -> (forall i, i <> n -> FL1 i = FL i) ->
  (forall x, covers (FL n) x <-> inb b x \/ covers l1 x) ->
  (forall x, covers l2 x <-> covers l1 x \/ inb b x) ->
  heaps_wf k1 FL.
Proof.
  intros Hhs Hfr Hn Hhs1 Hoth H1 H2.
  destruct (nthZ_lt_Some (freelist k) n) as [h Hh]; [by rewrite (hs_len _ _ Hhs)|].
  destruct (proj2 Hfr n h Hh) as (h' & Hh' & E1 & E2 & _).
  assert (l2 = FL n) as ->.
  { eapply fl_ok_unique; [|by eapply heaps_fl_ok|].
    - pose proof (heaps_fl_ok _ _ _ _ Hhs1 Hh') as Hok. rewrite fn_lookup_insert, E1, E2 in Hok. done.
    - intros x. rewrite H1, H2. tauto. }
  eapply heaps_wf_ext; [|done]. intros i. destruct (decide (i = n)) as [->|Hne].
  - by rewrite fn_lookup_insert.
  - rewrite fn_lookup_insert_ne by done. by rewrite Hoth.
Qed.

(** A block obtained from [getmem] can be given back from any core with
    [freemem], which succeeds and leaves every free list exactly as it was
    before the allocation. *)
Theorem getmem_freemem_roundtrip cpu cpu' k FL nbytes p k1 :
  heaps_wf k FL -> lenZ (cpsr k) = NCORES -> 0 <= cpu < NCORES -> 0 <= cpu' < NCORES ->
  0 < nbytes <= 2 ^ 32 - 8 -> getmem cpu nbytes k = Ret (p, k1) -> p <> u32 SYSERR ->
  exists k2, freemem cpu' p nbytes k1 = Ret (OK, k2) /\ heaps_wf k2 FL.
Proof.
  intros Hhs Hcp Hc Hc' Hn Hrun Hp.
  destruct (nthZ_lt_Some (cpsr k) cpu) as [im Him]; [lia|].
  destruct (nthZ_lt_Some (cpsr k) cpu') as [im' Him']; [lia|].
  destruct (getmem_heaps cpu k FL im nbytes Hhs Hc Him Hn) as
    [[Hr _]|(p' & k1' & l' & Hr & Hhs' & Hfr & Hb & Hx)]; [congruence|].
  assert (p' = p) as -> by congruence. assert (k1' = k1) as -> by congruence.
  destruct (freemem_heaps cpu' cpu k1 (<[cpu := l']> FL) im' p nbytes) as
    (k2 & l2 & Hr2 & Hhs2 & Hfr2 & Hx2); try done.
  - by destruct Hfr as [(m & f & ->) _].
  - by eapply block_of_frame.
  - intros x Hbx. rewrite fn_lookup_insert. intros Hcx. by apply (proj2 (Hx x)).
  - exists k2. split; [done|].
    eapply (heaps_restored k FL k2 (<[cpu := l']> FL) cpu l' l2 (p, roundmb nbytes)); try done.
    + by eapply heap_frame_trans.
    + intros i Hi. by rewrite fn_lookup_insert_ne.
    + intros x. apply Hx.
    + intros x. rewrite (Hx2 x), fn_lookup_insert. tauto.
Qed.

(** ** [malloc] and [free] *)

(** Memory may change outside the free bytes. *)
Lemma heaps_wf_memory k FL m' :
  heaps_wf k FL -> (forall x, free_byte FL x -> mload m' x = mload (memory k) x) ->
  heaps_wf (set_memory m' k) FL.
Proof.
  intros Hhs Hm. pose proof Hhs as [H1 H2 H3]. constructor; [done| |done]. intros n h Hh. simpl in Hh.
  destruct (H2 n h Hh) as (Hwf & Hr). split; [|done]. destruct Hwf. constructor; try done. simpl.
  assert (0 <= n < NCORES) as Hn by (rewrite <- H1; by eapply nthZ_Some_lt).
  eapply lseg_agree; [|done]. intros b Hb.
  destruct (fl_ok_elem _ _ _ _ hw_ok0 Hb) as (_ & _ & _ & ? & _).
  split; apply Hm; exists n; (split; [done|]); exists b; (split; [done|]);
    unfold mb_next, mb_length; lia.
Qed.

(** The header [malloc] writes at [p]. *)
Definition malloc_mem (p size : Z) (m : gmap Z Z) : gmap Z Z :=
  <[p + mb_length := size]>
    (<[p + mb_marked := Z.ldiff (mload (<[p + mb_next := p]> m) (p + mb_marked)) 0xFF]>
      (<[p + mb_next := p]> m)).

Lemma malloc_run cpu k size :
  0 < size ->
  malloc cpu size k =
  match getmem cpu (u32 (size + sizeof_memblock)) k with
  | Ret (p, k1) =>
      if u32 SYSERR =? p then Ret (NULL, k1)
      else Ret (u32 (p + sizeof_memblock),
                set_memory (malloc_mem p (u32 (size + sizeof_memblock)) (memory k1)) k1)
  | Fault f => Fault f
  end.
Proof.
  intros Hs. unfold malloc. rewrite (proj2 (Z.eqb_neq 0 size)) by lia. cbv zeta.
  unfold bind at 1. destruct (getmem cpu _ k) as [[p k1]|]; [|done]. by destruct (_ =? p).
Qed.

Lemma malloc_mem_out p size m x : ~ (p <= x < p + sizeof_memblock) -> mload (malloc_mem p size m) x = mload m x.
Proof.
  intros Hx. unfold malloc_mem, sizeof_memblock, mb_next, mb_length, mb_marked in *.
  rewrite !mload_insert_ne by lia. done.
Qed.

(** C13: [malloc] either fails with [NULL], changing nothing, or returns the
    address behind a header in a fresh block large enough for the header and
    the request.  Whatever the program then writes into its part of the
    block, [free] of the pointer, on any core, finds the header, releases
    the whole block and leaves every free list as before the allocation. *)
Theorem malloc_free_roundtrip cpu cpu' k FL size :
  heaps_wf k FL -> lenZ (cpsr k) = NCORES -> 0 <= cpu < NCORES -> 0 <= cpu' < NCORES ->
  0 < size <= 2 ^ 32 - 20 ->
  malloc cpu size k = Ret (NULL, k) \/
  exists p k1, let len := roundmb (size + sizeof_memblock) in
    malloc cpu size k = Ret (p + sizeof_memblock, k1) /\ block_of k cpu (p, len) /\
    (forall x, inb (p, len) x -> covers (FL cpu) x) /\ size + sizeof_memblock <= len /\
    forall m', (forall x, ~ (p + sizeof_memblock <= x < p + len) -> mload m' x = mload (memory k1) x) ->
      exists k2, free cpu' (p + sizeof_memblock) (set_memory m' k1) = Ret (OK, k2) /\ heaps_wf k2 FL.
Proof.
  intros Hhs Hcp Hc Hc' Hsz. change (2 ^ 32) with 4294967296 in *.
  destruct (nthZ_lt_Some (cpsr k) cpu) as [im Him]; [lia|].
  destruct (nthZ_lt_Some (cpsr k) cpu') as [im' Him']; [lia|].
  rewrite malloc_run by lia. unfold sizeof_memblock in *.
  rewrite (wrap_small 32 (size + 12)) by (change (2 ^ 32) with 4294967296; lia).
  destruct (roundmb_spec (size + 12)) as (Hr & _); [change (2 ^ 32) with 4294967296; lia|].
  destruct (getmem_heaps cpu k FL im (size + 12)) as
    [[-> _]|(p & k1 & l' & -> & Hhs' & Hfr & Hb & Hx)]; try done; [lia|by left|right].
  pose proof Hb as (h & Hh & Hb1 & Hb2 & [y Hy] & _). simpl in Hb1, Hb2, Hy.
  destruct (hs_each _ _ Hhs cpu h Hh) as ([_ _ _ _ Hbase [_ Hbound] _ _] & _).
  change (2 ^ 32) with 4294967296 in *.
  rewrite (proj2 (Z.eqb_neq (u32 SYSERR) p)) by (change (u32 SYSERR) with 4294967295; lia).
  rewrite (wrap_small 32 (p + 12)) by (change (2 ^ 32) with 4294967296; lia).
  do 2 eexists. cbv zeta. split; [done|]. split; [done|].
  split; [intros x Hbx; apply Hx; by left|]. split; [lia|]. simpl. intros m' Hm'.
  assert (mload m' (p + mb_next) = p /\ mload m' (p + mb_length) = size + 12) as [Hh1 Hh2].
  { unfold mb_next, mb_length. rewrite !Hm' by lia.
    unfold malloc_mem, mb_next, mb_length, mb_marked. rewrite mload_insert_eq.
    by rewrite mload_insert_ne, mload_insert_ne, mload_insert_eq by lia. }
  unfold free. simpl. rewrite wrap_small by (change (2 ^ 32) with 4294967296; unfold sizeof_memblock; lia).
  unfold sizeof_memblock. replace (p + 12 - 12) with p by lia.
  rewrite bind_load. simpl. rewrite Hh1, Z.eqb_refl. simpl. rewrite bind_load. simpl. rewrite Hh2.
  destruct (freemem_heaps cpu' cpu (set_memory m' (set_memory (malloc_mem p (size + 12) (memory k1)) k1))
    (<[cpu := l']> FL) im' p (size + 12)) as (k2 & l2 & Hr2 & Hhs2 & Hfr2 & Hx2); try done; try lia.
  - eapply (heaps_wf_memory k1); [done|]. intros x Hf.
    apply (free_byte_insert _ _ _ _ Hc) in Hf. assert (~ inb (p, roundmb (size + 12)) x) as Hni.
    { intros Hbx. destruct Hf as [Hf|(i & Hne & Hi & Hf)]; [by apply (proj2 (Hx x))|].
      exact (block_of_other _ _ _ _ _ _ Hhs Hb Hbx Hi Hne Hf). }
    unfold inb in Hni. simpl in Hni. rewrite Hm' by lia. apply malloc_mem_out. unfold sizeof_memblock. lia.
  - simpl. by destruct Hfr as [(m & f & ->) _].
  - eapply block_of_frame; [|done]. eapply heap_frame_trans; [done|]. apply (heap_frame_memory k1).
  - intros x Hbx. rewrite fn_lookup_insert. intros Hcx. by apply (proj2 (Hx x)).
  - exists k2. erewrite bind_Ret by done. split; [done|].
    eapply (heaps_restored k FL k2 (<[cpu := l']> FL) cpu l' l2 (p, roundmb (size + 12))); try done.
    + eapply heap_frame_trans; [done|]. eapply heap_frame_trans; [|done]. apply (heap_frame_memory k1).
    + intros i Hi. by rewrite fn_lookup_insert_ne.
    + intros x. apply Hx.
    + intros x. rewrite (Hx2 x), fn_lookup_insert. tauto.
Qed.

(** ** Requests and addresses the code does not guard against *)

Lemma roundmb_wraps x : 2 ^ 32 - 8 < x < 2 ^ 32 -> roundmb x = 0.
Proof.
  intros Hx. unfold roundmb, wrap. change (2 ^ 32) with 4294967296 in *.
  replace ((7 + x) mod 4294967296) with (x - 4294967289) by (apply Z.mod_unique with 1; lia).
  rewrite land_mask8 by (change (2 ^ 32) with 4294967296; lia).
  rewrite Z.mod_small by lia. lia.
Qed.

(** A request of the last seven sizes of the address space rounds to
    zero: instead of failing, [getmem] returns the first free block, which
    stays on the free list. *)
Theorem getmem_wraps cpu k h b l im nbytes :
  heap_wf k cpu h (b :: l) -> nthZ (cpsr k) cpu = Some im -> 2 ^ 32 - 8 < nbytes < 2 ^ 32 ->
  exists m', getmem cpu nbytes k = Ret (fst b, set_memory m' k) /\
    heap_wf (set_memory m' k) cpu h (b :: l).
Proof.
  intros Hwf Him Hn. pose proof (hw_head _ _ _ _ Hwf) as Hh. pose proof (hw_ok _ _ _ _ Hwf) as Hok.
  pose proof (hw_list _ _ _ _ Hwf) as Hs. pose proof (hw_bound _ _ _ _ Hwf).
  pose proof (hw_base _ _ _ _ Hwf). pose proof (hw_total _ _ _ _ Hwf) as Ht.
  pose proof (total_bound _ _ _ Hok) as Htb.
  pose proof Hok as (? & ? & [z Hz] & Hpos & ? & _). pose proof Hs as (Hhd & Hlen & _).
  unfold getmem. rewrite (proj2 (Z.eqb_neq 0 nbytes)), roundmb_wraps by lia. cbv zeta.
  erewrite bind_disable by exact Him. erewrite bind_rd_free by exact Hh.
  erewrite enter; [|exact (hw_lockid _ _ _ _ Hwf)|exact (hw_rest _ _ _ _ Hwf)|exact Hh|done].
  erewrite bind_rd_free_in by exact Hh. rewrite bind_gets.
  erewrite getmem_loop_run; [|exact Hs|exact Hok|exact (hw_base _ _ _ _ Hwf)|].
  2: { pose proof (lseg_size _ _ _ _ _ _ Hs Hok). simpl in *. lia. }
  simpl. rewrite (proj2 (Z.leb_le 0 (snd b))), (proj2 (Z.eqb_neq (snd b) 0)) by lia.
  unfold getmem_split. rewrite Z.add_0_r, (wrap_small 32 (fst b)) by lia.
  erewrite bind_relink_in by exact Hh. simpl relink_mem. simpl relink_head.
  rewrite bind_load_in, bind_store_in, bind_load_in, bind_store_in.
  pose proof (nthZ_Some_lt _ _ _ Hh).
  rewrite leave_len with (h := set_mh_head (fst b) h);
    [|exact Him|apply Hwf|apply Hwf|by apply nthZ_updZ_eq|done].
  assert (set_mh_length (u32 (mh_length (set_mh_head (fst b) h) - 0)) (set_mh_head (fst b) h) = h) as ->.
  { unfold set_mh_length, set_mh_head. simpl. rewrite Z.sub_0_r, wrap_small, <- Hhd by lia. by destruct h. }
  rewrite updZ_updZ, (updZ_id cpu h (freelist k)) by done.
  rewrite mload_insert_ne, Hlen, Z.sub_0_r, (wrap_small 32 (snd b)) by (unfold mb_next, mb_length; lia).
  eexists. split; [by destruct k|]. destruct Hwf. constructor; try done. simpl memory.
  eapply lseg_agree; [|exact Hs].
  assert (forall x, mload (<[fst b + mb_length := snd b]>
    (<[fst b + mb_next := mload (memory k) (fst b + mb_next)]> (memory k))) x = mload (memory k) x) as Hm.
  { intros x. destruct (decide (fst b + mb_length = x)) as [<-|Hx]; [by rewrite mload_insert_eq|].
    rewrite mload_insert_ne by done.
    destruct (decide (fst b + mb_next = x)) as [<-|Hx']; [by rewrite mload_insert_eq|].
    by rewrite mload_insert_ne. }
  intros c _. split; apply Hm.
Qed.

Lemma which_freelist_none k p i c :
  (forall j h, nthZ (freelist k) j = Some h -> 0 <= mh_base h /\ 0 <= mh_bound h /\
     mh_base h + mh_bound h < 2 ^ 32 /\ ~ in_region h p) ->
  lenZ (freelist k) = NCORES -> 0 <= i -> i + Z.of_nat c = NCORES ->
  which_freelist c i p k = Ret (NCORES, k).
Proof.
  intros Hr Hlen. revert i. induction c as [|c IH]; intros i Hi Hc; simpl.
  - by replace i with NCORES by lia.
  - destruct (nthZ_lt_Some (freelist k) i) as [h Hh]; [lia|]. erewrite bind_rd_free by exact Hh.
    destruct (Hr i h Hh) as (? & ? & ? & Hn). unfold in_region in Hn. rewrite wrap_small by lia.
    rewrite (proj2 (andb_false_iff _ _)); [apply IH; lia|]. rewrite Z.leb_gt, Z.ltb_ge. lia.
Qed.

(** An address that passes the range test of [freemem] but lies in no
    core's region runs the search off the end of the list heads: the code
    then reads [freelist[NCORES]], past the array. *)
Theorem freemem_stray cpu k FL p nbytes im :
  heaps_wf k FL -> nthZ (cpsr k) cpu = Some im -> 0 < nbytes ->
  memheap k <= p <= maxaddr k -> (forall n h, nthZ (freelist k) n = Some h -> ~ in_region h p) ->
  freemem cpu p nbytes k = Fault OutOfBounds.
Proof.
  intros Hhs Him Hn Hp Hno. unfold freemem. rewrite !bind_gets.
  rewrite (proj2 (Z.eqb_neq 0 nbytes)), (proj2 (Z.ltb_ge _ _)), Z.gtb_ltb, (proj2 (Z.ltb_ge _ _)) by lia.
  cbv beta iota zeta delta [orb]. erewrite bind_Ret; [|apply which_freelist_none; [|apply Hhs|lia|klia]].
  - erewrite bind_disable by exact Him. unfold bind, rd_free. simpl.
    rewrite nthZ_None by (rewrite (hs_len _ _ Hhs); lia). done.
  - intros j h Hj. destruct (hs_each _ _ Hhs j h Hj) as ([] & _).
    repeat split; try lia. by eapply Hno.
Qed.
