(* ===== verification/CString.v ===== *)
(** * String and memory functions (lib/libxc/str*.c, mem*.c, bzero.c)

    A pointer to [char] is the list of the bytes from it to the end of the
    object it points into; advancing the pointer is taking the tail, and a
    read or write at the end of the list is an access out of bounds.  The
    functions that write return the new contents of the destination.  The
    source and destination objects are distinct, as the functions require. *)

From stdpp Require Import base numbers list.
From S2P Require Import Prelude.

(** ** Definitions *)

(** [*s] *)
Definition rdc (s : list Z) : outcome Z :=
  match s with c :: _ => Ret c | [] => Fault OutOfBounds end.

Fixpoint strlen (s : list Z) : outcome Z :=
  match s with
  | [] => Fault OutOfBounds
  | c :: s' => if c =? 0 then Ret 0 else n <~ strlen s' ;; Ret (n + 1)
  end.

(** s[n] is read before n is compared with maxlen. *)
Fixpoint strnlen (s : list Z) (maxlen : nat) : outcome Z :=
  match s with
  | [] => Fault OutOfBounds
  | c :: s' =>
      match maxlen with
      | S m => if c =? 0 then Ret 0 else n <~ strnlen s' m ;; Ret (n + 1)
      | O => Ret 0
      end
  end.

Fixpoint strcmp (s1 s2 : list Z) : outcome Z :=
  match s1, s2 with
  | c1 :: s1', c2 :: s2' =>
      if (c1 =? c2) && negb (c1 =? 0) then strcmp s1' s2' else Ret (c1 - c2)
  | _, _ => Fault OutOfBounds
  end.

Fixpoint strncmp (s1 s2 : list Z) (n : nat) {struct n} : outcome Z :=
  match n with
  | O => Ret 0
  | S n' =>
      match s1, s2 with
      | c1 :: s1', c2 :: s2' =>
          if (c1 =? 0) || negb (c1 =? c2) then Ret (c1 - c2) else strncmp s1' s2' n'
      | _, _ => Fault OutOfBounds
      end
  end.

Fixpoint strcpy (dest src : list Z) : outcome (list Z) :=
  match dest, src with
  | _ :: dest', c :: src' =>
      if c =? 0 then Ret (c :: dest') else r <~ strcpy dest' src' ;; Ret (c :: r)
  | _, _ => Fault OutOfBounds
  end.

(** The offset of the character from [s], [None] for [NULL]. *)
Fixpoint strchr_loop (s : list Z) (ch : Z) : outcome (option Z) :=
  match s with
  | [] => Fault OutOfBounds
  | c :: s' =>
      if c =? ch then Ret (Some 0)
      else if c =? 0 then Ret None
      else r <~ strchr_loop s' ch ;; Ret (option_map (fun i => i + 1) r)
  end.
Definition strchr (s : list Z) (c : Z) : outcome (option Z) := strchr_loop s (u8 c).

Fixpoint strrchr_loop (s : list Z) (ch : Z) (i : Z) (r : option Z) : outcome (option Z) :=
  match s with
  | [] => Fault OutOfBounds
  | c :: s' =>
      let r := if c =? ch then Some i else r in
      if c =? 0 then Ret r else strrchr_loop s' ch (i + 1) r
  end.
Definition strrchr (s : list Z) (c : Z) : outcome (option Z) := strrchr_loop s (u8 c) 0 None.

Fixpoint strstr_loop (haystack needle : list Z) (n : nat) : outcome (option Z) :=
  match haystack with
  | [] => Fault OutOfBounds
  | c :: h' =>
      if c =? 0 then Ret None
      else
        d <~ strncmp haystack needle n ;;
        if d =? 0 then Ret (Some 0)
        else r <~ strstr_loop h' needle n ;; Ret (option_map (fun i => i + 1) r)
  end.
Definition strstr (haystack needle : list Z) : outcome (option Z) :=
  needle_len <~ strlen needle ;; strstr_loop haystack needle (Z.to_nat needle_len).

(** The second loop of [strncpy] is [memset] with zero. *)
Fixpoint memset_loop (s : list Z) (byte : Z) (n : nat) {struct n} : outcome (list Z) :=
  match n with
  | O => Ret s
  | S n' =>
      match s with
      | [] => Fault OutOfBounds
      | _ :: s' => r <~ memset_loop s' byte n' ;; Ret (byte :: r)
      end
  end.
Definition memset (s : list Z) (c : Z) (n : nat) : outcome (list Z) := memset_loop s (u8 c) n.
Definition bzero (s : list Z) (n : nat) : outcome (list Z) := memset s 0 n.

(** src[i] is read before i is compared with n. *)
Fixpoint strncpy (dest src : list Z) (n : nat) {struct src} : outcome (list Z) :=
  match src with
  | [] => Fault OutOfBounds
  | c :: src' =>
      if c =? 0 then memset_loop dest 0 n
      else
        match n with
        | O => Ret dest
        | S n' =>
            match dest with
            | [] => Fault OutOfBounds
            | _ :: dest' => r <~ strncpy dest' src' n' ;; Ret (c :: r)
            end
        end
  end.

(** The copying loop of [strncat] and its terminator. *)
Fixpoint strncat_loop (dest src : list Z) (n : nat) {struct n} : outcome (list Z) :=
  let stop := match dest with [] => Fault OutOfBounds | _ :: dest' => Ret (0 :: dest') end in
  match n with
  | O => stop
  | S n' =>
      match src with
      | [] => Fault OutOfBounds
      | c :: src' =>
          if c =? 0 then stop
          else match dest with
               | [] => Fault OutOfBounds
               | _ :: dest' => r <~ strncat_loop dest' src' n' ;; Ret (c :: r)
               end
      end
  end.
Definition strncat (dest src : list Z) (n : nat) : outcome (list Z) :=
  e <~ strchr dest 0 ;;
  match e with
  | None => Fault OutOfBounds
  | Some e =>
      r <~ strncat_loop (drop (Z.to_nat e) dest) src n ;; Ret (take (Z.to_nat e) dest ++ r)
  end.

Fixpoint memcpy (dest src : list Z) (n : nat) {struct n} : outcome (list Z) :=
  match n with
  | O => Ret dest
  | S n' =>
      match dest, src with
      | _ :: dest', c :: src' => r <~ memcpy dest' src' n' ;; Ret (c :: r)
      | _, _ => Fault OutOfBounds
      end
  end.

Fixpoint memcmp (s1 s2 : list Z) (n : nat) {struct n} : outcome Z :=
  match n with
  | O => Ret 0
  | S n' =>
      match s1, s2 with
      | c1 :: s1', c2 :: s2' => if negb (c1 =? c2) then Ret (c1 - c2) else memcmp s1' s2' n'
      | _, _ => Fault OutOfBounds
      end
  end.

Fixpoint memchr_loop (s : list Z) (byte : Z) (n : nat) {struct n} : outcome (option Z) :=
  match n with
  | O => Ret None
  | S n' =>
      match s with
      | [] => Fault OutOfBounds
      | c :: s' =>
          if c =? byte then Ret (Some 0)
          else r <~ memchr_loop s' byte n' ;; Ret (option_map (fun i => i + 1) r)
      end
  end.
Definition memchr (s : list Z) (c : Z) (n : nat) : outcome (option Z) := memchr_loop s (u8 c) n.

(** Returns the length of [src] and the new destination. *)
Definition strlcpy (dest src : list Z) (destsize : Z) : outcome (Z * list Z) :=
  srclen <~ strlen src ;;
  if negb (destsize =? 0) then
    let copylen := if destsize - 1 <? srclen then destsize - 1 else srclen in
    d <~ memcpy dest src (Z.to_nat copylen) ;;
    match nthZ d copylen with
    | None => Fault OutOfBounds
    | Some _ => Ret (srclen, updZ copylen 0 d)
    end
  else Ret (srclen, dest).

(** ** C strings *)

(** The object starting at [s] holds the string [w], its terminator and
    further bytes. *)
Definition cstr (s w : list Z) : Prop :=
  (exists rest, s = w ++ 0 :: rest) /\ Forall (fun c => c <> 0) w.

Lemma cstr_nil s : cstr s [] -> exists rest, s = 0 :: rest.
Proof. by intros [[rest ->] _]; eexists. Qed.

Lemma cstr_cons s c w : cstr s (c :: w) -> exists s', s = c :: s' /\ c <> 0 /\ cstr s' w.
Proof.
  intros [[rest ->] Hf]. apply Forall_cons in Hf as [Hc Hf]. eexists. split; [done|].
  split; [done|]. split; [by eexists|done].
Qed.

(** Destruct a [cstr] hypothesis along its string. *)
Ltac cstr_case H :=
  match type of H with
  | cstr _ [] => apply cstr_nil in H as [? ->]
  | cstr _ (_ :: _) =>
      apply cstr_cons in H as (? & -> & ? & H)
  end.

Ltac ctest := rewrite ?Z.eqb_refl; repeat match goal with
  | H : ?a <> ?b |- context [?a =? ?b] => rewrite (proj2 (Z.eqb_neq a b) H)
  | H : ?b <> ?a |- context [?a =? ?b] => rewrite (proj2 (Z.eqb_neq a b) (not_eq_sym H))
  end; simpl.

Lemma strlen_cstr s w : cstr s w -> strlen s = Ret (lenZ w).
Proof.
  revert s. induction w as [|c w IH]; intros s H; cstr_case H; simpl; [done|].
  ctest. rewrite (IH _ H). simpl. unfold lenZ. simpl. do 2 f_equal. lia.
Qed.

Lemma strlen_unterminated s : 0 ∉ s -> strlen s = Fault OutOfBounds.
Proof.
  induction s as [|c s IH]; intros H; simpl; [done|].
  apply not_elem_of_cons in H as [Hc H]. ctest. by rewrite (IH H).
Qed.

(** The comparison of C strings: the sign of the first difference, where the
    end of a string is smaller than every character. *)
Fixpoint lexcmp (w1 w2 : list Z) : Z :=
  match w1, w2 with
  | [], [] => 0
  | [], c2 :: _ => - c2
  | c1 :: _, [] => c1
  | c1 :: w1', c2 :: w2' => if c1 =? c2 then lexcmp w1' w2' else c1 - c2
  end.

Lemma strcmp_cstr s1 s2 w1 w2 : cstr s1 w1 -> cstr s2 w2 -> strcmp s1 s2 = Ret (lexcmp w1 w2).
Proof.
  revert s1 s2 w2. induction w1 as [|c1 w1 IH]; intros s1 s2 w2 H1 H2; cstr_case H1;
    destruct w2 as [|c2 w2]; cstr_case H2; simpl; ctest; try (f_equal; simpl; lia).
  rewrite andb_true_r. destruct (Z.eqb_spec c1 c2); [|done]. by apply IH.
Qed.

Lemma strncmp_cstr s1 s2 w1 w2 n : cstr s1 w1 -> cstr s2 w2 ->
  strncmp s1 s2 n = Ret (lexcmp (take n w1) (take n w2)).
Proof.
  revert s1 s2 w1 w2. induction n as [|n IH]; intros s1 s2 w1 w2 H1 H2; [done|].
  destruct w1 as [|c1 w1]; cstr_case H1; destruct w2 as [|c2 w2]; cstr_case H2; simpl; ctest;
    try (f_equal; simpl; lia).
  destruct (Z.eqb_spec c1 c2); simpl; [by apply IH|done].
Qed.

Lemma lexcmp_eq w1 w2 :
  Forall (fun c => c <> 0) w1 -> Forall (fun c => c <> 0) w2 -> lexcmp w1 w2 = 0 <-> w1 = w2.
Proof.
  intros H1. revert w2. induction H1 as [|c1 w1 Hc1 _ IH]; intros w2 H2;
    destruct H2 as [|c2 w2 Hc2 H2]; simpl; split; try done; try lia.
  - destruct (Z.eqb_spec c1 c2) as [->|Hne]; [|lia]. intros E. f_equal. by apply IH.
  - intros [= -> ->]. rewrite Z.eqb_refl. by apply IH.
Qed.

Lemma lexcmp_antisym w1 w2 : lexcmp w2 w1 = - lexcmp w1 w2.
Proof.
  revert w2. induction w1 as [|c1 w1 IH]; intros [|c2 w2]; simpl; try lia.
  rewrite (Z.eqb_sym c2 c1). destruct (c1 =? c2); [apply IH|lia].
Qed.

Lemma lexcmp_trans w1 w2 w3 :
  Forall (fun c => 0 < c) w1 -> Forall (fun c => 0 < c) w2 -> Forall (fun c => 0 < c) w3 ->
  lexcmp w1 w2 < 0 -> lexcmp w2 w3 < 0 -> lexcmp w1 w3 < 0.
Proof.
  intros H1. revert w2 w3. induction H1 as [|c1 w1 Hc1 _ IH]; intros w2 w3 H2 H3;
    destruct H2 as [|c2 w2 Hc2 H2], H3 as [|c3 w3 Hc3 H3]; simpl; try lia.
  destruct (Z.eqb_spec c1 c2), (Z.eqb_spec c2 c3), (Z.eqb_spec c1 c3); try lia. by apply IH.
Qed.

(** ** Copying *)

Lemma strcpy_cstr dest src w : cstr src w ->
  strcpy dest src =
  if (length w <? length dest)%nat then Ret (w ++ 0 :: drop (S (length w)) dest)
  else Fault OutOfBounds.
Proof.
  revert dest src. induction w as [|c w IH]; intros [|d dest] src H; cstr_case H; simpl; ctest; try done.
  rewrite (IH dest _ H). change (S (length w) <? S (length dest))%nat with (length w <? length dest)%nat.
  by destruct (length w <? length dest)%nat.
Qed.

Lemma memset_loop_spec s b n : (n <= length s)%nat ->
  memset_loop s b n = Ret (replicate n b ++ drop n s).
Proof.
  revert s. induction n as [|n IH]; intros s H; simpl; [by rewrite ?drop_0|].
  destruct s as [|c s]; simpl in *; [lia|]. rewrite (IH s) by lia. done.
Qed.

Lemma memcpy_spec dest src n : (n <= length dest)%nat -> (n <= length src)%nat ->
  memcpy dest src n = Ret (take n src ++ drop n dest).
Proof.
  revert dest src. induction n as [|n IH]; intros dest src H1 H2; simpl; [by rewrite ?drop_0|].
  destruct dest as [|d dest], src as [|c src]; simpl in *; try lia. by rewrite IH by lia.
Qed.

(** [strncpy] fills exactly [n] bytes: the string, cut at [n], then zeros. *)
Lemma strncpy_cstr dest src w n : cstr src w -> (n <= length dest)%nat ->
  strncpy dest src n =
  Ret (take n w ++ replicate (n - length w) 0 ++ drop n dest).
Proof.
  revert dest src n. induction w as [|c w IH]; intros dest src n H Hn; cstr_case H; simpl; ctest.
  - rewrite memset_loop_spec by done. by rewrite take_nil, Nat.sub_0_r.
  - destruct n as [|n]; simpl; [by rewrite ?drop_0|].
    destruct dest as [|d dest]; simpl in *; [lia|]. by rewrite (IH dest _ n H) by lia.
Qed.

(** The first characters [w] of [src]: [n] of them, or fewer and then the
    terminator. *)
Definition upto (n : nat) (src w : list Z) : Prop :=
  Forall (fun c => c <> 0) w /\ (length w <= n)%nat /\ w `prefix_of` src /\
  (length w = n \/ exists rest, src = w ++ 0 :: rest).

Lemma upto_nil n src : upto n src [] -> n = 0%nat \/ exists rest, src = 0 :: rest.
Proof. intros (_ & _ & _ & [E|[rest ->]]); [by left|right; by eexists]. Qed.

Lemma upto_cons n src c w : upto n src (c :: w) ->
  exists m src', n = S m /\ src = c :: src' /\ c <> 0 /\ upto m src' w.
Proof.
  intros ([Hc Hw]%Forall_cons & Hl & [rest ->] & Hend). destruct n as [|m]; simpl in Hl; [lia|].
  exists m, (w ++ rest). split; [done|]. split; [done|]. split; [done|].
  split; [done|]. split; [lia|]. split; [by eexists|]. destruct Hend as [E|[r E]]; [left; simpl in E; lia|].
  right. exists r. simpl in E. congruence.
Qed.

Lemma cstr_upto n src w : cstr src w -> upto n src (take n w).
Proof.
  intros [[rest ->] Hw]. split; [by apply Forall_take|]. rewrite length_take. split; [lia|].
  split; [exists (drop n w ++ 0 :: rest); by rewrite app_assoc, take_drop|].
  destruct (Nat.le_ge_cases n (length w)); [left; lia|right]. exists rest. by rewrite take_ge.
Qed.

Lemma strncpy_upto dest src w n : upto n src w -> (length w < length src)%nat -> (n <= length dest)%nat ->
  strncpy dest src n = Ret (w ++ replicate (n - length w) 0 ++ drop n dest).
Proof.
  revert dest src n. induction w as [|c w IH]; intros dest src n H Hl Hd.
  - rewrite Nat.sub_0_r. destruct (upto_nil _ _ H) as [->|[rest ->]]; [|simpl; by rewrite memset_loop_spec].
    destruct src as [|c src]; [simpl in Hl; lia|]. simpl. rewrite drop_0. by destruct (c =? 0).
  - destruct (upto_cons _ _ _ _ H) as (m & src' & -> & -> & Hc & H').
    destruct dest as [|d dest]; simpl in *; [lia|]. ctest. by rewrite (IH dest src' m H') by lia.
Qed.

(** A source of exactly [n] characters with nothing behind them is
    read one byte too far. *)
Lemma strncpy_overread dest src n :
  0 ∉ src -> length src = n -> (n <= length dest)%nat -> strncpy dest src n = Fault OutOfBounds.
Proof.
  revert dest n. induction src as [|c src IH]; intros dest n H Hl Hd; [done|].
  apply not_elem_of_cons in H as [Hc H]. destruct n as [|n]; [done|].
  destruct dest as [|d dest]; simpl in *; [lia|]. ctest. rewrite (IH dest n); [done|done|lia|lia].
Qed.

(** [strlcpy] copies what fits, terminates it, and leaves the bytes behind
    the terminator, and with no room at all every byte, as they were. *)
Definition strlcpied (dest w : list Z) (n : nat) : list Z :=
  match n with
  | O => dest
  | S m => take m w ++ 0 :: drop (S (Nat.min m (length w))) dest
  end.

Lemma strlcpy_exact dest src w n : cstr src w -> (n <= length dest)%nat ->
  strlcpy dest src (Z.of_nat n) = Ret (lenZ w, strlcpied dest w n).
Proof.
  intros H Hd. unfold strlcpy. rewrite (strlen_cstr _ _ H). destruct n as [|m]; [done|]. unfold strlcpied.
  unfold obind at 1. cbv zeta.
  rewrite (proj2 (Z.eqb_neq (Z.of_nat (S m)) 0)) by lia. cbn [negb].
  set (cl := if _ <? lenZ w then _ else lenZ w).
  assert (cl = Z.of_nat (Nat.min m (length w))) as ->.
  { unfold cl, lenZ. destruct (Z.ltb_spec (Z.of_nat (S m) - 1) (Z.of_nat (length w))); lia. }
  destruct H as [[rest ->] Hnz]. rewrite Nat2Z.id, memcpy_spec by (rewrite ?length_app; lia).
  rewrite take_app_le by lia. rewrite <- take_take, firstn_all. simpl.
  assert (length (take m w) = Nat.min m (length w)) as El by (rewrite length_take; lia).
  destruct (drop (Nat.min m (length w)) dest) as [|d rest'] eqn:Ed.
  { apply (f_equal length) in Ed. rewrite length_drop in Ed. simpl in Ed. lia. }
  destruct (nthZ_lt_Some (take m w ++ d :: rest') (Z.of_nat (Nat.min m (length w)))) as [x Hx].
  { unfold lenZ. rewrite length_app, El. simpl. lia. }
  rewrite Hx. unfold updZ. rewrite (proj2 (Z.leb_le 0 _)), Nat2Z.id by lia.
  rewrite insert_app_r_alt, El, Nat.sub_diag by lia. simpl.
  by rewrite <- Nat.add_1_r, <- drop_drop, Ed.
Qed.

Lemma strlcpy_cstr dest src w destsize : cstr src w -> 0 <= destsize <= lenZ dest ->
  exists dest', strlcpy dest src destsize = Ret (lenZ w, dest') /\ length dest' = length dest /\
    (0 < destsize -> cstr dest' (take (Z.to_nat (destsize - 1)) w)).
Proof.
  intros H Hd. unfold lenZ in Hd. exists (strlcpied dest w (Z.to_nat destsize)).
  rewrite <- (strlcpy_exact dest src w (Z.to_nat destsize)), Z2Nat.id by (done || lia). split; [done|].
  destruct (Z.to_nat destsize) as [|m] eqn:Em; simpl; [split; [done|lia]|]. split.
  - rewrite length_app, length_take. simpl. rewrite length_drop. lia.
  - intros _. replace (Z.to_nat (destsize - 1)) with m by lia. split; [by eexists|]. apply Forall_take. by destruct H.
Qed.

Lemma strchr_0 s w : cstr s w -> strchr s 0 = Ret (Some (lenZ w)).
Proof.
  unfold strchr. change (u8 0) with 0. revert s. induction w as [|c w IH]; intros s H; cstr_case H;
    simpl; ctest; [done|]. rewrite (IH _ H). simpl. do 2 f_equal. unfold lenZ. simpl. f_equal. lia.
Qed.

Lemma strncat_loop_upto dest src w n : upto n src w -> (length w < length dest)%nat ->
  strncat_loop dest src n = Ret (w ++ 0 :: drop (S (length w)) dest).
Proof.
  revert dest src n. induction w as [|c w IH]; intros dest src n H Hd;
    destruct dest as [|d dest]; try (simpl in Hd; lia).
  - destruct (upto_nil _ _ H) as [->|[rest ->]]; [simpl; by rewrite drop_0|]. by destruct n; simpl; rewrite ?drop_0.
  - destruct (upto_cons _ _ _ _ H) as (m & src' & -> & -> & Hc & H'). simpl. ctest.
    rewrite (IH dest src' m H') by (simpl in Hd; lia). done.
Qed.

(** [strncat] appends at most [n] characters and a terminator. *)
Lemma strncat_upto dest src w0 w n : cstr dest w0 -> upto n src w -> (length w0 + length w < length dest)%nat ->
  strncat dest src n = Ret (w0 ++ w ++ 0 :: drop (S (length w0 + length w)) dest).
Proof.
  intros H1 H2 Hd. unfold strncat. rewrite (strchr_0 _ _ H1). simpl.
  unfold lenZ. rewrite Nat2Z.id. destruct H1 as [[rest ->] _].
  rewrite length_app in Hd. rewrite drop_app_length, take_app_length.
  rewrite (strncat_loop_upto _ _ _ _ H2) by lia. simpl. do 4 f_equal.
  replace (S (length w0 + length w)) with (length w0 + S (length w))%nat by lia.
  by rewrite <- drop_drop, drop_app_length.
Qed.

(** ** Searching *)

(** The offset of the first, respectively last, [c] in [w]. *)
Fixpoint first_at (c : Z) (w : list Z) : option Z :=
  match w with
  | [] => None
  | d :: w' => if d =? c then Some 0 else option_map (fun i => i + 1) (first_at c w')
  end.

Lemma strchr_cstr s w c : cstr s w -> u8 c <> 0 -> strchr s c = Ret (first_at (u8 c) w).
Proof.
  intros H Hc. unfold strchr. revert s H. induction w as [|d w IH]; intros s H; cstr_case H; simpl; ctest.
  - done.
  - destruct (Z.eqb_spec d (u8 c)); [done|]. by rewrite (IH _ H).
Qed.

Lemma first_at_spec c w : match first_at c w with
  | Some i => exists w1 w2, w = w1 ++ c :: w2 /\ lenZ w1 = i /\ c ∉ w1
  | None => c ∉ w
  end.
Proof.
  induction w as [|d w IH]; simpl; [apply not_elem_of_nil|].
  destruct (Z.eqb_spec d c) as [->|Hne].
  - exists [], w. split; [done|]. split; [done|]. apply not_elem_of_nil.
  - destruct (first_at c w) as [i|]; simpl.
    + destruct IH as (w1 & w2 & -> & <- & Hn). exists (d :: w1), w2. split; [done|].
      split; [unfold lenZ; simpl; lia|]. by apply not_elem_of_cons.
    + by apply not_elem_of_cons.
Qed.

Lemma strrchr_loop_cstr s w ch i r : cstr s w -> ch <> 0 ->
  exists r', strrchr_loop s ch i r = Ret r' /\
    ((ch ∉ w /\ r' = r) \/
     exists w1 w2, w = w1 ++ ch :: w2 /\ r' = Some (i + lenZ w1) /\ ch ∉ w2).
Proof.
  intros H Hc. revert s i r H. induction w as [|d w IH]; intros s i r H; cstr_case H; simpl; ctest.
  - eexists. split; [done|]. left. split; [apply not_elem_of_nil|done].
  - destruct (IH _ (i + 1) (if d =? ch then Some i else r) H) as (r' & Hr & Hcase).
    exists r'. split; [done|]. destruct Hcase as [[Hn ->]|(w1 & w2 & -> & -> & Hn)].
    + destruct (Z.eqb_spec d ch) as [->|Hne].
      * right. exists [], w. split; [done|]. split; [f_equal; unfold lenZ; simpl; lia|done].
      * left. split; [by apply not_elem_of_cons|done].
    + right. exists (d :: w1), w2. split; [done|]. split; [f_equal; unfold lenZ; simpl; lia|done].
Qed.

Lemma lexcmp_prefix_eq w1 w2 :
  Forall (fun c => c <> 0) w1 -> Forall (fun c => c <> 0) w2 ->
  lexcmp (take (length w2) w1) w2 = 0 <-> w2 `prefix_of` w1.
Proof.
  intros H1 H2. rewrite lexcmp_eq by (done || by apply Forall_take). split.
  - intros E. exists (drop (length w2) w1). rewrite <- E at 1. by rewrite take_drop.
  - intros [k ->]. apply take_app_length.
Qed.

Lemma strstr_loop_cstr s1 s2 w1 w2 : cstr s1 w1 -> cstr s2 w2 ->
  exists r, strstr_loop s1 s2 (length w2) = Ret r /\
    match r with
    | Some i => exists u v, w1 = u ++ v /\ lenZ u = i /\ v <> [] /\ w2 `prefix_of` v /\
        forall u' v', w1 = u' ++ v' -> w2 `prefix_of` v' -> (length u <= length u')%nat
    | None => forall u v, w1 = u ++ v -> w2 `prefix_of` v -> v = []
    end.
Proof.
  intros H1 H2. pose proof H2 as [_ Hz2]. revert s1 H1. induction w1 as [|c w1 IH]; intros s1 H1.
  - cstr_case H1. simpl. exists None. split; [done|].
    intros u v E _. symmetry in E. by apply app_eq_nil in E as [_ ->].
  - pose proof H1 as [_ Hz1]. pose proof (strncmp_cstr _ _ _ _ (length w2) H1 H2) as Hcmp.
    rewrite (take_ge w2) in Hcmp by done. cstr_case H1. simpl in Hcmp |- *. ctest. rewrite Hcmp. simpl.
    destruct (Z.eqb_spec (lexcmp (take (length w2) (c :: w1)) w2) 0) as [E|E].
    + apply lexcmp_prefix_eq in E; [|done|done]. exists (Some 0). split; [done|].
      exists [], (c :: w1). split; [done|]. split; [done|]. split; [done|]. split; [done|]. simpl. lia.
    + rewrite lexcmp_prefix_eq in E by done. destruct (IH _ H1) as (r & Hr & Hcase). rewrite Hr. simpl.
      eexists. split; [done|]. destruct r as [i|]; simpl.
      * destruct Hcase as (u & v & -> & <- & Hv & Hp & Hmin). exists (c :: u), v.
        split; [done|]. split; [unfold lenZ; simpl; lia|]. split; [done|]. split; [done|].
        intros [|d u'] v' E' Hp'; simpl in *; [by subst v'|]. injection E' as -> E'.
        specialize (Hmin _ _ E' Hp'). lia.
      * intros [|d u] v E' Hp'; simpl in *; [by subst v|]. injection E' as -> E'. by eapply Hcase.
Qed.

(** ** The claims on strings *)

(** On two C strings [strcmp] returns zero exactly when the strings are
    equal, its sign is antisymmetric, and "less" is transitive: it is a total
    order on strings. *)
Theorem strcmp_order s1 s2 s3 w1 w2 w3 :
  cstr s1 w1 -> cstr s2 w2 -> cstr s3 w3 -> Forall (fun c => 0 <= c) (w1 ++ w2 ++ w3) ->
  exists d12 d21 d23 d13,
    strcmp s1 s2 = Ret d12 /\ strcmp s2 s1 = Ret d21 /\ strcmp s2 s3 = Ret d23 /\
    strcmp s1 s3 = Ret d13 /\
    (d12 = 0 <-> w1 = w2) /\ d21 = - d12 /\ (d12 < 0 -> d23 < 0 -> d13 < 0).
Proof.
  intros H1 H2 H3 Hp. do 4 eexists. repeat (split; [by apply strcmp_cstr|]).
  pose proof H1 as [_ Hz1]. pose proof H2 as [_ Hz2]. pose proof H3 as [_ Hz3].
  split; [by apply lexcmp_eq|]. split; [apply lexcmp_antisym|].
  rewrite !Forall_app in Hp. destruct Hp as (P1 & P2 & P3).
  assert (forall w, Forall (fun c => 0 <= c) w -> Forall (fun c => c <> 0) w -> Forall (fun c => 0 < c) w)
    as Hpos.
  { intros w Ha Hb. rewrite Forall_forall in *. intros c Hc. specialize (Ha c Hc). specialize (Hb c Hc).
    lia. }
  apply lexcmp_trans; by apply Hpos.
Qed.

(** C40: The bounded copies, byte for byte.  [strncpy] writes exactly [n]
    bytes, the first characters of the source, which need not be terminated,
    and zeros behind them; but it looks at the byte behind [n] characters,
    and so leaves a source of exactly [n] characters that has no terminator.
    [strlcpy] returns the length of the source, writes nothing when the size
    is 0 and otherwise the string cut to size and a terminator.  [strncat]
    appends at most [n] characters of the source, which need not be
    terminated, and a terminator.  All other bytes of the destination stay
    as they were. *)
Theorem bounded_copies dest src n :
  ((n <= length dest)%nat ->
   (forall w, upto n src w -> (length w < length src)%nat ->
      strncpy dest src n = Ret (w ++ replicate (n - length w) 0 ++ drop n dest)) /\
   (0 ∉ src -> length src = n -> strncpy dest src n = Fault OutOfBounds) /\
   (forall w, cstr src w -> strlcpy dest src (Z.of_nat n) = Ret (lenZ w,
      if decide (n = 0%nat) then dest
      else take (n - 1) w ++ 0 :: drop (S (Nat.min (n - 1) (length w))) dest))) /\
  (forall w0 w, cstr dest w0 -> upto n src w -> (length w0 + length w < length dest)%nat ->
     strncat dest src n = Ret (w0 ++ w ++ 0 :: drop (S (length w0 + length w)) dest)).
Proof.
  split; [intros Hn; split; [|split]|].
  - intros w H Hl. by apply strncpy_upto.
  - intros H0 Hl. by apply strncpy_overread.
  - intros w H. rewrite (strlcpy_exact _ _ _ _ H Hn). destruct n as [|m]; [done|]. simpl. by rewrite Nat.sub_0_r.
  - intros w0 w H0 H Hd. by apply strncat_upto.
Qed.

(** [strstr] finds the first place where the needle occurs in the
    haystack and [NULL] when there is none.  A place at the very end of the
    haystack, possible for the empty needle only, is not searched: in an
    empty haystack the empty needle is not found. *)
Theorem strstr_first s1 s2 w1 w2 :
  cstr s1 w1 -> cstr s2 w2 ->
  exists r, strstr s1 s2 = Ret r /\
    match r with
    | Some i => exists u v, w1 = u ++ v /\ lenZ u = i /\ v <> [] /\ w2 `prefix_of` v /\
        forall u' v', w1 = u' ++ v' -> w2 `prefix_of` v' -> (length u <= length u')%nat
    | None => forall u v, w1 = u ++ v -> w2 `prefix_of` v -> v = []
    end.
Proof.
  intros H1 H2. unfold strstr. rewrite (strlen_cstr _ _ H2). simpl. unfold lenZ at 1.
  rewrite Nat2Z.id. by apply strstr_loop_cstr.
Qed.
