(* ===== verification/Doprnt.v ===== *)
(** * Formatted output (lib/libxc/doprnt.c, sprintf.c)

    [_doprnt] over an arbitrary character sink, with the digit conversion
    [ulong_to_string] it uses.  A variadic argument list is a list of values
    tagged with what was passed, an integer or a pointer to a string; taking
    an argument of another kind, or past the end of the list, faults.  The
    format is a [char] pointer as in CString.v. *)

From Stdlib Require Import Ascii String.
From stdpp Require Import base numbers list.
From S2P Require Import Prelude Kernel CString.

(** ** Definitions *)

(** The code of a character, and a string literal with its terminator. *)
Definition chr (a : ascii) : Z := Z.of_N (N_of_ascii a).
Definition chars (s : string) : list Z := chr <$> list_ascii_of_string s.
Definition lit (s : string) : list Z := chars s ++ [0].

(** include/stddef.h *)
Definition EOF : Z := -2.
Definition LONG_BITS : Z := 32.

(** A write through a pointer into a buffer. *)
Definition wrc (buf : list Z) (i v : Z) : outcome (list Z) :=
  match nthZ buf i with Some _ => Ret (updZ i v buf) | None => Fault OutOfBounds end.
Definition rdi (buf : list Z) (i : Z) : outcome Z :=
  match nthZ buf i with Some v => Ret v | None => Fault OutOfBounds end.

Definition digits_lc : list Z := chars "0123456789abcdef".
Definition digits_uc : list Z := chars "0123456789ABCDEF".
Definition base_to_nbits : list Z := [0; 0; 1; 0; 2; 0; 0; 0; 3; 0; 0; 0; 0; 0; 0; 0; 4].

(** The loop that divides. *)
Fixpoint digits_div (fuel : nat) (num base : Z) (digits temp : list Z) (i : Z) : outcome (list Z * Z) :=
  match fuel with
  | O => Fault OutOfFuel
  | S fuel' =>
      d <~ rdi digits (num mod base) ;;
      temp <~ wrc temp i d ;;
      let num := num / base in
      if num =? 0 then Ret (temp, i) else digits_div fuel' num base digits temp (i + 1)
  end.

(** The loop that masks and shifts. *)
Fixpoint digits_shift (fuel : nat) (num shift mask : Z) (digits temp : list Z) (i : Z) : outcome (list Z * Z) :=
  match fuel with
  | O => Fault OutOfFuel
  | S fuel' =>
      d <~ rdi digits (Z.land num mask) ;;
      temp <~ wrc temp i d ;;
      let num := Z.shiftr num shift in
      if num =? 0 then Ret (temp, i) else digits_shift fuel' num shift mask digits temp (i + 1)
  end.

(** do *str++ = temp[i--]; while (i >= 0): [n] is [i + 1]. *)
Fixpoint copy_back (n : nat) (temp str : list Z) (j : Z) : outcome (list Z) :=
  match n with
  | O => Ret str
  | S i =>
      c <~ rdi temp (Z.of_nat i) ;;
      str <~ wrc str j c ;;
      copy_back i temp str (j + 1)
  end.

(** [temp] is uninitialised: [junk] is what it holds. *)
Definition ulong_to_string (junk : list Z) (num : Z) (str : list Z) (base : Z) (alt_digits : bool) :
    outcome (list Z) :=
  let digits := if alt_digits then digits_uc else digits_lc in
  temp <~ wrc junk 0 0 ;;
  nbits <~ rdi base_to_nbits base ;;
  '(temp, i) <~
    (if nbits =? 0 then digits_div (Z.to_nat LONG_BITS + 1) num base digits temp 1
     else digits_shift (Z.to_nat LONG_BITS + 1) num nbits (Z.shiftl 1 nbits - 1) digits temp 1) ;;
  copy_back (Z.to_nat (i + 1)) temp str 0.

(** *** Variadic arguments *)

Inductive varg :=
  | VInt (v : Z)
  | VStr (s : list Z)
  | VNull.

Definition va_int (ap : list varg) : outcome (Z * list varg) :=
  match ap with VInt v :: ap' => Ret (s32 v, ap') | _ => Fault OutOfBounds end.
Definition va_uint (ap : list varg) : outcome (Z * list varg) :=
  match ap with VInt v :: ap' => Ret (u32 v, ap') | _ => Fault OutOfBounds end.
Definition va_str (ap : list varg) : outcome (option (list Z) * list varg) :=
  match ap with
  | VStr s :: ap' => Ret (Some s, ap')
  | VNull :: ap' => Ret (None, ap')
  | _ => Fault OutOfBounds
  end.

(** *** The five parts of a conversion specification *)

(** 1. flags *)
Fixpoint scan_flags (fmt : list Z) (pad_char : Z) (leftjust : bool) : outcome (Z * bool * list Z) :=
  match fmt with
  | [] => Fault OutOfBounds
  | c :: fmt' =>
      if c =? chr "-" then scan_flags fmt' pad_char true
      else if c =? chr "0" then scan_flags fmt' (chr "0") leftjust
      else Ret (pad_char, leftjust, fmt)
  end.

Definition isdig (c : Z) : bool := (chr "0" <=? c) && (c <=? chr "9").

Fixpoint scan_digits (fmt : list Z) (acc : Z) : outcome (Z * list Z) :=
  match fmt with
  | [] => Fault OutOfBounds
  | c :: fmt' =>
      if isdig c then scan_digits fmt' (s32 (s32 (acc * 10) + (c - chr "0"))) else Ret (acc, fmt)
  end.

(** 2. minimum field width *)
Definition scan_width (fmt : list Z) (ap : list varg) (leftjust : bool) :
    outcome (Z * bool * list Z * list varg) :=
  c <~ rdc fmt ;;
  if c =? chr "*" then
    '(fmin, ap) <~ va_int ap ;;
    if fmin <? 0 then Ret (s32 (- fmin), true, tail fmt, ap) else Ret (fmin, leftjust, tail fmt, ap)
  else
    '(fmin, fmt) <~ scan_digits fmt 0 ;; Ret (fmin, leftjust, fmt, ap).

(** 3. precision *)
Definition scan_prec (fmt : list Z) (ap : list varg) : outcome (Z * list Z * list varg) :=
  c <~ rdc fmt ;;
  if c =? chr "." then
    c <~ rdc (tail fmt) ;;
    if c =? chr "*" then
      '(prec, ap) <~ va_int ap ;; Ret (prec, tail (tail fmt), ap)
    else
      '(prec, fmt) <~ scan_digits (tail fmt) 0 ;; Ret (prec, fmt, ap)
  else Ret (-1, fmt, ap).

Inductive integer_size := SHORT_SHORT_SIZE | SHORT_SIZE | REGULAR_SIZE | LONG_SIZE.

(** 4. length modifier *)
Definition scan_size (fmt : list Z) : outcome (integer_size * list Z) :=
  c <~ rdc fmt ;;
  if c =? chr "l" then Ret (LONG_SIZE, tail fmt)
  else if c =? chr "h" then
    c <~ rdc (tail fmt) ;;
    if c =? chr "h" then Ret (SHORT_SHORT_SIZE, tail (tail fmt)) else Ret (SHORT_SIZE, tail fmt)
  else Ret (REGULAR_SIZE, fmt).

(** 5. conversion specifier: base (0 when not numeric), sign, the string to
    output and the remaining arguments; [None] for an unknown specifier.
    [int] and [long] have the same width, so that both branches on [size]
    read the same argument.  [string] is the uninitialised buffer. *)
Definition convert_unsigned (junk string : list Z) (size : integer_size) (base : Z) (alt_digits : bool)
    (ap : list varg) : outcome (option (Z * Z * list Z * list varg)) :=
  '(ularg, ap) <~ (match size with LONG_SIZE => va_uint ap | _ => va_uint ap end) ;;
  str <~ ulong_to_string junk ularg string base alt_digits ;;
  Ret (Some (base, 0, str, ap)).

Definition convert (junk string : list Z) (c : Z) (size : integer_size) (ap : list varg) :
    outcome (option (Z * Z * list Z * list varg)) :=
  if c =? chr "c" then
    '(v, ap) <~ va_int ap ;;
    string <~ wrc string 0 (u8 v) ;;
    string <~ wrc string 1 0 ;;
    Ret (Some (0, 0, string, ap))
  else if c =? chr "s" then
    '(s, ap) <~ va_str ap ;;
    Ret (Some (0, 0, match s with Some s => s | None => lit "(null)" end, ap))
  else if c =? chr "d" then
    '(larg, ap) <~ (match size with LONG_SIZE => va_int ap | _ => va_int ap end) ;;
    let ularg := u32 larg in
    let '(sign, ularg) := if larg <? 0 then (chr "-", u32 (- ularg)) else (0, ularg) in
    str <~ ulong_to_string junk ularg string 10 false ;;
    Ret (Some (10, sign, str, ap))
  else if c =? chr "u" then convert_unsigned junk string size 10 false ap
  else if c =? chr "o" then convert_unsigned junk string size 8 false ap
  else if c =? chr "x" then convert_unsigned junk string size 16 false ap
  else if c =? chr "X" then convert_unsigned junk string size 16 true ap
  else if c =? chr "b" then convert_unsigned junk string size 2 false ap
  else Ret None.

(** The length computations: the characters of the string to output, the
    zeroes before it and the padding. *)
Definition lengths (len_str base sign prec fmin pad_char : Z) (leftjust : bool) : Z * Z * Z :=
  let len := if (0 <=? prec) && (base =? 0) && (prec <? len_str) then prec else len_str in
  let zeroes := if (0 <=? prec) && negb (base =? 0) && (len_str <? prec) then s32 (prec - len_str) else 0 in
  let pad_char := if (0 <=? prec) && negb (base =? 0) then chr " " else pad_char in
  let nonpadding := s32 (s32 (len + zeroes) + (if sign =? 0 then 0 else 1)) in
  let padding := if nonpadding <? fmin then s32 (fmin - nonpadding) else 0 in
  if negb leftjust && (pad_char =? chr "0") then (len, padding, 0) else (len, zeroes, padding).

Section Output.
Context {St : Type} (putc_func : Z -> M St Z).

(** Outputs stop at the first failure: [None] is the return of [EOF],
    [Some n] continues with [n] characters written. *)
Definition put1 (c n : Z) : M St (option Z) :=
  r <-- putc_func c ;; ret (if r =? EOF then None else Some (s32 (n + 1))).

Fixpoint put_n (k : nat) (c n : Z) : M St (option Z) :=
  match k with
  | O => ret (Some n)
  | S k' => r <-- put1 c n ;; match r with None => ret None | Some n => put_n k' c n end
  end.

(** for (i = 0; i < len_str; i++) putc(str[i]) *)
Fixpoint put_str (k : nat) (str : list Z) (n : Z) : M St (option Z) :=
  match k with
  | O => ret (Some n)
  | S k' =>
      c <-- pure (rdc str) ;;
      r <-- put1 c n ;; match r with None => ret None | Some n => put_str k' (tail str) n end
  end.

Definition then_put (r : option Z) (f : Z -> M St (option Z)) : M St (option Z) :=
  match r with None => ret None | Some n => f n end.

(** The output of one converted field. *)
Definition put_field (len_str num_zeroes len_padding sign pad_char : Z) (leftjust : bool)
    (str : list Z) (n : Z) : M St (option Z) :=
  r <-- (if leftjust then ret (Some n) else put_n (Z.to_nat len_padding) pad_char n) ;;
  r <-- then_put r (fun n => if sign =? 0 then ret (Some n) else put1 sign n) ;;
  r <-- then_put r (put_n (Z.to_nat num_zeroes) (chr "0")) ;;
  r <-- then_put r (put_str (Z.to_nat len_str) str) ;;
  then_put r (fun n => if leftjust then put_n (Z.to_nat len_padding) pad_char n else ret (Some n)).

Context (junk : list Z).

(** One conversion specification after its '%': the remaining arguments,
    and [None] when the specifier is unknown, otherwise the rest of the
    format and the output. *)
Definition conversion (fmt : list Z) (ap : list varg) :
    outcome (list varg * option (list Z * (Z -> M St (option Z)))) :=
  '(pad_char, leftjust, fmt) <~ scan_flags fmt (chr " ") false ;;
  '(fmin, leftjust, fmt, ap) <~ scan_width fmt ap leftjust ;;
  let pad_char := if leftjust then chr " " else pad_char in
  '(prec, fmt, ap) <~ scan_prec fmt ap ;;
  '(size, fmt) <~ scan_size fmt ;;
  c <~ rdc fmt ;;
  r <~ convert junk junk c size ap ;;
  match r with
  | None => Ret (ap, None)
  | Some (base, sign, str, ap) =>
      len <~ strlen str ;;
      let '(len_str, num_zeroes, len_padding) := lengths len base sign prec fmin pad_char leftjust in
      let pad_char := if (0 <=? prec) && negb (base =? 0) then chr " " else pad_char in
      Ret (ap, Some (tail fmt, put_field len_str num_zeroes len_padding sign pad_char leftjust str))
  end.

(** One iteration of the loop is one unit of fuel; each of them advances
    in the format. *)
Fixpoint _doprnt_loop (fuel : nat) (fmt : list Z) (ap : list varg) (n : Z) : M St Z :=
  match fuel with
  | O => failwith OutOfFuel
  | S fuel' =>
      c <-- pure (rdc fmt) ;;
      let literal c fmt ap :=
        r <-- put1 c n ;;
        match r with None => ret EOF | Some n => _doprnt_loop fuel' fmt ap n end in
      if c =? 0 then ret n
      else if c =? chr "%" then
        c1 <-- pure (rdc (tail fmt)) ;;
        if c1 =? chr "%" then literal c1 (tail (tail fmt)) ap
        else
          '(ap, r) <-- pure (conversion (tail fmt) ap) ;;
          match r with
          | Some (fmt', put) =>
              o <-- put n ;;
              match o with None => ret EOF | Some n => _doprnt_loop fuel' fmt' ap n end
          | None => literal (chr "%") (tail fmt) ap
          end
      else literal c (tail fmt) ap
  end.

Definition _doprnt (fmt : list Z) (ap : list varg) : M St Z :=
  _doprnt_loop (length fmt) fmt ap 0.
End Output.

(** *** sprintf.c *)

(** The state is the output object and the offset of [*sptr] in it. *)
Definition sprntf (c : Z) : M (list Z * Z) Z :=
  fun '(buf, s) => match wrc buf s (u8 c) with
                   | Ret buf => Ret (u8 c, (buf, s + 1))
                   | Fault f => Fault f
                   end.

Definition sprintf (junk str format : list Z) (ap : list varg) : outcome (Z * list Z) :=
  '(_, (buf, s)) <~ _doprnt sprntf junk format ap (str, 0) ;;
  buf <~ wrc buf s 0 ;;
  Ret (s, buf).

(** ** Positional numerals *)

(** The digits of [n] in base [b], least significant first, at most [k]. *)
Fixpoint digs (k : nat) (b n : Z) : list Z :=
  match k with
  | O => []
  | S k' => (n mod b) :: (if n / b =? 0 then [] else digs k' b (n / b))
  end.

(** The numeral of a 32-bit number, most significant digit first. *)
Definition numeral (b n : Z) : list Z := reverse (digs 32 b n).

Definition valof (b : Z) (ds : list Z) : Z := foldl (fun a d => a * b + d) 0 ds.

Definition digit_char (alt : bool) (d : Z) : Z :=
  default 0 (nthZ (if alt then digits_uc else digits_lc) d).

Lemma digs_range k b n : 0 < b -> Forall (fun d => 0 <= d < b) (digs k b n).
Proof.
  intros Hb. revert n. induction k as [|k IH]; intros n; simpl; constructor.
  - by apply Z.mod_pos_bound.
  - case_if; [constructor|apply IH].
Qed.

Lemma digs_value k b n : 2 <= b -> 0 <= n < b ^ Z.of_nat k ->
  foldr (fun d a => a * b + d) 0 (digs k b n) = n.
Proof.
  intros Hb. revert n. induction k as [|k IH]; intros n Hn; simpl.
  - change (b ^ Z.of_nat 0) with 1 in Hn. lia.
  - pose proof (Z.div_mod n b ltac:(lia)) as E. destruct (Z.eqb_spec (n / b) 0) as [Hq|Hq]; simpl; [nia|].
    rewrite IH; [lia|]. rewrite Nat2Z.inj_succ, Z.pow_succ_r in Hn by lia.
    split; [apply Z.div_pos; lia|apply Z.div_lt_upper_bound; lia].
Qed.

Lemma digs_length k m b n : 2 <= b -> (0 < m)%nat -> 0 <= n < b ^ Z.of_nat m ->
  (length (digs k b n) <= m)%nat.
Proof.
  intros Hb. revert m n. induction k as [|k IH]; intros m n Hm Hn; simpl; [lia|].
  destruct (Z.eqb_spec (n / b) 0) as [Hq|Hq]; simpl; [lia|]. destruct m as [|[|m]]; [lia| |].
  - change (b ^ Z.of_nat 1) with (b ^ 1) in Hn. rewrite Z.pow_1_r in Hn.
    rewrite Z.div_small in Hq by lia. lia.
  - apply le_n_S, IH; [lia|]. rewrite Nat2Z.inj_succ, Z.pow_succ_r in Hn by lia.
    split; [apply Z.div_pos; lia|apply Z.div_lt_upper_bound; lia].
Qed.

Lemma digs_fuel k k' b n : 2 <= b -> 0 <= n < b ^ Z.of_nat k -> (k <= k')%nat -> digs k b n = digs k' b n \/ k = 0%nat.
Proof.
  intros Hb. revert k' n. induction k as [|k IH]; intros k' n Hn Hk; [by right|left].
  destruct k' as [|k']; [lia|]. simpl. f_equal. destruct (Z.eqb_spec (n / b) 0) as [?|Hq]; [done|].
  rewrite Nat2Z.inj_succ, Z.pow_succ_r in Hn by lia.
  assert (0 <= n / b < b ^ Z.of_nat k) as Hn' by
    (split; [apply Z.div_pos; lia|apply Z.div_lt_upper_bound; lia]).
  destruct (IH k' (n / b)) as [E | ->]; [done|lia|done|].
  change (b ^ Z.of_nat 0) with 1 in Hn'. lia.
Qed.

(** No leading zero. *)
Lemma digs_last k b n : 2 <= b -> 0 < n < b ^ Z.of_nat k ->
  exists l d, digs k b n = l ++ [d] /\ d <> 0.
Proof.
  intros Hb. revert n. induction k as [|k IH]; intros n Hn; simpl.
  - change (b ^ Z.of_nat 0) with 1 in Hn. lia.
  - pose proof (Z.div_mod n b ltac:(lia)) as E. destruct (Z.eqb_spec (n / b) 0) as [Hq|Hq].
    + exists [], (n mod b). split; [done|]. nia.
    + rewrite Nat2Z.inj_succ, Z.pow_succ_r in Hn by lia.
      destruct (IH (n / b)) as (l & d & -> & Hd).
      { split; [|apply Z.div_lt_upper_bound; lia]. pose proof (Z.div_pos n b). lia. }
      by exists (n mod b :: l), d.
Qed.

Lemma pow_base_32 b : 2 <= b -> 2 ^ 32 <= b ^ Z.of_nat 32.
Proof. intros. apply Z.pow_le_mono_l. lia. Qed.

Lemma valof_numeral b n : 2 <= b -> 0 <= n < 2 ^ 32 -> valof b (numeral b n) = n.
Proof.
  intros Hb Hn. unfold valof, numeral. rewrite foldl_reverse.
  pose proof (pow_base_32 b Hb). apply digs_value; [done|].
  split; [apply Hn|]. eapply Z.lt_le_trans; [apply Hn|done].
Qed.

Lemma digs_nonempty k b n : (1 <= length (digs (S k) b n))%nat.
Proof. cbn [digs length]. lia. Qed.

Lemma numeral_length b n : 2 <= b -> 0 <= n < 2 ^ 32 -> (1 <= length (numeral b n) <= 32)%nat.
Proof.
  intros Hb Hn. unfold numeral. rewrite length_reverse. split; [apply digs_nonempty|].
  pose proof (pow_base_32 b Hb). apply (digs_length 32 32); [done|lia|].
  split; [apply Hn|]. eapply Z.lt_le_trans; [apply Hn|done].
Qed.

(** ** The conversion of numbers *)

Lemma rdi_digit (alt : bool) d : 0 <= d < 16 ->
  rdi (if alt then digits_uc else digits_lc) d = Ret (digit_char alt d).
Proof.
  intros Hd. unfold rdi, digit_char.
  destruct (nthZ_lt_Some (if alt then digits_uc else digits_lc) d) as [v Hv]; [by destruct alt|].
  by rewrite Hv.
Qed.

Lemma wrc_run buf i v : 0 <= i < lenZ buf -> wrc buf i v = Ret (updZ i v buf).
Proof. intros Hi. unfold wrc. by destruct (nthZ_lt_Some buf i Hi) as [x ->]. Qed.

Lemma rdi_run buf i v : nthZ buf i = Some v -> rdi buf i = Ret v.
Proof. unfold rdi. by intros ->. Qed.

(** [buf'] is [buf] with the list [l] written from index [i] on. *)
Definition spliced (i : Z) (l buf buf' : list Z) : Prop :=
  lenZ buf' = lenZ buf /\
  forall j, nthZ buf' j = if decide (i <= j < i + lenZ l) then nthZ l (j - i) else nthZ buf j.

Lemma spliced_nil i buf : spliced i [] buf buf.
Proof. split; [done|]. intros j. rewrite decide_False; [done|]. change (lenZ []) with 0. lia. Qed.

Lemma spliced_cons i c l buf buf' :
  0 <= i < lenZ buf -> spliced (i + 1) l (updZ i c buf) buf' -> spliced i (c :: l) buf buf'.
Proof.
  intros Hi [Hlen H]. rewrite lenZ_updZ in Hlen. split; [done|]. intros j. rewrite H.
  assert (lenZ (c :: l) = lenZ l + 1) as E by (unfold lenZ; simpl; lia).
  assert (0 <= lenZ l) by (unfold lenZ; lia).
  destruct (decide (j = i)) as [->|Hj].
  - rewrite decide_False, decide_True, Z.sub_diag by lia. by rewrite nthZ_updZ_eq.
  - rewrite nthZ_updZ_ne by done. repeat case_decide; try lia; [|done].
    rewrite nthZ_cons_pos by lia. f_equal. lia.
Qed.

Lemma digits_div_run fuel num base (alt : bool) temp i :
  2 <= base <= 16 -> (0 < fuel)%nat -> 0 <= num < base ^ Z.of_nat fuel -> 0 <= i -> i + lenZ (digs fuel base num) <= lenZ temp ->
  exists temp', digits_div fuel num base (if alt then digits_uc else digits_lc) temp i =
      Ret (temp', i + lenZ (digs fuel base num) - 1) /\
    spliced i (digit_char alt <$> digs fuel base num) temp temp'.
Proof.
  intros Hb. revert num temp i. induction fuel as [|fuel IH]; intros num temp i Hf Hn Hi Hl; [lia|].
  cbn [digits_div digs] in *. assert (0 <= num mod base < base) by (apply Z.mod_pos_bound; lia).
  rewrite (obind_Ret _ _ _ (rdi_digit alt (num mod base) ltac:(lia))).
  assert (0 <= lenZ (if num / base =? 0 then [] else digs fuel base (num / base))) by (unfold lenZ; lia).
  assert (forall l, lenZ (num mod base :: l) = lenZ l + 1) as E by (intros l; unfold lenZ; simpl; lia).
  rewrite E in *. rewrite (obind_Ret _ _ _ (wrc_run temp i (digit_char alt (num mod base)) ltac:(lia))). cbv zeta.
  destruct (Z.eqb_spec (num / base) 0) as [Hq|Hq].
  - eexists. split; [do 2 f_equal; change (lenZ []) with 0; lia|].
    simpl. apply spliced_cons; [lia|apply spliced_nil].
  - rewrite Nat2Z.inj_succ, Z.pow_succ_r in Hn by lia.
    assert (0 <= num / base < base ^ Z.of_nat fuel) as Hn' by
      (split; [apply Z.div_pos; lia|apply Z.div_lt_upper_bound; lia]).
    destruct (IH (num / base) (updZ i (digit_char alt (num mod base)) temp) (i + 1)) as (t & -> & Hs).
    + destruct fuel; [|lia]. change (base ^ Z.of_nat 0) with 1 in Hn'. lia.
    + done.
    + lia.
    + rewrite lenZ_updZ. lia.
    + exists t. split; [do 2 f_equal; lia|]. simpl. apply spliced_cons; [lia|done].
Qed.

(** The loops that divide and that shift agree on a power of two. *)
Lemma digits_shift_div fuel num s digits temp i :
  0 <= s -> digits_shift fuel num s (Z.shiftl 1 s - 1) digits temp i = digits_div fuel num (2 ^ s) digits temp i.
Proof.
  intros Hs. assert (Z.shiftl 1 s - 1 = Z.ones s) as -> by (rewrite Z.shiftl_1_l, Z.ones_equiv; lia).
  revert num temp i. induction fuel as [|fuel IH]; intros num temp i; [done|].
  cbn [digits_div digits_shift]. rewrite Z.land_ones, Z.shiftr_div_pow2 by done.
  destruct (rdi digits _) as [d|]; [simpl|done]. destruct (wrc temp i d); [simpl|done].
  case_if; [done|]. apply IH.
Qed.

Lemma copy_back_run n temp str j :
  Z.of_nat n <= lenZ temp -> 0 <= j -> j + Z.of_nat n <= lenZ str ->
  exists str', copy_back n temp str j = Ret str' /\ spliced j (reverse (take n temp)) str str'.
Proof.
  revert str j. induction n as [|n IH]; intros str j Ht Hj Hs; simpl.
  - exists str. split; [done|apply spliced_nil].
  - destruct (nthZ_lt_Some temp (Z.of_nat n)) as [c Hc]; [lia|].
    rewrite (rdi_run _ _ _ Hc). simpl. rewrite wrc_run by lia. simpl.
    destruct (IH (updZ j c str) (j + 1)) as (str' & -> & Hsp); [lia|lia|rewrite lenZ_updZ; lia|].
    exists str'. split; [done|]. unfold nthZ in Hc.
    rewrite (proj2 (Z.leb_le 0 (Z.of_nat n))), Nat2Z.id in Hc by lia.
    rewrite (take_S_r _ _ _ Hc), reverse_app. apply spliced_cons; [lia|done].
Qed.

Lemma spliced_0 l buf buf' : spliced 0 l buf buf' -> lenZ l <= lenZ buf -> exists rest, buf' = l ++ rest.
Proof.
  intros [Hlen H] Hl. exists (drop (length l) buf'). rewrite <- (take_drop (length l) buf') at 1. f_equal.
  apply list_eq. intros n. destruct (decide (n < length l)%nat) as [Hn|Hn].
  - specialize (H (Z.of_nat n)). rewrite decide_True in H by (unfold lenZ in *; lia).
    rewrite lookup_take_lt by done. unfold nthZ in H. rewrite Z.sub_0_r in H.
    rewrite (proj2 (Z.leb_le 0 (Z.of_nat n))), Nat2Z.id in H by lia. done.
  - rewrite lookup_take_ge, lookup_ge_None_2 by lia. done.
Qed.

Lemma digit_char_nonzero alt d : 0 <= d < 16 -> digit_char alt d <> 0.
Proof.
  intros Hd. assert (d ∈ seqZ 0 16) as Hin by (apply elem_of_seqZ; lia).
  assert (Forall (fun d => forall alt, digit_char alt d <> 0) (seqZ 0 16)) as HF.
  { repeat (constructor; [intros []; vm_compute; done|]). constructor. }
  rewrite Forall_forall in HF. by apply HF.
Qed.

#[local] Arguments digs : simpl never.
#[local] Arguments digits_div : simpl never.
#[local] Arguments digits_shift : simpl never.

(** The text of [n] in base [b]. *)
Definition num_text (alt : bool) (b n : Z) : list Z := digit_char alt <$> numeral b n.

Lemma numeral_range b n : 0 < b -> Forall (fun d => 0 <= d < b) (numeral b n).
Proof. intros Hb. unfold numeral. rewrite Forall_reverse. by apply digs_range. Qed.

Lemma num_text_length alt b n : 2 <= b -> 0 <= n < 2 ^ 32 -> 1 <= lenZ (num_text alt b n) <= 32.
Proof.
  intros Hb Hn. unfold lenZ, num_text. rewrite length_fmap.
  pose proof (numeral_length b n Hb Hn). lia.
Qed.

(** The bases of the conversions. *)
Definition conv_base (b : Z) : Prop := b = 2 \/ b = 8 \/ b = 10 \/ b = 16.

Lemma digits_any junk num base (alt : bool) :
  conv_base base -> 0 <= num < 2 ^ 32 -> lenZ junk = LONG_BITS + 1 ->
  exists nbits temp, rdi base_to_nbits base = Ret nbits /\
    (if nbits =? 0
     then digits_div (Z.to_nat LONG_BITS + 1) num base (if alt then digits_uc else digits_lc) junk 1
     else digits_shift (Z.to_nat LONG_BITS + 1) num nbits (Z.shiftl 1 nbits - 1)
            (if alt then digits_uc else digits_lc) junk 1) =
    Ret (temp, lenZ (digs 33 base num)) /\
    spliced 1 (digit_char alt <$> digs 33 base num) junk temp.
Proof.
  intros Hb Hn Hj. unfold LONG_BITS in *.
  assert (2 <= base <= 16) as Hb' by (unfold conv_base in Hb; lia).
  pose proof (pow_base_32 base ltac:(lia)) as Hpow.
  assert (lenZ (digs 33 base num) <= 32) as Hd.
  { unfold lenZ. apply (inj_le _ 32), (digs_length 33 32); [lia|lia|].
    split; [apply Hn|]. eapply Z.lt_le_trans; [apply Hn|done]. }
  destruct (digits_div_run 33 num base alt junk 1) as (temp & Hrun & Hs);
    [done|lia| |lia|lia|].
  { split; [lia|]. apply Z.lt_le_trans with (base ^ Z.of_nat 32); [lia|]. apply Z.pow_le_mono_r; lia. }
  replace (1 + lenZ (digs 33 base num) - 1) with (lenZ (digs 33 base num)) in Hrun by lia.
  change (Z.to_nat 32 + 1)%nat with 33%nat.
  destruct Hb as [-> | [-> | [-> | ->]]]; eexists _, temp; (split; [reflexivity|]);
    match goal with |- context [Z.eqb ?a 0] => let b := eval vm_compute in (Z.eqb a 0) in change (Z.eqb a 0) with b end;
    cbv iota; rewrite ?digits_shift_div by done; exact (conj Hrun Hs).
Qed.

Lemma ulong_to_string_run junk num str base alt :
  conv_base base -> 0 <= num < 2 ^ 32 -> lenZ junk = LONG_BITS + 1 -> LONG_BITS + 1 <= lenZ str ->
  exists str', ulong_to_string junk num str base alt = Ret str' /\ lenZ str' = lenZ str /\
    cstr str' (num_text alt base num).
Proof.
  intros Hb Hn Hj Hstr. assert (2 <= base <= 16) as Hb' by (unfold conv_base in Hb; lia).
  pose proof (pow_base_32 base ltac:(lia)) as Hpow.
  unfold ulong_to_string. rewrite (obind_Ret _ _ _ (wrc_run junk 0 0 ltac:(unfold LONG_BITS in *; lia))).
  destruct (digits_any (updZ 0 0 junk) num base alt) as (nbits & temp & -> & Hrun & Hs);
    [done|done|by rewrite lenZ_updZ|].
  cbn [obind]. rewrite Hrun. cbn [obind].
  destruct (digs_fuel 32 33 base num) as [E|]; [lia|lia|lia| |done].
  rewrite <- E in *. set (ds := digs 32 base num) in *.
  assert (1 <= lenZ ds <= 32) as Hl.
  { pose proof (numeral_length base num ltac:(lia) Hn) as H. unfold numeral in H. fold ds in H.
    rewrite length_reverse in H. unfold lenZ. lia. }
  pose proof (proj1 Hs) as Hlen. rewrite lenZ_updZ in Hlen. unfold LONG_BITS in *.
  assert (take (Z.to_nat (lenZ ds + 1)) temp = 0 :: (digit_char alt <$> ds)) as Ht.
  { apply (spliced_cons 0) in Hs; [|lia]. apply spliced_0 in Hs as [rest ->].
    - apply take_app_length'. rewrite length_cons, length_fmap. unfold lenZ. lia.
    - unfold lenZ in *. rewrite length_cons, length_fmap. lia. }
  destruct (copy_back_run (Z.to_nat (lenZ ds + 1)) temp str 0) as (str' & -> & Hsp); [lia..|].
  exists str'. split; [done|]. split; [apply Hsp|]. rewrite Ht in Hsp.
  apply spliced_0 in Hsp as [rest ->].
  - rewrite reverse_cons, <- app_assoc. split.
    + exists rest. f_equal. unfold num_text, numeral. fold ds. by rewrite fmap_reverse.
    + unfold num_text. apply Forall_fmap. eapply Forall_impl; [apply numeral_range; lia|].
      intros d Hd. cbv beta in Hd. apply digit_char_nonzero. lia.
  - unfold lenZ in *. rewrite length_reverse, length_cons, length_fmap. lia.
Qed.

(** ** Character sinks *)

(** What [_doprnt] expects of its output function: while there is room, a
    character is taken and the value returned is not [EOF]. *)
Class CharSink {St : Type} (putc : Z -> M St Z) := {
  room : nat -> St -> Prop;
  emit : Z -> St -> St;
  sink_put c n s : room (S n) s ->
    exists r, r <> EOF /\ putc c s = Ret (r, emit c s) /\ room n (emit c s)
}.

Definition emits `{CharSink St putc} (cs : list Z) (s : St) : St := foldl (fun s c => emit c s) s cs.

Section Sink.
Context {St : Type} (putc : Z -> M St Z) `{!CharSink putc}.

(** [f] outputs [cs] and counts it. *)
Definition puts (f : Z -> M St (option Z)) (cs : list Z) : Prop :=
  forall w n s, room (length cs + n) s ->
    f (s32 w) s = Ret (Some (s32 (w + lenZ cs)), emits cs s) /\ room n (emits cs s).

Lemma puts_nil : puts (fun n => ret (Some n)) [].
Proof. intros w n s Hr. change (lenZ []) with 0. by rewrite Z.add_0_r. Qed.

Lemma puts_put1 c : puts (put1 putc c) [c].
Proof.
  intros w n s Hr. destruct (sink_put c n s Hr) as (r & Hr' & Hrun & Hroom). split; [|done].
  unfold put1. rewrite (bind_Ret _ _ _ _ _ Hrun), (proj2 (Z.eqb_neq r EOF) Hr').
  change (lenZ [c]) with 1. unfold ret. by rewrite swrap_add_l by lia.
Qed.

Lemma puts_bind f cs w n s {A} (k : option Z -> M St A) :
  puts f cs -> room (length cs + n) s ->
  bind (f (s32 w)) k s = k (Some (s32 (w + lenZ cs))) (emits cs s).
Proof. intros Hf Hr. destruct (Hf w n s Hr) as [Hrun _]. by rewrite (bind_Ret _ _ _ _ _ Hrun). Qed.

Lemma emits_app cs cs' s : emits (cs ++ cs') s = emits cs' (emits cs s).
Proof. apply foldl_app. Qed.

Lemma puts_seq f g cs cs' : puts f cs -> puts g cs' ->
  puts (fun n => r <-- f n ;; then_put r g) (cs ++ cs').
Proof.
  intros Hf Hg w n s Hr. rewrite length_app, <- Nat.add_assoc in Hr.
  destruct (Hf w _ s Hr) as [Hrun Hroom]. rewrite (bind_Ret _ _ _ _ _ Hrun). simpl.
  rewrite emits_app, lenZ_app, Z.add_assoc. by apply Hg.
Qed.

Lemma puts_ext f g cs : (forall n s, f n s = g n s) -> puts f cs -> puts g cs.
Proof. intros E H w n s Hr. rewrite <- E. by apply H. Qed.

Lemma puts_put_n k c : puts (put_n putc k c) (replicate k c).
Proof.
  induction k as [|k IH]; [apply puts_nil|].
  apply (puts_seq _ _ [c] (replicate k c) (puts_put1 c) IH).
Qed.

Lemma puts_put_str str w k : cstr str w -> (k <= length w)%nat -> puts (put_str putc k str) (take k w).
Proof.
  revert str w. induction k as [|k IH]; intros str w Hc Hk; [apply puts_nil|].
  destruct w as [|c w]; [simpl in Hk; lia|]. cstr_case Hc. simpl in Hk.
  apply (puts_seq _ _ [c] (take k w) (puts_put1 c)). apply IH; [done|lia].
Qed.

(** The output of a field, as text. *)
Lemma puts_put_field len zeroes padding sign pad (left : bool) str w :
  cstr str w -> 0 <= len <= lenZ w ->
  puts (put_field putc len zeroes padding sign pad left str)
    ((if left then [] else replicate (Z.to_nat padding) pad) ++ (if sign =? 0 then [] else [sign]) ++
     replicate (Z.to_nat zeroes) (chr "0") ++ take (Z.to_nat len) w ++
     (if left then replicate (Z.to_nat padding) pad else [])).
Proof.
  intros Hc Hl.
  assert (puts (fun n => if left then ret (Some n) else put_n putc (Z.to_nat padding) pad n)
    (if left then [] else replicate (Z.to_nat padding) pad)) as H1
    by (destruct left; [apply puts_nil|apply puts_put_n]).
  assert (puts (fun n => if sign =? 0 then ret (Some n) else put1 putc sign n)
    (if sign =? 0 then [] else [sign])) as H2
    by (destruct (sign =? 0); [apply puts_nil|apply puts_put1]).
  assert (puts (put_str putc (Z.to_nat len) str) (take (Z.to_nat len) w)) as H4
    by (apply puts_put_str; [done|unfold lenZ in *; lia]).
  assert (puts (fun n => if left then put_n putc (Z.to_nat padding) pad n else ret (Some n))
    (if left then replicate (Z.to_nat padding) pad else [])) as H5
    by (destruct left; [apply puts_put_n|apply puts_nil]).
  pose proof (puts_seq _ _ _ _ (puts_seq _ _ _ _ (puts_seq _ _ _ _ (puts_seq _ _ _ _ H1 H2)
    (puts_put_n (Z.to_nat zeroes) (chr "0"))) H4) H5) as H.
  rewrite <- !app_assoc in H. eapply puts_ext; [|exact H]. intros n s. unfold put_field.
  by rewrite !bind_assoc.
Qed.
End Sink.

(** ** Formats as data *)

Inductive wid := WNone | WNum (n : Z) | WStar (v : Z).
Inductive prc := PNone | PNum (n : Z) | PStar (v : Z).
Inductive utype := TU | TO | TX | TUX | TB.
Inductive cnv :=
  | CChar (v : Z)
  | CStr (s w : list Z)
  | CNull
  | CSigned (v : Z)
  | CUnsigned (t : utype) (v : Z).

(** A conversion specification with the arguments it takes; a flag is ['-']
    ([true]) or ['0'] ([false]). *)
Record directive := mkDirective {
  d_flags : list bool;
  d_width : wid;
  d_prec : prc;
  d_size : integer_size;
  d_conv : cnv
}.

Inductive item := Lit (c : Z) | Percent | Dir (d : directive).

Definition dec_text (n : Z) : list Z := num_text false 10 n.

Definition flag_char (b : bool) : Z := if b then chr "-" else chr "0".
Definition wid_text (w : wid) : list Z :=
  match w with WNone => [] | WNum n => dec_text n | WStar _ => [chr "*"] end.
Definition prc_text (p : prc) : list Z :=
  match p with PNone => [] | PNum n => chr "." :: dec_text n | PStar _ => [chr "."; chr "*"] end.
Definition size_text (s : integer_size) : list Z :=
  match s with
  | SHORT_SHORT_SIZE => [chr "h"; chr "h"] | SHORT_SIZE => [chr "h"]
  | REGULAR_SIZE => [] | LONG_SIZE => [chr "l"]
  end.
Definition utype_char (t : utype) : Z :=
  match t with TU => chr "u" | TO => chr "o" | TX => chr "x" | TUX => chr "X" | TB => chr "b" end.
Definition utype_base (t : utype) : Z :=
  match t with TU => 10 | TO => 8 | TX => 16 | TUX => 16 | TB => 2 end.
Definition utype_alt (t : utype) : bool := match t with TUX => true | _ => false end.
Definition cnv_char (c : cnv) : Z :=
  match c with
  | CChar _ => chr "c" | CStr _ _ => chr "s" | CNull => chr "s" | CSigned _ => chr "d"
  | CUnsigned t _ => utype_char t
  end.

Definition dir_text (d : directive) : list Z :=
  (flag_char <$> d_flags d) ++ wid_text (d_width d) ++ prc_text (d_prec d) ++
  size_text (d_size d) ++ [cnv_char (d_conv d)].

Definition wid_args (w : wid) : list varg := match w with WStar v => [VInt v] | _ => [] end.
Definition prc_args (p : prc) : list varg := match p with PStar v => [VInt v] | _ => [] end.
Definition cnv_args (c : cnv) : list varg :=
  match c with
  | CChar v => [VInt v] | CStr s _ => [VStr s] | CNull => [VNull] | CSigned v => [VInt v]
  | CUnsigned _ v => [VInt v]
  end.
Definition dir_args (d : directive) : list varg :=
  wid_args (d_width d) ++ prc_args (d_prec d) ++ cnv_args (d_conv d).

Definition item_text (i : item) : list Z :=
  match i with Lit c => [c] | Percent => [chr "%"; chr "%"] | Dir d => chr "%" :: dir_text d end.
Definition item_args (i : item) : list varg := match i with Dir d => dir_args d | _ => [] end.

(** *** What a directive means *)

Definition width_of (w : wid) : Z := match w with WNone => 0 | WNum n => n | WStar v => Z.abs v end.
Definition prec_of (p : prc) : option Z :=
  match p with PNone => None | PNum n => Some n | PStar v => if v <? 0 then None else Some v end.
Definition left_of (d : directive) : bool :=
  existsb id (d_flags d) || match d_width d with WStar v => v <? 0 | _ => false end.
Definition zero_of (d : directive) : bool := existsb negb (d_flags d).

Definition cnv_numeric (c : cnv) : bool :=
  match c with CSigned _ | CUnsigned _ _ => true | _ => false end.
Definition cnv_sign (c : cnv) : list Z :=
  match c with CSigned v => if v <? 0 then [chr "-"] else [] | _ => [] end.
(** The text before precision and padding.  A NUL character is the empty
    text. *)
Definition cnv_text (c : cnv) : list Z :=
  match c with
  | CChar v => if u8 v =? 0 then [] else [u8 v]
  | CStr _ w => w
  | CNull => chars "(null)"
  | CSigned v => dec_text (Z.abs v)
  | CUnsigned t v => num_text (utype_alt t) (utype_base t) v
  end.

Definition with_prec (numeric : bool) (p : option Z) (t : list Z) : list Z :=
  match p, numeric with
  | None, _ => t
  | Some p, true => replicate (Z.to_nat (p - lenZ t)) (chr "0") ++ t
  | Some p, false => take (Z.to_nat p) t
  end.

Definition render (d : directive) : list Z :=
  let numeric := cnv_numeric (d_conv d) in
  let sign := cnv_sign (d_conv d) in
  let t := with_prec numeric (prec_of (d_prec d)) (cnv_text (d_conv d)) in
  let fill := Z.to_nat (width_of (d_width d) - lenZ (sign ++ t)) in
  if left_of d then sign ++ t ++ replicate fill (chr " ")
  else if zero_of d && (negb numeric || match prec_of (d_prec d) with None => true | _ => false end)
  then sign ++ replicate fill (chr "0") ++ t
  else replicate fill (chr " ") ++ sign ++ t.

Definition item_out (i : item) : list Z :=
  match i with Lit c => [c] | Percent => [chr "%"] | Dir d => render d end.

(** The directive of a conversion alone. *)
Definition plain_dir (c : cnv) : directive := mkDirective [] WNone PNone REGULAR_SIZE c.

Lemma render_plain c : render (plain_dir c) = cnv_sign c ++ cnv_text c.
Proof.
  unfold render, plain_dir. simpl. replace (Z.to_nat (0 - lenZ (cnv_sign c ++ cnv_text c))) with O by (unfold lenZ; lia).
  done.
Qed.

(** Field widths, precisions and strings shorter than 2^30, so that the
    [int] computations do not wrap. *)
Definition wid_ok (w : wid) : Prop :=
  match w with WNone => True | WNum n => 0 < n < 2 ^ 30 | WStar v => - 2 ^ 30 < v < 2 ^ 30 end.
Definition prc_ok (p : prc) : Prop :=
  match p with PNone => True | PNum n => 0 <= n < 2 ^ 30 | PStar v => - 2 ^ 30 < v < 2 ^ 30 end.
Definition cnv_ok (c : cnv) : Prop :=
  match c with
  | CChar _ | CNull => True
  | CStr s w => cstr s w /\ lenZ w < 2 ^ 30
  | CSigned v => - 2 ^ 31 <= v < 2 ^ 31
  | CUnsigned _ v => 0 <= v < 2 ^ 32
  end.
Definition item_ok (i : item) : Prop :=
  match i with
  | Lit c => c <> 0 /\ c <> chr "%"
  | Percent => True
  | Dir d => wid_ok (d_width d) /\ prc_ok (d_prec d) /\ cnv_ok (d_conv d)
  end.

(** ** Parsing a directive *)

Definition starts (P : Z -> Prop) (l : list Z) : Prop := exists c r, l = c :: r /\ P c.

Lemma scan_flags_text fs pad left tl :
  starts (fun c => c <> chr "-" /\ c <> chr "0") tl ->
  scan_flags ((flag_char <$> fs) ++ tl) pad left =
  Ret (if existsb negb fs then chr "0" else pad, left || existsb id fs, tl).
Proof.
  intros (c & r & -> & H1 & H2). revert pad left. induction fs as [|b fs IH]; intros pad left; simpl.
  - rewrite (proj2 (Z.eqb_neq _ _) H1), (proj2 (Z.eqb_neq _ _) H2). by rewrite orb_false_r.
  - destruct b; simpl.
    + rewrite IH. by rewrite orb_true_r.
    + change (chr "0" =? chr "-") with false. change (chr "0" =? chr "0") with true. cbv iota.
      rewrite IH. by destruct (existsb negb fs).
Qed.

Lemma digit_char_dec d : 0 <= d < 10 -> digit_char false d = 48 + d.
Proof.
  intros Hd. assert (d ∈ seqZ 0 10) as Hin by (apply elem_of_seqZ; lia).
  assert (Forall (fun d => digit_char false d = 48 + d) (seqZ 0 10)) as HF.
  { repeat (constructor; [vm_compute; done|]). constructor. }
  rewrite Forall_forall in HF. by apply HF.
Qed.

Lemma valof_ge b ds acc : 1 <= b -> Forall (fun d => 0 <= d) ds -> 0 <= acc ->
  acc <= foldl (fun a d => a * b + d) acc ds.
Proof.
  intros Hb. revert acc. induction ds as [|d ds IH]; intros acc Hd Hacc; simpl; [lia|].
  apply Forall_cons in Hd as [Hd Hds]. specialize (IH (acc * b + d) Hds). nia.
Qed.

(** Reading a numeral gives its value, as long as that fits. *)
Lemma scan_digits_text ds acc tl :
  Forall (fun d => 0 <= d < 10) ds -> 0 <= acc ->
  foldl (fun a d => a * 10 + d) acc ds < 2 ^ 31 -> starts (fun c => isdig c = false) tl ->
  scan_digits ((digit_char false <$> ds) ++ tl) acc = Ret (foldl (fun a d => a * 10 + d) acc ds, tl).
Proof.
  intros Hds Hacc Hv (c & r & -> & Hc). revert acc Hacc Hv.
  induction ds as [|d ds IH]; intros acc Hacc Hv; simpl.
  - by rewrite Hc.
  - apply Forall_cons in Hds as [Hd Hds]. rewrite digit_char_dec by done.
    assert (isdig (48 + d) = true) as ->.
    { unfold isdig. change (chr "0") with 48. change (chr "9") with 57.
      by rewrite (proj2 (Z.leb_le _ _)), (proj2 (Z.leb_le _ _)) by lia. }
    change (chr "0") with 48. replace (48 + d - 48) with d by lia.
    pose proof (valof_ge 10 ds (acc * 10 + d)) as Hge. simpl in Hv.
    assert (acc * 10 + d < 2 ^ 31) as Hlt.
    { eapply Z.le_lt_trans; [apply Hge|exact Hv]; [lia| |lia].
      eapply Forall_impl; [exact Hds|]. simpl. lia. }
    rewrite swrap_add_l, swrap_small by (change (2 ^ (32 - 1)) with (2 ^ 31); lia).
    apply IH; [done|lia|done].
Qed.

Lemma scan_dec_text n tl : 0 <= n < 2 ^ 31 -> starts (fun c => isdig c = false) tl ->
  scan_digits (dec_text n ++ tl) 0 = Ret (n, tl).
Proof.
  intros Hn Ht. pose proof (valof_numeral 10 n ltac:(lia) ltac:(lia)) as Hv. unfold valof in Hv.
  unfold dec_text, num_text. rewrite scan_digits_text; [by rewrite Hv| |lia|lia|done].
  apply numeral_range. lia.
Qed.

(** A positive numeral does not start like a flag. *)
Lemma dec_text_starts n tl : 0 <= n < 2 ^ 31 ->
  starts (fun c => isdig c = true /\ (0 < n -> c <> chr "0")) (dec_text n ++ tl).
Proof.
  intros Hn. unfold dec_text, num_text.
  pose proof (numeral_range 10 n ltac:(lia)) as Hr.
  pose proof (numeral_length 10 n ltac:(lia) ltac:(lia)) as Hl.
  assert (0 < n -> exists d l, numeral 10 n = d :: l /\ d <> 0) as Hlead.
  { intros Hp. destruct (digs_last 32 10 n ltac:(lia)) as (l & d & E & Hd).
    - split; [done|]. pose proof (pow_base_32 10 ltac:(lia)). lia.
    - unfold numeral. rewrite E, reverse_app. eauto. }
  destruct (numeral 10 n) as [|d l]; [simpl in Hl; lia|].
  apply Forall_cons in Hr as [Hd _]. cbv beta in Hd. simpl. rewrite digit_char_dec by done.
  eexists _, _. split; [done|]. split.
  - unfold isdig. change (chr "0") with 48. change (chr "9") with 57.
    by rewrite (proj2 (Z.leb_le _ _)), (proj2 (Z.leb_le _ _)) by lia.
  - intros Hp. destruct (Hlead Hp) as (d' & l' & [= <- <-] & Hd'). change (chr "0") with 48. lia.
Qed.

Lemma scan_digits_none tl : starts (fun c => isdig c = false) tl -> scan_digits tl 0 = Ret (0, tl).
Proof. intros H. apply (scan_digits_text [] 0 tl); [constructor|lia|simpl; lia|done]. Qed.

#[local] Arguments scan_digits : simpl never.

(** Characters that start neither a flag, a width nor a precision. *)
Definition plain (c : Z) : Prop :=
  isdig c = false /\ c <> chr "-" /\ c <> chr "*" /\ c <> chr "." /\ c <> chr "%".
(** Characters that may follow a width, and the flags. *)
Definition after_width (c : Z) : Prop :=
  isdig c = false /\ c <> chr "-" /\ c <> chr "*" /\ c <> chr "%".
Definition after_flags (c : Z) : Prop := c <> chr "-" /\ c <> chr "0" /\ c <> chr "%".

Lemma starts_impl (P Q : Z -> Prop) l : (forall c, P c -> Q c) -> starts P l -> starts Q l.
Proof. intros H (c & r & -> & Hc). exists c, r. auto. Qed.

Lemma size_starts s c tl : starts plain (size_text s ++ cnv_char c :: tl).
Proof.
  destruct s; simpl; eexists _, _; (split; [done|]); try done.
  by destruct c as [| | | |[]].
Qed.

Lemma scan_size_text s c tl : scan_size (size_text s ++ cnv_char c :: tl) = Ret (s, cnv_char c :: tl).
Proof. by destruct s; destruct c as [| | | |[]]. Qed.

Lemma isdig_nonzero_char c : isdig c = false -> c <> chr "0".
Proof. by intros H ->. Qed.

Lemma scan_prec_text p tl ap : prc_ok p -> starts plain tl ->
  scan_prec (prc_text p ++ tl) (prc_args p ++ ap) =
  Ret (default (match p with PStar v => v | _ => -1 end) (prec_of p), tl, ap).
Proof.
  intros Hp Ht. unfold scan_prec. destruct p as [|n|v]; simpl.
  - destruct Ht as (c & r & -> & H1 & H2 & H3 & H4 & H5). simpl. by rewrite (proj2 (Z.eqb_neq _ _) H4).
  - simpl in Hp. destruct (dec_text_starts n tl) as (c & r & E & Hc & _); [lia|].
    change (chr "." =? chr ".") with true. cbv iota. rewrite E. simpl.
    rewrite (proj2 (Z.eqb_neq c (chr "*"))) by (by intros ->). rewrite <- E.
    rewrite scan_dec_text; [done|lia|]. eapply starts_impl; [|exact Ht]. by intros ? [? _].
  - simpl in Hp. change (chr "." =? chr ".") with true. change (chr "*" =? chr "*") with true. cbv iota. simpl.
    rewrite swrap_small by (change (2 ^ (32 - 1)) with (2 ^ 31); lia). by case_if.
Qed.

Lemma prc_starts p tl : starts plain tl ->
  starts after_width (prc_text p ++ tl).
Proof.
  intros Ht. destruct p; simpl; try by eexists _, _.
  eapply starts_impl; [|exact Ht]. by intros ? (? & ? & ? & ? & ?).
Qed.

Lemma scan_width_text w tl ap left : wid_ok w ->
  starts after_width tl ->
  scan_width (wid_text w ++ tl) (wid_args w ++ ap) left =
  Ret (width_of w, left || match w with WStar v => v <? 0 | _ => false end, tl, ap).
Proof.
  intros Hw Ht. unfold scan_width. destruct w as [|n|v]; simpl.
  - destruct Ht as (c & r & -> & H1 & H2 & H3 & H4). simpl.
    rewrite (proj2 (Z.eqb_neq _ _) H3), scan_digits_none by (by eexists _, _). simpl. by rewrite orb_false_r.
  - simpl in Hw. destruct (dec_text_starts n tl) as (c & r & E & Hc & _); [lia|]. rewrite E. simpl.
    rewrite (proj2 (Z.eqb_neq c (chr "*"))) by (by intros ->). rewrite <- E.
    rewrite scan_dec_text; [simpl; by rewrite orb_false_r|lia|].
    eapply starts_impl; [|exact Ht]. by intros ? [? _].
  - simpl in Hw. change (chr "*" =? chr "*") with true. cbv iota. simpl.
    rewrite (swrap_small 32 v) by (change (2 ^ (32 - 1)) with (2 ^ 31); lia). case_if.
    + rewrite swrap_small by (change (2 ^ (32 - 1)) with (2 ^ 31); lia).
      rewrite orb_true_r, Z.abs_neq by lia. done.
    + by rewrite orb_false_r, Z.abs_eq by lia.
Qed.

Lemma wid_starts w tl : wid_ok w ->
  starts after_width tl ->
  starts after_flags (wid_text w ++ tl).
Proof.
  intros Hw Ht. destruct w as [|n|v]; simpl.
  - eapply starts_impl; [|exact Ht]. intros c (? & ? & ? & ?).
    split; [done|]. split; [by apply isdig_nonzero_char|done].
  - simpl in Hw. eapply starts_impl; [|apply dec_text_starts; lia].
    intros c [Hc Hz]. split; [by intros ->|]. split; [apply Hz; lia|by intros ->].
  - by eexists _, _.
Qed.

(** ** Converting and laying out *)

Definition sign_char (c : cnv) : Z := match c with CSigned v => if v <? 0 then chr "-" else 0 | _ => 0 end.
Definition cnv_base (c : cnv) : Z :=
  match c with CSigned _ => 10 | CUnsigned t _ => utype_base t | _ => 0 end.

Lemma convert_run junk c size ap : cnv_ok c -> lenZ junk = LONG_BITS + 1 ->
  exists str, convert junk junk (cnv_char c) size (cnv_args c ++ ap) =
    Ret (Some (cnv_base c, sign_char c, str, ap)) /\ cstr str (cnv_text c).
Proof.
  intros Hc Hj. unfold LONG_BITS in Hj. destruct c as [v|s w| |v|t v]; simpl in Hc.
  - unfold convert. change (chr "c" =? chr "c") with true. cbv iota. simpl.
    rewrite wrc_run by lia. simpl. rewrite wrc_run by (rewrite lenZ_updZ; lia). simpl.
    eexists. split; [done|].
    destruct junk as [|a [|b junk]]; [done|done|]. unfold updZ. simpl.
    assert (u8 (s32 v) = u8 v) as -> by (rewrite <- (wrap_narrow 8 32 (s32 v)), wrap_swrap, wrap_narrow by lia; done).
    case_if; [|split; [by eexists|by repeat constructor]].
    rewrite Heqb0. split; [by eexists|constructor].
  - exists s. split; [done|apply Hc].
  - exists (lit "(null)"). split; [done|]. split; [by exists []|]. by repeat constructor.
  - unfold convert. simpl. rewrite swrap_small by (change (2 ^ (32 - 1)) with (2 ^ 31); lia).
    assert (exists str, ulong_to_string junk (Z.abs v) junk 10 false = Ret str /\ cstr str (dec_text (Z.abs v)))
      as (str & Hrun & Hs).
    { destruct (ulong_to_string_run junk (Z.abs v) junk 10 false) as (str & ? & ? & ?);
        [unfold conv_base; lia|lia|unfold LONG_BITS; lia|unfold LONG_BITS; lia|eauto]. }
    exists str. split; [|done].
    assert ((match size with LONG_SIZE => Ret (v, ap) | _ => Ret (v, ap) end) = Ret (v, ap)) as -> by (by destruct size).
    simpl. destruct (Z.ltb_spec v 0).
    + assert (u32 (- u32 v) = Z.abs v) as ->.
      { unfold wrap. replace (v mod 2 ^ 32) with (v + 2 ^ 32) by (apply Z.mod_unique with (-1); lia).
        symmetry. apply Z.mod_unique with (-1); lia. }
      by rewrite Hrun.
    + rewrite wrap_small by lia. rewrite Z.abs_eq in Hrun by lia. by rewrite Hrun.
  - assert (convert junk junk (utype_char t) size (VInt v :: ap) =
      convert_unsigned junk junk size (utype_base t) (utype_alt t) (VInt v :: ap)) as E by (by destruct t).
    simpl. rewrite E. unfold convert_unsigned. simpl.
    assert ((match size with LONG_SIZE => Ret (u32 v, ap) | _ => Ret (u32 v, ap) end) = Ret (u32 v, ap)) as -> by (by destruct size).
    simpl. rewrite wrap_small by done.
    destruct (ulong_to_string_run junk v junk (utype_base t) (utype_alt t)) as (str & -> & _ & Hs);
      [unfold conv_base; destruct t; simpl; lia|lia|unfold LONG_BITS; lia|unfold LONG_BITS; lia|].
    by exists str.
Qed.

Lemma cnv_text_length c : cnv_ok c -> 0 <= lenZ (cnv_text c) < 2 ^ 30.
Proof.
  intros Hc. destruct c as [v|s w| |v|t v]; simpl in *.
  - case_if; unfold lenZ; simpl; lia.
  - unfold lenZ in *. lia.
  - unfold lenZ. simpl. lia.
  - pose proof (num_text_length false 10 (Z.abs v)). unfold dec_text. lia.
  - pose proof (num_text_length (utype_alt t) (utype_base t) v) as H.
    assert (2 <= utype_base t) by (destruct t; simpl; lia). lia.
Qed.

Lemma sign_text c : (if sign_char c =? 0 then [] else [sign_char c]) = cnv_sign c.
Proof. destruct c as [| | |v|]; try done. simpl. by destruct (v <? 0). Qed.

Lemma base_numeric c : (cnv_base c =? 0) = negb (cnv_numeric c).
Proof. by destruct c as [| | | |[]]. Qed.

(** The value [scan_prec] computes. *)
Definition prec_value (p : prc) : Z := default (match p with PStar v => v | _ => -1 end) (prec_of p).

Lemma prec_value_spec p : prc_ok p ->
  match prec_of p with
  | Some v => prec_value p = v /\ 0 <= v < 2 ^ 30
  | None => prec_value p < 0
  end.
Proof.
  unfold prec_value. destruct p as [|n|v]; simpl; [lia|lia|]. case_if; simpl; lia.
Qed.

Lemma width_of_range w : wid_ok w -> 0 <= width_of w < 2 ^ 30.
Proof. destruct w; simpl; lia. Qed.

(** The body of a field, zeroes and characters, as the code and as [render]
    describe it. *)
Lemma body_text (numeric : bool) prec v t :
  (match v with Some v => prec = v /\ 0 <= v < 2 ^ 30 | None => prec < 0 end) -> lenZ t < 2 ^ 30 ->
  let l := if (0 <=? prec) && negb numeric && (prec <? lenZ t) then prec else lenZ t in
  let z := if (0 <=? prec) && numeric && (lenZ t <? prec) then s32 (prec - lenZ t) else 0 in
  0 <= l <= lenZ t /\ 0 <= z < 2 ^ 30 /\ (numeric = false -> z = 0) /\ (v = None -> z = 0) /\
  l + z = lenZ (with_prec numeric v t) /\
  replicate (Z.to_nat z) (chr "0") ++ take (Z.to_nat l) t = with_prec numeric v t.
Proof.
  intros Hv Ht. assert (0 <= lenZ t) by (unfold lenZ; lia).
  assert (take (Z.to_nat (lenZ t)) t = t) as Hall by (apply take_ge; unfold lenZ; lia).
  cbv zeta. destruct v as [v|]; simpl.
  - destruct Hv as [-> Hv]. rewrite (proj2 (Z.leb_le 0 v)) by lia. destruct numeric; simpl.
    + rewrite Hall, lenZ_app, lenZ_replicate.
      destruct (Z.ltb_spec (lenZ t) v).
      * rewrite swrap_small by (change (2 ^ (32 - 1)) with (2 ^ 31); lia). repeat (split; [done || lia|]). done.
      * rewrite (Z2Nat.nonpos (v - lenZ t)) by lia. simpl. repeat (split; [done || lia|]). done.
    + destruct (Z.ltb_spec v (lenZ t)); simpl.
      * rewrite lenZ_take. unfold lenZ in *. repeat (split; [done || lia|]). done.
      * rewrite Hall, take_ge by (unfold lenZ in *; lia). repeat (split; [done || lia|]). done.
  - rewrite (proj2 (Z.leb_gt 0 prec)) by lia. simpl. rewrite Hall. repeat (split; [done || lia|]). done.
Qed.

(** The length computations give the text of [render]. *)
Lemma field_text d l z p :
  wid_ok (d_width d) -> prc_ok (d_prec d) -> cnv_ok (d_conv d) ->
  let c := d_conv d in let prec := prec_value (d_prec d) in
  let pad0 := if left_of d then chr " " else if zero_of d then chr "0" else chr " " in
  let pad := if (0 <=? prec) && negb (cnv_base c =? 0) then chr " " else pad0 in
  lengths (lenZ (cnv_text c)) (cnv_base c) (sign_char c) prec (width_of (d_width d)) pad0 (left_of d) = (l, z, p) ->
  0 <= l <= lenZ (cnv_text c) /\
  (if left_of d then [] else replicate (Z.to_nat p) pad) ++ cnv_sign c ++
    replicate (Z.to_nat z) (chr "0") ++ take (Z.to_nat l) (cnv_text c) ++
    (if left_of d then replicate (Z.to_nat p) pad else []) = render d.
Proof.
  intros Hw Hp Hc. cbv zeta. unfold lengths, render. rewrite base_numeric, negb_involutive, lenZ_app.
  pose proof (cnv_text_length _ Hc) as Hl. pose proof (width_of_range _ Hw) as Hwr.
  pose proof (prec_value_spec _ Hp) as Hpv.
  destruct (body_text (cnv_numeric (d_conv d)) (prec_value (d_prec d)) (prec_of (d_prec d)) (cnv_text (d_conv d)))
    as (Bl & Bz & Bn & Bv & Blen & Btext); [done|lia|].
  assert ((if sign_char (d_conv d) =? 0 then 0 else 1) = lenZ (cnv_sign (d_conv d))) as Es
    by (rewrite <- sign_text; by case_if).
  rewrite Es. set (sg := cnv_sign (d_conv d)) in *.
  assert (0 <= lenZ sg <= 1) as Hsg by (rewrite <- Es; case_if; lia).
  set (l0 := if _ && _ && _ then prec_value _ else _) in *.
  set (z0 := if _ && _ && _ then s32 _ else 0) in *.
  assert (forall x, 0 <= x < 2 ^ 31 + 2 ^ 30 -> x < 2 ^ 31 -> s32 x = x) as Hs32
    by (intros x Hx ?; apply swrap_small; [lia|]; change (2 ^ (32 - 1)) with (2 ^ 31); lia).
  rewrite (Hs32 (l0 + z0)), (Hs32 (l0 + z0 + lenZ sg)) by lia.
  set (body := with_prec _ _ _) in *. set (fmin := width_of _) in *.
  set (pd := if l0 + z0 + lenZ sg <? fmin then _ else 0).
  assert (Z.to_nat pd = Z.to_nat (fmin - (lenZ sg + lenZ body))) as Epd.
  { subst pd. case_if; [rewrite Hs32 by lia|]; lia. }
  rewrite <- Epd. rewrite <- Btext.
  destruct (left_of d); simpl.
  { intros [= <- <- <-]. split; [done|]. rewrite <- !app_assoc. do 3 f_equal. 
    by destruct ((0 <=? prec_value (d_prec d)) && cnv_numeric (d_conv d)). }
  destruct (zero_of d), (cnv_numeric (d_conv d)), (prec_of (d_prec d)) as [v|]; simpl;
    rewrite ?andb_true_r, ?andb_false_r;
    try (destruct Hpv as [-> Hpv]; rewrite (proj2 (Z.leb_le 0 v)) by lia);
    try rewrite (proj2 (Z.leb_gt 0 (prec_value (d_prec d)))) by lia;
    intros [= <- <- <-]; (split; [done|]); simpl; rewrite ?app_nil_r; try done.
  - rewrite Bv by done. done.
  - rewrite Bn by done. done.
  - rewrite Bv by done. done.
Qed.

Section Doprnt.
Context {St : Type} (putc : Z -> M St Z) `{!CharSink putc} (junk : list Z).
Context (Hjunk : lenZ junk = LONG_BITS + 1).

Lemma conversion_run d tl ap :
  wid_ok (d_width d) -> prc_ok (d_prec d) -> cnv_ok (d_conv d) ->
  exists put, conversion putc junk (dir_text d ++ tl) (dir_args d ++ ap) = Ret (ap, Some (tl, put)) /\
    puts putc put (render d).
Proof.
  intros Hw Hp Hc. unfold conversion, dir_text, dir_args. rewrite <- !app_assoc. simpl.
  pose proof (size_starts (d_size d) (d_conv d) tl) as S3.
  pose proof (prc_starts (d_prec d) _ S3) as S2. pose proof (wid_starts _ _ Hw S2) as S1.
  rewrite scan_flags_text by (eapply starts_impl; [|exact S1]; by intros ? (? & ? & ?)).
  simpl. rewrite scan_width_text by done. simpl.
  rewrite scan_prec_text by done. simpl. rewrite scan_size_text. simpl.
  destruct (convert_run junk (d_conv d) (d_size d) ap Hc Hjunk) as (str & -> & Hs). simpl.
  rewrite (strlen_cstr _ _ Hs). simpl.
  change (existsb id (d_flags d) || match d_width d with WStar v => v <? 0 | _ => false end) with (left_of d).
  change (existsb negb (d_flags d)) with (zero_of d). fold (prec_value (d_prec d)).
  destruct (lengths _ _ _ _ _ _ _) as [[l z] p] eqn:El.
  destruct (field_text d l z p Hw Hp Hc El) as [Hl <-].
  eexists. split; [done|]. rewrite <- sign_text. by apply puts_put_field.
Qed.

Lemma conversion_starts d tl : wid_ok (d_width d) -> starts (fun c => c <> chr "%") (dir_text d ++ tl).
Proof.
  intros Hw. unfold dir_text. destruct (d_flags d) as [|b fs].
  - rewrite <- !app_assoc. simpl. eapply starts_impl; [|apply wid_starts; [done|]; apply prc_starts, size_starts].
    by intros ? (? & ? & ?).
  - simpl. eexists _, _. split; [done|]. by destruct b.
Qed.

(** The loop over a format given as items. *)
Lemma doprnt_loop_run items fuel tl ap n w s :
  Forall item_ok items -> (length (concat (item_text <$> items)) < fuel)%nat ->
  room (length (concat (item_out <$> items)) + n) s ->
  _doprnt_loop putc junk fuel (concat (item_text <$> items) ++ 0 :: tl) (concat (item_args <$> items) ++ ap) (s32 w) s =
  Ret (s32 (w + lenZ (concat (item_out <$> items))), emits (concat (item_out <$> items)) s).
Proof.
  revert fuel w s. induction items as [|i items IH]; intros fuel w s Hok Hf Hr.
  - destruct fuel; [simpl in Hf; lia|]. simpl. change (lenZ []) with 0. by rewrite Z.add_0_r.
  - apply Forall_cons in Hok as [Hi Hok]. rewrite !fmap_cons in *. simpl in *.
    rewrite length_app in Hf, Hr. rewrite emits_app, lenZ_app, Z.add_assoc, <- !app_assoc.
    rewrite <- Nat.add_assoc in Hr. destruct fuel as [|fuel]; [lia|].
    assert (forall f, puts putc f (item_out i) -> forall fuel',
      (length (concat (item_text <$> items)) < fuel')%nat ->
      bind (f (s32 w)) (fun o => match o with None => ret EOF
        | Some n => _doprnt_loop putc junk fuel' (concat (item_text <$> items) ++ 0 :: tl)
                      (concat (item_args <$> items) ++ ap) n end) s =
      Ret (s32 (w + lenZ (item_out i) + lenZ (concat (item_out <$> items))),
           emits (concat (item_out <$> items)) (emits (item_out i) s))) as Hstep.
    { intros f Hp fuel' Hf'. destruct (Hp w _ s Hr) as [Hrun Hroom].
      rewrite (bind_Ret _ _ _ _ _ Hrun). by apply IH. }
    destruct i as [c| |d]; simpl in Hi, Hf |- *; rewrite bind_ret_l.
    + destruct Hi as [H0 H1]. rewrite (proj2 (Z.eqb_neq c 0)), (proj2 (Z.eqb_neq c (chr "%"))) by done.
      apply (Hstep (put1 putc c)); [apply puts_put1|lia].
    + change (chr "%" =? 0) with false. change (chr "%" =? chr "%") with true. cbv iota.
      apply (Hstep (put1 putc (chr "%"))); [apply puts_put1|lia].
    + change (chr "%" =? 0) with false. change (chr "%" =? chr "%") with true. cbv iota.
      destruct Hi as (Hw & Hp & Hc).
      destruct (conversion_starts d (concat (item_text <$> items) ++ 0 :: tl) Hw) as (c1 & r & E & Hc1).
      rewrite E. simpl. rewrite bind_ret_l, (proj2 (Z.eqb_neq c1 (chr "%"))) by done. rewrite <- E.
      destruct (conversion_run d (concat (item_text <$> items) ++ 0 :: tl)
        (concat (item_args <$> items) ++ ap) Hw Hp Hc) as (put & -> & Hput).
      apply (Hstep put); [done|lia].
Qed.
End Doprnt.

Lemma doprnt_run {St} (putc : Z -> M St Z) `{!CharSink putc} junk items tl ap s :
  lenZ junk = LONG_BITS + 1 -> Forall item_ok items -> room (length (concat (item_out <$> items))) s ->
  _doprnt putc junk (concat (item_text <$> items) ++ 0 :: tl) (concat (item_args <$> items) ++ ap) s =
  Ret (s32 (lenZ (concat (item_out <$> items))), emits (concat (item_out <$> items)) s).
Proof.
  intros Hj Hok Hr. unfold _doprnt.
  pose proof (doprnt_loop_run putc junk Hj items (length (concat (item_text <$> items) ++ 0 :: tl)) tl ap 0 0 s Hok) as H.
  change (s32 0) with 0 in H. rewrite H; [by rewrite Z.add_0_l| |by rewrite Nat.add_0_r].
  rewrite length_app. simpl. lia.
Qed.

(** ** sprintf *)

#[export] Program Instance sprntf_sink : CharSink sprntf := {|
  room n '(buf, s) := 0 <= s /\ s + Z.of_nat n <= lenZ buf;
  emit c '(buf, s) := (updZ s (u8 c) buf, s + 1)
|}.
Next Obligation.
  intros c n [buf s] [H1 H2]. exists (u8 c). unfold sprntf. rewrite wrc_run by lia.
  pose proof (wrap_range 8 c ltac:(lia)). split; [unfold EOF; lia|]. split; [done|].
  rewrite lenZ_updZ. lia.
Qed.

Lemma sprntf_emits cs pre mid post :
  length mid = length cs ->
  emits (putc := sprntf) cs (pre ++ mid ++ post, lenZ pre) = (pre ++ (u8 <$> cs) ++ post, lenZ pre + lenZ cs).
Proof.
  revert pre mid. induction cs as [|c cs IH]; intros pre [|m mid] Hl; try done.
  - simpl. change (lenZ []) with 0. by rewrite Z.add_0_r.
  - unfold emits in *. simpl.
    assert (updZ (lenZ pre) (u8 c) (pre ++ m :: mid ++ post) = (pre ++ [u8 c]) ++ mid ++ post) as ->.
    { unfold updZ, lenZ. rewrite (proj2 (Z.leb_le 0 _)), Nat2Z.id by lia.
      rewrite insert_app_r_alt, Nat.sub_diag by lia. by rewrite <- app_assoc. }
    assert (lenZ pre + 1 = lenZ (pre ++ [u8 c])) as -> by (by rewrite lenZ_app).
    rewrite IH by (simpl in Hl; lia). rewrite <- app_assoc, lenZ_app. f_equal.
    change (lenZ [u8 c]) with 1. unfold lenZ. simpl. lia.
Qed.

(** ** The claims on formatted output *)

(** C27: Converting a 32-bit number to base 2, 8, 10 or 16 writes a terminated
    string of at most 32 digits whose value in that base is the number, with
    no leading zero unless the number is zero; the shift-and-mask loop and
    the division loop both stay inside the 33 bytes of [temp]. *)
Theorem ulong_to_string_correct junk num str base alt :
  conv_base base -> 0 <= num < 2 ^ 32 -> lenZ junk = LONG_BITS + 1 -> LONG_BITS + 1 <= lenZ str ->
  exists str' ds, ulong_to_string junk num str base alt = Ret str' /\ lenZ str' = lenZ str /\
    cstr str' (digit_char alt <$> ds) /\ Forall (fun d => 0 <= d < base) ds /\
    valof base ds = num /\ (1 <= length ds <= 32)%nat /\
    (0 < num -> exists d l, ds = d :: l /\ d <> 0) /\ (num = 0 -> ds = [0]).
Proof.
  intros Hb Hn Hj Hs. assert (2 <= base <= 16) as Hb' by (unfold conv_base in Hb; lia).
  destruct (ulong_to_string_run junk num str base alt Hb Hn Hj Hs) as (str' & Hrun & Hlen & Hc).
  exists str', (numeral base num). split; [done|]. split; [done|]. split; [done|].
  split; [apply numeral_range; lia|]. split; [apply valof_numeral; lia|].
  split; [apply numeral_length; lia|]. split.
  - intros Hp. destruct (digs_last 32 base num ltac:(lia)) as (l & d & E & Hd).
    + split; [done|]. pose proof (pow_base_32 base ltac:(lia)). lia.
    + unfold numeral. rewrite E, reverse_app. eauto.
  - intros ->. destruct Hb as [-> | [-> | [-> | ->]]]; done.
Qed.

Lemma sprintf_run junk str items tl ap :
  lenZ junk = LONG_BITS + 1 -> Forall item_ok items ->
  let out := concat (item_out <$> items) in
  lenZ out < lenZ str ->
  sprintf junk str (concat (item_text <$> items) ++ 0 :: tl) (concat (item_args <$> items) ++ ap) =
  Ret (lenZ out, (u8 <$> out) ++ 0 :: drop (length out + 1) str).
Proof.
  intros Hj Hok out Hlen. unfold sprintf.
  assert (length out < length str)%nat as Hl by (unfold lenZ in Hlen; lia).
  rewrite (doprnt_run sprntf); [|done|done|split; [lia|fold out; unfold lenZ in *; lia]]. fold out.
  rewrite <- (take_drop (length out) str) at 1.
  pose proof (sprntf_emits out [] (take (length out) str) (drop (length out) str)) as He.
  change (lenZ []) with 0 in He. rewrite !app_nil_l, Z.add_0_l in He. unfold obind at 1.
  rewrite He by (rewrite length_take; lia).
  assert (drop (length out) str = default 0 (str !! length out) :: drop (length out + 1) str) as ->.
  { destruct (lookup_lt_is_Some_2 str (length out) Hl) as [x Hx]. rewrite Hx. simpl.
    rewrite Nat.add_1_r. by apply drop_S. }
  rewrite wrc_run.
  - simpl. do 2 f_equal. unfold updZ, lenZ. rewrite (proj2 (Z.leb_le 0 _)), Nat2Z.id by lia.
    rewrite insert_app_r_alt by (by rewrite length_fmap). rewrite length_fmap, Nat.sub_diag. done.
  - rewrite lenZ_app. unfold lenZ. rewrite length_fmap, length_cons. lia.
Qed.

(** C26: [sprintf] of a format made of characters, "%%" and conversion
    specifications, with arguments of the types these ask for, writes exactly
    the concatenation of their meanings: the sign and the digits of the
    number or the characters of the string, cut or extended to the precision,
    in a field of the given width, justified and padded as the flags say.  It
    terminates the text, changes nothing behind it, and returns its length. *)
Theorem sprintf_renders junk str items tl ap :
  lenZ junk = LONG_BITS + 1 -> Forall item_ok items ->
  let out := concat (item_out <$> items) in
  lenZ out < lenZ str ->
  sprintf junk str (concat (item_text <$> items) ++ 0 :: tl) (concat (item_args <$> items) ++ ap) =
  Ret (lenZ out, (u8 <$> out) ++ 0 :: drop (length out + 1) str).
Proof. apply sprintf_run. Qed.

(** The field width: a directive never produces less than its width, and
    exactly its width when sign, digits and precision leave room. *)
Theorem render_width d :
  width_of (d_width d) <= lenZ (render d) /\
  lenZ (render d) = Z.max (width_of (d_width d)) (lenZ (cnv_sign (d_conv d)) +
    lenZ (with_prec (cnv_numeric (d_conv d)) (prec_of (d_prec d)) (cnv_text (d_conv d)))).
Proof.
  unfold render. set (t := with_prec _ _ _). set (sg := cnv_sign _).
  assert (0 <= lenZ t /\ 0 <= lenZ sg) by (unfold lenZ; lia).
  repeat case_if; rewrite ?lenZ_app, ?lenZ_replicate, ?lenZ_app; lia.
Qed.
