(* ===== verification/Kio.v ===== *)
(** * Serial console (system/kprintf.c)

    Characters go out through the data register of the PL011 UART and come in
    from what it has received.  The transmitter drains by itself, so that the
    wait of [kputc] for room always ends; [kgetc] with nothing received waits
    for a character that does not come and is a [Deadlock]. *)

From Stdlib Require Import Ascii String.
From stdpp Require Import base numbers list gmap.
From S2P Require Import Prelude Kernel Spinlock CString Doprnt.

(** ** Definitions *)

Definition UNGETMAX : Z := 10.
(** The data register at offset 0 of the UART's registers. *)
Definition UART_DR : Z := 0x3F201000.

Definition kgetc : K Z :=
  b <-- rd_devs bufp ;;
  if 0 <? b then
    upd_devs (set_bufp (u32 (b - 1))) ;;;
    buf <-- rd_devs ungetArray ;;
    pure (rdi buf (u32 (b - 1)))
  else
    rx <-- rd_devs uart_rx ;;
    match rx with
    | [] => failwith Deadlock
    | c :: rx' => upd_devs (fun d => set_mmio (Rd UART_DR c :: mmio d) (set_uart_rx rx' d)) ;;; ret c
    end.

Definition kcheckc : K Z :=
  b <-- rd_devs bufp ;;
  rx <-- rd_devs uart_rx ;;
  ret (if (b <=? 0) && (match rx with [] => true | _ => false end) then 0 else 1).

Definition kungetc (c : Z) : K Z :=
  b <-- rd_devs bufp ;;
  if b <? UNGETMAX then
    buf <-- rd_devs ungetArray ;;
    buf' <-- pure (wrc buf b (u8 c)) ;;
    upd_devs (fun d => set_bufp (u32 (b + 1)) (set_ungetArray buf' d)) ;;;
    ret (u8 c)
  else ret SYSERR.

Definition kputc (c : Z) : K Z := put32 UART_DR (u8 c) ;;; ret (u8 c).

(** Uninitialised automatic storage: what the buffers of [_doprnt] hold. *)
Class Uninit := {
  uninit : list Z;
  uninit_length : lenZ uninit = LONG_BITS + 1
}.

Definition kprintf `{Uninit} (cpu : Z) (format : list Z) (ap : list varg) : K Z :=
  sl <-- rd_devs serial_lock ;;
  lock_acquire cpu sl ;;;
  retval <-- _doprnt kputc uninit format ap ;;
  sl <-- rd_devs serial_lock ;;
  lock_release sl ;;;
  ret retval.

(** ** The console as a character sink *)

Definition console_out (cs : list Z) (k : kernel) : kernel :=
  set_devs (set_mmio (reverse ((fun c => Wr UART_DR (u8 c)) <$> cs) ++ mmio (devs k)) (devs k)) k.

#[export] Program Instance kputc_sink : CharSink kputc := {|
  room _ _ := True;
  emit c k := console_out [c] k
|}.
Next Obligation.
  intros c n k _. exists (u8 c). pose proof (wrap_range 8 c ltac:(lia)). by split; [unfold EOF; lia|].
Qed.

Lemma console_emits cs k : emits (putc := kputc) cs k = console_out cs k.
Proof.
  unfold emits. revert k. induction cs as [|c cs IH]; intros k; simpl.
  - unfold console_out. by destruct k as [? ? ? ? ? ? ? ? ? ? ? ? ? ? ? ? ? ? ? ? []].
  - rewrite IH. unfold console_out. simpl. rewrite reverse_cons. by rewrite <- app_assoc.
Qed.

(** A format of the kernel's that means [out]. *)
Definition formats (format : list Z) (ap : list varg) (out : list Z) : Prop :=
  exists items tl ap', Forall item_ok items /\
    format = concat (item_text <$> items) ++ 0 :: tl /\ ap = concat (item_args <$> items) ++ ap' /\
    out = concat (item_out <$> items).

Lemma kprintf_run `{Uninit} cpu k format ap out :
  0 <= serial_lock (devs k) < NLOCK -> at_rest k (serial_lock (devs k)) -> formats format ap out ->
  kprintf cpu format ap k = Ret (s32 (lenZ out), console_out out k).
Proof.
  intros Hl Hr (items & tl & ap' & Hok & -> & -> & ->). unfold kprintf, rd_devs.
  rewrite bind_gets, bind_acquire by done.
  rewrite (bind_Ret _ _ _ _ _ (@doprnt_run _ kputc kputc_sink uninit items tl ap' _ uninit_length Hok I)).
  rewrite console_emits, bind_gets. simpl.
  rewrite (bind_release cpu); [|done|simpl; apply nthZ_updZ_eq; by eapply nthZ_Some_lt].
  simpl. by rewrite release_acquire_tab.
Qed.

(** ** Claims *)

(** The characters [kgetc] will deliver: those put back, latest first, then
    those received. *)
Definition pending_in (k : kernel) : list Z :=
  reverse (take (Z.to_nat (bufp (devs k))) (ungetArray (devs k))) ++ uart_rx (devs k).

(** The array and its index. *)
Definition unget_ok (k : kernel) : Prop :=
  lenZ (ungetArray (devs k)) = UNGETMAX /\ 0 <= bufp (devs k) <= UNGETMAX.

(** The input side is a stream with push-back.  [kgetc] returns the next
    character and removes it; [kungetc] puts a character in front of the
    stream while fewer than ten are put back and otherwise returns [SYSERR]
    and changes nothing; [kcheckc] tells whether the stream is empty; the
    index stays inside the array. *)
Theorem console_stream k c :
  unget_ok k ->
  (match pending_in k with
   | [] => kgetc k = Fault Deadlock
   | x :: l => exists k', kgetc k = Ret (x, k') /\ pending_in k' = l /\ unget_ok k'
   end) /\
  (if bufp (devs k) <? UNGETMAX
   then exists k', kungetc c k = Ret (u8 c, k') /\ pending_in k' = u8 c :: pending_in k /\ unget_ok k'
   else kungetc c k = Ret (SYSERR, k)) /\
  kcheckc k = Ret (if bool_decide (pending_in k = []) then 0 else 1, k).
Proof.
  intros [Hlen Hb]. unfold pending_in, unget_ok, UNGETMAX in *.
  set (b := bufp (devs k)) in *. set (buf := ungetArray (devs k)) in *.
  assert (forall i, 0 <= i < 10 -> exists x, nthZ buf i = Some x /\ buf !! Z.to_nat i = Some x) as Hat.
  { intros i Hi. destruct (nthZ_lt_Some buf i) as [x Hx]; [lia|]. exists x. split; [done|].
    unfold nthZ in Hx. by rewrite (proj2 (Z.leb_le 0 i)) in Hx by lia. }
  split; [|split].
  - unfold kgetc, rd_devs. rewrite bind_gets. fold b. destruct (Z.ltb_spec 0 b).
    + destruct (Hat (b - 1)) as (x & Hx & Hx'); [lia|].
      replace (Z.to_nat b) with (S (Z.to_nat (b - 1))) by lia.
      rewrite (take_S_r _ _ _ Hx'), reverse_app. simpl.
      unfold upd_devs. rewrite bind_modify, bind_gets. simpl. fold buf.
      rewrite wrap_small by lia. unfold rdi. rewrite Hx. eexists. split; [done|]. simpl.
      split; [done|]. split; [done|]. lia.
    + assert (b = 0) as Eb by lia. rewrite Eb. simpl. rewrite bind_gets.
      destruct (uart_rx (devs k)) as [|x l]; [done|]. eexists. split; [done|]. simpl. fold buf b.
      rewrite Eb. split; [done|]. split; [done|lia].
  - unfold kungetc, rd_devs. rewrite bind_gets. fold b. unfold UNGETMAX. case_if; [|done].
    rewrite bind_gets. fold buf. rewrite wrc_run by lia.
    eexists. split; [done|]. simpl. rewrite wrap_small by lia. rewrite lenZ_updZ. split; [|split; [done|lia]].
    replace (Z.to_nat (b + 1)) with (S (Z.to_nat b)) by lia.
    unfold updZ. rewrite (proj2 (Z.leb_le 0 b)) by lia.
    rewrite (take_S_r _ _ (u8 c)) by (apply list_lookup_insert_eq; unfold lenZ in Hlen; lia).
    rewrite take_insert_ge by lia. by rewrite reverse_app.
  - unfold kcheckc, rd_devs. rewrite !bind_gets. fold b. unfold ret. do 2 f_equal.
    destruct (Z.leb_spec b 0); simpl.
    + replace b with 0 by lia. simpl. by destruct (uart_rx (devs k)).
    + rewrite bool_decide_false; [done|]. intros E%app_eq_nil. destruct E as [E _].
      apply (f_equal length) in E. rewrite length_reverse, length_take in E. unfold lenZ in Hlen.
      simpl in E. lia.
Qed.
