(* ===== verification/Qsort.v ===== *)
(** * Sorting (lib/libxc/qsort.c)

    The array is a buffer of bytes and a pointer is an offset into it.  The
    comparison callback is given the bytes of the two elements it is passed
    pointers to.  The buffer is described as the concatenation of its
    elements; the byte-wise swaps, the partition and the recursion are proved
    to act on that list. *)

From Stdlib Require Import Sorting.Sorted.
From stdpp Require Import base numbers list.
From S2P Require Import Prelude.

(** ** Definitions *)

Abbreviation B := (M (list Z)).

Definition rdb (p : Z) : B Z := fun b => must (nthZ b p) b.
Definition wrb (p v : Z) : B unit := rdb p ;;; modify (updZ p v).

(** The loop of [swap_elements] from byte [i] on. *)
Fixpoint swap_loop (n : nat) (p1 p2 i : Z) : B unit :=
  match n with
  | O => ret tt
  | S n' =>
      tmp <-- rdb (p1 + i) ;;
      v <-- rdb (p2 + i) ;;
      wrb (p1 + i) v ;;;
      wrb (p2 + i) tmp ;;;
      swap_loop n' p1 p2 (i + 1)
  end.

Definition swap_elements (p1 p2 size : Z) : B unit := swap_loop (Z.to_nat size) p1 p2 0.

(** The element at [p], as the callback sees it. *)
Definition element (p size : Z) : B (list Z) := fun b =>
  if (0 <=? p) && (p + size <=? lenZ b)
  then Ret (take (Z.to_nat size) (drop (Z.to_nat p) b), b)
  else Fault OutOfBounds.

Section Qsort.
Context (compar : list Z -> list Z -> Z).

(** do { ... } while (p1 != p2); the results are [p1] and [p1_index]. *)
Fixpoint partition_loop (fuel : nat) (base size p1 p2 p1_index : Z) : B (Z * Z) :=
  match fuel with
  | O => failwith OutOfFuel
  | S fuel' =>
      a <-- element p1 size ;;
      b <-- element base size ;;
      '(p1, p2, p1_index) <--
        (if compar a b <=? 0 then ret (p1 + size, p2, p1_index + 1)
         else
           let p2 := p2 - size in
           swap_elements p1 p2 size ;;;
           ret (p1, p2, p1_index)) ;;
      if p1 =? p2 then ret (p1, p1_index) else partition_loop fuel' base size p1 p2 p1_index
  end.

Definition partition (base nmemb size : Z) : B Z :=
  '(p1, p1_index) <-- partition_loop (Z.to_nat nmemb) base size (base + size) (base + nmemb * size) 1 ;;
  let p1 := p1 - size in
  let p1_index := p1_index - 1 in
  swap_elements p1 base size ;;;
  ret p1_index.

(** The depth of the recursion is at most the number of elements. *)
Fixpoint qsort_rec (fuel : nat) (base nmemb size : Z) : B unit :=
  match fuel with
  | O => failwith OutOfFuel
  | S fuel' =>
      if 1 <? nmemb then
        pivot_index <-- partition base nmemb size ;;
        qsort_rec fuel' base pivot_index size ;;;
        qsort_rec fuel' (base + (pivot_index + 1) * size) (nmemb - (pivot_index + 1)) size
      else ret tt
  end.

Definition qsort (base nmemb size : Z) : B unit := qsort_rec (S (Z.to_nat nmemb)) base nmemb size.
End Qsort.

(** ** Buffers cut into pieces *)

(** Equality of concatenations up to associativity. *)
Ltac lz := rewrite ?lenZ_app, ?lenZ_cons; change (lenZ (@nil Z)) with 0; change (lenZ (@nil (list Z))) with 0; unfold lenZ; lia.
Ltac assoc := repeat (rewrite <- app_assoc; simpl); reflexivity.

Lemma rdb_mid l1 x l2 p : p = lenZ l1 -> rdb p (l1 ++ x :: l2) = Ret (x, l1 ++ x :: l2).
Proof. intros ->. unfold rdb. by rewrite nthZ_app_mid. Qed.

Lemma wrb_mid l1 x y l2 p : p = lenZ l1 -> wrb p y (l1 ++ x :: l2) = Ret (tt, l1 ++ y :: l2).
Proof.
  intros ->. unfold wrb, rdb, bind. rewrite nthZ_app_mid. unfold must, modify, ret. by rewrite updZ_app_mid.
Qed.

Lemma element_mid l1 x l2 p size :
  p = lenZ l1 -> size = lenZ x -> element p size (l1 ++ x ++ l2) = Ret (x, l1 ++ x ++ l2).
Proof.
  intros -> ->. unfold element, lenZ. rewrite !length_app.
  rewrite (proj2 (Z.leb_le 0 _)), (proj2 (Z.leb_le _ _)) by lia. simpl.
  by rewrite !Nat2Z.id, drop_app_length, take_app_length.
Qed.

(** Swapping two pieces of the same length. *)
Lemma swap_loop_run n : forall a x1 x2 m y1 y2 c p1 p2 i,
  length x2 = n -> length y2 = n -> length x1 = length y1 -> i = lenZ x1 ->
  p1 = lenZ a -> p2 = lenZ a + lenZ x1 + lenZ x2 + lenZ m ->
  swap_loop n p1 p2 i (a ++ y1 ++ x2 ++ m ++ x1 ++ y2 ++ c) =
  Ret (tt, a ++ y1 ++ y2 ++ m ++ x1 ++ x2 ++ c) /\
  swap_loop n p2 p1 i (a ++ y1 ++ x2 ++ m ++ x1 ++ y2 ++ c) =
  Ret (tt, a ++ y1 ++ y2 ++ m ++ x1 ++ x2 ++ c).
Proof.
  induction n as [|n IH]; intros a x1 x2 m y1 y2 c p1 p2 i Hx Hy Hl Hi H1 H2.
  { destruct x2, y2; done. }
  destruct x2 as [|x x2], y2 as [|y y2]; try done. simpl in Hx, Hy.
  set (L1 := a ++ y1). set (L2 := x2 ++ m ++ x1). set (R := y2 ++ c).
  assert (a ++ y1 ++ (x :: x2) ++ m ++ x1 ++ (y :: y2) ++ c = L1 ++ x :: (L2 ++ y :: R)) as E
    by (unfold L1, L2, R; assoc).
  assert (forall u, L1 ++ u :: (L2 ++ y :: R) = (L1 ++ u :: L2) ++ y :: R) as E2
    by (intros; by rewrite <- app_assoc).
  assert (p1 + i = lenZ L1) as P1 by (unfold L1, lenZ in *; rewrite length_app; lia).
  assert (forall u, p2 + i = lenZ (L1 ++ u :: L2)) as P2
    by (intros; unfold L1, L2, lenZ in *; repeat (rewrite length_app || simpl length in * ); lia).
  assert ((L1 ++ y :: L2) ++ x :: R = a ++ (y1 ++ [y]) ++ x2 ++ m ++ (x1 ++ [x]) ++ y2 ++ c) as E3
    by (unfold L1, L2, R; assoc).
  destruct (IH a (x1 ++ [x]) x2 m (y1 ++ [y]) y2 c p1 p2 (i + 1)) as [R1 R2];
    [lia|lia|by rewrite !length_app, Hl|rewrite lenZ_app; unfold lenZ in *; simpl; lia|done| |].
  { unfold lenZ in *. rewrite length_app. simpl in *. lia. }
  assert (a ++ y1 ++ (y :: y2) ++ m ++ x1 ++ (x :: x2) ++ c =
          a ++ (y1 ++ [y]) ++ y2 ++ m ++ (x1 ++ [x]) ++ x2 ++ c) as -> by assoc.
  rewrite E. simpl. split.
  - rewrite (bind_Ret _ _ _ _ _ (rdb_mid L1 x _ _ P1)), E2.
    rewrite (bind_Ret _ _ _ _ _ (rdb_mid _ y R _ (P2 x))), <- E2.
    rewrite (bind_Ret _ _ _ _ _ (wrb_mid L1 x y _ _ P1)), E2.
    rewrite (bind_Ret _ _ _ _ _ (wrb_mid _ y x R _ (P2 y))), E3. exact R1.
  - rewrite E2, (bind_Ret _ _ _ _ _ (rdb_mid _ y R _ (P2 x))), <- E2.
    rewrite (bind_Ret _ _ _ _ _ (rdb_mid L1 x _ _ P1)), E2.
    rewrite (bind_Ret _ _ _ _ _ (wrb_mid _ y x R _ (P2 x))).
    rewrite <- app_assoc. simpl. rewrite (bind_Ret _ _ _ _ _ (wrb_mid L1 x y _ _ P1)).
    replace (L1 ++ y :: L2 ++ x :: R) with ((L1 ++ y :: L2) ++ x :: R) by by rewrite <- app_assoc.
    rewrite E3. exact R2.
Qed.

(** Swapping a piece with itself. *)
Lemma swap_loop_self n : forall p i b, 0 <= p + i -> p + i + Z.of_nat n <= lenZ b ->
  swap_loop n p p i b = Ret (tt, b).
Proof.
  induction n as [|n IH]; intros p i b H1 H2; [done|]. simpl.
  destruct (nthZ_lt_Some b (p + i)) as [v Hv]; [lia|].
  assert (rdb (p + i) b = Ret (v, b)) as Hr by (unfold rdb; by rewrite Hv).
  assert (wrb (p + i) v b = Ret (tt, b)) as Hw
    by (unfold wrb, rdb, bind; rewrite Hv; unfold must, modify, ret; by rewrite updZ_id).
  rewrite !(bind_Ret _ _ _ _ _ Hr), !(bind_Ret _ _ _ _ _ Hw). apply IH; lia.
Qed.

(** ** Arrays of elements *)

Section Correct.
Context (compar : list Z -> list Z -> Z) (size : Z) (pre post : list Z).
Context (Hsize : 0 < size).

Definition sized (xs : list (list Z)) : Prop := Forall (fun x => lenZ x = size) xs.
(** The buffer that holds the elements [xs] between [pre] and [post]. *)
Definition holding (xs : list (list Z)) : list Z := pre ++ concat xs ++ post.
(** The address of element [i]. *)
Definition at_index (i : Z) : Z := lenZ pre + i * size.

Lemma at_index_0 : at_index 0 = lenZ pre.
Proof. unfold at_index. lia. Qed.

Lemma lenZ_concat xs : sized xs -> lenZ (concat xs) = lenZ xs * size.
Proof.
  induction 1 as [|x xs Hx _ IH]; [done|]. simpl. rewrite lenZ_app, IH, Hx. unfold lenZ. simpl length. lia.
Qed.

Lemma holding_split l1 x l2 : holding (l1 ++ x :: l2) = (pre ++ concat l1) ++ x ++ (concat l2 ++ post).
Proof. unfold holding. rewrite concat_app. simpl. assoc. Qed.

Lemma at_index_split l1 : sized l1 -> at_index (lenZ l1) = lenZ (pre ++ concat l1).
Proof. intros H. unfold at_index. by rewrite lenZ_app, lenZ_concat. Qed.

Lemma element_run l1 x l2 i : sized (l1 ++ x :: l2) -> i = lenZ l1 ->
  element (at_index i) size (holding (l1 ++ x :: l2)) = Ret (x, holding (l1 ++ x :: l2)).
Proof.
  intros [H1 [Hx _]%Forall_cons]%Forall_app ->. rewrite holding_split. apply element_mid; [|done].
  by apply at_index_split.
Qed.

Lemma swap_run l1 x l2 y l3 i j : sized (l1 ++ x :: l2 ++ y :: l3) ->
  i = lenZ l1 -> j = lenZ l1 + 1 + lenZ l2 ->
  swap_elements (at_index i) (at_index j) size (holding (l1 ++ x :: l2 ++ y :: l3)) =
    Ret (tt, holding (l1 ++ y :: l2 ++ x :: l3)) /\
  swap_elements (at_index j) (at_index i) size (holding (l1 ++ x :: l2 ++ y :: l3)) =
    Ret (tt, holding (l1 ++ y :: l2 ++ x :: l3)).
Proof.
  intros Hs -> ->. apply Forall_app in Hs as [H1 [Hx [H2 [Hy H3]%Forall_cons]%Forall_app]%Forall_cons].
  unfold swap_elements, holding. rewrite !concat_app. simpl. rewrite !concat_app. simpl.
  destruct (swap_loop_run (Z.to_nat size) (pre ++ concat l1) [] x (concat l2) [] y (concat l3 ++ post)
    (at_index (lenZ l1)) (at_index (lenZ l1 + 1 + lenZ l2)) 0) as [R1 R2];
    [unfold lenZ in *; lia|unfold lenZ in *; lia|done|done|by apply at_index_split|..].
  { rewrite <- at_index_split, lenZ_concat by done. unfold at_index. rewrite Hx.
    change (lenZ (@nil Z)) with 0. lia. }
  simpl in R1, R2. rewrite <- !app_assoc in *. split; [exact R1|exact R2].
Qed.

Lemma swap_self l1 x l2 i : sized (l1 ++ x :: l2) -> i = lenZ l1 ->
  swap_elements (at_index i) (at_index i) size (holding (l1 ++ x :: l2)) = Ret (tt, holding (l1 ++ x :: l2)).
Proof.
  intros [H1 [Hx _]%Forall_cons]%Forall_app ->. unfold swap_elements. rewrite holding_split.
  apply swap_loop_self; rewrite at_index_split by done; [unfold lenZ; lia|].
  unfold lenZ in *. rewrite !length_app. lia.
Qed.

(** Swapping the first with the last element of a part. *)
Lemma swap_ends l1 x l2 l3 i j : sized (l1 ++ (x :: l2) ++ l3) -> i = lenZ l1 -> j = lenZ l1 + lenZ l2 ->
  exists l2', swap_elements (at_index i) (at_index j) size (holding (l1 ++ (x :: l2) ++ l3)) =
    Ret (tt, holding (l1 ++ l2' ++ x :: l3)) /\ l2' ≡ₚ l2.
Proof.
  intros Hs -> ->. destruct l2 as [|y l2' _] using rev_ind.
  - exists []. simpl in *. split; [|done]. unfold lenZ at 2. simpl. rewrite Z.add_0_r. by apply swap_self.
  - exists (y :: l2'). split; [|by rewrite Permutation_app_comm].
    destruct (swap_run l1 x l2' y l3 (lenZ l1) (lenZ l1 + lenZ (l2' ++ [y]))) as [R _];
      [|done|rewrite lenZ_app; lz|].
    + simpl in Hs. by rewrite <- app_assoc in Hs.
    + simpl. rewrite <- app_assoc. exact R.
Qed.

Abbreviation below pv := (fun x => compar x pv <= 0).
Abbreviation above pv := (fun x => ~ compar x pv <= 0).

Lemma partition_loop_run pv fuel : forall le mid gt,
  (length mid <= fuel)%nat -> mid <> [] -> sized (pv :: le ++ mid ++ gt) ->
  Forall (below pv) le -> Forall (above pv) gt ->
  exists le' gt',
    partition_loop compar fuel (lenZ pre) size (at_index (1 + lenZ le)) (at_index (1 + lenZ le + lenZ mid))
      (1 + lenZ le) (holding (pv :: le ++ mid ++ gt)) =
    Ret ((at_index (1 + lenZ le'), 1 + lenZ le'), holding (pv :: le' ++ gt')) /\
    le' ++ gt' ≡ₚ le ++ mid ++ gt /\ Forall (below pv) le' /\ Forall (above pv) gt'.
Proof.
  induction fuel as [|fuel IH]; intros le mid gt Hf Hne Hs Hle Hgt; [destruct mid; simpl in Hf; [done|lia]|].
  destruct mid as [|x mid]; [done|]. simpl in Hf. clear Hne. simpl partition_loop.
  rewrite (bind_Ret _ _ _ _ _ (element_run (pv :: le) x (mid ++ gt) (1 + lenZ le) Hs ltac:(lz))).
  pose proof (element_run [] pv (le ++ (x :: mid) ++ gt) 0 Hs ltac:(done)) as He. rewrite at_index_0 in He.
  rewrite (bind_Ret _ _ _ _ _ He).
  assert (forall a b, at_index a = at_index b <-> a = b) as Hinj by (unfold at_index; intros; nia).
  destruct (Z.leb_spec (compar x pv) 0) as [Hc|Hc].
  - rewrite bind_ret_l. assert (lenZ (le ++ [x]) = lenZ le + 1) as El by (rewrite lenZ_app; done).
    assert (at_index (1 + lenZ le) + size = at_index (1 + lenZ (le ++ [x]))) as -> by (rewrite El; unfold at_index; lia).
    assert (at_index (1 + lenZ le + lenZ (x :: mid)) = at_index (1 + lenZ (le ++ [x]) + lenZ mid)) as ->
      by (rewrite El; f_equal; lz).
    replace (1 + lenZ le + 1) with (1 + lenZ (le ++ [x])) by lia.
    assert (pv :: le ++ (x :: mid) ++ gt = pv :: (le ++ [x]) ++ mid ++ gt) as Em by assoc. rewrite Em in *.
    assert (Forall (below pv) (le ++ [x])) as Hle' by (apply Forall_app; split; [done|by constructor]).
    destruct mid as [|y mid].
    + rewrite (proj2 (Z.eqb_eq _ _)) by (apply Hinj; lz).
      exists (le ++ [x]), gt. split; [done|]. split; [by rewrite <- app_assoc|done].
    + rewrite (proj2 (Z.eqb_neq _ _)) by (rewrite Hinj; lz).
      destruct (IH (le ++ [x]) (y :: mid) gt) as (le' & gt' & R & P & ?); [simpl in *; lia|done|done|done|done|].
      exists le', gt'. split; [exact R|]. split; [by rewrite P, <- app_assoc|done].
  - destruct (swap_ends (pv :: le) x mid gt (1 + lenZ le) (1 + lenZ le + lenZ mid)) as (mid' & Hsw & Hp);
      [exact Hs|lz|lz|].
    assert (at_index (1 + lenZ le + lenZ (x :: mid)) - size = at_index (1 + lenZ le + lenZ mid)) as ->
      by (unfold at_index, lenZ; simpl length; lia).
    rewrite bind_assoc, (bind_Ret _ _ _ _ _ Hsw), bind_ret_l.
    assert (length mid' = length mid) as El by by rewrite Hp. replace (lenZ mid) with (lenZ mid') by (unfold lenZ; lia).
    assert (Forall (above pv) (x :: gt)) as Hgt' by (constructor; [lia|done]).
    assert (le ++ mid' ++ x :: gt ≡ₚ le ++ (x :: mid) ++ gt) as Hp2.
    { f_equiv. simpl. by rewrite <- Permutation_middle, Hp. }
    assert (sized (pv :: le ++ mid' ++ x :: gt)) as Hs' by (unfold sized; by rewrite Hp2).
    destruct mid' as [|y mid'].
    + rewrite (proj2 (Z.eqb_eq _ _)) by (apply Hinj; lz).
      exists le, (x :: gt). split; [done|]. split; [|done]. by rewrite <- Hp2.
    + rewrite (proj2 (Z.eqb_neq _ _)) by (rewrite Hinj; lz).
      destruct (IH le (y :: mid') (x :: gt)) as (le' & gt' & R & P & ?); [simpl in *; lia|done|done|done|done|].
      exists le', gt'. split; [exact R|]. split; [|done]. by rewrite P.
Qed.

(** The pivot ends up between the elements not above it and those above. *)
Lemma partition_run xs : sized xs -> (2 <= length xs)%nat ->
  exists le pv gt,
    partition compar (lenZ pre) (lenZ xs) size (holding xs) = Ret (lenZ le, holding (le ++ pv :: gt)) /\
    le ++ pv :: gt ≡ₚ xs /\ Forall (below pv) le /\ Forall (above pv) gt.
Proof.
  intros Hs Hl. destruct xs as [|pv mid]; [simpl in Hl; lia|].
  destruct (partition_loop_run pv (Z.to_nat (lenZ (pv :: mid))) [] mid []) as (le & gt & R & P & Hle & Hgt);
    [unfold lenZ; simpl length; lia|by destruct mid; [simpl in Hl; lia|]|by rewrite app_nil_l, app_nil_r|done|done|].
  rewrite app_nil_l, app_nil_r in *.
  assert (sized (pv :: le ++ gt)) as Hs' by (unfold sized; by rewrite P).
  unfold partition.
  replace (lenZ pre + size) with (at_index (1 + lenZ (@nil (list Z)))) by (unfold at_index; lz).
  replace (lenZ pre + lenZ (pv :: mid) * size) with (at_index (1 + lenZ (@nil (list Z)) + lenZ mid))
    by (unfold at_index; rewrite lenZ_cons; change (lenZ (@nil (list Z))) with 0; lia).
  change (partition_loop compar (Z.to_nat (lenZ (pv :: mid))) (lenZ pre) size
    (at_index (1 + lenZ (@nil (list Z)))) (at_index (1 + lenZ (@nil (list Z)) + lenZ mid)) 1)
    with (partition_loop compar (Z.to_nat (lenZ (pv :: mid))) (lenZ pre) size
    (at_index (1 + lenZ (@nil (list Z)))) (at_index (1 + lenZ (@nil (list Z)) + lenZ mid)) (1 + lenZ (@nil (list Z)))).
  rewrite (bind_Ret _ _ _ _ _ R).
  replace (at_index (1 + lenZ le) - size) with (at_index (lenZ le)) by (unfold at_index; lia).
  rewrite <- at_index_0. destruct le as [|z le _] using rev_ind.
  - change (lenZ (@nil (list Z))) with 0. rewrite (bind_Ret _ _ _ _ _ (swap_self [] pv gt 0 Hs' eq_refl)).
    exists [], pv, gt. split; [done|]. split; [by rewrite <- P|done].
  - assert (pv :: (le ++ [z]) ++ gt = pv :: le ++ z :: gt) as E by assoc. rewrite E in *.
    destruct (swap_run [] pv le z gt 0 (lenZ (le ++ [z])) Hs') as [_ R2]; [done|lz|].
    simpl app in R2. rewrite (bind_Ret _ _ _ _ _ R2). exists (z :: le), pv, gt. split; [|split; [|split; [|done]]].
    + unfold ret. do 2 f_equal. lz.
    + rewrite <- P, <- app_assoc. simpl. by rewrite <- !Permutation_middle, Permutation_swap.
    + apply Forall_app in Hle as [? [? _]%Forall_cons]. by constructor.
Qed.
End Correct.

(** ** Quicksort *)

Section Sorts.
Context (compar : list Z -> list Z -> Z) (size : Z) (Hsize : 0 < size).
Abbreviation leq := (fun x y => compar x y <= 0).
(** The callback is a total preorder on elements of this size. *)
Context (Htotal : forall x y, lenZ x = size -> lenZ y = size -> ~ compar x y <= 0 -> compar y x <= 0).
Context (Htrans : forall x y z, lenZ x = size -> lenZ y = size -> lenZ z = size ->
  compar x y <= 0 -> compar y z <= 0 -> compar x z <= 0).

Lemma sorted_join le pv gt : sized size (le ++ pv :: gt) ->
  StronglySorted leq le -> StronglySorted leq gt ->
  Forall (fun x => compar x pv <= 0) le -> Forall (fun x => ~ compar x pv <= 0) gt ->
  StronglySorted leq (le ++ pv :: gt).
Proof.
  intros [S1 [Sp S2]%Forall_cons]%Forall_app Hl Hg Hle Hgt.
  assert (Forall (leq pv) gt) as Hpg.
  { rewrite Forall_forall in *. intros y Hy. apply Htotal; auto. }
  induction Hl as [|x le Hl IH Hx]; simpl; [by constructor|].
  apply Forall_cons in S1 as [Sx S1], Hle as [Hxp Hle]. constructor; [by apply IH|].
  apply Forall_app. split; [done|]. constructor; [done|]. rewrite Forall_forall in *.
  intros y Hy. apply (Htrans x pv y); auto.
Qed.

Lemma qsort_rec_run fuel : forall pre post xs, sized size xs -> (length xs <= fuel)%nat ->
  exists ys, qsort_rec compar (S fuel) (lenZ pre) (lenZ xs) size (holding pre post xs) =
    Ret (tt, holding pre post ys) /\ ys ≡ₚ xs /\ StronglySorted leq ys.
Proof.
  induction fuel as [|fuel IH]; intros pre post xs Hs Hf.
  { destruct xs; [|simpl in Hf; lia]. exists []. split; [done|]. split; [done|constructor]. }
  change (qsort_rec compar (S (S fuel))) with (fun base nmemb size =>
    if 1 <? nmemb then
      pivot_index <-- partition compar base nmemb size ;;
      qsort_rec compar (S fuel) base pivot_index size ;;;
      qsort_rec compar (S fuel) (base + (pivot_index + 1) * size) (nmemb - (pivot_index + 1)) size
    else ret tt). cbv beta.
  destruct (Z.ltb_spec 1 (lenZ xs)) as [Hl|Hl].
  2:{ exists xs. split; [done|]. split; [done|]. destruct xs as [|x [|y xs]]; [constructor|by repeat constructor|].
      rewrite !lenZ_cons in Hl. unfold lenZ in Hl. lia. }
  destruct (partition_run compar size pre post Hsize xs Hs) as (le & pv & gt & R & P & Hle & Hgt); [unfold lenZ in Hl; lia|].
  rewrite (bind_Ret _ _ _ _ _ R). assert (sized size (le ++ pv :: gt)) as Hs' by (unfold sized; by rewrite P).
  assert (length xs = length le + S (length gt))%nat as Hlen by (rewrite <- P, length_app; done).
  pose proof Hs' as [S1 [Sp S2]%Forall_cons]%Forall_app.
  destruct (IH pre (concat (pv :: gt) ++ post) le S1 ltac:(lia)) as (le' & R1 & P1 & O1).
  destruct (IH (pre ++ concat (le' ++ [pv])) post gt S2 ltac:(lia)) as (gt' & R2 & P2 & O2).
  assert (sized size (le' ++ [pv])) as S1' by (apply Forall_app; split; [unfold sized in S1; by rewrite <- P1 in S1|by constructor]).
  assert (holding pre post (le ++ pv :: gt) = holding pre (concat (pv :: gt) ++ post) le) as ->
    by (unfold holding; rewrite concat_app; assoc).
  rewrite (bind_Ret _ _ _ _ _ R1).
  assert (lenZ le' = lenZ le) as El by (unfold lenZ; by rewrite P1).
  replace (lenZ pre + (lenZ le + 1) * size) with (lenZ (pre ++ concat (le' ++ [pv])))
    by (rewrite lenZ_app, (lenZ_concat size) by done; rewrite lenZ_app, El; done).
  replace (lenZ xs - (lenZ le + 1)) with (lenZ gt) by (unfold lenZ; lia).
  assert (forall g, holding pre (concat (pv :: g) ++ post) le' = holding (pre ++ concat (le' ++ [pv])) post g) as Eh
    by (intros; unfold holding; rewrite concat_app; simpl; rewrite app_nil_r; assoc).
  rewrite Eh, R2. exists (le' ++ pv :: gt'). split; [|split].
  - rewrite <- Eh. unfold holding. rewrite concat_app. do 2 f_equal. assoc.
  - by rewrite <- P, P1, P2.
  - apply sorted_join; [unfold sized in *; by rewrite P1, P2|done|done|by rewrite P1|by rewrite P2].
Qed.
End Sorts.

(** C35: [qsort], with a callback that is a total preorder on the elements,
    ends, sorts the array in place and loses nothing: afterwards the array
    holds a permutation of its elements in ascending order, and the bytes
    before and after it are as they were. *)
Theorem qsort_sorts compar size pre post xs :
  0 < size -> Forall (fun x => lenZ x = size) xs ->
  (forall x y, lenZ x = size -> lenZ y = size -> ~ compar x y <= 0 -> compar y x <= 0) ->
  (forall x y z, lenZ x = size -> lenZ y = size -> lenZ z = size ->
     compar x y <= 0 -> compar y z <= 0 -> compar x z <= 0) ->
  exists ys, qsort compar (lenZ pre) (lenZ xs) size (pre ++ concat xs ++ post) =
    Ret (tt, pre ++ concat ys ++ post) /\
    ys ≡ₚ xs /\ StronglySorted (fun x y => compar x y <= 0) ys.
Proof.
  intros Hs Hx Ht Htr. apply (qsort_rec_run compar size Hs Ht Htr _ pre post xs Hx). unfold lenZ. lia.
Qed.
