(* ===== verification/Config.v ===== *)
(** * The configuration generator: tables and output

    compile/config/config.c, the host program that turns the configuration
    file into conf.h and conf.c.  Here are its symbol table, its linked lists
    of device types and devices, and the two files it writes; the scanner and
    the parser that call them are in ConfigLang.v.

    Strings the program keeps are names in the symbol table, so that a
    pointer to one is the index of its entry, and pointers are compared as
    indices.  Device entries come from malloc, which does not clear them: the
    content of the n-th entry is a parameter.  [int] is 32 bits wide.  The
    variables currname and currdname, which are never read, are left out. *)

From Stdlib Require Import Ascii String.
From stdpp Require Import base numbers functions list.
From S2P Require Import Prelude CString Doprnt.

Definition CONFMAXNM : Z := 20.
Definition NSYMTAB : Z := 250.
Definition CONFIGC : list Z := chars "../system/conf.c".
Definition CONFIGH : list Z := chars "../include/conf.h".
Definition CONFIGIN : list Z := chars "xinu.config".

(** ** Data *)

(** The tokens of parse.y, with the value the scanner leaves in yylval. *)
Inductive token :=
  | END
  | IDENT (strval : list Z)
  | INTEGER (intval : Z)
  | DEFBRK | COLON | CSR | IRQ | INTR | INIT | OPEN | CLOSE | READ | WRITE | SEEK | CONTROL | IS | ON | GETC | PUTC.

#[export] Instance token_eq_dec : EqDecision token.
Proof. solve_decision. Defined.

(** The start conditions of scan.l. *)
Inductive start_condition := INITIAL | COMMENT | LITERAL_SECTION.

(** The routines of a device. *)
Inductive routine := Intr | Init | Open | Close | Read | Write | Control | Seek | Getc | Putc.

#[export] Instance routine_eq_dec : EqDecision routine.
Proof. solve_decision. Defined.

Record sym_ent := mkSym {
  sy_name : option (list Z);
  sy_occurs : Z
}.

Definition set_sy_name (v : option (list Z)) (e : sym_ent) : sym_ent :=
  mkSym v (sy_occurs e).
Definition set_sy_occurs (v : Z) (e : sym_ent) : sym_ent :=
  mkSym (sy_name e) v.

(** A pointer to an entry is its place in the order of allocation. *)
Record dev_ent := mkDev {
  d_name : option Z;
  d_tname : option Z;
  d_tnum : Z;
  d_device : option Z;
  d_csr : Z;
  d_irq : Z;
  d_code : routine -> list Z;     (* char intr[CONFMAXNM], ..., putc[CONFMAXNM] *)
  d_minor : Z;
  d_next : option Z               (* struct dev_ent *next *)
}.

Definition set_d_name (v : option Z) (d : dev_ent) : dev_ent :=
  mkDev v (d_tname d) (d_tnum d) (d_device d) (d_csr d) (d_irq d) (d_code d) (d_minor d) (d_next d).
Definition set_d_tname (v : option Z) (d : dev_ent) : dev_ent :=
  mkDev (d_name d) v (d_tnum d) (d_device d) (d_csr d) (d_irq d) (d_code d) (d_minor d) (d_next d).
Definition set_d_tnum (v : Z) (d : dev_ent) : dev_ent :=
  mkDev (d_name d) (d_tname d) v (d_device d) (d_csr d) (d_irq d) (d_code d) (d_minor d) (d_next d).
Definition set_d_device (v : option Z) (d : dev_ent) : dev_ent :=
  mkDev (d_name d) (d_tname d) (d_tnum d) v (d_csr d) (d_irq d) (d_code d) (d_minor d) (d_next d).
Definition set_d_csr (v : Z) (d : dev_ent) : dev_ent :=
  mkDev (d_name d) (d_tname d) (d_tnum d) (d_device d) v (d_irq d) (d_code d) (d_minor d) (d_next d).
Definition set_d_irq (v : Z) (d : dev_ent) : dev_ent :=
  mkDev (d_name d) (d_tname d) (d_tnum d) (d_device d) (d_csr d) v (d_code d) (d_minor d) (d_next d).
Definition set_d_code (v : routine -> list Z) (d : dev_ent) : dev_ent :=
  mkDev (d_name d) (d_tname d) (d_tnum d) (d_device d) (d_csr d) (d_irq d) v (d_minor d) (d_next d).
Definition set_d_minor (v : Z) (d : dev_ent) : dev_ent :=
  mkDev (d_name d) (d_tname d) (d_tnum d) (d_device d) (d_csr d) (d_irq d) (d_code d) v (d_next d).
Definition set_d_next (v : option Z) (d : dev_ent) : dev_ent :=
  mkDev (d_name d) (d_tname d) (d_tnum d) (d_device d) (d_csr d) (d_irq d) (d_code d) (d_minor d) v.

Record conf := mkConf {
  input : list Z;                 (* what the scanner has not read *)
  condition : start_condition;    (* its start condition *)
  brkcount : Z;
  linectr : Z;
  lookahead : option token;       (* the token the parser has seen *)
  literal_string : list Z;
  doing : list Z;
  symtab : list sym_ent;
  nsym : Z;
  nodes : list dev_ent;           (* the entries malloc has returned *)
  ftypes : option Z;
  devs : option Z;
  lastdv : option Z;
  currtype : option Z;
  ndevs : Z;
  currtname : Z;
  errors : list Z;                (* what was written to stderr *)
  confh : list Z;                 (* conf.h *)
  confc : list Z;                 (* conf.c *)
  report : list Z                 (* what was written to stdout *)
}.

Definition set_input (v : list Z) (c : conf) : conf :=
  mkConf v (condition c) (brkcount c) (linectr c) (lookahead c) (literal_string c) (doing c) (symtab c) (nsym c)
    (nodes c) (ftypes c) (devs c) (lastdv c) (currtype c) (ndevs c) (currtname c) (errors c) (confh c) (confc c)
    (report c).
Definition set_condition (v : start_condition) (c : conf) : conf :=
  mkConf (input c) v (brkcount c) (linectr c) (lookahead c) (literal_string c) (doing c) (symtab c) (nsym c)
    (nodes c) (ftypes c) (devs c) (lastdv c) (currtype c) (ndevs c) (currtname c) (errors c) (confh c) (confc c)
    (report c).
Definition set_brkcount (v : Z) (c : conf) : conf :=
  mkConf (input c) (condition c) v (linectr c) (lookahead c) (literal_string c) (doing c) (symtab c) (nsym c)
    (nodes c) (ftypes c) (devs c) (lastdv c) (currtype c) (ndevs c) (currtname c) (errors c) (confh c) (confc c)
    (report c).
Definition set_linectr (v : Z) (c : conf) : conf :=
  mkConf (input c) (condition c) (brkcount c) v (lookahead c) (literal_string c) (doing c) (symtab c) (nsym c)
    (nodes c) (ftypes c) (devs c) (lastdv c) (currtype c) (ndevs c) (currtname c) (errors c) (confh c) (confc c)
    (report c).
Definition set_lookahead (v : option token) (c : conf) : conf :=
  mkConf (input c) (condition c) (brkcount c) (linectr c) v (literal_string c) (doing c) (symtab c) (nsym c)
    (nodes c) (ftypes c) (devs c) (lastdv c) (currtype c) (ndevs c) (currtname c) (errors c) (confh c) (confc c)
    (report c).
Definition set_literal_string (v : list Z) (c : conf) : conf :=
  mkConf (input c) (condition c) (brkcount c) (linectr c) (lookahead c) v (doing c) (symtab c) (nsym c)
    (nodes c) (ftypes c) (devs c) (lastdv c) (currtype c) (ndevs c) (currtname c) (errors c) (confh c) (confc c)
    (report c).
Definition set_doing (v : list Z) (c : conf) : conf :=
  mkConf (input c) (condition c) (brkcount c) (linectr c) (lookahead c) (literal_string c) v (symtab c) (nsym c)
    (nodes c) (ftypes c) (devs c) (lastdv c) (currtype c) (ndevs c) (currtname c) (errors c) (confh c) (confc c)
    (report c).
Definition set_symtab (v : list sym_ent) (c : conf) : conf :=
  mkConf (input c) (condition c) (brkcount c) (linectr c) (lookahead c) (literal_string c) (doing c) v (nsym c)
    (nodes c) (ftypes c) (devs c) (lastdv c) (currtype c) (ndevs c) (currtname c) (errors c) (confh c) (confc c)
    (report c).
Definition set_nsym (v : Z) (c : conf) : conf :=
  mkConf (input c) (condition c) (brkcount c) (linectr c) (lookahead c) (literal_string c) (doing c) (symtab c)
    v (nodes c) (ftypes c) (devs c) (lastdv c) (currtype c) (ndevs c) (currtname c) (errors c) (confh c)
    (confc c) (report c).
Definition set_nodes (v : list dev_ent) (c : conf) : conf :=
  mkConf (input c) (condition c) (brkcount c) (linectr c) (lookahead c) (literal_string c) (doing c) (symtab c)
    (nsym c) v (ftypes c) (devs c) (lastdv c) (currtype c) (ndevs c) (currtname c) (errors c) (confh c)
    (confc c) (report c).
Definition set_ftypes (v : option Z) (c : conf) : conf :=
  mkConf (input c) (condition c) (brkcount c) (linectr c) (lookahead c) (literal_string c) (doing c) (symtab c)
    (nsym c) (nodes c) v (devs c) (lastdv c) (currtype c) (ndevs c) (currtname c) (errors c) (confh c) (confc c)
    (report c).
Definition set_devs (v : option Z) (c : conf) : conf :=
  mkConf (input c) (condition c) (brkcount c) (linectr c) (lookahead c) (literal_string c) (doing c) (symtab c)
    (nsym c) (nodes c) (ftypes c) v (lastdv c) (currtype c) (ndevs c) (currtname c) (errors c) (confh c)
    (confc c) (report c).
Definition set_lastdv (v : option Z) (c : conf) : conf :=
  mkConf (input c) (condition c) (brkcount c) (linectr c) (lookahead c) (literal_string c) (doing c) (symtab c)
    (nsym c) (nodes c) (ftypes c) (devs c) v (currtype c) (ndevs c) (currtname c) (errors c) (confh c) (confc c)
    (report c).
Definition set_currtype (v : option Z) (c : conf) : conf :=
  mkConf (input c) (condition c) (brkcount c) (linectr c) (lookahead c) (literal_string c) (doing c) (symtab c)
    (nsym c) (nodes c) (ftypes c) (devs c) (lastdv c) v (ndevs c) (currtname c) (errors c) (confh c) (confc c)
    (report c).
Definition set_ndevs (v : Z) (c : conf) : conf :=
  mkConf (input c) (condition c) (brkcount c) (linectr c) (lookahead c) (literal_string c) (doing c) (symtab c)
    (nsym c) (nodes c) (ftypes c) (devs c) (lastdv c) (currtype c) v (currtname c) (errors c) (confh c)
    (confc c) (report c).
Definition set_currtname (v : Z) (c : conf) : conf :=
  mkConf (input c) (condition c) (brkcount c) (linectr c) (lookahead c) (literal_string c) (doing c) (symtab c)
    (nsym c) (nodes c) (ftypes c) (devs c) (lastdv c) (currtype c) (ndevs c) v (errors c) (confh c) (confc c)
    (report c).
Definition set_errors (v : list Z) (c : conf) : conf :=
  mkConf (input c) (condition c) (brkcount c) (linectr c) (lookahead c) (literal_string c) (doing c) (symtab c)
    (nsym c) (nodes c) (ftypes c) (devs c) (lastdv c) (currtype c) (ndevs c) (currtname c) v (confh c) (confc c)
    (report c).
Definition set_confh (v : list Z) (c : conf) : conf :=
  mkConf (input c) (condition c) (brkcount c) (linectr c) (lookahead c) (literal_string c) (doing c) (symtab c)
    (nsym c) (nodes c) (ftypes c) (devs c) (lastdv c) (currtype c) (ndevs c) (currtname c) (errors c) v
    (confc c) (report c).
Definition set_confc (v : list Z) (c : conf) : conf :=
  mkConf (input c) (condition c) (brkcount c) (linectr c) (lookahead c) (literal_string c) (doing c) (symtab c)
    (nsym c) (nodes c) (ftypes c) (devs c) (lastdv c) (currtype c) (ndevs c) (currtname c) (errors c) (confh c)
    v (report c).
Definition set_report (v : list Z) (c : conf) : conf :=
  mkConf (input c) (condition c) (brkcount c) (linectr c) (lookahead c) (literal_string c) (doing c) (symtab c)
    (nsym c) (nodes c) (ftypes c) (devs c) (lastdv c) (currtype c) (ndevs c) (currtname c) (errors c) (confh c)
    (confc c) v.

(** ** Computations of the generator *)

(** A computation returns, or calls [exit] with a code. *)
Definition G (A : Type) : Type := M conf (A + Z).

Definition gret {A} (a : A) : G A := ret (inl a).
Definition exit {A} (code : Z) : G A := ret (inr code).
Definition gbind {A B} (m : G A) (f : A -> G B) : G B :=
  r <-- m ;;
  match r with
  | inl a => f a
  | inr code => ret (inr code)
  end.
Definition glift {A} (m : M conf A) : G A := a <-- m ;; gret a.
Definition gmust {A} (o : option A) : G A := glift (must o).

Notation "x <<- m ;; k" := (gbind m (fun x => k)) (at level 100, m at next level, right associativity) : c_scope.
Notation "m ;;. k" := (gbind m (fun _ => k)) (at level 100, right associativity) : c_scope.

Definition gget {A} (f : conf -> A) : G A := glift (gets f).
Definition gset (f : conf -> conf) : G unit := glift (modify f).

Definition NL : list Z := [10].
Definition TAB : list Z := [9].
Definition QUOTE : list Z := [34].

(** fprintf(stderr, ...) *)
Definition complain (w : list Z) : G unit := gset (fun c => set_errors (errors c ++ w) c).

(** ** Conversions of fprintf *)

Definition dec (n : Z) : list Z :=
  if n <? 0 then 45 :: (digit_char false <$> numeral 10 (- n)) else digit_char false <$> numeral 10 n.
Definition hex (n : Z) : list Z := digit_char false <$> numeral 16 (u32 n).
(** %-<n>s *)
Definition padded (n : nat) (w : list Z) : list Z := w ++ replicate (n - length w) 32.

(** The string in a character array. *)
Fixpoint text_of (b : list Z) : option (list Z) :=
  match b with
  | [] => None
  | x :: b' => if x =? 0 then Some [] else cons x <$> text_of b'
  end.

(** strncpy of the C library, from a string to an array. *)
Definition put (src : list Z) (n : nat) (dest : list Z) : list Z :=
  take n (src ++ replicate n 0) ++ drop n dest.

(** ** The symbol table *)

(** symtab[i] *)
Definition rd_sym (i : Z) : G sym_ent := c <<- gget symtab ;; gmust (nthZ c i).
Definition wr_sym (i : Z) (e : sym_ent) : G unit :=
  rd_sym i ;;.
  gset (fun c => set_symtab (updZ i e (symtab c)) c).

(** The pointer symtab[i].name. *)
Definition sym_ptr (i : Z) : G (option Z) :=
  e <<- rd_sym i ;; gret (match sy_name e with Some _ => Some i | None => None end).
(** The string a pointer leads to. *)
Definition sym_text (p : option Z) : G (list Z) :=
  i <<- gmust p ;; e <<- rd_sym i ;; gmust (sy_name e).

(** The search of [lookup] from entry [i] on: strncmp of two strings. *)
Fixpoint lookup_loop (n : nat) (s : list Z) (i : Z) : G (option Z) :=
  match n with
  | O => gret None
  | S n' =>
      e <<- rd_sym i ;;
      name <<- gmust (sy_name e) ;;
      if bool_decide (take (Z.to_nat CONFMAXNM) s = take (Z.to_nat CONFMAXNM) name) then gret (Some i)
      else lookup_loop n' s (i + 1)
  end.

Definition lookup (str : list Z) : G Z :=
  (if CONFMAXNM <=? lenZ str then
     complain (chars "warning: name " ++ str ++ chars " truncated" ++ NL)
   else gret tt) ;;.
  let s := take (Z.to_nat (CONFMAXNM - 1)) str in
  n <<- gget nsym ;;
  r <<- lookup_loop (Z.to_nat n) s 0 ;;
  match r with
  | Some i => gret i
  | None =>
      wr_sym n (mkSym (Some s) 0) ;;.
      gset (set_nsym (n + 1)) ;;.
      gret n
  end.

Section Generator.
(** What malloc leaves in the n-th entry. *)
Context (junk : nat -> dev_ent).

(** ** Device entries *)

Definition rd_dev (s : Z) : G dev_ent := l <<- gget nodes ;; gmust (nthZ l s).
(** An assignment to fields of an entry. *)
Definition upd_dev (s : Z) (f : dev_ent -> dev_ent) : G unit :=
  d <<- rd_dev s ;;
  gset (fun c => set_nodes (updZ s (f d) (nodes c)) c).

(** malloc(sizeof(struct dev_ent)) *)
Definition new_dev : G Z :=
  l <<- gget nodes ;;
  gset (set_nodes (l ++ [junk (length l)])) ;;.
  gret (lenZ l).

Definition set_code (r : routine) (w : list Z) (d : dev_ent) : dev_ent := set_d_code (<[r := w]> (d_code d)) d.

(** The routine a token names. *)
Definition routine_of (tok : token) : option routine :=
  match tok with
  | INTR => Some Intr | READ => Some Read | WRITE => Some Write | GETC => Some Getc | PUTC => Some Putc
  | OPEN => Some Open | CLOSE => Some Close | INIT => Some Init | SEEK => Some Seek | CONTROL => Some Control
  | _ => None
  end.

Definition newattr (tok : token) (val : Z) : G unit :=
  d <<- gget devs ;;
  s <<- (match d with None => gget currtype | Some _ => gget lastdv end) ;;
  n <<- gget nsym ;;
  c <<- (if (0 <=? val) && (val <? n) then
           e <<- rd_sym val ;;
           name <<- gmust (sy_name e) ;;
           if CONFMAXNM <=? lenZ name then complain (chars "Internal overflow" ++ NL) ;;. exit 1
           else gret (Some name)
         else gret None) ;;
  match tok with
  | CSR => s <<- gmust s ;; upd_dev s (set_d_csr val)
  | IRQ => s <<- gmust s ;; upd_dev s (set_d_irq val)
  | _ =>
      match routine_of tok with
      | Some r => s <<- gmust s ;; w <<- gmust c ;;
                  upd_dev s (fun d => set_code r (put w (Z.to_nat CONFMAXNM) (d_code d r)) d)
      | None => complain (chars "Internal error 1" ++ NL)
      end
  end.

(** The loops [for (s = list; s != NIL; s = s->next)] that look for an
    entry: the entry found, and the one before the end of the search. *)
Fixpoint search (fuel : nat) (test : dev_ent -> bool) (p s : option Z) : G (option Z * option Z) :=
  match s with
  | None => gret (p, None)
  | Some a =>
      match fuel with
      | O => failwith OutOfFuel
      | S fuel' =>
          d <<- rd_dev a ;;
          if test d then gret (p, Some a) else search fuel' test s (d_next d)
      end
  end.

(** An entry is visited once. *)
Definition search_list (test : dev_ent -> bool) (head : option Z) : G (option Z * option Z) :=
  l <<- gget nodes ;; search (length l) test None head.

Definition on_line (n : Z) : list Z := chars " on line " ++ dec n ++ NL.

Definition cktname (symid : Z) : G Z :=
  name <<- sym_ptr symid ;;
  head <<- gget ftypes ;;
  r <<- search_list (fun s => bool_decide (d_tname s = name)) head ;;
  match snd r with
  | Some _ =>
      w <<- sym_text name ;;
      n <<- gget linectr ;;
      complain (chars "Duplicate type name " ++ w ++ on_line n) ;;. exit 1
  | None => gret symid
  end.

Definition ioerr : list Z := chars "ioerr".

Definition initattr (fstr tnum deviceid : Z) : G unit :=
  tn <<- sym_ptr tnum ;;
  dn <<- sym_ptr deviceid ;;
  upd_dev fstr (fun s => mkDev None tn tnum dn 0 0 (fun r => put ioerr 5 (d_code s r)) 0 (d_next s)).

Definition mktype (deviceid : Z) : G unit :=
  t <<- gget currtname ;;
  tn <<- sym_ptr t ;;
  dn <<- sym_ptr deviceid ;;
  head <<- gget ftypes ;;
  r <<- search_list (fun s => bool_decide (d_tname s = tn) && bool_decide (d_device s = dn)) head ;;
  match snd r with
  | Some _ =>
      wd <<- sym_text dn ;; wt <<- sym_text tn ;;
      n <<- gget linectr ;;
      complain (chars "Duplicate device " ++ wd ++ chars " for type " ++ wt ++ on_line n) ;;. exit 1
  | None =>
      s <<- new_dev ;;
      gset (set_currtype (Some s)) ;;.
      match head with
      | Some _ => p <<- gmust (fst r) ;; upd_dev p (set_d_next (Some s))
      | None => gset (set_ftypes (Some s))
      end ;;.
      initattr s t deviceid
  end.

Definition mkdev (nameid typid deviceid : Z) : G unit :=
  s <<- new_dev ;;
  upd_dev s (set_d_next None) ;;.
  d <<- gget devs ;;
  match d with
  | None => gset (set_devs (Some s)) ;;. gset (set_lastdv (Some s))
  | Some _ => l <<- gget lastdv ;; l <<- gmust l ;;
              upd_dev l (set_d_next (Some s)) ;;. gset (set_lastdv (Some s))
  end ;;.
  gset (fun c => set_ndevs (s32 (ndevs c + 1)) c) ;;.
  tn <<- sym_ptr typid ;;
  devn <<- sym_ptr nameid ;;
  dn <<- (if 0 <=? deviceid then sym_ptr deviceid else gret None) ;;
  head <<- gget ftypes ;;
  r <<- search_list (fun s => bool_decide (d_tname s = tn) && (bool_decide (dn = None) || bool_decide (d_device s = dn))) head ;;
  match snd r with
  | Some t => ty <<- rd_dev t ;; upd_dev s (fun _ => ty)
  | None =>
      w <<- sym_text devn ;;
      n <<- gget linectr ;;
      complain (chars "Bad type or device name in declaration of " ++ w ++ on_line n) ;;. exit 1
  end ;;.
  upd_dev s (set_d_next None) ;;.
  upd_dev s (set_d_name devn).

Definition ckdname (devid : Z) : G Z :=
  name <<- sym_ptr devid ;;
  head <<- gget devs ;;
  r <<- search_list (fun s => bool_decide (d_name s = name)) head ;;
  match snd r with
  | Some _ =>
      w <<- sym_text name ;;
      n <<- gget linectr ;;
      complain (chars "Duplicate device name " ++ w ++ on_line n) ;;. exit 1
  | None => gret devid
  end.
End Generator.

(** ** The output files *)

Definition hputs (w : list Z) : G unit := gset (fun c => set_confh (confh c ++ w) c).
Definition cputs (w : list Z) : G unit := gset (fun c => set_confc (confc c ++ w) c).
Definition line (s : string) : list Z := chars s ++ NL.
Definition tline (s : string) : list Z := TAB ++ line s.

Definition devstab : list (list Z) :=
  [chars "/* Device table entry */";
   chars "typedef struct dentry";
   chars "{";
   TAB ++ chars "int     num;";
   TAB ++ chars "int     minor;";
   TAB ++ chars "char    *name;";
   TAB ++ chars "devcall (*init)(struct dentry *);";
   TAB ++ chars "devcall (*open)(struct dentry *, ...);";
   TAB ++ chars "devcall (*close)(struct dentry *);";
   TAB ++ chars "devcall (*read)(struct dentry *, void *, uint);";
   TAB ++ chars "devcall (*write)(struct dentry *, const void *, uint);";
   TAB ++ chars "devcall (*seek)(struct dentry *, long);";
   TAB ++ chars "devcall (*getc)(struct dentry *);";
   TAB ++ chars "devcall (*putc)(struct dentry *, char);";
   TAB ++ chars "devcall (*control)(struct dentry *, int, long, long);";
   TAB ++ chars "void    *csr;";
   TAB ++ chars "void    (*intr)(void);";
   TAB ++ chars "uchar   irq;";
   chars "} device;" ++ NL;
   chars "extern const device devtab[]; /* one entry per device */"].

(** #define %-12s%d       /* type %-8s */ *)
Definition name_line (name : list Z) (i : Z) (tname : list Z) : list Z :=
  chars "#define " ++ padded 12 name ++ dec i ++ chars "       /* type " ++ padded 8 tname ++ chars " */" ++ NL.

(** The loop over the devices that defines their names and numbers the
    devices of each type. *)
Fixpoint name_devices (fuel : nat) (i : Z) (s : option Z) : G unit :=
  match s with
  | None => gret tt
  | Some a =>
      match fuel with
      | O => failwith OutOfFuel
      | S fuel' =>
          d <<- rd_dev a ;;
          name <<- sym_text (d_name d) ;;
          tname <<- sym_text (d_tname d) ;;
          hputs (name_line name i tname) ;;.
          e <<- rd_sym (d_tnum d) ;;
          wr_sym (d_tnum d) (mkSym (sy_name e) (s32 (sy_occurs e + 1))) ;;.
          upd_dev a (set_d_minor (sy_occurs e)) ;;.
          d <<- rd_dev a ;;
          name_devices fuel' (i + 1) (d_next d)
      end
  end.

(** toupper of the C library, in the "C" locale. *)
Definition upper (c : Z) : Z := if (97 <=? c) && (c <=? 122) then c - 32 else c.

(** The loop over the symbols that defines the number of devices of each
    type: the name is copied to an array and put in capitals. *)
Fixpoint count_types (n : nat) (i : Z) : G unit :=
  match n with
  | O => gret tt
  | S n' =>
      e <<- rd_sym i ;;
      (if 0 <? sy_occurs e then
         w <<- gmust (sy_name e) ;;
         let name := take 19 (put w (Z.to_nat CONFMAXNM) (replicate (Z.to_nat CONFMAXNM) 0)) ++ [0] in
         w <<- gmust (text_of (upper <$> name)) ;;
         hputs (chars "#define N" ++ w ++ chars " " ++ dec (sy_occurs e) ++ NL)
       else gret tt) ;;.
      count_types n' (i + 1)
  end.

(** if (verbose) { printf(...); } *)
Definition say (verbose : bool) (w : list Z) : G unit :=
  if verbose then gset (fun c => set_report (report c ++ w) c) else gret tt.

Definition write_confh (verbose : bool) : G unit :=
  hputs (line "/* conf.h (GENERATED FILE; DO NOT EDIT) */" ++ NL) ;;.
  hputs (line "#ifndef _CONF_H_") ;;.
  hputs (line "#define _CONF_H_" ++ NL) ;;.
  hputs (line "#include <stddef.h>" ++ NL) ;;.
  say verbose (line "Writing output...") ;;.
  hputs (line "/* Device table declarations */" ++ NL) ;;.
  hputs (concat ((fun p => p ++ NL) <$> devstab)) ;;.
  hputs NL ;;.
  hputs (line "/* Device name definitions */" ++ NL) ;;.
  head <<- gget devs ;;
  l <<- gget nodes ;;
  name_devices (length l) 0 head ;;.
  hputs NL ;;.
  hputs (line "/* Control block sizes */" ++ NL) ;;.
  n <<- gget nsym ;;
  count_types (Z.to_nat n) 0 ;;.
  hputs NL ;;.
  hputs (chars "#define DEVMAXNAME " ++ dec CONFMAXNM ++ NL) ;;.
  n <<- gget ndevs ;;
  (if 0 <? n then hputs (chars "#define NDEVS " ++ dec n ++ NL) else gret tt) ;;.
  b <<- gget brkcount ;;
  say (bool_decide (b = 2) && verbose) (chars "Copying definitions to " ++ CONFIGH ++ line "...") ;;.
  w <<- gget literal_string ;;
  (if b =? 2 then hputs (default w (text_of w)) else gret tt) ;;.
  hputs (NL ++ line "#endif /* _CONF_H_ */").

(** The types with devices are included. *)
Fixpoint include_types (n : nat) (i : Z) : G unit :=
  match n with
  | O => gret tt
  | S n' =>
      e <<- rd_sym i ;;
      (if 0 <? sy_occurs e then
         w <<- gmust (sy_name e) ;;
         cputs (chars "#include <" ++ w ++ chars ".h>" ++ NL)
       else gret tt) ;;.
      include_types n' (i + 1)
  end.

Definition call_text (d : dev_ent) (r : routine) : G (list Z) := gmust (text_of (d_code d r)).

(** (void * )%s, (void * )%s, (void * )%s,\n *)
Definition three_calls (d : dev_ent) (r1 r2 r3 : routine) : G unit :=
  w1 <<- call_text d r1 ;;
  w2 <<- call_text d r2 ;;
  w3 <<- call_text d r3 ;;
  cputs (TAB ++ chars "  (void *)" ++ w1 ++ chars ", (void *)" ++ w2 ++ chars ", (void *)" ++ w3 ++ chars "," ++ NL).

(** The rows of devtab. *)
Fixpoint write_rows (fuel : nat) (fcount : Z) (s : option Z) : G unit :=
  match s with
  | None => gret tt
  | Some a =>
      match fuel with
      | O => failwith OutOfFuel
      | S fuel' =>
          d <<- rd_dev a ;;
          name <<- sym_text (d_name d) ;;
          tname <<- sym_text (d_tname d) ;;
          cputs (chars "/* " ++ name ++ chars " is " ++ tname ++ chars " */" ++ NL) ;;.
          cputs (TAB ++ chars "{ " ++ dec fcount ++ chars ", " ++ dec (d_minor d) ++ chars ", " ++
                 QUOTE ++ name ++ QUOTE ++ chars "," ++ NL) ;;.
          three_calls d Init Open Close ;;.
          three_calls d Read Write Seek ;;.
          three_calls d Getc Putc Control ;;.
          w <<- call_text d Intr ;;
          cputs (TAB ++ chars "  (void *)0x" ++ hex (d_csr d) ++ chars ", (void *)" ++ w ++ chars ", " ++
                 dec (d_irq d) ++ chars " }") ;;.
          cputs (match d_next d with Some _ => chars "," ++ NL ++ NL | None => NL ++ chars "};" end) ;;.
          write_rows fuel' (fcount + 1) (d_next d)
      end
  end.

Definition entry_format : list (list Z) :=
  [chars "/**"; chars " * Format of entries is:"; chars " * dev-number, minor-number, dev-name,";
   chars " * init, open, close,"; chars " * read, write, seek,"; chars " * getc, putc, control,";
   chars " * dev-csr-address, intr-handler, irq"; chars " */"].

Definition write_confc : G unit :=
  cputs (line "/* conf.c (GENERATED FILE; DO NOT EDIT) */" ++ NL) ;;.
  cputs (chars "#include <conf.h>" ++ NL) ;;.
  cputs (line "#include <device.h>" ++ NL) ;;.
  n <<- gget nsym ;;
  include_types (Z.to_nat n) 0 ;;.
  cputs NL ;;.
  cputs (line "extern devcall ioerr(void);") ;;.
  cputs (line "extern devcall ionull(void);" ++ NL) ;;.
  cputs (line "/* device independent I/O switch */" ++ NL) ;;.
  n <<- gget ndevs ;;
  (if 0 <? n then
     cputs (line "const device devtab[NDEVS] =" ++ line "{") ;;.
     cputs (concat ((fun p => p ++ NL) <$> entry_format) ++ NL)
   else gret tt) ;;.
  head <<- gget devs ;;
  l <<- gget nodes ;;
  write_rows (length l) 0 head ;;.
  cputs NL.

(** %04x *)
Definition hex4 (n : Z) : list Z := replicate (4 - length (hex n)) 48 ++ hex n.

(** The report on the devices. *)
Fixpoint report_devices (fuel : nat) (s : option Z) : G unit :=
  match s with
  | None => gret tt
  | Some a =>
      match fuel with
      | O => failwith OutOfFuel
      | S fuel' =>
          d <<- rd_dev a ;;
          name <<- sym_text (d_name d) ;;
          device <<- sym_text (d_device d) ;;
          say true (chars "Device " ++ name ++ chars " (on " ++ device ++ chars ")" ++ NL) ;;.
          say true (chars "    csr=0x" ++ hex4 (d_csr d) ++ chars ", irq=0x" ++ hex4 (d_irq d) ++
                    chars ", minor=" ++ dec (d_minor d) ++ NL) ;;.
          report_devices fuel' (d_next d)
      end
  end.

Definition write_report : G unit :=
  n <<- gget ndevs ;;
  say true (chars "Configuration complete. Number of devs=" ++ dec n ++ chars ":" ++ NL) ;;.
  head <<- gget devs ;;
  l <<- gget nodes ;;
  report_devices (length l) head.
