(* ===== verification/ConfigLang.v ===== *)
(** * The configuration generator: scanner, parser and main program

    The scanner of compile/config/scan.l, the grammar of parse.y with its
    actions, and main of config.c around them.

    The scanner is what flex makes of the rules: at each point the longest
    match of any rule, the earlier rule if two match as much.  The parser
    takes the productions from left to right and runs each action when the
    generated parser does: it looks at the next token only where the grammar
    has a choice, so that [lookup] sees the text of its identifier and errors
    name the line the scanner has reached. *)

From Stdlib Require Import Ascii String.
From stdpp Require Import base numbers functions list.
From S2P Require Import Prelude CString Doprnt Config.

(** ** Patterns *)

Definition between (lo hi c : Z) : bool := (lo <=? c) && (c <=? hi).
Definition decimal (c : Z) : bool := between 48 57 c.
Definition octal (c : Z) : bool := between 48 55 c.
Definition hexadecimal (c : Z) : bool := decimal c || between 97 102 c || between 65 70 c.
Definition id_start (c : Z) : bool := between 97 122 c || (c =? 95) || between 65 90 c.
Definition id_part (c : Z) : bool := id_start c || decimal c.
Definition blank (c : Z) : bool := (c =? 32) || (c =? 9).

(** How many characters a pattern takes at the front of the text at most;
    none is no match. *)
Fixpoint span (P : Z -> bool) (t : list Z) : nat :=
  match t with
  | [] => 0
  | c :: t' => if P c then S (span P t') else 0
  end.

Fixpoint prefix (w t : list Z) : bool :=
  match w, t with
  | [], _ => true
  | a :: w', b :: t' => (a =? b) && prefix w' t'
  | _ :: _, [] => false
  end.

Definition word (w t : list Z) : nat := if prefix w t then length w else 0.
(** -?w *)
Definition switch (w t : list Z) : nat :=
  match t with
  | c :: t' => if c =? 45 then (if prefix w t' then S (length w) else 0)%nat else word w t
  | [] => word w t
  end.
Definition first_then (P Q : Z -> bool) (t : list Z) : nat :=
  match t with
  | c :: t' => if P c then S (span Q t') else 0
  | [] => 0
  end.
Definition OCT : list Z -> nat := first_then (Z.eqb 48) octal.
Definition DEC : list Z -> nat := first_then (between 49 57) decimal.
Definition HEX (t : list Z) : nat :=
  if prefix (chars "0x") t then match span hexadecimal (drop 2 t) with O => 0 | n => S (S n) end else 0.
Definition ID : list Z -> nat := first_then id_start id_part.
Definition one (P : Z -> bool) (t : list Z) : nat :=
  match t with c :: _ => if P c then 1 else 0 | [] => 0 end.

(** What a rule does. *)
Inductive action :=
  | BeginComment
  | Break
  | Number (base : Z)
  | Token (tok : token)
  | Skip
  | Newline
  | Identifier
  | Unknown.

(** The rules of the start condition INITIAL, in order. *)
Definition rules : list ((list Z -> nat) * action) :=
  [(word (chars "/*"), BeginComment);
   (word (chars "%%"), Break);
   (word (chars ":"), Token COLON);
   (OCT, Number 8);
   (DEC, Number 10);
   (HEX, Number 16);
   (word (chars "is"), Token IS);
   (word (chars "on"), Token ON);
   (word (chars "="), Skip);
   (switch (chars "intr"), Token INTR);
   (switch (chars "csr"), Token CSR);
   (switch (chars "irq"), Token IRQ);
   (switch (chars "i"), Token INIT);
   (switch (chars "o"), Token OPEN);
   (switch (chars "c"), Token CLOSE);
   (switch (chars "r"), Token READ);
   (switch (chars "g"), Token GETC);
   (switch (chars "p"), Token PUTC);
   (switch (chars "w"), Token WRITE);
   (switch (chars "s"), Token SEEK);
   (switch (chars "n"), Token CONTROL);
   (span blank, Skip);
   (one (Z.eqb 10), Newline);
   (ID, Identifier);
   (one (fun c => negb (c =? 10)), Unknown)].

(** The longest match, the earlier rule for matches of the same length. *)
Fixpoint longest (rs : list ((list Z -> nat) * action)) (t : list Z) : nat * action :=
  match rs with
  | [] => (O, Unknown)
  | (m, a) :: rs' =>
      let r := longest rs' t in
      if (fst r <=? m t)%nat then (m t, a) else r
  end.

(** strtol of the digits of a literal, stored in an int. *)
Definition digit_value (c : Z) : Z :=
  if decimal c then c - 48 else if between 97 102 c then c - 87 else c - 55.
Definition strtol (base : Z) (w : list Z) : Z :=
  let digits := if base =? 16 then drop 2 w else w in
  s32 (Z.min (valof base (digit_value <$> digits)) (2 ^ 63 - 1)).

(** ** The scanner *)

Definition yyerror : G unit :=
  w <<- gget doing ;;
  n <<- gget linectr ;;
  complain (chars "Syntax error in " ++ w ++ on_line n).

Definition next_line : G unit := gset (fun c => set_linectr (s32 (linectr c + 1)) c).

Fixpoint yylex_loop (fuel : nat) : G token :=
  match fuel with
  | O => failwith OutOfFuel
  | S fuel' =>
      t <<- gget input ;;
      cond <<- gget condition ;;
      match cond, t with
      | _, [] => gret END
      | LITERAL_SECTION, _ =>
          gset (set_input []) ;;. gset (set_literal_string t) ;;. gret END
      | COMMENT, c :: t' =>
          if prefix (chars "*/") t then
            gset (set_input (drop 2 t)) ;;. gset (set_condition INITIAL) ;;. yylex_loop fuel'
          else
            gset (set_input t') ;;. (if c =? 10 then next_line else gret tt) ;;. yylex_loop fuel'
      | INITIAL, _ =>
          let '(n, a) := longest rules t in
          let yytext := take n t in
          gset (set_input (drop n t)) ;;.
          match a with
          | BeginComment => gset (set_condition COMMENT) ;;. yylex_loop fuel'
          | Break =>
              gset (fun c => set_brkcount (brkcount c + 1) c) ;;.
              b <<- gget brkcount ;;
              if b =? 2 then gset (set_condition LITERAL_SECTION) ;;. yylex_loop fuel'
              else gret DEFBRK
          | Number base => gret (INTEGER (strtol base yytext))
          | Token tok => gret tok
          | Skip => yylex_loop fuel'
          | Newline => next_line ;;. yylex_loop fuel'
          | Identifier => gret (IDENT yytext)
          | Unknown => yyerror ;;. yylex_loop fuel'
          end
      end
  end.

(** Every rule takes at least one character. *)
Definition yylex : G token := t <<- gget input ;; yylex_loop (S (length t)).

(** ** The parser *)

Definition peek : G token :=
  l <<- gget lookahead ;;
  match l with
  | Some tok => gret tok
  | None => tok <<- yylex ;; gset (set_lookahead (Some tok)) ;;. gret tok
  end.
Definition shift : G unit := gset (set_lookahead None).

(** yyparse reports the error and returns 1, with which main exits. *)
Definition syntax_error {A} : G A := yyerror ;;. exit 1.

Definition expect (tok : token) : G unit :=
  t <<- peek ;; if bool_decide (t = tok) then shift else syntax_error.

Definition id : G Z :=
  t <<- peek ;;
  match t with
  | IDENT w => shift ;;. lookup w
  | _ => syntax_error
  end.

Definition integer : G Z :=
  t <<- peek ;;
  match t with
  | INTEGER n => shift ;;. gret n
  | _ => syntax_error
  end.

Section Parser.
Context (junk : nat -> dev_ent).

Fixpoint attr_list (fuel : nat) : G unit :=
  match fuel with
  | O => failwith OutOfFuel
  | S fuel' =>
      t <<- peek ;;
      match t with
      | CSR | IRQ => shift ;;. n <<- integer ;; newattr t n ;;. attr_list fuel'
      | _ =>
          match routine_of t with
          | Some _ => shift ;;. i <<- id ;; newattr t i ;;. attr_list fuel'
          | None => gret tt
          end
      end
  end.

Definition devheader : G unit := expect ON ;;. i <<- id ;; mktype junk i.

(** The rest of a list of device headers with their attributes. *)
Fixpoint dev_list (fuel : nat) : G unit :=
  match fuel with
  | O => failwith OutOfFuel
  | S fuel' =>
      t <<- peek ;;
      match t with
      | ON => devheader ;;. attr_list fuel' ;;. dev_list fuel'
      | _ => gret tt
      end
  end.

Definition tname : G unit :=
  i <<- id ;; expect COLON ;;. t <<- cktname i ;; gset (set_currtname t).

Definition ftype (fuel : nat) : G unit :=
  tname ;;. devheader ;;. attr_list fuel ;;. dev_list fuel.

Fixpoint parse_ftypes (fuel : nat) : G unit :=
  match fuel with
  | O => failwith OutOfFuel
  | S fuel' =>
      t <<- peek ;;
      match t with
      | IDENT _ => ftype fuel' ;;. parse_ftypes fuel'
      | _ => gret tt
      end
  end.

Definition devtypes (fuel : nat) : G unit :=
  parse_ftypes fuel ;;. expect DEFBRK ;;. gset (set_doing (chars "device definitions")).

Definition optional_on : G Z :=
  t <<- peek ;;
  match t with
  | ON => shift ;;. id
  | _ => gret 0
  end.

Definition fspec : G unit :=
  i <<- id ;; d <<- ckdname i ;;
  expect IS ;;. t <<- id ;; o <<- optional_on ;;
  mkdev junk d t o.

Definition descriptor (fuel : nat) : G unit := fspec ;;. attr_list fuel.

Fixpoint devdescriptors (fuel : nat) : G unit :=
  match fuel with
  | O => failwith OutOfFuel
  | S fuel' =>
      t <<- peek ;;
      match t with
      | IDENT _ => descriptor fuel' ;;. devdescriptors fuel'
      | _ => gret tt
      end
  end.

(** Each turn of a loop takes a token, and each token a character. *)
Definition yyparse : G unit :=
  text <<- gget input ;;
  let fuel := S (length text) in
  devtypes fuel ;;. devdescriptors fuel ;;. expect END.

(** ** The main program *)

Definition initial (text : list Z) : conf :=
  mkConf text INITIAL 0 1 None [] (chars "device type declaration") (replicate (Z.to_nat NSYMTAB) (mkSym None 0)) 0
    [] None None None None 0 (-1) [] [] [] [].

(** The files: the text of those that can be read, and which can be
    written. *)
Context (readable : list Z -> option (list Z)) (writable : list Z -> bool).

(** freopen of the standard input, and what the scanner will read of it. *)
Definition open_input (name : list Z) : G unit :=
  match readable name with
  | Some text => gset (set_input text)
  | None => complain (chars "Can't open " ++ name ++ NL) ;;. exit 1
  end.
Definition open_output (name : list Z) : G unit :=
  if writable name then gret tt else complain (chars "Can't write on " ++ name ++ NL) ;;. exit 1.

(** main, from the parser on. *)
Definition generate (verbose : bool) : G Z :=
  yyparse ;;.
  say verbose (line "Opening output files...") ;;.
  open_output CONFIGC ;;.
  open_output CONFIGH ;;.
  write_confh verbose ;;.
  write_confc ;;.
  (if verbose then write_report else gret tt) ;;.
  gret 0.

(** main(argc, argv) *)
Definition main (argv : list (list Z)) : G Z :=
  let verbose := match argv with _ :: a :: _ => prefix (chars "-v") a | _ => false end in
  let argv := if verbose then tail argv else argv in
  let argc := lenZ argv in
  (if 2 <? argc then complain (chars "use: config [-v] [file]" ++ NL) ;;. exit 1 else gret tt) ;;.
  say verbose (line "Opening input file...") ;;.
  (if argc =? 2 then a <<- gmust (nthZ argv 1) ;; open_input a else open_input CONFIGIN) ;;.
  say verbose (line "Parsing configuration specs...") ;;.
  generate verbose.

(** The program from its start. *)
Definition config (argv : list (list Z)) : outcome ((Z + Z) * conf) := main argv (initial []).
End Parser.
