(* ===== verification/ConfigSpec.v ===== *)
(** * The configuration generator: what its tables mean

    The symbol table as a list of names, the linked lists as lists of
    entries, and the operations of config.c on them: interning, the
    declarations of types and devices, and their attributes.

    Nothing is assumed of the memory malloc returns.  The link of the last
    type entry is what malloc left there (config.c does not set it), and so
    is what follows ioerr in an array that no attribute has filled.  A search
    that goes past the last type follows that link: unless it happens to be
    null, the program strays out of its tables, and nothing is said of what it
    does then. *)

From Stdlib Require Import Ascii String.
From stdpp Require Import base numbers functions list sets.
From S2P Require Import Prelude CString Doprnt Config.

(** ** Running the computations *)

Lemma gbind_inl {A B} (m : G A) (f : A -> G B) c a c' : m c = Ret (inl a, c') -> gbind m f c = f a c'.
Proof. intros H. unfold gbind. by rewrite (bind_Ret _ _ _ _ _ H). Qed.

Lemma gbind_inr {A B} (m : G A) (f : A -> G B) c z c' : m c = Ret (inr z, c') -> gbind m f c = Ret (inr z, c').
Proof. intros H. unfold gbind. by rewrite (bind_Ret _ _ _ _ _ H). Qed.

Lemma gbind_get {A B} (h : conf -> A) (f : A -> G B) c : gbind (gget h) f c = f (h c) c.
Proof. done. Qed.
Lemma gbind_set {B} (h : conf -> conf) (f : unit -> G B) c : gbind (gset h) f c = f tt (h c).
Proof. done. Qed.
Lemma gbind_ret {A B} (a : A) (f : A -> G B) c : gbind (gret a) f c = f a c.
Proof. done. Qed.
Lemma gbind_must {A B} (o : option A) a (f : A -> G B) c : o = Some a -> gbind (gmust o) f c = f a c.
Proof. by intros ->. Qed.
Lemma gbind_assoc {A B C} (m : G A) (f : A -> G B) (h : B -> G C) c :
  gbind (gbind m f) h c = gbind m (fun a => gbind (f a) h) c.
Proof. unfold gbind, bind, ret. destruct (m c) as [[[a|z] c']|]; done. Qed.

Lemma gbind_eta {A} (m : G A) c : gbind m gret c = m c.
Proof. unfold gbind, bind, gret, ret. destruct (m c) as [[[a|z] c']|]; done. Qed.

Create HintDb conf_db discriminated.
#[export] Hint Rewrite @gbind_get @gbind_set @gbind_ret @gbind_assoc : conf_db.
(** Run the steps that need nothing. *)
Ltac gstep := repeat (rewrite ?gbind_assoc, ?gbind_get, ?gbind_set, ?gbind_ret); cbv beta.

Lemma gbind_sym {B} (f : sym_ent -> G B) c i e : nthZ (symtab c) i = Some e -> gbind (rd_sym i) f c = f e c.
Proof. intros H. unfold rd_sym. gstep. by rewrite (gbind_must _ e). Qed.

Lemma gbind_dev {B} (f : dev_ent -> G B) c i d : nthZ (nodes c) i = Some d -> gbind (rd_dev i) f c = f d c.
Proof. intros H. unfold rd_dev. gstep. by rewrite (gbind_must _ d). Qed.

Lemma gbind_upd_dev {B} (h : dev_ent -> dev_ent) (f : unit -> G B) c i d : nthZ (nodes c) i = Some d ->
  gbind (upd_dev i h) f c = f tt (set_nodes (updZ i (h d) (nodes c)) c).
Proof. intros H. unfold upd_dev. gstep. rewrite (gbind_dev _ _ _ d) by done. by gstep. Qed.

(** ** Linked lists *)

(** The entries [l] from place [base] on, each linked to the next, and the
    last to [tl]. *)
Fixpoint chained_to (tl : option Z) (base : Z) (l : list dev_ent) : list dev_ent :=
  match l with
  | [] => []
  | d :: l' => set_d_next (match l' with [] => tl | _ :: _ => Some (base + 1) end) d :: chained_to tl (base + 1) l'
  end.
Notation chained := (chained_to None).

Definition head_of (base : Z) (l : list dev_ent) : option Z := match l with [] => None | _ :: _ => Some base end.
Definition last_of (base : Z) (l : list dev_ent) : option Z :=
  match l with [] => None | _ :: _ => Some (base + lenZ l - 1) end.

(** Entries that are all linked to the next. *)
Fixpoint links (base : Z) (l : list dev_ent) : list dev_ent :=
  match l with
  | [] => []
  | d :: l' => set_d_next (Some (base + 1)) d :: links (base + 1) l'
  end.

Lemma links_lenZ base l : lenZ (links base l) = lenZ l.
Proof. revert base. induction l as [|d l IH]; intros base; simpl; [done|]. by rewrite !lenZ_cons, IH. Qed.

Lemma links_snoc base l d : links base (l ++ [d]) = links base l ++ [set_d_next (Some (base + lenZ l + 1)) d].
Proof.
  revert base. induction l as [|x l IH]; intros base; simpl; [by rewrite Z.add_0_r|].
  rewrite IH, lenZ_cons. do 4 f_equal. f_equal. lia.
Qed.

Lemma chained_snoc tl base l d : chained_to tl base (l ++ [d]) = links base l ++ [set_d_next tl d].
Proof. revert base. induction l as [|x l IH]; intros base; simpl; [done|]. rewrite IH. by destruct l. Qed.

Lemma chained_lenZ tl base l : lenZ (chained_to tl base l) = lenZ l.
Proof.
  destruct l as [|d l _] using rev_ind; [done|]. by rewrite chained_snoc, !lenZ_app, links_lenZ.
Qed.

(** The place of the first element that passes a test. *)
Fixpoint index {A} (test : A -> bool) (l : list A) : option Z :=
  match l with
  | [] => None
  | d :: l' => if test d then Some 0 else Z.succ <$> index test l'
  end.

Lemma index_None {A} (test : A -> bool) l : index test l = None <-> forall d, d ∈ l -> test d = false.
Proof.
  induction l as [|x l IH]; simpl; [split; [by intros _ d ?%elem_of_nil|done]|].
  destruct (test x) eqn:E.
  - split; [done|]. intros H. rewrite H in E by left. done.
  - rewrite fmap_None, IH. split.
    + intros H d [->|?]%elem_of_cons; auto.
    + intros H d Hd. apply H. by right.
Qed.

Lemma index_Some {A} (test : A -> bool) l i : index test l = Some i ->
  exists d, nthZ l i = Some d /\ test d = true /\ forall j e, 0 <= j < i -> nthZ l j = Some e -> test e = false.
Proof.
  revert i. induction l as [|x l IH]; simpl; [done|]. intros i. destruct (test x) eqn:E.
  - intros [= <-]. exists x. split; [done|]. split; [done|]. lia.
  - intros (j & Hj & ->)%fmap_Some. destruct (IH j Hj) as (d & Hd & Ht & Hb).
    pose proof (nthZ_Some_lt _ _ _ Hd). exists d. split; [|split; [done|]].
    + rewrite nthZ_cons_pos by lia. by replace (Z.succ j - 1) with j by lia.
    + intros k e Hk. destruct (decide (k = 0)) as [->|]; [by intros [= <-]|].
      rewrite nthZ_cons_pos by lia. apply Hb. lia.
Qed.

(** A test that does not look at the link. *)
Definition linkless (test : dev_ent -> bool) : Prop := forall v d, test (set_d_next v d) = test d.

Lemma search_run c test tl l : linkless test -> index test l <> None \/ tl = None -> forall pre post prev fuel,
  nodes c = pre ++ chained_to tl (lenZ pre) l ++ post -> (length l <= fuel)%nat ->
  exists p, search fuel test prev (head_of (lenZ pre) l) c = Ret (inl (p, Z.add (lenZ pre) <$> index test l), c) /\
    (index test l = None -> p = match l with [] => prev | _ :: _ => last_of (lenZ pre) l end).
Proof.
  intros Ht. induction l as [|d l IH]; intros Hin pre post prev fuel Hn Hf; [by exists prev; destruct fuel|].
  destruct fuel as [|fuel]; simpl in Hf; [lia|]. cbn [head_of search].
  set (v := match l with [] => tl | _ :: _ => Some (lenZ pre + 1) end).
  rewrite (gbind_dev _ c (lenZ pre) (set_d_next v d)) by (rewrite Hn; apply nthZ_app_mid).
  rewrite Ht. cbn [index] in *. destruct (test d); [exists prev; split; [simpl; by rewrite Z.add_0_r|done]|].
  assert (lenZ (pre ++ [set_d_next v d]) = lenZ pre + 1) as El by (by rewrite lenZ_app).
  assert (index test l <> None \/ tl = None) as Hin' by (destruct Hin as [H|]; [left; by intros E; rewrite E in H|by right]).
  destruct (IH Hin' (pre ++ [set_d_next v d]) post (Some (lenZ pre)) fuel) as (p & Hp & Hlast); [|lia|].
  { rewrite El, Hn, <- app_assoc. done. }
  exists p. rewrite El in Hp, Hlast. split.
  - change (d_next (set_d_next v d)) with v.
    replace v with (head_of (lenZ pre + 1) l) by (subst v; destruct l; [destruct Hin' as [?| ->]|]; done).
    rewrite Hp. destruct (index test l) as [z|]; simpl; [|done]. by replace (lenZ pre + 1 + z) with (lenZ pre + Z.succ z) by lia.
  - intros E%fmap_None. rewrite Hlast by done. destruct l; simpl; [f_equal; unfold lenZ; simpl; lia|].
    f_equal. rewrite !lenZ_cons. lia.
Qed.

(** ** The tables as lists *)

Record spec := mkSpec {
  names : list (list Z);
  types : list dev_ent;
  devices : list dev_ent;
  link : option Z                 (* what malloc left in the link of the last type *)
}.

Definition symbols (ns : list (list Z)) : list sym_ent :=
  ((fun w => mkSym (Some w) 0) <$> ns) ++ replicate (Z.to_nat NSYMTAB - length ns) (mkSym None 0).

Record rep (sp : spec) (c : conf) : Prop := {
  rp_symtab : symtab c = symbols (names sp);
  rp_nsym : nsym c = lenZ (names sp);
  rp_nodes : nodes c = chained_to (link sp) 0 (types sp) ++ chained (lenZ (types sp)) (devices sp);
  rp_ftypes : ftypes c = head_of 0 (types sp);
  rp_currtype : currtype c = last_of 0 (types sp);
  rp_devs : devs c = head_of (lenZ (types sp)) (devices sp);
  rp_lastdv : lastdv c = last_of (lenZ (types sp)) (devices sp);
  rp_ndevs : ndevs c = lenZ (devices sp)
}.

(** A name that fits: shorter than [CONFMAXNM] and without a NUL. *)
Definition name_ok (w : list Z) : Prop := lenZ w < CONFMAXNM /\ 0 ∉ w.
(** The symbol numbers of an entry are those of symbols. *)
Record type_ok (n : Z) (d : dev_ent) : Prop := {
  to_tname : d_tname d = Some (d_tnum d) /\ 0 <= d_tnum d < n;
  to_device : exists j, d_device d = Some j /\ 0 <= j < n
}.

Definition kind_of (d : dev_ent) : option Z * option Z := (d_tname d, d_device d).

(** The array of a routine holds the name an attribute gave, or [ioerr] over
    what malloc left. *)
Definition code_ok (junk : nat -> dev_ent) (ns : list (list Z)) (r : routine) (b : list Z) : Prop :=
  (exists w, w ∈ ns /\ text_of b = Some w) \/ exists n, b = put ioerr 5 (d_code (junk n) r).
Definition codes_ok (junk : nat -> dev_ent) (ns : list (list Z)) (d : dev_ent) : Prop :=
  forall r, code_ok junk ns r (d_code d r).

Record typed (junk : nat -> dev_ent) (sp : spec) : Prop := {
  ty_room : lenZ (names sp) <= NSYMTAB;
  ty_names : NoDup (names sp) /\ forall w, w ∈ names sp -> name_ok w;
  ty_types : forall d, d ∈ types sp -> type_ok (lenZ (names sp)) d;
  ty_kinds : NoDup (kind_of <$> types sp);
  ty_devices : forall d, d ∈ devices sp -> type_ok (lenZ (names sp)) d /\ kind_of d ∈ kind_of <$> types sp /\
    exists i, d_name d = Some i /\ 0 <= i < lenZ (names sp);
  ty_unique : NoDup (d_name <$> devices sp);
  ty_codes : forall d, d ∈ types sp \/ d ∈ devices sp -> codes_ok junk (names sp) d
}.

(** What the operations on the tables leave alone: the scanner, the parser
    and the output. *)
Definition front (c : conf) :=
  (input c, condition c, brkcount c, linectr c, lookahead c, literal_string c, doing c, currtname c, confh c, confc c, report c).

(** ** Interning *)

Definition cut (w : list Z) : list Z := take (Z.to_nat (CONFMAXNM - 1)) w.

Definition intern (w : list Z) (sp : spec) : Z * spec :=
  match index (fun v => bool_decide (cut w = v)) (names sp) with
  | Some i => (i, sp)
  | None => (lenZ (names sp), mkSpec (names sp ++ [cut w]) (types sp) (devices sp) (link sp))
  end.

Lemma cut_ok w : 0 ∉ w -> name_ok (cut w).
Proof.
  intros Hw. split; [unfold cut; rewrite lenZ_take; unfold CONFMAXNM; lia|].
  intros Hin. apply Hw. unfold cut in Hin. rewrite <- (take_drop (Z.to_nat (CONFMAXNM - 1)) w). set_solver.
Qed.

Lemma take_name w : name_ok w -> take (Z.to_nat CONFMAXNM) w = w.
Proof. intros [Hw _]. apply take_ge. unfold lenZ, CONFMAXNM in *. lia. Qed.

Lemma symbols_at pre w rest : nthZ (symbols (pre ++ w :: rest)) (lenZ pre) = Some (mkSym (Some w) 0).
Proof.
  unfold symbols. rewrite fmap_app, fmap_cons, <- app_assoc. simpl.
  replace (lenZ pre) with (lenZ ((fun w => mkSym (Some w) 0) <$> pre)) by (unfold lenZ; by rewrite length_fmap).
  apply nthZ_app_mid.
Qed.

Lemma lookup_loop_run c s rest : 0 ∉ s -> lenZ s < CONFMAXNM -> forall pre,
  symtab c = symbols (pre ++ rest) -> (forall w, w ∈ rest -> name_ok w) ->
  lookup_loop (length rest) s (lenZ pre) c =
  Ret (inl (Z.add (lenZ pre) <$> index (fun v => bool_decide (s = v)) rest), c).
Proof.
  intros Hs Hl. induction rest as [|w rest IH]; intros pre Hsym Hok; [done|]. cbn [length lookup_loop index].
  rewrite (gbind_sym _ c _ (mkSym (Some w) 0)) by (rewrite Hsym; apply symbols_at).
  rewrite (gbind_must _ w) by done. rewrite (take_name s), (take_name w) by (done || apply Hok; left).
  destruct (bool_decide (s = w)); [simpl; by rewrite Z.add_0_r|].
  replace (lenZ pre + 1) with (lenZ (pre ++ [w])) by (by rewrite lenZ_app).
  rewrite IH; [|by rewrite <- app_assoc|intros v Hv; apply Hok; by right].
  destruct (index _ rest) as [z|]; simpl; [|done]. rewrite lenZ_app. change (lenZ [w]) with 1.
  by replace (lenZ pre + 1 + z) with (lenZ pre + Z.succ z) by lia.
Qed.

(** The first free entry. *)
Lemma symbols_free ns w : lenZ ns < NSYMTAB ->
  nthZ (symbols ns) (lenZ ns) = Some (mkSym None 0) /\
  updZ (lenZ ns) (mkSym (Some w) 0) (symbols ns) = symbols (ns ++ [w]).
Proof.
  intros Hn. unfold symbols. rewrite fmap_app, length_app. simpl.
  replace (Z.to_nat NSYMTAB - length ns)%nat with (S (Z.to_nat NSYMTAB - (length ns + 1))) by (unfold lenZ, NSYMTAB in *; lia).
  replace (lenZ ns) with (lenZ ((fun w => mkSym (Some w) 0) <$> ns)) by (unfold lenZ; by rewrite length_fmap).
  simpl. split; [apply nthZ_app_mid|]. rewrite updZ_app_mid. by rewrite <- app_assoc.
Qed.

Lemma intern_case w sp : (exists i, intern w sp = (i, sp) /\ 0 <= i < lenZ (names sp)) \/
  (intern w sp = (lenZ (names sp), mkSpec (names sp ++ [cut w]) (types sp) (devices sp) (link sp)) /\ cut w ∉ names sp).
Proof.
  unfold intern. destruct (index _ (names sp)) as [i|] eqn:E.
  - left. exists i. split; [done|]. destruct (index_Some _ _ _ E) as (d & Hd & _). by eapply nthZ_Some_lt.
  - right. split; [done|]. intros Hin. rewrite index_None in E. specialize (E _ Hin). simpl in E.
    by rewrite bool_decide_eq_true_2 in E.
Qed.

(** The warning of a name that is too long. *)
Definition too_long (w : list Z) : list Z :=
  if CONFMAXNM <=? lenZ w then chars "warning: name " ++ w ++ chars " truncated" ++ NL else [].

Lemma lookup_run junk w sp c : rep sp c -> typed junk sp -> 0 ∉ w -> lenZ (names sp) < NSYMTAB \/ cut w ∈ names sp ->
  exists c', lookup w c = Ret (inl (fst (intern w sp)), c') /\ rep (snd (intern w sp)) c' /\ front c' = front c /\
    errors c' = errors c ++ too_long w.
Proof.
  intros Hr Ht Hw Hroom. destruct Hr as [R1 R2 R3 R4 R5 R6 R7 R8]. destruct (cut_ok w Hw) as [Hc1 Hc2].
  set (c1 := set_errors (errors c ++ too_long w) c).
  assert (lookup w c = (r <<- lookup_loop (length (names sp)) (cut w) 0 ;;
    match r with
    | Some i => gret i
    | None => wr_sym (nsym c) (mkSym (Some (cut w)) 0) ;;. gset (set_nsym (nsym c + 1)) ;;. gret (nsym c)
    end) c1) as ->.
  { unfold lookup, too_long in *. rewrite R2. subst c1. unfold lenZ at 4. destruct (CONFMAXNM <=? lenZ w).
    - unfold complain. gstep. simpl. rewrite R2. unfold lenZ. by rewrite Nat2Z.id.
    - gstep. rewrite R2. unfold lenZ. rewrite Nat2Z.id, app_nil_r. by destruct c. }
  pose proof (lookup_loop_run c1 (cut w) (names sp) Hc2 Hc1 [] R1 (proj2 (ty_names _ _ Ht))) as Hloop.
  change (lenZ []) with 0 in Hloop. rewrite (gbind_inl _ _ _ _ _ Hloop). unfold intern.
  destruct (index _ (names sp)) as [i|] eqn:E; simpl.
  - exists c1. split; [done|]. split; [by constructor|]. done.
  - destruct Hroom as [Hroom|Hin].
    2: { rewrite index_None in E. specialize (E _ Hin). simpl in E. by rewrite bool_decide_eq_true_2 in E. }
    destruct (symbols_free (names sp) (cut w) Hroom) as [Hfree Hupd]. unfold wr_sym. gstep.
    rewrite (gbind_sym _ _ _ (mkSym None 0)) by (simpl; by rewrite R1, R2). gstep. rewrite R2.
    eexists. split; [done|]. split; [|done]. constructor; simpl; try done; [by rewrite R1|by rewrite lenZ_app].
Qed.

Lemma type_ok_grows n n' d : n <= n' -> type_ok n d -> type_ok n' d.
Proof. intros Hn [[H1 H2] (j & Hj & Hr)]. constructor; [split; [done|lia]|exists j; split; [done|lia]]. Qed.

Lemma codes_ok_grows junk ns l d : codes_ok junk ns d -> codes_ok junk (ns ++ l) d.
Proof. intros H r. destruct (H r) as [(w & Hw & E)|?]; [left; exists w; split; [set_solver|done]|by right]. Qed.

Lemma intern_typed junk w sp : typed junk sp -> 0 ∉ w -> lenZ (names sp) < NSYMTAB \/ cut w ∈ names sp ->
  typed junk (snd (intern w sp)) /\ 0 <= fst (intern w sp) < lenZ (names (snd (intern w sp))) /\
  nthZ (names (snd (intern w sp))) (fst (intern w sp)) = Some (cut w).
Proof.
  intros Ht Hw Hroom. unfold intern. destruct (index _ (names sp)) as [i|] eqn:E; simpl.
  - destruct (index_Some _ _ _ E) as (v & Hv & Heq%bool_decide_eq_true & _). split; [done|]. rewrite Heq.
    split; [by eapply nthZ_Some_lt|done].
  - destruct Hroom as [Hroom|Hin].
    2: { rewrite index_None in E. specialize (E _ Hin). simpl in E. by rewrite bool_decide_eq_true_2 in E. }
    split; [|split; [rewrite lenZ_app; unfold lenZ; simpl; lia|apply nthZ_app_mid]].
    destruct Ht as [T1 [T2 T3] T4 T5 T6 T7 T8]. assert (lenZ (names sp ++ [cut w]) = lenZ (names sp) + 1) as El by (by rewrite lenZ_app).
    constructor; simpl; rewrite ?El; [lia|split|..]; try done.
    + apply NoDup_app. split; [done|]. split; [|apply NoDup_singleton]. intros v Hv ->%list_elem_of_singleton.
      rewrite index_None in E. specialize (E _ Hv). simpl in E. by rewrite bool_decide_eq_true_2 in E.
    + intros v [Hv| ->%list_elem_of_singleton]%elem_of_app; [by apply T3|by apply cut_ok].
    + intros d Hd. apply (type_ok_grows (lenZ (names sp))); [lia|auto].
    + intros d Hd. destruct (T6 d Hd) as (H1 & H2 & i & H3 & H4).
      split; [apply (type_ok_grows (lenZ (names sp))); [lia|done]|]. split; [done|]. exists i. split; [done|lia].
    + intros d Hd. by apply codes_ok_grows, T8.
Qed.

(** There is room for the name, or it is there. *)
Definition room (w : list Z) (sp : spec) : bool :=
  bool_decide (lenZ (names sp) < NSYMTAB) || bool_decide (cut w ∈ names sp).

Lemma room_true w sp : room w sp = true -> lenZ (names sp) < NSYMTAB \/ cut w ∈ names sp.
Proof. unfold room. intros [?%bool_decide_eq_true|?%bool_decide_eq_true]%orb_prop; auto. Qed.

(** With a full table a new name goes past its end. *)
Lemma lookup_overflow junk w sp c : rep sp c -> typed junk sp -> 0 ∉ w -> room w sp = false -> lookup w c = Fault OutOfBounds.
Proof.
  intros [R1 R2 _ _ _ _ _ _] Ht Hw [Hfull%bool_decide_eq_false Hnew%bool_decide_eq_false]%orb_false_elim.
  pose proof (ty_room _ _ Ht). destruct (cut_ok w Hw) as [Hc1 Hc2].
  assert (index (fun v => bool_decide (cut w = v)) (names sp) = None) as Hi.
  { apply index_None. intros u Hu. apply bool_decide_eq_false_2. by intros <-. }
  assert (forall c1, symtab c1 = symtab c -> nsym c1 = nsym c ->
    (r <<- lookup_loop (Z.to_nat (nsym c)) (cut w) 0 ;;
     match r with
     | Some i => gret i
     | None => wr_sym (nsym c) (mkSym (Some (cut w)) 0) ;;. gset (set_nsym (nsym c + 1)) ;;. gret (nsym c)
     end) c1 = Fault OutOfBounds) as Hrest.
  { intros c1 Hs Hn. rewrite R2. unfold lenZ at 1. rewrite Nat2Z.id.
    pose proof (lookup_loop_run c1 (cut w) (names sp) Hc2 Hc1 []) as Hl. change (lenZ []) with 0 in Hl.
    rewrite (gbind_inl _ _ _ _ _ (Hl ltac:(by rewrite Hs) (proj2 (ty_names _ _ Ht)))), Hi. simpl.
    unfold wr_sym, rd_sym. gstep. rewrite Hs, R1. unfold symbols. rewrite nthZ_None; [done|].
    rewrite lenZ_app, lenZ_replicate. unfold lenZ in *. rewrite length_fmap. lia. }
  unfold lookup. destruct (CONFMAXNM <=? lenZ w); [unfold complain|]; gstep; by apply Hrest.
Qed.

(** ** Attributes *)

Definition with_attr (tok : token) (val : Z) (ns : list (list Z)) (d : dev_ent) : dev_ent :=
  match tok with
  | CSR => set_d_csr val d
  | IRQ => set_d_irq val d
  | _ => match routine_of tok with
         | Some r => set_code r (put (default [] (nthZ ns val)) (Z.to_nat CONFMAXNM) (d_code d r)) d
         | None => d
         end
  end.

Fixpoint upd_last (f : dev_ent -> dev_ent) (l : list dev_ent) : list dev_ent :=
  match l with
  | [] => []
  | [d] => [f d]
  | d :: l' => d :: upd_last f l'
  end.

Lemma upd_last_snoc f l d : upd_last f (l ++ [d]) = l ++ [f d].
Proof. induction l as [|x l IH]; [done|]. simpl. rewrite IH. by destruct l. Qed.

(** The attribute goes to the last device, or the last type while there is
    none. *)
Definition spec_attr (tok : token) (val : Z) (sp : spec) : spec :=
  let f := with_attr tok val (names sp) in
  match devices sp with
  | [] => mkSpec (names sp) (upd_last f (types sp)) [] (link sp)
  | _ :: _ => mkSpec (names sp) (types sp) (upd_last f (devices sp)) (link sp)
  end.

Definition attr_arg (tok : token) (val : Z) (sp : spec) : Prop :=
  (tok = CSR \/ tok = IRQ) \/ ((exists r, routine_of tok = Some r) /\ 0 <= val < lenZ (names sp)).

Lemma gbind_last {B} (f : dev_ent -> dev_ent) (k : unit -> G B) c tl pre l d post :
  nodes c = pre ++ chained_to tl (lenZ pre) (l ++ [d]) ++ post -> (forall v, f (set_d_next v d) = set_d_next v (f d)) ->
  gbind (upd_dev (lenZ pre + lenZ l) f) k c = k tt (set_nodes (pre ++ chained_to tl (lenZ pre) (l ++ [f d]) ++ post) c).
Proof.
  intros Hn Hf. rewrite chained_snoc, <- app_assoc, app_assoc in Hn. cbn [app] in Hn.
  assert (lenZ pre + lenZ l = lenZ (pre ++ links (lenZ pre) l)) as -> by (by rewrite lenZ_app, links_lenZ).
  rewrite (gbind_upd_dev _ _ c _ (set_d_next tl d)) by (rewrite Hn; apply nthZ_app_mid).
  rewrite Hn, updZ_app_mid, Hf. f_equal. f_equal. by rewrite chained_snoc, <- !app_assoc.
Qed.

(** The last entry gets a successor. *)
Lemma gbind_relink {B} (k : unit -> G B) c pre l d post n :
  nodes c = pre ++ chained (lenZ pre) (l ++ [d]) ++ post -> n = lenZ pre + lenZ l + 1 ->
  gbind (upd_dev (lenZ pre + lenZ l) (set_d_next (Some n))) k c =
  k tt (set_nodes (pre ++ links (lenZ pre) (l ++ [d]) ++ post) c).
Proof.
  intros Hn ->. rewrite chained_snoc, <- app_assoc, app_assoc in Hn. cbn [app] in Hn.
  replace (upd_dev (lenZ pre + lenZ l)) with (upd_dev (lenZ (pre ++ links (lenZ pre) l))) by (by rewrite lenZ_app, links_lenZ).
  rewrite (gbind_upd_dev _ _ c _ (set_d_next None d)) by (rewrite Hn; apply nthZ_app_mid).
  rewrite Hn, updZ_app_mid. f_equal. f_equal. by rewrite links_snoc, <- !app_assoc.
Qed.

Lemma with_attr_next tok val ns v d : with_attr tok val ns (set_d_next v d) = set_d_next v (with_attr tok val ns d).
Proof. by destruct tok. Qed.

(** The name of a symbol. *)
Lemma symbols_name ns i w : nthZ ns i = Some w -> nthZ (symbols ns) i = Some (mkSym (Some w) 0).
Proof.
  intros H. pose proof (nthZ_Some_lt _ _ _ H). unfold nthZ in *. destruct (0 <=? i); [|done].
  apply list_elem_of_split_length in H as (l1 & l2 & -> & El). pose proof (symbols_at l1 w l2) as Hat.
  unfold nthZ, lenZ in Hat. rewrite (proj2 (Z.leb_le 0 _)), Nat2Z.id in Hat by lia. by rewrite El.
Qed.

Lemma gbind_name {B} (k : sym_ent -> G B) sp c i w : rep sp c -> nthZ (names sp) i = Some w ->
  gbind (rd_sym i) k c = k (mkSym (Some w) 0) c.
Proof. intros Hr Hw. apply gbind_sym. rewrite (rp_symtab _ _ Hr). by apply symbols_name. Qed.

(** The entry that gets the attributes. *)
Lemma last_snoc base l (d : dev_ent) : last_of base (l ++ [d]) = Some (base + lenZ l).
Proof. unfold last_of. rewrite lenZ_app. change (lenZ [d]) with 1. destruct l; simpl; f_equal; lia. Qed.

Lemma newattr_run junk tok val sp c : rep sp c -> typed junk sp -> attr_arg tok val sp -> types sp <> [] ->
  exists c', newattr tok val c = Ret (inl tt, c') /\ rep (spec_attr tok val sp) c' /\ front c' = front c /\ errors c' = errors c.
Proof.
  intros Hr Ht Harg Hne. pose proof Hr as [R1 R2 R3 R4 R5 R6 R7 R8].
  set (w := default [] (nthZ (names sp) val)).
  assert (exists tl pre l d post, nodes c = pre ++ chained_to tl (lenZ pre) (l ++ [d]) ++ post /\
    (match devs c with None => currtype c | Some _ => lastdv c end) = Some (lenZ pre + lenZ l) /\
    forall c', c' = set_nodes (pre ++ chained_to tl (lenZ pre) (l ++ [with_attr tok val (names sp) d]) ++ post) c ->
      rep (spec_attr tok val sp) c') as (tl & pre & l & d & post & Hn & Hs & Hrep).
  { destruct (devices sp) as [|x ds0] eqn:Ed.
    - destruct (exists_last Hne) as (ts & d & Et). exists (link sp), [], ts, d, [].
      split; [by rewrite R3, Et|]. split; [by rewrite R6, R5, Et, last_snoc|]. intros c' ->. unfold spec_attr. rewrite Ed, Et.
      rewrite upd_last_snoc. constructor; simpl; try done.
      + rewrite R4, Et. by destruct ts.
      + by rewrite R5, Et, !last_snoc.
    - rewrite <- Ed in *. assert (devices sp <> []) as Hd by (by rewrite Ed).
      destruct (exists_last Hd) as (ds & d & Ed'). exists None, (chained_to (link sp) 0 (types sp)), ds, d, [].
      rewrite chained_lenZ. split; [by rewrite R3, Ed', app_nil_r|].
      split; [rewrite R6, R7, Ed', last_snoc; by destruct ds|]. intros c' ->. unfold spec_attr. rewrite Ed.
      rewrite <- Ed, Ed', upd_last_snoc. constructor; simpl; try done.
      + by rewrite app_nil_r.
      + rewrite R6, Ed'. by destruct ds.
      + by rewrite R7, Ed', !last_snoc.
      + by rewrite R8, Ed', !lenZ_app. }
  exists (set_nodes (pre ++ chained_to tl (lenZ pre) (l ++ [with_attr tok val (names sp) d]) ++ post) c).
  split; [|split; [by apply Hrep|done]].
  set (c0 := if (0 <=? val) && (val <? lenZ (names sp)) then Some w else None).
  assert (forall B (k : option (list Z) -> G B),
    gbind (if (0 <=? val) && (val <? nsym c) then
             e <<- rd_sym val ;; name <<- gmust (sy_name e) ;;
             if CONFMAXNM <=? lenZ name then complain (chars "Internal overflow" ++ NL) ;;. exit 1 else gret (Some name)
           else gret None) k c = k c0 c) as Hname.
  { intros B k. subst c0. rewrite R2. destruct ((0 <=? val) && (val <? lenZ (names sp))) eqn:E; [|done].
    destruct (nthZ_lt_Some (names sp) val) as [v Hv]; [lia|]. gstep. rewrite (gbind_name _ sp _ _ v) by done. gstep.
    rewrite (gbind_must _ v) by done. subst w. rewrite Hv. simpl.
    assert (v ∈ names sp) as Hin by (unfold nthZ in Hv; destruct (0 <=? val); [by eapply list_elem_of_lookup_2|done]).
    destruct (proj2 (ty_names _ _ Ht) v Hin) as [Hl _]. by rewrite (proj2 (Z.leb_gt _ _)). }
  assert (newattr tok val c = gbind (upd_dev (lenZ pre + lenZ l) (with_attr tok val (names sp))) gret c) as ->.
  { rewrite gbind_eta. unfold newattr. gstep. destruct (devs c); gstep; rewrite Hs, Hname;
      (destruct Harg as [[-> | ->]|[[r Er] Hv]]; [by rewrite (gbind_must _ (lenZ pre + lenZ l))..|]);
      subst c0; rewrite (proj2 (Z.leb_le 0 val)), (proj2 (Z.ltb_lt val _)) by lia;
      destruct tok; try done; simpl in Er; injection Er as <-;
      by rewrite (gbind_must _ (lenZ pre + lenZ l)), (gbind_must _ w). }
  rewrite (gbind_last _ _ _ tl pre l d post); [done|done|]. intros v. apply with_attr_next.
Qed.

(** ** Declarations *)

Definition type_named (t : Z) (s : dev_ent) : bool := bool_decide (d_tname s = Some t).
Definition type_on (t d : Z) (s : dev_ent) : bool := bool_decide (d_tname s = Some t) && bool_decide (d_device s = Some d).
Definition device_named (n : Z) (s : dev_ent) : bool := bool_decide (d_name s = Some n).

(** What the program makes of a file: tables, an exit with 1, a name past the
    end of the symbol table, or a step along a stray link. *)
Inductive verdict (A : Type) :=
  | Good (a : A)
  | Refused
  | Overflow
  | Stray.
Arguments Good {A} a.
Arguments Refused {A}.
Arguments Overflow {A}.
Arguments Stray {A}.

#[export] Instance verdict_bind : MBind verdict := fun A B f v =>
  match v with Good a => f a | Refused => Refused | Overflow => Overflow | Stray => Stray end.
#[export] Instance verdict_fmap : FMap verdict := fun A B f v => a ← v; Good (f a).

Lemma vbind_Good {A B} (v : verdict A) (f : A -> verdict B) b : v ≫= f = Good b -> exists a, v = Good a /\ f a = Good b.
Proof. destruct v; [eauto|done..]. Qed.

(** A name that is looked up. *)
Definition enter (w : list Z) (sp : spec) : verdict (Z * spec) := if room w sp then Good (intern w sp) else Overflow.

(** A search without success has followed the link of the last type. *)
Definition missed {A} (sp : spec) (v : verdict A) : verdict A :=
  match link sp with None => v | Some _ => Stray end.

(** A type entry, written over [s]. *)
Definition fresh_type (t d : Z) (s : dev_ent) : dev_ent :=
  mkDev None (Some t) t (Some d) 0 0 (fun r => put ioerr 5 (d_code s r)) 0 None.

Definition new_type (i : Z) (sp : spec) : verdict Z :=
  match index (type_named i) (types sp) with Some _ => Refused | None => missed sp (Good i) end.

Definition new_device (i : Z) (sp : spec) : verdict Z :=
  match index (device_named i) (devices sp) with Some _ => Refused | None => Good i end.

(** The [n]-th entry is written over [junk n]. *)
Definition spec_type (junk : nat -> dev_ent) (t d : Z) (sp : spec) : verdict spec :=
  match index (type_on t d) (types sp) with
  | Some _ => Refused
  | None => missed sp (let s := junk (length (types sp)) in
      Good (mkSpec (names sp) (types sp ++ [fresh_type t d s]) (devices sp) (d_next s)))
  end.

(** A device is a copy of the first entry of its type and place, with a name
    of its own. *)
Definition spec_device (n t d : Z) (sp : spec) : verdict spec :=
  match i ← index (type_on t d) (types sp); nthZ (types sp) i with
  | Some s => Good (mkSpec (names sp) (types sp) (devices sp ++ [set_d_name (Some n) (set_d_next None s)]) (link sp))
  | None => missed sp Refused
  end.

Lemma sym_ptr_at {B} (k : option Z -> G B) ns c i : symtab c = symbols ns -> 0 <= i < lenZ ns ->
  gbind (sym_ptr i) k c = k (Some i) c.
Proof.
  intros Hr Hi. destruct (nthZ_lt_Some ns i Hi) as [w Hw]. unfold sym_ptr. gstep.
  rewrite (gbind_sym _ _ _ (mkSym (Some w) 0)); [done|]. rewrite Hr. by apply symbols_name.
Qed.

Lemma sym_ptr_run {B} (k : option Z -> G B) sp c i : rep sp c -> 0 <= i < lenZ (names sp) ->
  gbind (sym_ptr i) k c = k (Some i) c.
Proof. intros Hr. apply sym_ptr_at, Hr. Qed.

Lemma sym_text_at {B} (k : list Z -> G B) ns c i w : symtab c = symbols ns -> nthZ ns i = Some w ->
  gbind (sym_text (Some i)) k c = k w c.
Proof.
  intros Hr Hw. unfold sym_text. gstep. rewrite (gbind_must _ i) by done. gstep.
  rewrite (gbind_sym _ _ _ (mkSym (Some w) 0)) by (rewrite Hr; by apply symbols_name). by rewrite (gbind_must _ w).
Qed.

Lemma sym_text_run {B} (k : list Z -> G B) sp c i w : rep sp c -> nthZ (names sp) i = Some w ->
  gbind (sym_text (Some i)) k c = k w c.
Proof. intros Hr. apply sym_text_at, Hr. Qed.

Lemma search_types_at test tl ts post c : nodes c = chained_to tl 0 ts ++ post -> ftypes c = head_of 0 ts -> linkless test ->
  index test ts <> None \/ tl = None ->
  exists p, search_list test (ftypes c) c = Ret (inl (p, index test ts), c) /\ (index test ts = None -> p = last_of 0 ts).
Proof.
  intros Hn Hf Ht Hin. destruct (search_run c test tl ts Ht Hin [] post None (length (nodes c)))
    as (p & Hp & Hl); [done|rewrite Hn, length_app; pose proof (chained_lenZ tl 0 ts); unfold lenZ in *; lia|].
  exists p. split; [|intros E; rewrite Hl by done; by destruct ts].
  unfold search_list. gstep. change (lenZ []) with 0 in Hp. rewrite Hf, Hp. by destruct (index test ts).
Qed.

Lemma search_types test sp c : rep sp c -> linkless test -> index test (types sp) <> None \/ link sp = None ->
  exists p, search_list test (ftypes c) c = Ret (inl (p, index test (types sp)), c) /\
    (index test (types sp) = None -> p = last_of 0 (types sp)).
Proof. intros Hr. eapply search_types_at; apply Hr. Qed.

Lemma search_devices test sp c : rep sp c -> linkless test ->
  exists p, search_list test (devs c) c = Ret (inl (p, Z.add (lenZ (types sp)) <$> index test (devices sp)), c).
Proof.
  intros Hr Ht. pose proof (chained_lenZ (link sp) 0 (types sp)) as E0.
  destruct (search_run c test None (devices sp) Ht (or_intror eq_refl) (chained_to (link sp) 0 (types sp)) [] None (length (nodes c)))
    as (p & Hp & _); [rewrite E0, app_nil_r; apply Hr| |].
  { rewrite (rp_nodes _ _ Hr), length_app. pose proof (chained_lenZ None (lenZ (types sp)) (devices sp)). unfold lenZ in *. lia. }
  exists p. unfold search_list. gstep. rewrite (rp_devs _ _ Hr). rewrite E0 in Hp. by rewrite Hp.
Qed.

(** The program gives up: it has written a message, and exits with 1. *)
Definition gives_up {A} (r : outcome ((A + Z) * conf)) : Prop := exists c', r = Ret (inr 1, c').

(** What the program does is what the verdict says; of a stray link nothing is
    said. *)
Definition follows {A B} (v : verdict A) (good : A -> outcome ((B + Z) * conf) -> Prop) (r : outcome ((B + Z) * conf)) : Prop :=
  match v with
  | Good a => good a r
  | Refused => gives_up r
  | Overflow => r = Fault OutOfBounds
  | Stray => True
  end.

Lemma complain_exit {A} w c : gives_up ((complain w ;;. @exit A 1) c).
Proof. eexists. reflexivity. Qed.

Lemma name_of sp i : 0 <= i < lenZ (names sp) -> exists w, nthZ (names sp) i = Some w.
Proof. apply nthZ_lt_Some. Qed.

(** A search is sound when it finds something or the link is null. *)
Lemma search_sound (test : dev_ent -> bool) sp : (index test (types sp) <> None \/ link sp = None) \/
  (index test (types sp) = None /\ exists l, link sp = Some l).
Proof. destruct (index test (types sp)); [by left; left|]. destruct (link sp); [right; eauto|by left; right]. Qed.

Lemma cktname_run sp c i : rep sp c -> 0 <= i < lenZ (names sp) ->
  follows (new_type i sp) (fun j r => j = i /\ r = Ret (inl i, c)) (cktname i c).
Proof.
  intros Hr Hi. unfold new_type, missed.
  destruct (search_sound (type_named i) sp) as [Hs|[-> (l & ->)]]; [|done].
  unfold cktname. rewrite (sym_ptr_run _ sp) by done. gstep.
  destruct (search_types (type_named i) sp c Hr) as (p & E & _); [done|done|].
  unfold type_named in E. rewrite (gbind_inl _ _ _ _ _ E). unfold type_named in *. simpl.
  destruct (index _ _); [|by destruct Hs as [?| ->]].
  destruct (name_of sp i Hi) as [w Hw]. rewrite (sym_text_run _ sp _ _ w) by done. gstep. apply complain_exit.
Qed.

Lemma ckdname_run sp c i : rep sp c -> 0 <= i < lenZ (names sp) ->
  follows (new_device i sp) (fun j r => j = i /\ r = Ret (inl i, c)) (ckdname i c).
Proof.
  intros Hr Hi. unfold ckdname, new_device. rewrite (sym_ptr_run _ sp) by done. gstep.
  destruct (search_devices (device_named i) sp c Hr) as (p & E); [done|].
  unfold device_named in E. rewrite (gbind_inl _ _ _ _ _ E). unfold device_named. destruct (index _ _); [|done]. simpl.
  destruct (name_of sp i Hi) as [w Hw]. rewrite (sym_text_run _ sp _ _ w) by done. gstep. apply complain_exit.
Qed.

Section Declarations.
Context (junk : nat -> dev_ent).

Lemma new_dev_run {B} (k : Z -> G B) c :
  gbind (new_dev junk) k c = k (lenZ (nodes c)) (set_nodes (nodes c ++ [junk (length (nodes c))]) c).
Proof using. done. Qed.

(** The entry written over fresh memory. *)
Lemma initattr_run sp c pre t d x : rep sp c -> 0 <= t < lenZ (names sp) -> 0 <= d < lenZ (names sp) ->
  forall c', symtab c' = symtab c -> nodes c' = pre ++ [x] ->
  initattr (lenZ pre) t d c' = Ret (inl tt, set_nodes (pre ++ [set_d_next (d_next x) (fresh_type t d x)]) c').
Proof using.
  intros Hr Ht Hd c' Es En. unfold initattr.
  rewrite !(sym_ptr_at _ (names sp)) by (done || (rewrite Es; apply Hr)). rewrite <- gbind_eta, (gbind_upd_dev _ _ c' _ x) by (rewrite En; apply nthZ_app_mid).
  rewrite En, updZ_app_mid. done.
Qed.

(** What an operation on the tables has done when it returns. *)
Definition updated (c : conf) (sp' : spec) (r : outcome ((unit + Z) * conf)) : Prop :=
  exists c', r = Ret (inl tt, c') /\ rep sp' c' /\ front c' = front c /\ errors c' = errors c.

Lemma mktype_run sp c t d : rep sp c -> devices sp = [] -> currtname c = t ->
  0 <= t < lenZ (names sp) -> 0 <= d < lenZ (names sp) ->
  follows (spec_type junk t d sp) (updated c) (mktype junk d c).
Proof using.
  intros Hr Hdev Hcur Ht Hd. unfold spec_type, missed.
  destruct (search_sound (type_on t d) sp) as [Hs|[-> (l & ->)]]; [|done].
  pose proof Hr as [R1 R2 R3 R4 R5 R6 R7 R8]. unfold mktype. gstep. rewrite Hcur.
  rewrite !(sym_ptr_run _ sp) by done. gstep.
  destruct (search_types (type_on t d) sp c Hr) as (p & E & Hp); [done|done|].
  unfold type_on in E. rewrite (gbind_inl _ _ _ _ _ E). fold (type_on t d) in *.
  change (fun s => bool_decide (d_tname s = Some t) && bool_decide (d_device s = Some d)) with (type_on t d) in *.
  destruct (index (type_on t d) (types sp)) eqn:Ei; cbn [snd fst].
  { destruct (name_of sp d Hd) as [wd Hwd], (name_of sp t Ht) as [wt Hwt].
    rewrite (sym_text_run _ sp _ _ wd), (sym_text_run _ sp _ _ wt) by done. gstep. apply complain_exit. }
  destruct Hs as [?|Hl]; [done|]. rewrite Hl in *. cbn [follows].
  gstep. rewrite new_dev_run. gstep. rewrite Hdev in R3, R6, R7, R8. simpl in R3. rewrite app_nil_r in R3.
  assert (length (nodes c) = length (types sp)) as En by (rewrite R3; pose proof (chained_lenZ None 0 (types sp)); unfold lenZ in *; lia).
  rewrite En. set (x := junk (length (types sp))).
  assert (forall c2 pre, symtab c2 = symtab c -> nodes c2 = links 0 (types sp) ++ [x] -> nsym c2 = nsym c ->
    ftypes c2 = head_of 0 (types sp ++ [fresh_type t d x]) -> currtype c2 = Some (lenZ (types sp)) -> devs c2 = devs c ->
    lastdv c2 = lastdv c -> ndevs c2 = ndevs c -> front c2 = front c -> errors c2 = errors c -> pre = lenZ (nodes c) ->
    updated c (mkSpec (names sp) (types sp ++ [fresh_type t d x]) (devices sp) (d_next x)) (initattr pre t d c2)) as Hend.
  { intros c2 pre E1 E2 E3 E4 E5 E6 E7 E8 E9 E10 ->. rewrite R3, chained_lenZ, <- (links_lenZ 0).
    rewrite (initattr_run sp c _ t d x Hr Ht Hd c2 E1 E2). eexists. split; [done|]. rewrite <- chained_snoc.
    split; [|by rewrite <- E9, <- E10]. constructor; simpl; rewrite ?Hdev; try congruence.
    - by rewrite app_nil_r.
    - by rewrite E5, last_snoc.
    - by rewrite E6, R6.
    - by rewrite E7, R7. }
  destruct (types sp) as [|y l] eqn:El.
  - rewrite R4. simpl. gstep. apply Hend; try done; simpl; by rewrite R3.
  - rewrite <- El in *. assert (types sp <> []) as Hne by (by rewrite El).
    replace (ftypes c) with (Some 0) by (by rewrite R4, El).
    destruct (exists_last Hne) as (ts & e & Et). gstep.
    rewrite (gbind_must _ (0 + lenZ ts)) by (rewrite Hp, Et by done; apply last_snoc).
    rewrite (gbind_relink _ _ [] ts e [x]); [|simpl; by rewrite R3, Et|by rewrite R3, Et, chained_lenZ, lenZ_app].
    apply Hend; try done; simpl; [by rewrite Et|by rewrite R4, El|by rewrite R3, chained_lenZ].
Qed.

Lemma chained_at tl base l i d : nthZ l i = Some d -> exists v, nthZ (chained_to tl base l) i = Some (set_d_next v d).
Proof.
  revert base i. induction l as [|x l IH]; intros base i Hi; [by rewrite nthZ_None in Hi by (unfold lenZ; simpl; lia)|].
  pose proof (nthZ_Some_lt _ _ _ Hi). cbn [chained_to]. destruct (decide (i = 0)) as [->|].
  - injection Hi as ->. by eexists.
  - rewrite nthZ_cons_pos in Hi |- * by lia. by apply IH.
Qed.

Lemma nthZ_app_l {A} (l1 l2 : list A) i x : nthZ l1 i = Some x -> nthZ (l1 ++ l2) i = Some x.
Proof. unfold nthZ. destruct (0 <=? i); [|done]. apply lookup_app_l_Some. Qed.

(** The part of [mkdev] after the new entry is linked in. *)
Lemma mkdev_found sp c2 n t d x c :
  symtab c2 = symbols (names sp) -> nsym c2 = lenZ (names sp) ->
  nodes c2 = (chained_to (link sp) 0 (types sp) ++ links (lenZ (types sp)) (devices sp)) ++ [x] ->
  ftypes c2 = head_of 0 (types sp) -> currtype c2 = last_of 0 (types sp) -> devs c2 = Some (lenZ (types sp)) ->
  lastdv c2 = Some (lenZ (types sp) + lenZ (devices sp)) -> ndevs c2 = lenZ (devices sp) + 1 ->
  front c2 = front c -> errors c2 = errors c ->
  0 <= n < lenZ (names sp) -> 0 <= t < lenZ (names sp) -> 0 <= d < lenZ (names sp) ->
  let s := lenZ (types sp) + lenZ (devices sp) in
  let r := (tn <<- sym_ptr t ;; devn <<- sym_ptr n ;;
    dn <<- (if 0 <=? d then sym_ptr d else gret None) ;;
    head <<- gget ftypes ;;
    r <<- search_list (fun s => bool_decide (d_tname s = tn) && (bool_decide (dn = None) || bool_decide (d_device s = dn))) head ;;
    match snd r with
    | Some t => ty <<- rd_dev t ;; upd_dev s (fun _ => ty)
    | None =>
        w <<- sym_text devn ;; n <<- gget linectr ;;
        complain (chars "Bad type or device name in declaration of " ++ w ++ on_line n) ;;. exit 1
    end ;;.
    upd_dev s (set_d_next None) ;;. upd_dev s (set_d_name devn)) c2 in
  follows (spec_device n t d sp) (updated c) r.
Proof using.
  intros E1 E2 E3 E4 E5 E6 E7 E8 E9 E10 Hn Ht Hd s r. subst r. unfold spec_device, missed.
  destruct (search_sound (type_on t d) sp) as [Hs|[-> (l & ->)]]; [|done].
  rewrite !(sym_ptr_at _ (names sp)) by done. rewrite (proj2 (Z.leb_le 0 d)) by lia.
  rewrite (sym_ptr_at _ (names sp)) by done. gstep. rewrite bool_decide_eq_false_2 by done. cbn [orb].
  destruct (search_types_at (type_on t d) (link sp) (types sp) (links (lenZ (types sp)) (devices sp) ++ [x]) c2) as (p & E & _);
    [by rewrite app_assoc|done|done|done|]. unfold type_on in E. rewrite (gbind_inl _ _ _ _ _ E).
  change (fun s => bool_decide (d_tname s = Some t) && bool_decide (d_device s = Some d)) with (type_on t d) in *.
  destruct (index (type_on t d) (types sp)) as [i|] eqn:Ei; cbn [snd mbind option_bind].
  2: { destruct Hs as [?| ->]; [done|]. destruct (name_of sp n Hn) as [w Hw]. rewrite gbind_assoc, (sym_text_at _ (names sp) _ _ w) by done. gstep.
       eexists. reflexivity. }
  destruct (index_Some _ _ _ Ei) as (ty & Hty & _). rewrite Hty.
  destruct (chained_at (link sp) 0 (types sp) i ty Hty) as [v Hv].
  assert (lenZ (chained_to (link sp) 0 (types sp) ++ links (lenZ (types sp)) (devices sp)) = s) as Es
    by (by rewrite lenZ_app, chained_lenZ, links_lenZ).
  gstep. rewrite (gbind_dev _ c2 i (set_d_next v ty)) by (rewrite E3, <- app_assoc; by apply nthZ_app_l).
  assert (forall B (k : unit -> G B) c0 x f, nodes c0 = (chained_to (link sp) 0 (types sp) ++ links (lenZ (types sp)) (devices sp)) ++ [x] ->
    gbind (upd_dev s f) k c0 = k tt (set_nodes ((chained_to (link sp) 0 (types sp) ++ links (lenZ (types sp)) (devices sp)) ++ [f x]) c0)) as Hupd.
  { intros B k c0 x0 f Hx. rewrite <- Es, (gbind_upd_dev _ _ c0 _ x0) by (rewrite Hx; apply nthZ_app_mid).
    by rewrite Hx, updZ_app_mid. }
  rewrite (Hupd _ _ c2 x) by done. rewrite (Hupd _ _ _ (set_d_next v ty)) by done.
  rewrite <- gbind_eta, (Hupd _ _ _ (set_d_next None (set_d_next v ty))) by done.
  eexists. split; [done|]. split; [|by rewrite <- E9, <- E10]. constructor; simpl; try done.
  - by rewrite chained_snoc, app_assoc.
  - rewrite E6. by destruct (devices sp).
  - by rewrite E7, last_snoc.
  - by rewrite E8, lenZ_app.
Qed.

Lemma typed_devices sp : typed junk sp -> lenZ (devices sp) <= NSYMTAB.
Proof using.
  intros [T1 _ _ _ T5 T6 _]. etrans; [|exact T1].
  assert (lenZ ((fun d => default 0 (d_name d)) <$> devices sp) <= Z.max 0 (lenZ (names sp))) as Hl.
  { apply NoDup_range_length.
    - pose proof (proj1 (NoDup_alt _) T6) as T7. apply NoDup_alt. intros i j x Hi Hj. rewrite !list_lookup_fmap in Hi, Hj.
      destruct (devices sp !! i) as [a|] eqn:Ea; [|done]. destruct (devices sp !! j) as [b|] eqn:Eb; [|done].
      destruct (T5 a) as (_ & _ & na & Hna & _); [by eapply list_elem_of_lookup_2|].
      destruct (T5 b) as (_ & _ & nb & Hnb & _); [by eapply list_elem_of_lookup_2|].
      simpl in Hi, Hj. rewrite Hna in Hi. rewrite Hnb in Hj. simpl in Hi, Hj.
      apply (T7 i j (Some na)); rewrite list_lookup_fmap, ?Ea, ?Eb; simpl; congruence.
    - intros x (d & -> & Hd)%list_elem_of_fmap. destruct (T5 d Hd) as (_ & _ & i & -> & Hi). done. }
  unfold lenZ in *. rewrite length_fmap in Hl. lia.
Qed.

Lemma mkdev_run sp c n t d : rep sp c -> typed junk sp ->
  0 <= n < lenZ (names sp) -> 0 <= t < lenZ (names sp) -> 0 <= d < lenZ (names sp) ->
  follows (spec_device n t d sp) (updated c) (mkdev junk n t d c).
Proof using.
  intros Hr Hty Hn Ht Hd. pose proof Hr as [R1 R2 R3 R4 R5 R6 R7 R8]. unfold mkdev. gstep.
  rewrite new_dev_run. gstep. assert (lenZ (nodes c) = lenZ (types sp) + lenZ (devices sp)) as En.
  { by rewrite R3, lenZ_app, !chained_lenZ. }
  set (x0 := junk (length (nodes c))). rewrite En, (gbind_upd_dev _ _ _ _ x0) by (simpl; rewrite <- En; apply nthZ_app_mid). gstep.
  cbn [nodes set_nodes]. rewrite <- En, updZ_app_mid. set (x := set_d_next None x0). rewrite En.
  assert (s32 (lenZ (devices sp) + 1) = lenZ (devices sp) + 1) as E32.
  { pose proof (typed_devices sp Hty). unfold lenZ, NSYMTAB in *. apply swrap_small; lia. }
  simpl. destruct (decide (devices sp = [])) as [Ed|Hne].
  - replace (devs c) with (@None Z) by (by rewrite R6, Ed). gstep.
    apply (mkdev_found _ _ _ _ _ x); simpl; rewrite ?Ed; simpl; try done.
    + by rewrite R3, Ed.
    + by rewrite Z.add_0_r.
    + by rewrite R8, Ed.
  - destruct (exists_last Hne) as (ds & e & Ee).
    replace (devs c) with (Some (lenZ (types sp))) by (rewrite R6; by destruct (devices sp)).
    gstep. cbn [lastdv set_nodes]. rewrite (gbind_must _ (lenZ (types sp) + lenZ ds)) by (rewrite R7, Ee; apply last_snoc).
    gstep. match goal with |- context [gbind (upd_dev _ _) ?k ?s] =>
      pose proof (gbind_relink k s (chained_to (link sp) 0 (types sp)) ds e [x] (lenZ (types sp) + lenZ (devices sp))) as Hlink end.
    rewrite chained_lenZ in Hlink. rewrite Hlink;
      [|simpl; by rewrite R3, Ee, <- app_assoc|rewrite Ee, lenZ_app; change (lenZ [e]) with 1; lia].
    gstep. apply (mkdev_found _ _ _ _ _ x); simpl; try done.
    + by rewrite Ee, app_assoc.
    + rewrite R6. by destruct (devices sp).
    + by rewrite R8, E32.
Qed.
End Declarations.

(** ** The operations keep the tables typed *)

Lemma text_of_app w b : 0 ∉ w -> text_of (w ++ 0 :: b) = Some w.
Proof.
  induction w as [|x w IH]; intros Hw; [done|]. simpl. rewrite (proj2 (Z.eqb_neq x 0)) by set_solver.
  rewrite IH by set_solver. done.
Qed.

Lemma put_text w b : name_ok w -> text_of (put w (Z.to_nat CONFMAXNM) b) = Some w.
Proof.
  intros [Hl H0]. unfold CONFMAXNM, lenZ in *. unfold put. change (Z.to_nat 20) with 20%nat.
  rewrite take_app, take_ge, take_replicate, Nat.min_l by lia.
  destruct (20 - length w)%nat as [|n] eqn:En; [lia|]. simpl. rewrite <- app_assoc. by apply text_of_app.
Qed.

Lemma type_ok_same n d d' : d_tname d' = d_tname d -> d_tnum d' = d_tnum d -> d_device d' = d_device d ->
  type_ok n d -> type_ok n d'.
Proof. intros E1 E2 E3 [H1 H2]. constructor; rewrite ?E1, ?E2, ?E3; done. Qed.

Lemma with_attr_fields tok val ns d : d_name (with_attr tok val ns d) = d_name d /\
  kind_of (with_attr tok val ns d) = kind_of d /\ d_tnum (with_attr tok val ns d) = d_tnum d.
Proof. by destruct tok. Qed.

Lemma with_attr_ok tok val ns n d : type_ok n d -> type_ok n (with_attr tok val ns d).
Proof.
  intros Hd. destruct (with_attr_fields tok val ns d) as (_ & [= E1 E2] & E3). by apply (type_ok_same _ d).
Qed.

Lemma with_attr_codes junk tok val sp d : typed junk sp -> attr_arg tok val sp -> codes_ok junk (names sp) d ->
  codes_ok junk (names sp) (with_attr tok val (names sp) d).
Proof.
  intros Ht Harg Hc r. destruct Harg as [[-> | ->]|[[r' Hr'] Hv]]; [apply Hc|apply Hc|].
  destruct (name_of sp val Hv) as [w Hw].
  assert (d_code (with_attr tok val (names sp) d) = <[r' := put w (Z.to_nat CONFMAXNM) (d_code d r')]> (d_code d)) as ->.
  { unfold with_attr. rewrite Hw. by destruct tok; try discriminate Hr'; injection Hr' as <-. }
  destruct (decide (r' = r)) as [->|Hne]; [|rewrite fn_lookup_insert_ne by done; apply Hc]. rewrite fn_lookup_insert.
  assert (w ∈ names sp) as Hin by (unfold nthZ in Hw; destruct (0 <=? val); [by eapply list_elem_of_lookup_2|done]).
  left. exists w. split; [done|]. by apply put_text, (ty_names _ _ Ht).
Qed.

Lemma upd_last_elem f l d : d ∈ upd_last f l -> d ∈ l \/ exists e, e ∈ l /\ d = f e.
Proof.
  destruct l as [|x l _] using rev_ind; [by left|]. rewrite upd_last_snoc. intros [?| ->%list_elem_of_singleton]%elem_of_app.
  - left. set_solver.
  - right. exists x. split; [set_solver|done].
Qed.

Lemma upd_last_fmap {B} (h : dev_ent -> B) f l : (forall d, h (f d) = h d) -> h <$> upd_last f l = h <$> l.
Proof. intros Hf. destruct l as [|x l _] using rev_ind; [done|]. by rewrite upd_last_snoc, !fmap_app; simpl; rewrite Hf. Qed.

Lemma spec_attr_typed junk tok val sp : typed junk sp -> attr_arg tok val sp -> typed junk (spec_attr tok val sp).
Proof.
  intros Ht Harg. pose proof Ht as [T1 T2 T3 T4 T5 T6 T7].
  pose proof (fun d => with_attr_fields tok val (names sp) d) as Hf.
  pose proof (fun d H => with_attr_codes junk tok val sp d Ht Harg H) as Hcode. unfold spec_attr.
  destruct (devices sp) as [|x ds] eqn:Ed.
  - constructor; simpl; try done.
    + intros d [Hd|(e & He & ->)]%upd_last_elem; [auto|]. by apply with_attr_ok, T3.
    + rewrite upd_last_fmap; [done|]. intros d. by destruct (Hf d) as (_ & -> & _).
    + by intros d ?%elem_of_nil.
    + intros d [[Hd|(e & He & ->)]%upd_last_elem|?%elem_of_nil]; [auto|auto|done].
  - rewrite <- Ed in *. constructor; simpl; try done.
    + intros d [Hd|(e & He & ->)]%upd_last_elem; [auto|]. destruct (Hf e) as (-> & -> & _).
      destruct (T5 e He) as (H1 & H2 & H3). split; [by apply with_attr_ok|done].
    + rewrite upd_last_fmap; [done|]. intros d. by destruct (Hf d) as (-> & _ & _).
    + intros d [Hd|[Hd|(e & He & ->)]%upd_last_elem]; auto.
Qed.

Lemma spec_type_typed junk t d sp sp' : typed junk sp -> devices sp = [] -> 0 <= t < lenZ (names sp) -> 0 <= d < lenZ (names sp) ->
  spec_type junk t d sp = Good sp' -> typed junk sp' /\ names sp' = names sp /\ devices sp' = [] /\ types sp' <> [].
Proof.
  intros Ht Hdev Htr Hdr. unfold spec_type, missed. destruct (index (type_on t d) (types sp)) eqn:E; [done|].
  destruct (link sp); [done|]. intros [= <-].
  split; [|split; [done|split; [done|by destruct (types sp)]]]. destruct Ht as [T1 T2 T3 T4 T5 T6 T7]. constructor; simpl; try done.
  - intros e [He| ->%list_elem_of_singleton]%elem_of_app; [auto|]. constructor; [done|by exists d].
  - rewrite fmap_app. apply NoDup_app. split; [done|]. split; [|apply NoDup_singleton].
    intros k (e & -> & He)%list_elem_of_fmap Hk%list_elem_of_singleton. rewrite index_None in E. specialize (E e He).
    unfold type_on in E. injection Hk as E1 E2. rewrite E1, E2, !bool_decide_eq_true_2 in E; done.
  - rewrite Hdev. by intros e ?%elem_of_nil.
  - intros e [[He| ->%list_elem_of_singleton]%elem_of_app|He]; [auto| |auto]. intros r. right. by eexists.
Qed.

Lemma spec_device_typed junk n t d sp sp' : typed junk sp -> 0 <= n < lenZ (names sp) ->
  index (device_named n) (devices sp) = None ->
  spec_device n t d sp = Good sp' -> typed junk sp' /\ names sp' = names sp /\ types sp' = types sp.
Proof.
  intros Ht Hn Hu. unfold spec_device, missed.
  destruct (index (type_on t d) (types sp)) as [i|] eqn:E; [|by simpl; destruct (link sp)]. simpl.
  destruct (index_Some _ _ _ E) as (ty & Hty & _). rewrite Hty. intros [= <-]. split; [|done].
  assert (ty ∈ types sp) as Hin by (unfold nthZ in Hty; destruct (0 <=? i); [by eapply list_elem_of_lookup_2|done]).
  destruct Ht as [T1 T2 T3 T4 T5 T6 T7]. constructor; simpl; try done.
  - intros e [He| ->%list_elem_of_singleton]%elem_of_app; [auto|]. split; [|split; [|by exists n]].
    + by apply (type_ok_same _ ty), T3.
    + change (kind_of (set_d_name (Some n) (set_d_next None ty))) with (kind_of ty). by apply list_elem_of_fmap_2.
  - rewrite fmap_app. apply NoDup_app. split; [done|]. split; [|apply NoDup_singleton].
    intros k (e & -> & He)%list_elem_of_fmap Hk%list_elem_of_singleton. rewrite index_None in Hu. specialize (Hu e He).
    unfold device_named in Hu. simpl in Hk. by rewrite Hk, bool_decide_eq_true_2 in Hu.
  - intros e [He|[He| ->%list_elem_of_singleton]%elem_of_app]; [auto..|]. apply (T7 ty). by left.
Qed.

(** ** Names and symbol numbers *)

Lemma intern_keeps w sp i v : nthZ (names sp) i = Some v -> nthZ (names (snd (intern w sp))) i = Some v.
Proof. unfold intern. destruct (index _ (names sp)); [done|]. simpl. apply nthZ_app_l. Qed.

(** lookup gives two names the same number exactly when they agree in
    their first 19 characters; the number leads to those characters, symbols
    already there keep theirs, and a new one takes the next free entry. *)
Theorem lookup_interns junk w v sp c : rep sp c -> typed junk sp -> 0 ∉ w -> 0 ∉ v -> lenZ (names sp) + 2 <= NSYMTAB ->
  exists i j c1 c2, lookup w c = Ret (inl i, c1) /\ lookup v c1 = Ret (inl j, c2) /\
  (i = j <-> take 19 w = take 19 v) /\
  nthZ (symtab c2) i = Some (mkSym (Some (take 19 w)) 0) /\ nthZ (symtab c2) j = Some (mkSym (Some (take 19 v)) 0) /\
  (forall k u, nthZ (names sp) k = Some u -> nthZ (symtab c2) k = nthZ (symtab c) k) /\
  (take 19 w ∉ names sp -> i = nsym c /\ nsym c1 = nsym c + 1) /\ front c2 = front c.
Proof.
  intros Hr Ht Hw Hv Hroom. change (take 19 w) with (cut w). change (take 19 v) with (cut v).
  destruct (lookup_run junk w sp c Hr Ht Hw) as (c1 & E1 & R1 & F1 & _); [left; lia|].
  destruct (intern_typed junk w sp Ht Hw) as (T1 & I1 & N1); [left; lia|].
  assert (lenZ (names (snd (intern w sp))) <= lenZ (names sp) + 1) as Hg.
  { destruct (intern_case w sp) as [(k & -> & _)|[-> _]]; simpl; [lia|]. rewrite lenZ_app. by unfold lenZ; simpl. }
  pose proof (intern_keeps w sp) as K1. pose proof (intern_case w sp) as Cw.
  destruct (intern w sp) as [i sp1] eqn:Ew. simpl in *.
  destruct (lookup_run junk v sp1 c1 R1 T1 Hv) as (c2 & E2 & R2 & F2 & _); [left; lia|].
  destruct (intern_typed junk v sp1 T1 Hv) as (T2 & I2 & N2); [left; lia|]. pose proof (intern_keeps v sp1) as K2.
  destruct (intern v sp1) as [j sp2] eqn:Ev. simpl in *. apply K2 in N1.
  exists i, j, c1, c2. split; [done|]. split; [done|]. split; [|split; [|split; [|split; [|split]]]].
  - split; [intros ->; congruence|]. intros Heq. rewrite <- Heq in N2.
    assert (NoDup (names sp2)) as Hnd by apply T2. unfold nthZ in N1, N2.
    rewrite (proj2 (Z.leb_le 0 _)) in N1 by lia. rewrite (proj2 (Z.leb_le 0 _)) in N2 by lia. pose proof (NoDup_lookup _ _ _ _ Hnd N1 N2). lia.
  - rewrite (rp_symtab _ _ R2). by apply symbols_name.
  - rewrite (rp_symtab _ _ R2). by apply symbols_name.
  - intros k u Hk. rewrite (rp_symtab _ _ R2), (rp_symtab _ _ Hr), !(symbols_name _ _ u); auto.
  - intros Hnew. rewrite (rp_nsym _ _ R1), (rp_nsym _ _ Hr). destruct Cw as [(k & [= -> ->] & Hk)|[[= -> ->] _]].
    + exfalso. apply Hnew. unfold intern in Ew. destruct (index _ (names sp)) as [i0|] eqn:Ei.
      * destruct (index_Some _ _ _ Ei) as (d & Hd & Hc%bool_decide_eq_true & _). rewrite Hc. unfold nthZ in Hd.
        destruct (0 <=? i0); [by eapply list_elem_of_lookup_2|done].
      * injection Ew as Ew1 Ew2. lia.
    + simpl. by rewrite lenZ_app.
  - by rewrite F2.
Qed.

(** The initial value of a routine has no terminator of its own: what
    follows it in the array is what malloc left there. *)
Lemma ioerr_unterminated x : x <> 0 -> text_of (put ioerr 5 [1; 2; 3; 4; 5; x; 0]) = Some (ioerr ++ [x]) /\
  text_of (put ioerr 5 (replicate 20 x)) = None.
Proof. intros Hx. cbn. rewrite (proj2 (Z.eqb_neq x 0) Hx). done. Qed.
