(* ===== verification/ConfigScan.v ===== *)
(** * The configuration generator: the tokens of a text

    What the scanner makes of a text as a function of the text alone, and
    that [yylex] computes it: every rule takes a character, so that the
    scanner always answers, and it touches none of the tables. *)

From Stdlib Require Import Ascii String.
From stdpp Require Import base numbers functions list sets.
From S2P Require Import Prelude CString Doprnt Config ConfigLang ConfigSpec.

(** ** The longest match *)

(** Every pattern matches a part of the text. *)
Lemma span_le P t : (span P t <= length t)%nat.
Proof. induction t as [|c t IH]; simpl; [done|]. destruct (P c); lia. Qed.

Lemma prefix_le w t : prefix w t = true -> (length w <= length t)%nat.
Proof. revert t. induction w as [|a w IH]; intros [|b t]; simpl; try done; [lia|]. intros [_ ?%IH]%andb_prop. lia. Qed.

Lemma word_le w t : (word w t <= length t)%nat.
Proof. unfold word. destruct (prefix w t) eqn:E; [by apply prefix_le|lia]. Qed.

Lemma switch_le w t : (switch w t <= length t)%nat.
Proof.
  unfold switch. destruct t as [|c t]; [apply word_le|]. destruct (c =? 45); [|apply word_le].
  destruct (prefix w t) eqn:E; simpl; [apply prefix_le in E|]; lia.
Qed.

Lemma first_then_le P Q t : (first_then P Q t <= length t)%nat.
Proof. unfold first_then. destruct t as [|c t]; simpl; [done|]. pose proof (span_le Q t). destruct (P c); lia. Qed.

Lemma HEX_le t : (HEX t <= length t)%nat.
Proof.
  unfold HEX. destruct (prefix _ t) eqn:E; [|lia]. apply prefix_le in E.
  pose proof (span_le hexadecimal (drop 2 t)) as Hs. rewrite length_drop in Hs. simpl in *.
  destruct (span hexadecimal (drop 2 t)); lia.
Qed.

Lemma one_le P t : (one P t <= length t)%nat.
Proof. unfold one. destruct t as [|c t]; simpl; [done|]. destruct (P c); lia. Qed.

Lemma longest_rule rs t : rs <> [] -> longest rs t ∈ (fun r => (fst r t, snd r)) <$> rs /\
  forall r, r ∈ rs -> (fst r t <= fst (longest rs t))%nat.
Proof.
  induction rs as [|[m a] rs IH]; intros Hne; [done|]. destruct (decide (rs = [])) as [->|Hrs].
  - split; [left|]. by intros r ->%list_elem_of_singleton.
  - destruct (IH Hrs) as [IH1 IH2]. cbn [longest]. destruct (Nat.leb_spec (fst (longest rs t)) (m t)) as [Hle|Hlt].
    + split; [left|]. intros r' [->|Hr]%elem_of_cons; [done|]. simpl. specialize (IH2 r' Hr). lia.
    + split; [by right|]. intros r' [->|Hr]%elem_of_cons; [simpl; lia|by apply IH2].
Qed.

Lemma rules_le r t : r ∈ rules -> (fst r t <= length t)%nat.
Proof.
  intros Hr. assert (Forall (fun r => forall t, (fst r t <= length t)%nat) rules) as HF.
  { unfold rules. repeat constructor; simpl; intros u;
      first [apply word_le|apply switch_le|apply first_then_le|apply HEX_le|apply span_le|apply one_le]. }
  rewrite Forall_forall in HF. by apply HF.
Qed.

(** A rule always takes a character, and no more than there are. *)
Lemma longest_range t : t <> [] -> (0 < fst (longest rules t) <= length t)%nat.
Proof.
  intros Ht. destruct (longest_rule rules t) as [Hin Hmax]; [done|]. split.
  - destruct t as [|c t]; [done|].
    assert ((one (Z.eqb 10), Newline) ∈ rules /\ (one (fun c => negb (c =? 10)), Unknown) ∈ rules) as [H1 H2]
      by (split; [by apply (list_elem_of_lookup_2 _ 22)|by apply (list_elem_of_lookup_2 _ 24)]).
    apply Hmax in H1, H2. generalize dependent (fst (longest rules (c :: t))). intros n _. cbn [fst one].
    rewrite Z.eqb_sym. destruct (c =? 10); simpl; lia.
  - apply list_elem_of_fmap in Hin as (r & -> & Hr). simpl. by apply rules_le.
Qed.

(** What an identifier looks like. *)
Lemma identifier_rule t n : longest rules t = (n, Identifier) -> n = ID t.
Proof.
  intros E. destruct (longest_rule rules t) as [Hin _]; [done|]. rewrite E in Hin.
  apply list_elem_of_fmap in Hin as (r & Er & Hr). injection Er as -> Ha.
  assert (Forall (fun r => snd r = Identifier -> fst r = ID) rules) as HF by (unfold rules; repeat constructor; by intros).
  rewrite Forall_forall in HF. by rewrite (HF r Hr).
Qed.

Lemma token_rule t n w : longest rules t <> (n, Token (IDENT w)).
Proof.
  intros E. destruct (longest_rule rules t) as [Hin _]; [done|]. rewrite E in Hin.
  apply list_elem_of_fmap in Hin as (r & Er & Hr). injection Er as -> Ha.
  assert (Forall (fun r => snd r <> Token (IDENT w)) rules) as HF by (unfold rules; repeat constructor; discriminate).
  rewrite Forall_forall in HF. by apply (HF r Hr).
Qed.

Lemma span_take P t x : x ∈ take (span P t) t -> P x = true.
Proof.
  induction t as [|c t IH]; simpl; [by intros ?%elem_of_nil|]. destruct (P c) eqn:E; simpl; [|by intros ?%elem_of_nil].
  intros [->|?]%elem_of_cons; auto.
Qed.

Lemma ID_nonzero t : 0 ∉ take (ID t) t.
Proof.
  unfold ID, first_then. destruct t as [|c t]; [apply not_elem_of_nil|]. destruct (id_start c) eqn:E; [|apply not_elem_of_nil].
  simpl. intros [<-|H]%elem_of_cons; [done|]. by apply span_take in H.
Qed.

#[global] Opaque longest rules.

(** ** The next token *)

(** What of the state the scanner works on. *)
Record scanner := mkScan { sc_in : list Z; sc_cond : start_condition; sc_brk : Z; sc_lit : list Z }.

Definition scan_of (c : conf) : scanner := mkScan (input c) (condition c) (brkcount c) (literal_string c).

Fixpoint next_loop (fuel : nat) (s : scanner) : token * scanner :=
  match fuel with
  | O => (END, s)
  | S fuel' =>
      let '(mkScan t cond brk lit) := s in
      match cond, t with
      | _, [] => (END, s)
      | LITERAL_SECTION, _ => (END, mkScan [] cond brk t)
      | COMMENT, _ :: t' =>
          if prefix (chars "*/") t then next_loop fuel' (mkScan (drop 2 t) INITIAL brk lit)
          else next_loop fuel' (mkScan t' cond brk lit)
      | INITIAL, _ =>
          let '(n, a) := longest rules t in
          let s' := mkScan (drop n t) cond brk lit in
          match a with
          | BeginComment => next_loop fuel' (mkScan (drop n t) COMMENT brk lit)
          | Break =>
              if brk + 1 =? 2 then next_loop fuel' (mkScan (drop n t) LITERAL_SECTION (brk + 1) lit)
              else (DEFBRK, mkScan (drop n t) cond (brk + 1) lit)
          | Number base => (INTEGER (strtol base (take n t)), s')
          | Token tok => (tok, s')
          | Skip | Newline | Unknown => next_loop fuel' s'
          | Identifier => (IDENT (take n t), s')
          end
      end
  end.

Definition next (s : scanner) : token * scanner := next_loop (S (length (sc_in s))) s.

(** The tables and the output. *)
Definition aside (c : conf) :=
  ((symtab c, nsym c, nodes c, ftypes c, devs c, lastdv c, currtype c, ndevs c), currtname c, doing c, confh c, confc c, report c).

(** What the scanner does not touch. *)
Definition tables (c : conf) := (lookahead c, aside c).

Lemma drop_shorter (t : list Z) : t <> [] -> (length (drop (fst (longest rules t)) t) < length t)%nat.
Proof. intros Ht. pose proof (longest_range t Ht). rewrite length_drop. lia. Qed.

Lemma yylex_loop_run fuel c : (length (input c) < fuel)%nat ->
  exists c', yylex_loop fuel c = Ret (inl (fst (next_loop fuel (scan_of c))), c') /\
    scan_of c' = snd (next_loop fuel (scan_of c)) /\ tables c' = tables c.
Proof.
  revert c. induction fuel as [|fuel IH]; intros c Hf; [lia|].
  assert (forall c1, (length (input c1) < length (input c))%nat -> tables c1 = tables c ->
    exists c', yylex_loop fuel c1 = Ret (inl (fst (next_loop fuel (scan_of c1))), c') /\
      scan_of c' = snd (next_loop fuel (scan_of c1)) /\ tables c' = tables c) as Hnext.
  { intros c1 Hl <-. apply IH. lia. }
  cbn [yylex_loop]. gstep. unfold scan_of. cbn [next_loop].
  destruct (input c) as [|x t] eqn:Et.
  { exists c. rewrite Et. by destruct (condition c). }
  assert (fst (longest rules (x :: t)) <= length (x :: t))%nat by (by apply longest_range).
  pose proof (drop_shorter (x :: t) ltac:(done)) as Hdrop.
  destruct (condition c) eqn:Ec.
  - destruct (longest rules (x :: t)) as [n a]. cbn [fst] in Hdrop. gstep. destruct a; gstep; cbn [fst snd].
    + apply (Hnext (set_condition COMMENT (set_input _ c))); [exact Hdrop|done].
    + cbn [brkcount set_brkcount set_input]. destruct (brkcount c + 1 =? 2) eqn:Eb; gstep.
      * apply (Hnext (set_condition LITERAL_SECTION (set_brkcount _ (set_input _ c)))); [exact Hdrop|done].
      * eexists. split; [done|]. split; [|done]. unfold scan_of. simpl. by rewrite Ec.
    + eexists. split; [done|]. split; [|done]. unfold scan_of. simpl. by rewrite Ec.
    + eexists. split; [done|]. split; [|done]. unfold scan_of. simpl. by rewrite Ec.
    + rewrite <- Ec. apply (Hnext (set_input _ c)); [exact Hdrop|done].
    + unfold next_line. gstep. rewrite <- Ec. apply (Hnext (set_linectr _ (set_input _ c))); [exact Hdrop|done].
    + eexists. split; [done|]. split; [|done]. unfold scan_of. simpl. by rewrite Ec.
    + unfold yyerror, complain. gstep. rewrite <- Ec. apply (Hnext (set_errors _ (set_input _ c))); [exact Hdrop|done].
  - destruct (prefix (chars "*/") (x :: t)) eqn:Ep.
    + gstep. apply (Hnext (set_condition INITIAL (set_input _ c))); [|done]. simpl. rewrite length_drop. lia.
    + gstep. rewrite <- Ec. destruct (x =? 10); [unfold next_line|]; gstep.
      * apply (Hnext (set_linectr _ (set_input _ c))); [simpl; lia|done].
      * apply (Hnext (set_input _ c)); [simpl; lia|done].
  - gstep. eexists. split; [done|]. split; [|done]. unfold scan_of. simpl. by rewrite Ec.
Qed.

Lemma yylex_run c : exists c', yylex c = Ret (inl (fst (next (scan_of c))), c') /\
  scan_of c' = snd (next (scan_of c)) /\ tables c' = tables c.
Proof. unfold yylex, next. gstep. apply yylex_loop_run. simpl. lia. Qed.

(** ** The tokens *)

Lemma next_loop_fuel n s : forall m, (length (sc_in s) < n)%nat -> (n <= m)%nat -> next_loop m s = next_loop n s.
Proof.
  revert s. induction n as [|n IH]; intros [t cond brk lit] m Hl Hm; [lia|]. destruct m as [|m]; [lia|].
  cbn [next_loop sc_in] in *. destruct t as [|x t]; [by destruct cond|].
  pose proof (drop_shorter (x :: t) ltac:(done)) as Hdrop.
  assert (forall s, (length (sc_in s) < length (x :: t))%nat -> next_loop m s = next_loop n s) as Hnext
    by (intros s Hs; apply IH; lia).
  destruct cond.
  - destruct (longest rules (x :: t)) as [k a]. cbn [fst] in Hdrop.
    destruct a; try (by apply Hnext); try done. case_match; [by apply Hnext|done].
  - case_match; apply Hnext; cbn [sc_in]; rewrite ?length_drop; simpl length; lia.
  - done.
Qed.

(** A token takes at least a character; the end stays the end. *)
Lemma next_loop_shorter n s : (length (sc_in s) < n)%nat ->
  fst (next_loop n s) <> END -> (length (sc_in (snd (next_loop n s))) < length (sc_in s))%nat.
Proof.
  revert s. induction n as [|n IH]; intros [t cond brk lit] Hl; [done|].
  cbn [next_loop sc_in] in *. destruct t as [|x t]; [by destruct cond|].
  pose proof (drop_shorter (x :: t) ltac:(done)) as Hdrop.
  assert (forall s, (length (sc_in s) < length (x :: t))%nat -> fst (next_loop n s) <> END ->
    (length (sc_in (snd (next_loop n s))) < length (x :: t))%nat) as Hnext.
  { intros s Hs Ht. pose proof (IH s ltac:(lia) Ht). lia. }
  destruct cond.
  - destruct (longest rules (x :: t)) as [k a]. cbn [fst] in Hdrop.
    destruct a; try (by apply Hnext); try done. case_match; [by apply Hnext|done].
  - case_match; apply Hnext; cbn [sc_in]; rewrite ?length_drop; simpl length; lia.
  - done.
Qed.

Fixpoint tokens_loop (fuel : nat) (s : scanner) : list token :=
  match fuel with
  | O => []
  | S fuel' => match next s with
               | (END, _) => []
               | (t, s') => t :: tokens_loop fuel' s'
               end
  end.

(** The tokens of the rest of a text, up to the end. *)
Definition tokens (s : scanner) : list token := tokens_loop (S (length (sc_in s))) s.

(** The scanner when it has answered with the end. *)
Fixpoint ending_loop (fuel : nat) (s : scanner) : scanner :=
  match fuel with
  | O => s
  | S fuel' => match next s with
               | (END, s') => s'
               | (_, s') => ending_loop fuel' s'
               end
  end.
Definition ending (s : scanner) : scanner := ending_loop (S (length (sc_in s))) s.

Lemma next_shorter s t s' : next s = (t, s') -> t <> END -> (length (sc_in s') < length (sc_in s))%nat.
Proof.
  unfold next. intros E Ht. pose proof (next_loop_shorter (S (length (sc_in s))) s) as H. rewrite E in H. apply H; [lia|done].
Qed.

Lemma loops_fuel n s : forall m, (length (sc_in s) < n)%nat -> (n <= m)%nat ->
  tokens_loop m s = tokens_loop n s /\ ending_loop m s = ending_loop n s.
Proof.
  revert s. induction n as [|n IH]; intros s m Hl Hm; [lia|]. destruct m as [|m]; [lia|]. cbn [tokens_loop ending_loop].
  destruct (next s) as [t s'] eqn:E. destruct (decide (t = END)) as [->|Ht]; [done|].
  pose proof (next_shorter s t s' E Ht). destruct (IH s' m) as [E1 E2]; [lia|lia|]. destruct t; try done; by rewrite E1.
Qed.

Lemma tokens_next s : tokens s = match next s with (END, _) => [] | (t, s') => t :: tokens s' end.
Proof.
  unfold tokens at 1. cbn [tokens_loop]. destruct (next s) as [t s'] eqn:E.
  destruct (decide (t = END)) as [->|Ht]; [done|]. pose proof (next_shorter s t s' E Ht).
  destruct (loops_fuel (S (length (sc_in s'))) s' (length (sc_in s))) as [E1 _]; [lia|lia|].
  unfold tokens. destruct t; try done; by rewrite E1.
Qed.

Lemma ending_next s : ending s = match next s with (END, s') => s' | (_, s') => ending s' end.
Proof.
  unfold ending at 1. cbn [ending_loop]. destruct (next s) as [t s'] eqn:E.
  destruct (decide (t = END)) as [->|Ht]; [done|]. pose proof (next_shorter s t s' E Ht).
  destruct (loops_fuel (S (length (sc_in s'))) s' (length (sc_in s))) as [_ E1]; [lia|lia|].
  unfold ending. destruct t; try done; by rewrite E1.
Qed.

Lemma tokens_length s : (length (tokens s) <= length (sc_in s))%nat.
Proof.
  unfold tokens. assert (forall n s, (length (tokens_loop n s) <= length (sc_in s))%nat) as H; [|apply H].
  induction n as [|n IH]; intros s0; [simpl; lia|]. cbn [tokens_loop]. destruct (next s0) as [t s'] eqn:E.
  destruct (decide (t = END)) as [->|Ht]; [simpl; lia|]. pose proof (next_shorter s0 t s' E Ht). specialize (IH s').
  destruct t; simpl; lia || done.
Qed.

Lemma next_ident s w s' : next s = (IDENT w, s') -> 0 ∉ w.
Proof.
  unfold next. generalize (S (length (sc_in s))). intros n. revert s.
  induction n as [|n IH]; intros [t cond brk lit]; [done|]. cbn [next_loop]. destruct t as [|x t]; [by destruct cond|].
  destruct cond.
  - destruct (longest rules (x :: t)) as [k a] eqn:E. destruct a; try done; try apply IH.
    + case_match; [apply IH|done].
    + intros [= -> _]. by apply token_rule in E.
    + intros [= <-]. apply identifier_rule in E as ->. apply ID_nonzero.
  - case_match; apply IH.
  - done.
Qed.

Lemma tokens_ident s w : IDENT w ∈ tokens s -> 0 ∉ w.
Proof.
  unfold tokens. generalize (S (length (sc_in s))). intros n. revert s.
  induction n as [|n IH]; intros s; [by intros ?%elem_of_nil|]. cbn [tokens_loop]. destruct (next s) as [t s'] eqn:E.
  destruct (decide (t = END)) as [->|Ht]; [by intros ?%elem_of_nil|].
  assert (IDENT w ∈ t :: tokens_loop n s' -> 0 ∉ w) as H.
  { intros [<-|?]%elem_of_cons; [by eapply next_ident|by apply (IH s')]. }
  by destruct t.
Qed.

(** ** What the parser has before it *)

Definition remaining (c : conf) : list token :=
  match lookahead c with
  | Some END => []
  | Some t => t :: tokens (scan_of c)
  | None => tokens (scan_of c)
  end.

(** The state of the scanner at the end of the input. *)
Definition last_scan (c : conf) : scanner :=
  match lookahead c with Some END => scan_of c | _ => ending (scan_of c) end.

Definition head_token (l : list token) : token := match l with [] => END | t :: _ => t end.

Lemma peek_run c : exists c', peek c = Ret (inl (head_token (remaining c)), c') /\
  lookahead c' = Some (head_token (remaining c)) /\ remaining c' = remaining c /\ last_scan c' = last_scan c /\ aside c' = aside c.
Proof.
  unfold peek, remaining, last_scan. gstep. destruct (lookahead c) as [t|] eqn:El.
  - exists c. rewrite El. by destruct t.
  - destruct (yylex_run c) as (c1 & Hrun & Hs & Ht). rewrite (gbind_inl _ _ _ _ _ Hrun). gstep.
    destruct (next (scan_of c)) as [t s'] eqn:En. cbn [fst snd] in *. exists (set_lookahead (Some t) c1).
    rewrite (tokens_next (scan_of c)), (ending_next (scan_of c)), En. split; [by destruct t|]. simpl lookahead.
    change (scan_of (set_lookahead (Some t) c1)) with (scan_of c1). rewrite Hs.
    split; [by destruct t|]. split; [by destruct t|]. split; [by destruct t|]. exact (f_equal snd Ht).
Qed.
