(* ===== verification/ConfigParse.v ===== *)
(** * The configuration generator: the parser as a function of tokens

    An abstract parser that works on a list of tokens and on the tables as
    lists, and the proof that the parser of ConfigLang refines it on any
    input and whatever malloc leaves in the entries: it terminates, stays
    inside its tables, keeps them typed, and gives up, or runs out of its
    symbol table, exactly when the abstract parser does. *)

From Stdlib Require Import Ascii String.
From stdpp Require Import base numbers functions list sets.
From S2P Require Import Prelude CString Doprnt Config ConfigLang ConfigSpec ConfigScan.

(** ** The abstract parser *)

Record pst := mkP { p_toks : list token; p_spec : spec; p_cur : Z }.

(** A computation that goes on, or ends with another verdict. *)
Definition P (A : Type) : Type := pst -> verdict (A * pst).

Definition pret {A} (a : A) : P A := fun s => Good (a, s).
Definition pfail {A} : P A := fun _ => Refused.
Definition pbind {A B} (m : P A) (f : A -> P B) : P B := fun s => m s ≫= fun r => f (fst r) (snd r).

Notation "x <<= m ;; k" := (pbind m (fun x => k)) (at level 100, m at next level, right associativity) : c_scope.
Notation "m ;;= k" := (pbind m (fun _ => k)) (at level 100, right associativity) : c_scope.

Definition set_toks (l : list token) (s : pst) : pst := mkP l (p_spec s) (p_cur s).
Definition set_spec (sp : spec) (s : pst) : pst := mkP (p_toks s) sp (p_cur s).

Definition p_peek : P token := fun s => Good (head_token (p_toks s), s).
Definition p_shift : P unit := fun s => Good (tt, set_toks (tail (p_toks s)) s).
Definition p_expect (tok : token) : P unit :=
  t <<= p_peek ;; if bool_decide (t = tok) then p_shift else pfail.
Definition p_id : P Z :=
  t <<= p_peek ;;
  match t with
  | IDENT w => p_shift ;;= fun s => r ← enter w (p_spec s); Good (fst r, set_spec (snd r) s)
  | _ => pfail
  end.
Definition p_integer : P Z :=
  t <<= p_peek ;;
  match t with
  | INTEGER n => p_shift ;;= pret n
  | _ => pfail
  end.

(** A check or a change of the tables that can fail. *)
Definition p_tables (f : Z -> spec -> verdict spec) : P unit :=
  fun s => sp ← f (p_cur s) (p_spec s); Good (tt, set_spec sp s).
Definition p_attr (tok : token) (val : Z) : P unit := p_tables (fun _ sp => Good (spec_attr tok val sp)).

Fixpoint p_attr_list (fuel : nat) : P unit :=
  match fuel with
  | O => pfail
  | S fuel' =>
      t <<= p_peek ;;
      match t with
      | CSR | IRQ => p_shift ;;= n <<= p_integer ;; p_attr t n ;;= p_attr_list fuel'
      | _ =>
          match routine_of t with
          | Some _ => p_shift ;;= i <<= p_id ;; p_attr t i ;;= p_attr_list fuel'
          | None => pret tt
          end
      end
  end.

Section Abstract.
Context (junk : nat -> dev_ent).

Definition p_devheader : P unit := p_expect ON ;;= i <<= p_id ;; p_tables (fun cur => spec_type junk cur i).

Fixpoint p_dev_list (fuel : nat) : P unit :=
  match fuel with
  | O => pfail
  | S fuel' =>
      t <<= p_peek ;;
      match t with
      | ON => p_devheader ;;= p_attr_list fuel' ;;= p_dev_list fuel'
      | _ => pret tt
      end
  end.

(** The check for a duplicate, of types and of devices. *)
Definition p_new_type (i : Z) : P unit :=
  fun s => j ← new_type i (p_spec s); Good (tt, mkP (p_toks s) (p_spec s) j).
Definition p_new_device (i : Z) : P Z := fun s => j ← new_device i (p_spec s); Good (j, s).

Definition p_tname : P unit := i <<= p_id ;; p_expect COLON ;;= p_new_type i.

Definition p_ftype (fuel : nat) : P unit :=
  p_tname ;;= p_devheader ;;= p_attr_list fuel ;;= p_dev_list fuel.

Fixpoint p_ftypes (fuel : nat) : P unit :=
  match fuel with
  | O => pfail
  | S fuel' =>
      t <<= p_peek ;;
      match t with
      | IDENT _ => p_ftype fuel' ;;= p_ftypes fuel'
      | _ => pret tt
      end
  end.

Definition p_optional_on : P Z :=
  t <<= p_peek ;;
  match t with
  | ON => p_shift ;;= p_id
  | _ => pret 0
  end.

Definition p_descriptor (fuel : nat) : P unit :=
  (i <<= p_id ;; d <<= p_new_device i ;;
   p_expect IS ;;= t <<= p_id ;; o <<= p_optional_on ;;
   p_tables (fun _ => spec_device d t o)) ;;=
  p_attr_list fuel.

Fixpoint p_descriptors (fuel : nat) : P unit :=
  match fuel with
  | O => pfail
  | S fuel' =>
      t <<= p_peek ;;
      match t with
      | IDENT _ => p_descriptor fuel' ;;= p_descriptors fuel'
      | _ => pret tt
      end
  end.

Definition p_parse (fuel : nat) : P unit :=
  p_ftypes fuel ;;= p_expect DEFBRK ;;= p_descriptors fuel ;;= p_expect END.

Definition empty_spec : spec := mkSpec [] [] [] None.

(** The tables a list of tokens stands for, if it is a configuration. *)
Definition parse_tokens (l : list token) : verdict spec :=
  p_spec ∘ snd <$> p_parse (S (length l)) (mkP l empty_spec (-1)).
End Abstract.

(** ** How the abstract parser goes on *)

Definition cur_ok (s : pst) : Prop := 0 <= p_cur s < lenZ (names (p_spec s)).

(** Later: fewer tokens, more names, and, while types are declared, no
    device. *)
Record later (declaring : bool) (s s' : pst) : Prop := {
  lt_names : lenZ (names (p_spec s)) <= lenZ (names (p_spec s'));
  lt_toks : (length (p_toks s') <= length (p_toks s))%nat;
  lt_cur : cur_ok s -> cur_ok s';
  lt_types : types (p_spec s) <> [] -> types (p_spec s') <> [];
  lt_devices : declaring = true -> devices (p_spec s) = [] -> devices (p_spec s') = []
}.

#[export] Instance later_preorder b : PreOrder (later b).
Proof.
  split; [intros s; constructor; done || lia|].
  intros s s1 s' [A1 A2 A3 A4 A5] [B1 B2 B3 B4 B5]. constructor; [lia|lia|auto..].
Qed.

Lemma later_any b s s' : later true s s' -> later b s s'.
Proof. intros []. constructor; auto. Qed.

Lemma pbind_peek {A} (f : token -> P A) s : pbind p_peek f s = f (head_token (p_toks s)) s.
Proof. done. Qed.

Lemma enter_Good w sp r : enter w sp = Good r -> r = intern w sp.
Proof. unfold enter. destruct (room w sp); [by intros [= <-]|done]. Qed.

Lemma p_id_inv s i s' : p_id s = Good (i, s') -> exists w, p_toks s = IDENT w :: p_toks s' /\
  p_cur s' = p_cur s /\ enter w (p_spec s) = Good (i, p_spec s').
Proof.
  unfold p_id. rewrite pbind_peek. destruct (p_toks s) as [|t l] eqn:Et; [done|]. simpl. destruct t; try done.
  unfold pbind. simpl. rewrite Et. destruct (enter strval (p_spec s)) as [[j sp]| | |] eqn:Ei; [|done..]. simpl.
  intros [= <- <-]. by exists strval.
Qed.

Lemma enter_grows w sp i sp' : enter w sp = Good (i, sp') ->
  lenZ (names sp) <= lenZ (names sp') <= lenZ (names sp) + 1 /\ types sp' = types sp /\ devices sp' = devices sp /\
  link sp' = link sp /\ 0 <= i < lenZ (names sp').
Proof.
  intros E%enter_Good%symmetry. destruct (intern_case w sp) as [(j & Ej & Hj)|[Ej _]]; rewrite Ej in E; injection E as <- <-; [split; [lia|done]|].
  simpl. rewrite lenZ_app. change (lenZ [cut w]) with 1. unfold lenZ. split; [lia|]. split; [done|]. split; [done|]. split; [done|lia].
Qed.

Lemma p_id_later b s i s' : p_id s = Good (i, s') -> later b s s' /\ 0 <= i < lenZ (names (p_spec s')) /\
  (length (p_toks s') < length (p_toks s))%nat.
Proof.
  intros (w & E1 & E2 & E3)%p_id_inv. apply enter_grows in E3 as (H1 & H2 & H3 & _ & H4).
  rewrite E1. split; [|split; [done|simpl; lia]].
  constructor; unfold cur_ok; rewrite ?H2, ?H3, ?E1, ?E2; simpl; try done; lia.
Qed.

Lemma later_toks b s l : (length l <= length (p_toks s))%nat -> later b s (set_toks l s).
Proof. by constructor. Qed.

(** A change of the types and devices. *)
Lemma later_tables b s sp : names sp = names (p_spec s) -> (types (p_spec s) <> [] -> types sp <> []) ->
  (b = true -> devices (p_spec s) = [] -> devices sp = []) -> later b s (set_spec sp s).
Proof. intros E1 E2 E3. constructor; unfold cur_ok; simpl; rewrite ?E1; done. Qed.

Lemma spec_attr_fields tok v sp : names (spec_attr tok v sp) = names sp /\
  (types sp <> [] -> types (spec_attr tok v sp) <> []) /\ (devices sp = [] -> devices (spec_attr tok v sp) = []).
Proof.
  unfold spec_attr. destruct (devices sp); (split; [done|split; [|done]]); [|done]. simpl.
  intros Hne. destruct (exists_last Hne) as (l & d & ->). rewrite upd_last_snoc. by destruct l.
Qed.

(** ** Refinement *)

Definition tok_ok (t : token) : Prop := match t with IDENT w => 0 ∉ w | _ => True end.

(** The state of the program and the one of the abstract parser; [fin] is
    where the scanner ends, and [rp] what was printed before. *)
Record agree (junk : nat -> dev_ent) (fin : scanner) (rp : list Z) (s : pst) (c : conf) : Prop := {
  ag_rep : rep (p_spec s) c;
  ag_typed : typed junk (p_spec s);
  ag_toks : remaining c = p_toks s;
  ag_cur : currtname c = p_cur s;
  ag_ok : Forall tok_ok (p_toks s);
  ag_fin : last_scan c = fin;
  ag_out : confh c = [] /\ confc c = [] /\ report c = rp
}.

Section Refinement.
Context (junk : nat -> dev_ent) (fin : scanner) (rp : list Z).
Local Abbreviation agree := (agree junk fin rp).

(** The outcome of the program is the one of the abstract parser, which goes
    on from [s]. *)
Definition ref {A} (b : bool) (s : pst) (r : outcome ((A + Z) * conf)) (o : verdict (A * pst)) : Prop :=
  follows o (fun p r => later b s (snd p) /\ exists c, r = Ret (inl (fst p), c) /\ agree (snd p) c) r.

Lemma ref_later {A} b s s' r (o : verdict (A * pst)) : later b s s' -> ref b s' r o -> ref b s r o.
Proof using. intros Hl. destruct o as [[a s2]| | |]; [|done..]. intros [Hl' H]. split; [by etrans|done]. Qed.

Lemma ref_bind {A B} b (m : G A) (f : A -> G B) (pm : P A) (pf : A -> P B) c s : ref b s (m c) (pm s) ->
  (forall a s' c', pm s = Good (a, s') -> later b s s' -> agree s' c' -> ref b s' (f a c') (pf a s')) ->
  ref b s (gbind m f c) (pbind pm pf s).
Proof using.
  unfold pbind. destruct (pm s) as [[a s']| | |].
  - intros (Hl & c' & E & Ha) Hf. rewrite (gbind_inl _ _ _ _ _ E). apply (ref_later b s s'); auto.
  - intros (c' & E) _. exists c'. by rewrite (gbind_inr _ _ _ _ _ E).
  - intros E _. unfold ref, gbind, bind in *. simpl in *. by rewrite E.
  - done.
Qed.

Lemma ref_ret {A} b (a : A) s c : agree s c -> ref b s (gret a c) (pret a s).
Proof using. intros Ha. split; [done|]. by exists c. Qed.

Lemma rep_aside sp c c' : aside c' = aside c -> rep sp c -> rep sp c'.
Proof using. intros [= E1 E2 E3 E4 E5 E6 E7 E8 E9 E10 E11 E12 E13] []. constructor; congruence. Qed.

Lemma agree_peeked s c c' : aside c' = aside c -> remaining c' = remaining c -> last_scan c' = last_scan c ->
  agree s c -> agree s c'.
Proof using.
  intros Ea Er El []. pose proof (rep_aside _ _ _ Ea ag_rep0). injection Ea as E1 E2 E3 E4 E5 E6 E7 E8 E9 E10 E11 E12 E13.
  destruct ag_out0 as (O1 & O2 & O3). constructor; try congruence; [done..|]. repeat split; congruence.
Qed.

Lemma ref_peek {B} b (f : token -> G B) (pf : token -> P B) s c : agree s c ->
  (forall c', agree s c' -> lookahead c' = Some (head_token (p_toks s)) ->
     ref b s (f (head_token (p_toks s)) c') (pf (head_token (p_toks s)) s)) ->
  ref b s (gbind peek f c) (pbind p_peek pf s).
Proof using.
  intros Ha Hf. destruct (peek_run c) as (c' & E & H1 & H2 & H3 & H4). rewrite (ag_toks _ _ _ _ _ Ha) in E, H1.
  rewrite (gbind_inl _ _ _ _ _ E), pbind_peek. apply Hf; [|done]. by apply (agree_peeked s c).
Qed.

(** Taking the token that was seen. *)
Lemma agree_shift s c t : agree s c -> lookahead c = Some t -> t <> END ->
  agree (set_toks (tail (p_toks s)) s) (set_lookahead None c) /\ p_toks s = t :: tail (p_toks s).
Proof using.
  intros [A1 A2 A3 A4 A5 A7 A8] El Ht.
  assert (remaining c = t :: tokens (scan_of c)) as Er by (unfold remaining; rewrite El; by destruct t).
  assert (last_scan c = ending (scan_of c)) as Ee by (unfold last_scan; rewrite El; by destruct t).
  rewrite A3 in Er. rewrite Er. split; [|done]. rewrite Er in A5. inversion A5. subst.
  constructor; simpl; try done. by apply (rep_aside _ c).
Qed.

Lemma ref_shift {B} b (f : G B) (pf : P B) s c t : agree s c -> lookahead c = Some t -> t <> END ->
  (forall c' l, p_toks s = t :: l -> agree (set_toks l s) c' -> ref b (set_toks l s) (f c') (pf (set_toks l s))) ->
  ref b s (gbind shift (fun _ => f) c) (pbind p_shift (fun _ => pf) s).
Proof using.
  intros Ha El Ht Hf. destruct (agree_shift s c t Ha El Ht) as [Ha' Et].
  apply (ref_later b s (set_toks (tail (p_toks s)) s)); [|by apply (Hf (set_lookahead None c))].
  apply later_toks. destruct (p_toks s); simpl; lia.
Qed.

Lemma ref_error {A} b s c : ref (A := A) b s (syntax_error c) Refused.
Proof using. eexists. reflexivity. Qed.

Lemma ref_expect b tok s c : agree s c -> tok <> END -> ref b s (expect tok c) (p_expect tok s).
Proof using.
  intros Ha Ht. apply ref_peek; [done|]. intros c' Ha' El. case_bool_decide as E; [|apply ref_error].
  destruct (agree_shift s c' _ Ha' El) as [Hs Et]; [by rewrite E|]. split; [|by eexists].
  apply later_toks. rewrite Et. simpl. lia.
Qed.

Lemma ref_integer b s c : agree s c -> ref b s (integer c) (p_integer s).
Proof using.
  intros Ha. apply ref_peek; [done|]. intros c' Ha' El. destruct (head_token (p_toks s)) eqn:E; try apply ref_error.
  apply (ref_shift _ _ _ _ _ (INTEGER intval)); [done..|]. intros c2 l _ Ha2. by apply ref_ret.
Qed.

(** An operation on the tables that leaves the rest alone. *)
Lemma agree_tables s c sp' c' cur : agree s c -> rep sp' c' -> typed junk sp' -> front c' = front (set_currtname cur c) ->
  agree (mkP (p_toks s) sp' cur) c'.
Proof using.
  intros [] Hr Ht Hf. injection Hf as E1 E2 E3 E4 E5 E6 E7 E8 E9 E10 E11. destruct ag_out0 as (O1 & O2 & O3).
  assert (remaining c' = remaining c /\ last_scan c' = last_scan c) as [Er El]
    by (unfold remaining, last_scan, scan_of; by rewrite E1, E2, E3, E5, E6).
  constructor; simpl; try done; [by rewrite Er|by rewrite El|by rewrite E9, E10, E11].
Qed.

Lemma ref_id b s c : agree s c -> ref b s (id c) (p_id s).
Proof using.
  intros Ha. pose proof (p_id_later b s) as Hl. revert Hl. unfold p_id at 2. intros Hl.
  apply ref_peek; [done|]. intros c' Ha' El. destruct (head_token (p_toks s)) eqn:E; try apply ref_error.
  destruct (agree_shift s c' _ Ha' El) as [Hs Et]; [done|]. set (s1 := set_toks (tail (p_toks s)) s) in *.
  pose proof (ag_ok _ _ _ _ _ Ha) as Hok. rewrite Et in Hok. apply Forall_cons_1 in Hok as [Hok _]. simpl in Hok.
  specialize (Hl (fst (intern strval (p_spec s))) (set_spec (snd (intern strval (p_spec s))) s1)).
  unfold pbind, p_shift in *. cbn [mbind verdict_bind fst snd] in *. fold s1 in Hl |- *. change (p_spec s1) with (p_spec s) in *.
  unfold enter in *. destruct (room strval (p_spec s)) eqn:Eroom.
  2: { eapply (lookup_overflow junk _ (p_spec s) (set_lookahead None c')); [apply Hs|apply Ha|done|done]. }
  pose proof (room_true _ _ Eroom) as Hroom.
  destruct (lookup_run junk strval (p_spec s) (set_lookahead None c') (ag_rep _ _ _ _ _ Hs) (ag_typed _ _ _ _ _ Ha) Hok Hroom) as (c2 & E2 & R2 & F2 & _).
  destruct (intern_typed junk strval (p_spec s) (ag_typed _ _ _ _ _ Ha) Hok Hroom) as (T2 & _ & _).
  destruct (intern strval (p_spec s)) as [i sp] eqn:Ei. cbn [mbind verdict_bind fst snd] in *.
  split; [apply Hl; unfold p_id; rewrite pbind_peek, E; unfold pbind, p_shift, enter; cbn [mbind verdict_bind fst snd]; fold s1;
    change (p_spec s1) with (p_spec s); by rewrite Eroom, Ei|].
  exists c2. split; [exact E2|]. apply (agree_tables s1 (set_lookahead None c')); try done.
  rewrite F2. simpl. change (p_cur s1) with (p_cur s). rewrite <- (ag_cur _ _ _ _ _ Ha'). by destruct c'.
Qed.

Lemma agree_front s c sp' c' : agree s c -> rep sp' c' -> typed junk sp' -> front c' = front c ->
  agree (set_spec sp' s) c'.
Proof using.
  intros Ha Hr Ht Hf. apply (agree_tables s c); [done..|]. rewrite Hf, <- (ag_cur _ _ _ _ _ Ha). by destruct c.
Qed.

Lemma ref_newattr b tok val s c : agree s c -> attr_arg tok val (p_spec s) -> types (p_spec s) <> [] ->
  ref b s (newattr tok val c) (p_attr tok val s).
Proof using.
  intros Ha Harg Hne. destruct (newattr_run junk tok val _ c (ag_rep _ _ _ _ _ Ha) (ag_typed _ _ _ _ _ Ha) Harg Hne) as (c' & E & R & F & _).
  destruct (spec_attr_fields tok val (p_spec s)) as (H1 & H2 & H3). split; [by apply later_tables|].
  exists c'. split; [done|]. apply (agree_front s c); try done. by apply spec_attr_typed; [apply Ha|].
Qed.

(** ** The loops *)

Lemma ref_attr_list b n : forall s c fuel fuel', agree s c -> types (p_spec s) <> [] ->
  (length (p_toks s) < n)%nat -> (n <= fuel)%nat -> (n <= fuel')%nat ->
  ref b s (attr_list fuel c) (p_attr_list fuel' s).
Proof using.
  induction n as [|n IH]; intros s c fuel fuel' Ha Hne Hn Hf Hf'; [lia|].
  destruct fuel as [|fuel]; [lia|]. destruct fuel' as [|fuel']; [lia|]. cbn [attr_list p_attr_list].
  apply ref_peek; [done|]. clear c Ha. intros c Ha El.
  (* The rest after the argument of an attribute. *)
  assert (forall t v s1 c1, agree s1 c1 -> attr_arg t v (p_spec s1) -> types (p_spec s1) <> [] ->
    (length (p_toks s1) < length (p_toks s))%nat ->
    ref b s1 ((newattr t v ;;. attr_list fuel) c1) ((p_attr t v ;;= p_attr_list fuel') s1)) as Hrest.
  { intros t v s1 c1 Ha1 Harg Hne1 Hl. apply ref_bind; [by apply ref_newattr|]. intros [] s2 c2 _ [L1 L2 L3 L4 L5] Ha2.
    apply IH; try done; [auto|lia..]. }
  assert (forall t, t = CSR \/ t = IRQ -> lookahead c = Some t ->
    ref b s ((shift ;;. n <<- integer ;; newattr t n ;;. attr_list fuel) c)
      ((p_shift ;;= n <<= p_integer ;; p_attr t n ;;= p_attr_list fuel') s)) as Hint.
  { intros t Ht Elt. apply (ref_shift _ _ _ _ _ t); [done..|by destruct Ht as [-> | ->]|]. intros c1 l Et Ha1.
    apply ref_bind; [by apply ref_integer|]. intros v s2 c2 _ [L1 L2 L3 L4 L5] Ha2.
    apply Hrest; [done|by left|auto|]. rewrite Et. simpl in *. lia. }
  assert (forall t r, routine_of t = Some r -> lookahead c = Some t ->
    ref b s ((shift ;;. i <<- id ;; newattr t i ;;. attr_list fuel) c)
      ((p_shift ;;= i <<= p_id ;; p_attr t i ;;= p_attr_list fuel') s)) as Hid.
  { intros t r Hr Elt. apply (ref_shift _ _ _ _ _ t); [done..|by destruct t|]. intros c1 l Et Ha1.
    apply ref_bind; [by apply ref_id|]. intros i s2 c2 Ei [L1 L2 L3 L4 L5] Ha2.
    destruct (p_id_later b _ _ _ Ei) as (_ & Hi & _). apply Hrest; [done|right; eauto|auto|]. rewrite Et. simpl in *. lia. }
  destruct (head_token (p_toks s)); first [by apply ref_ret|by apply Hint; auto|by eapply Hid].
Qed.

(** ** Device types *)

(** An operation that follows its verdict, and keeps the tables typed. *)
Lemma ref_updated b (f : Z -> spec -> verdict spec) m s c : agree s c ->
  follows (f (p_cur s) (p_spec s)) (updated c) (m c) ->
  (forall sp, f (p_cur s) (p_spec s) = Good sp -> typed junk sp /\ later b s (set_spec sp s)) ->
  ref b s (m c) (p_tables f s).
Proof using.
  intros Ha H Hok. unfold ref, p_tables. destruct (f (p_cur s) (p_spec s)) as [sp| | |]; [|done..].
  destruct (Hok sp eq_refl) as [Ht Hl]. destruct H as (c' & E' & R & F & _). split; [done|]. exists c'. split; [done|].
  by apply (agree_front s c).
Qed.

Lemma ref_mktype i s c : agree s c -> devices (p_spec s) = [] -> cur_ok s -> 0 <= i < lenZ (names (p_spec s)) ->
  ref true s (mktype junk i c) (p_tables (fun cur => spec_type junk cur i) s).
Proof using.
  intros Ha Hd Hc Hi. apply ref_updated; [done|by apply mktype_run; [apply Ha|done|apply Ha|..]|]. intros sp E.
  destruct (spec_type_typed _ _ _ _ _ (ag_typed _ _ _ _ _ Ha) Hd Hc Hi E) as (H1 & H2 & H3 & H4).
  split; [done|]. by apply later_tables.
Qed.

Lemma ref_devheader s c : agree s c -> devices (p_spec s) = [] -> cur_ok s ->
  ref true s (devheader junk c) (p_devheader junk s).
Proof using.
  intros Ha Hd Hc. apply ref_bind; [by apply ref_expect|]. intros [] s1 c1 _ [L1 L2 L3 L4 L5] Ha1.
  apply ref_bind; [by apply ref_id|]. intros i s2 c2 Ei [M1 M2 M3 M4 M5] Ha2.
  destruct (p_id_later true _ _ _ Ei) as (_ & Hi & _). apply ref_mktype; auto.
Qed.

Lemma pbind_Good {A B} (m : P A) (f : A -> P B) s r : pbind m f s = Good r ->
  exists a s1, m s = Good (a, s1) /\ f a s1 = Good r.
Proof using. unfold pbind. destruct (m s) as [[a s1]| | |]; [eauto|done..]. Qed.

Lemma pbind_assoc {A B C} (m : P A) (f : A -> P B) (h : B -> P C) s :
  pbind (pbind m f) h s = pbind m (fun a => pbind (f a) h) s.
Proof using. unfold pbind. by destruct (m s) as [[a s1]| | |]. Qed.

Lemma p_expect_toks tok s r : p_expect tok s = Good r -> (length (p_toks (snd r)) <= length (p_toks s))%nat.
Proof using.
  unfold p_expect. rewrite pbind_peek. case_bool_decide; [|done]. intros [= <-]. simpl. destruct (p_toks s); simpl; lia.
Qed.

Lemma p_devheader_after s r : p_devheader junk s = Good r ->
  types (p_spec (snd r)) <> [] /\ (length (p_toks (snd r)) < length (p_toks s))%nat.
Proof using.
  intros ([] & s1 & E1%p_expect_toks & (i & s2 & Ei & E)%pbind_Good)%pbind_Good.
  destruct (p_id_later true _ _ _ Ei) as (_ & _ & Hl). revert E. unfold p_tables, spec_type, missed.
  destruct (index _ _); [done|]. destruct (link _); [done|]. intros [= <-]. simpl in *. split; [by destruct (types (p_spec s2))|lia].
Qed.

Lemma ref_dev_list n : forall s c fuel fuel', agree s c -> devices (p_spec s) = [] -> cur_ok s ->
  (length (p_toks s) < n)%nat -> (n <= fuel)%nat -> (n <= fuel')%nat ->
  ref true s (dev_list junk fuel c) (p_dev_list junk fuel' s).
Proof using.
  induction n as [|n IH]; intros s c fuel fuel' Ha Hd Hc Hn Hf Hf'; [lia|].
  destruct fuel as [|fuel]; [lia|]. destruct fuel' as [|fuel']; [lia|]. cbn [dev_list p_dev_list].
  apply ref_peek; [done|]. clear c Ha. intros c Ha El.
  destruct (head_token (p_toks s)) eqn:Et; try by apply ref_ret.
  apply ref_bind; [by apply ref_devheader|]. intros [] s1 c1 E1 [L1 L2 L3 L4 L5] Ha1.
  destruct (p_devheader_after _ _ E1) as [Hne Hl]. simpl in Hne, Hl.
  apply ref_bind; [by apply (ref_attr_list true n); try done; lia|].
  intros [] s2 c2 _ [M1 M2 M3 M4 M5] Ha2. apply IH; auto; lia.
Qed.

Lemma ref_tname s c : agree s c -> ref true s (tname c) (p_tname s) /\
  forall r, p_tname s = Good r -> cur_ok (snd r) /\ (length (p_toks (snd r)) < length (p_toks s))%nat.
Proof using.
  intros Ha. split.
  - apply ref_bind; [by apply ref_id|]. intros i s1 c1 Ei L1 Ha1. destruct (p_id_later true _ _ _ Ei) as (_ & Hi & _).
    apply ref_bind; [by apply ref_expect|]. intros [] s2 c2 _ [M1 M2 M3 M4 M5] Ha2.
    assert (0 <= i < lenZ (names (p_spec s2))) as Hi2 by lia.
    pose proof (cktname_run _ c2 i (ag_rep _ _ _ _ _ Ha2) Hi2) as Hck. unfold ref, p_new_type.
    destruct (new_type i (p_spec s2)) as [j| | |]; cbn [mbind verdict_bind follows] in *.
    + destruct Hck as [-> Hck]. rewrite (gbind_inl _ _ _ _ _ Hck). split; [by constructor|]. eexists. split; [done|].
      apply (agree_tables s2 c2); try done; [|apply Ha2]. destruct (ag_rep _ _ _ _ _ Ha2). by constructor.
    + destruct Hck as (c' & E). exists c'. by rewrite (gbind_inr _ _ _ _ _ E).
    + unfold gbind, bind. by rewrite Hck.
    + done.
  - intros r (i & s1 & Ei & ([] & s2 & E2 & E3)%pbind_Good)%pbind_Good.
    destruct (p_id_later true _ _ _ Ei) as (_ & Hi & Hl).
    revert E2. unfold p_expect. rewrite pbind_peek. case_bool_decide; [|done]. intros [= <-].
    revert E3. unfold p_new_type, new_type, missed. destruct (index _ _); [done|]. destruct (link _); [done|]. intros [= <-]. simpl in *. split; [done|].
    destruct (p_toks s1); simpl in *; lia.
Qed.

Lemma ref_ftypes n : forall s c fuel fuel', agree s c -> devices (p_spec s) = [] ->
  (length (p_toks s) < n)%nat -> (n <= fuel)%nat -> (n <= fuel')%nat ->
  ref true s (parse_ftypes junk fuel c) (p_ftypes junk fuel' s).
Proof using.
  induction n as [|n IH]; intros s c fuel fuel' Ha Hd Hn Hf Hf'; [lia|].
  destruct fuel as [|fuel]; [lia|]. destruct fuel' as [|fuel']; [lia|]. cbn [parse_ftypes p_ftypes].
  apply ref_peek; [done|]. clear c Ha. intros c Ha El.
  destruct (head_token (p_toks s)) eqn:Et; try by apply ref_ret.
  destruct (ref_tname s c Ha) as [Htname Htok].
  unfold ftype, p_ftype. rewrite gbind_assoc, pbind_assoc.
  apply ref_bind; [done|]. intros [] s1 c1 E1 [L1 L2 L3 L4 L5] Ha1. destruct (Htok _ E1) as [Hc Hl]. simpl in Hc, Hl.
  rewrite gbind_assoc, pbind_assoc. apply ref_bind; [apply ref_devheader; auto|]. intros [] s2 c2 E2 [M1 M2 M3 M4 M5] Ha2.
  apply p_devheader_after in E2 as [Hne _].
  rewrite gbind_assoc, pbind_assoc. apply ref_bind; [apply (ref_attr_list true n); try done; lia|].
  intros [] s3 c3 E3 [N1 N2 N3 N4 N5] Ha3. apply ref_bind; [apply (ref_dev_list n); auto; lia|].
  intros [] s4 c4 E4 [O1 O2 O3 O4 O5] Ha4. apply IH; auto; lia.
Qed.

(** ** Devices *)

Lemma ref_optional_on s c : agree s c -> 0 < lenZ (names (p_spec s)) ->
  ref false s (optional_on c) (p_optional_on s) /\
  forall r, p_optional_on s = Good r -> 0 <= fst r < lenZ (names (p_spec (snd r))).
Proof using.
  intros Ha Hpos. split.
  - apply ref_peek; [done|]. intros c' Ha' El. destruct (head_token (p_toks s)) eqn:E; try by apply ref_ret.
    apply (ref_shift _ _ _ _ _ ON); [done..|]. intros c2 l _ Ha2. by apply ref_id.
  - intros [i s']. unfold p_optional_on. rewrite pbind_peek.
    destruct (head_token (p_toks s)); try (by intros [= <- <-]). unfold pbind, p_shift.
    intros Ei. by apply (p_id_later false) in Ei as (_ & Hi & _).
Qed.

Lemma ref_new_device {B} i s c (f : Z -> G B) (pf : Z -> P B) : agree s c -> 0 <= i < lenZ (names (p_spec s)) ->
  (new_device i (p_spec s) = Good i -> ref false s (f i c) (pf i s)) ->
  ref false s (gbind (ckdname i) f c) (pbind (p_new_device i) pf s).
Proof using.
  intros Ha Hi Hf. pose proof (ckdname_run _ c i (ag_rep _ _ _ _ _ Ha) Hi) as Hck. unfold pbind, p_new_device.
  destruct (new_device i (p_spec s)) as [j| | |] eqn:E; cbn [mbind verdict_bind follows fst snd] in *.
  - destruct Hck as [-> Hck]. rewrite (gbind_inl _ _ _ _ _ Hck). by apply Hf.
  - destruct Hck as (c' & Ec). exists c'. by rewrite (gbind_inr _ _ _ _ _ Ec).
  - unfold ref, gbind, bind. cbn [follows]. by rewrite Hck.
  - done.
Qed.

Lemma new_device_fresh i sp : new_device i sp = Good i -> index (device_named i) (devices sp) = None.
Proof using. unfold new_device. by destruct (index _ _). Qed.

Lemma ref_mkdev n t o s c : agree s c -> index (device_named n) (devices (p_spec s)) = None ->
  0 <= n < lenZ (names (p_spec s)) -> 0 <= t < lenZ (names (p_spec s)) -> 0 <= o < lenZ (names (p_spec s)) ->
  ref false s (mkdev junk n t o c) (p_tables (fun _ => spec_device n t o) s).
Proof using.
  intros Ha Hu Hn Ht Ho. apply (ref_updated false (fun _ => spec_device n t o)); [done|by apply mkdev_run; [apply Ha|apply Ha|..]|]. intros sp E.
  destruct (spec_device_typed _ _ _ _ _ _ (ag_typed _ _ _ _ _ Ha) Hn Hu E) as (H1 & H2 & H3).
  split; [done|]. apply later_tables; [done|by rewrite H3|done].
Qed.

Lemma p_id_devices s r : p_id s = Good r -> devices (p_spec (snd r)) = devices (p_spec s).
Proof using. destruct r as [i s']. intros (w & _ & _ & Ei)%p_id_inv. by apply enter_grows in Ei as (_ & _ & Hd & _). Qed.

Lemma p_expect_devices tok s r : p_expect tok s = Good r -> devices (p_spec (snd r)) = devices (p_spec s).
Proof using. unfold p_expect. rewrite pbind_peek. case_bool_decide; [|done]. by intros [= <-]. Qed.

Lemma p_optional_on_devices s r : p_optional_on s = Good r -> devices (p_spec (snd r)) = devices (p_spec s).
Proof using.
  unfold p_optional_on. rewrite pbind_peek. destruct (head_token (p_toks s)); try by intros [= <-].
  unfold pbind, p_shift. intros E%p_id_devices. done.
Qed.

Lemma spec_device_types n t o sp sp' : spec_device n t o sp = Good sp' -> types sp' <> [].
Proof using.
  unfold spec_device, missed. destruct (index (type_on t o) (types sp)) as [i|] eqn:E; cbn [mbind option_bind].
  - destruct (index_Some _ _ _ E) as (d & Hd & _). rewrite Hd. intros [= <-]. simpl. by destruct (types sp).
  - by destruct (link sp).
Qed.

(** A declaration of a device, up to its attributes. *)
Lemma ref_fspec s c : agree s c ->
  ref false s (fspec junk c) ((i <<= p_id ;; d <<= p_new_device i ;; p_expect IS ;;= t <<= p_id ;; o <<= p_optional_on ;;
    p_tables (fun _ => spec_device d t o)) s).
Proof using.
  intros Ha. apply ref_bind; [by apply ref_id|]. intros i s1 c1 E1 [L1 _ _ _ _] Ha1.
  destruct (p_id_later false _ _ _ E1) as (_ & Hi & _). apply ref_new_device; [done..|]. intros Hu%new_device_fresh.
  apply ref_bind; [by apply ref_expect|]. intros [] s2 c2 E2 [M1 _ _ _ _] Ha2. apply p_expect_devices in E2. simpl in E2.
  apply ref_bind; [by apply ref_id|]. intros t s3 c3 E3 [N1 _ _ _ _] Ha3.
  destruct (p_id_later false _ _ _ E3) as (_ & Ht & _). apply p_id_devices in E3. simpl in E3.
  destruct (ref_optional_on s3 c3) as [Hopt Ho]; [done|lia|].
  apply ref_bind; [done|]. intros o s4 c4 E4 [O1 _ _ _ _] Ha4. specialize (Ho _ E4). apply p_optional_on_devices in E4.
  simpl in E4, Ho. apply ref_mkdev; [done|by rewrite E4, E3, E2|lia..].
Qed.

Lemma p_fspec_after s r :
  (i <<= p_id ;; d <<= p_new_device i ;; p_expect IS ;;= t <<= p_id ;; o <<= p_optional_on ;;
    p_tables (fun _ => spec_device d t o)) s = Good r ->
  types (p_spec (snd r)) <> [] /\ (length (p_toks (snd r)) < length (p_toks s))%nat.
Proof using.
  intros (i & s1 & E1 & (d & s2 & E2 & ([] & s3 & E3%p_expect_toks & (t & s4 & E4 & (o & s5 & E5 & E6)%pbind_Good)%pbind_Good)%pbind_Good)%pbind_Good)%pbind_Good.
  destruct (p_id_later true _ _ _ E1) as (_ & _ & Hl1). destruct (p_id_later true _ _ _ E4) as (_ & _ & Hl4).
  assert (s2 = s1) as -> by (revert E2; unfold p_new_device; destruct (new_device _ _); [by intros [= <- <-]|done..]).
  assert (length (p_toks s5) <= length (p_toks s4))%nat as Hl5.
  { revert E5. unfold p_optional_on. rewrite pbind_peek. destruct (head_token (p_toks s4)); try by intros [= <- <-].
    unfold pbind, p_shift. intros E. apply (p_id_later true) in E as (_ & _ & E). simpl in E. destruct (p_toks s4); simpl in *; lia. }
  revert E6. unfold p_tables. destruct (spec_device d t o (p_spec s5)) as [sp| | |] eqn:E; [|done..]. intros [= <-]. simpl in *.
  split; [by eapply spec_device_types|lia].
Qed.

Lemma ref_descriptors n : forall s c fuel fuel', agree s c ->
  (length (p_toks s) < n)%nat -> (n <= fuel)%nat -> (n <= fuel')%nat ->
  ref false s (devdescriptors junk fuel c) (p_descriptors fuel' s).
Proof using.
  induction n as [|n IH]; intros s c fuel fuel' Ha Hn Hf Hf'; [lia|].
  destruct fuel as [|fuel]; [lia|]. destruct fuel' as [|fuel']; [lia|]. cbn [devdescriptors p_descriptors].
  apply ref_peek; [done|]. clear c Ha. intros c Ha El.
  destruct (head_token (p_toks s)) eqn:Et; try by apply ref_ret.
  unfold descriptor, p_descriptor. rewrite gbind_assoc, pbind_assoc.
  apply ref_bind; [by apply ref_fspec|]. intros [] s1 c1 E1 _ Ha1. destruct (p_fspec_after _ _ E1) as [Hne Hl]. simpl in Hne, Hl.
  apply ref_bind; [apply (ref_attr_list false n); try done; lia|]. intros [] s2 c2 _ [_ M2 _ _ _] Ha2. apply IH; auto; lia.
Qed.

(** ** The parser *)

Lemma agree_doing s c w : agree s c -> agree s (set_doing w c).
Proof using. intros []. constructor; try done. destruct ag_rep0. by constructor. Qed.

(** What holds when the parser has taken the end of the input. *)
Definition parsed (sp : spec) (r : outcome ((unit + Z) * conf)) : Prop :=
  exists c, r = Ret (inl tt, c) /\ rep sp c /\ typed junk sp /\ scan_of c = fin /\ confh c = [] /\ confc c = [] /\ report c = rp.

Lemma run_end s c : agree s c -> follows (p_expect END s) (fun p => parsed (p_spec (snd p))) (expect END c).
Proof using.
  intros Ha. destruct (peek_run c) as (c' & E & H1 & H2 & H3 & H4). rewrite (ag_toks _ _ _ _ _ Ha) in E, H1.
  pose proof (agree_peeked s c c' H4 H2 H3 Ha) as Ha'. unfold p_expect, expect. rewrite pbind_peek, (gbind_inl _ _ _ _ _ E).
  case_bool_decide as Et; [|apply (ref_error (A := unit) true s)]. exists (set_lookahead None c'). rewrite Et in H1.
  destruct Ha' as [A1 A2 A3 A4 A5 A7 A8]. split; [done|]. split; [by apply (rep_aside _ c')|]. split; [done|].
  split; [|done]. rewrite <- A7. unfold last_scan. by rewrite H1.
Qed.

Lemma follows_bind {A B C D} (m : G C) (f : C -> G D) (v : verdict A) (g : A -> verdict B) c good good' :
  follows v good (m c) ->
  (forall a, good a (m c) -> follows (g a) good' (gbind m f c)) -> follows (v ≫= g) good' (gbind m f c).
Proof using.
  intros H Hg. destruct v as [a| | |]; cbn [mbind verdict_bind follows] in *; [by apply Hg| | |done].
  - destruct H as (c' & E). exists c'. by rewrite (gbind_inr _ _ _ _ _ E).
  - unfold gbind, bind. by rewrite H.
Qed.

Lemma ref_parse s c fuel fuel' : agree s c -> devices (p_spec s) = [] ->
  (length (p_toks s) < fuel)%nat -> (length (p_toks s) < fuel')%nat ->
  follows (p_parse junk fuel' s) (fun p => parsed (p_spec (snd p)))
    ((devtypes junk fuel ;;. devdescriptors junk fuel ;;. expect END) c).
Proof using.
  intros Ha Hd Hf Hf'.
  assert (ref false s ((devtypes junk fuel ;;. devdescriptors junk fuel) c)
    ((p_ftypes junk fuel' ;;= p_expect DEFBRK ;;= p_descriptors fuel') s)) as Hr.
  { unfold devtypes. rewrite gbind_assoc. apply ref_bind.
    { pose proof (ref_ftypes (S (length (p_toks s))) s c fuel fuel' Ha Hd) as H. unfold ref in *.
      destruct (p_ftypes junk fuel' s) as [[a s1]| | |]; [|apply H; lia..]. destruct H as [Hl H]; [lia..|]. split; [by apply later_any|done]. }
    intros [] s1 c1 _ [L1 L2 L3 L4 L5] Ha1. rewrite gbind_assoc.
    apply ref_bind; [by apply ref_expect|]. intros [] s2 c2 _ [M1 M2 M3 M4 M5] Ha2. rewrite gbind_set.
    apply (ref_descriptors (S (length (p_toks s2)))); [by apply agree_doing|lia..]. }
  rewrite <- gbind_assoc. unfold p_parse.
  assert ((p_ftypes junk fuel' ;;= p_expect DEFBRK ;;= p_descriptors fuel' ;;= p_expect END) s =
    ((p_ftypes junk fuel' ;;= p_expect DEFBRK ;;= p_descriptors fuel') ;;= p_expect END) s) as ->.
  { unfold pbind. destruct (p_ftypes junk fuel' s) as [[? s1]| | |]; try done. cbn [mbind verdict_bind fst snd].
    by destruct (p_expect DEFBRK s1) as [[? s2]| | |]. }
  unfold pbind at 1. apply (follows_bind _ _ _ _ _ _ _ Hr). intros [[] s1] (_ & c1 & E & Ha1).
  cbn [fst snd]. rewrite (gbind_inl _ _ _ _ _ E). by apply run_end.
Qed.
End Refinement.

(** The scanner at the beginning of a text. *)
Definition start (text : list Z) : scanner := mkScan text INITIAL 0 [].

Lemma empty_typed junk : typed junk empty_spec.
Proof.
  assert (forall A, NoDup (@nil A)) as Hnil by constructor.
  split; simpl; try done; [split; [apply Hnil|]| | |]; try (intros ? ?%elem_of_nil; done). by intros ? [?%elem_of_nil|?%elem_of_nil].
Qed.

(** The program when it starts to parse. *)
Definition begun (rp text : list Z) : conf := set_report rp (initial text).

Lemma agree_begun junk rp text :
  agree junk (ending (start text)) rp (mkP (tokens (start text)) empty_spec (-1)) (begun rp text).
Proof.
  constructor; try done; [by apply empty_typed|].
  apply Forall_forall. intros t Ht. destruct t; try done. by apply (tokens_ident (start text)).
Qed.

Lemma yyparse_run junk rp text :
  follows (parse_tokens junk (tokens (start text))) (parsed junk (ending (start text)) rp) (yyparse junk (begun rp text)).
Proof.
  pose proof (tokens_length (start text)) as Hl. simpl in Hl.
  pose proof (ref_parse junk (ending (start text)) rp _ _ (S (length text)) (S (length (tokens (start text))))
    (agree_begun junk rp text) eq_refl) as H. unfold yyparse, parse_tokens. rewrite gbind_get.
  change (input (begun rp text)) with text.
  destruct (p_parse _ _) as [[[] s']| | |]; apply H; simpl; lia.
Qed.

(** ** When a file is not decided *)

(** The identifiers of a file. *)
Definition idents (l : list token) : Z := lenZ (List.filter (fun t => match t with IDENT _ => true | _ => false end) l).

Lemma idents_cons t l : idents l <= idents (t :: l) /\ forall w, idents (IDENT w :: l) = idents l + 1.
Proof.
  unfold idents. split; [destruct t; cbn [List.filter]; rewrite ?lenZ_cons; lia|]. intros w. simpl. by rewrite lenZ_cons.
Qed.

Lemma idents_tail l : idents (tail l) <= idents l.
Proof. destruct l; [done|]. apply idents_cons. Qed.

(** Some entry that malloc returns has a link that is not null. *)
Definition stray_link (junk : nat -> dev_ent) : Prop := exists n, d_next (junk n) <> None.

Section Limits.
Context (junk : nat -> dev_ent) (few : Prop).

(** With few identifiers there is room for those to come; the link of the
    last type is one malloc left. *)
Definition limits (s : pst) : Prop :=
  (few -> lenZ (names (p_spec s)) + idents (p_toks s) <= NSYMTAB) /\
  (link (p_spec s) <> None -> stray_link junk).

Definition within {A} (o : verdict (A * pst)) : Prop :=
  match o with Good r => limits (snd r) | Refused => True | Overflow => ~ few | Stray => stray_link junk end.

Lemma within_bind {A B} (m : P A) (f : A -> P B) s :
  within (m s) -> (forall a s', limits s' -> within (f a s')) -> within (pbind m f s).
Proof using. unfold pbind. destruct (m s) as [[a s']| | |]; [intros H Hf; by apply Hf|done..]. Qed.

Lemma within_shift s : limits s -> within (p_shift s).
Proof using. intros [H1 H2]. split; [|done]. intros Hf. specialize (H1 Hf). pose proof (idents_tail (p_toks s)). simpl. lia. Qed.

Lemma within_expect tok s : limits s -> within (p_expect tok s).
Proof using. intros H. unfold p_expect. rewrite pbind_peek. case_bool_decide; [by apply within_shift|done]. Qed.

Lemma within_integer s : limits s -> within (p_integer s).
Proof using.
  intros H. unfold p_integer. rewrite pbind_peek. destruct (head_token (p_toks s)); try done.
  apply within_bind; [by apply within_shift|done].
Qed.

Lemma within_id s : limits s -> within (p_id s).
Proof using.
  intros [H1 H2]. unfold p_id. rewrite pbind_peek. destruct (p_toks s) as [|t l] eqn:Et; [done|]. simpl. destruct t; try done.
  rewrite (proj2 (idents_cons END _)) in H1. unfold pbind, p_shift. rewrite Et. cbn [mbind verdict_bind fst snd tail].
  change (p_spec (set_toks l s)) with (p_spec s).
  assert (0 <= idents l) as Hl by (unfold idents, lenZ; lia).
  destruct (enter strval (p_spec s)) as [[i sp]| | |] eqn:Ei; cbn [mbind verdict_bind within fst snd]; [|done|..].
  - apply enter_grows in Ei as (Hn & _ & _ & El & _). split; simpl; [|by rewrite El]. intros Hf. specialize (H1 Hf). lia.
  - intros Hf. specialize (H1 Hf). unfold enter, room in Ei. rewrite bool_decide_eq_true_2 in Ei by lia. done.
  - unfold enter in Ei. by destruct (room strval (p_spec s)).
Qed.

(** A change of the tables that adds no name. *)
Lemma within_tables f s : limits s ->
  match f (p_cur s) (p_spec s) with
  | Good sp => names sp = names (p_spec s) /\ (link sp <> None -> stray_link junk)
  | Refused => True
  | Overflow => False
  | Stray => stray_link junk
  end -> within (p_tables f s).
Proof using.
  intros [H1 H2]. unfold p_tables. destruct (f (p_cur s) (p_spec s)) as [sp| | |]; [|done..]. intros [E Hl].
  split; simpl; [by rewrite E|done].
Qed.

Lemma within_attr tok v s : limits s -> within (p_attr tok v s).
Proof using. intros H. apply within_tables; [done|]. unfold spec_attr. destruct (devices (p_spec s)); (split; [done|apply H]). Qed.

Lemma missed_limits {A} s (v : verdict A) (Q : verdict A -> Prop) : limits s -> Q v -> (stray_link junk -> Q Stray) ->
  Q (missed (p_spec s) v).
Proof using. intros [_ Hl] Hv Hs. unfold missed. destruct (link (p_spec s)); [by apply Hs, Hl|done]. Qed.

#[local] Ltac on_missed := match goal with |- context [missed ?sp ?v] => pattern (missed sp v) end.

Lemma within_attr_list fuel : forall s, limits s -> within (p_attr_list fuel s).
Proof using.
  induction fuel as [|fuel IH]; intros s H; [done|]. cbn [p_attr_list]. rewrite pbind_peek.
  assert (forall t v s', limits s' -> within ((p_attr t v ;;= p_attr_list fuel) s')) as Hrest
    by (intros t v s' H'; apply within_bind; [by apply within_attr|auto]).
  assert (forall t, within ((p_shift ;;= n <<= p_integer ;; p_attr t n ;;= p_attr_list fuel) s) /\
    within ((p_shift ;;= i <<= p_id ;; p_attr t i ;;= p_attr_list fuel) s)) as Ht.
  { intros t. split; (apply within_bind; [by apply within_shift|]); intros _ s1 H1;
      (apply within_bind; [by apply within_integer || by apply within_id|auto]). }
  destruct (head_token (p_toks s)); first [apply Ht|exact H].
Qed.

Lemma within_devheader s : limits s -> within (p_devheader junk s).
Proof using.
  intros H. apply within_bind; [by apply within_expect|]. intros _ s1 H1. apply within_bind; [by apply within_id|].
  intros i s2 H2. apply within_tables; [done|]. unfold spec_type. destruct (index _ _); [done|].
  on_missed. apply missed_limits; [done| |done]. split; [done|]. by eexists.
Qed.

Lemma within_dev_list fuel : forall s, limits s -> within (p_dev_list junk fuel s).
Proof using.
  induction fuel as [|fuel IH]; intros s H; [done|]. cbn [p_dev_list]. rewrite pbind_peek.
  destruct (head_token (p_toks s)); try done.
  apply within_bind; [by apply within_devheader|]. intros _ s1 H1.
  apply within_bind; [by apply within_attr_list|]. auto.
Qed.

Lemma within_ftypes fuel : forall s, limits s -> within (p_ftypes junk fuel s).
Proof using.
  induction fuel as [|fuel IH]; intros s H; [done|]. cbn [p_ftypes]. rewrite pbind_peek.
  destruct (head_token (p_toks s)); try done. apply within_bind; [|auto].
  apply within_bind.
  { apply within_bind; [by apply within_id|]. intros i s1 H1. apply within_bind; [by apply within_expect|]. intros _ s2 H2.
    unfold p_new_type, new_type. destruct (index _ _); [done|].
    on_missed. by apply missed_limits. }
  intros _ s1 H1. apply within_bind; [by apply within_devheader|]. intros _ s2 H2.
  apply within_bind; [by apply within_attr_list|]. intros _ s3 H3. by apply within_dev_list.
Qed.

Lemma within_descriptors fuel : forall s, limits s -> within (p_descriptors fuel s).
Proof using.
  induction fuel as [|fuel IH]; intros s H; [done|]. cbn [p_descriptors]. rewrite pbind_peek.
  destruct (head_token (p_toks s)); try done. apply within_bind; [|auto].
  apply within_bind; [|intros; by apply within_attr_list].
  apply within_bind; [by apply within_id|]. intros i s1 H1.
  apply within_bind; [unfold p_new_device, new_device; by destruct (index _ _)|]. intros d s2 H2.
  apply within_bind; [by apply within_expect|]. intros _ s3 H3. apply within_bind; [by apply within_id|]. intros t s4 H4.
  apply within_bind.
  { unfold p_optional_on. rewrite pbind_peek. destruct (head_token (p_toks s4)); try done.
    apply within_bind; [by apply within_shift|]. intros _ s5. apply within_id. }
  intros o s5 H5. apply within_tables; [done|]. unfold spec_device. destruct (_ ≫= _); [split; [done|apply H5]|].
  on_missed. by apply missed_limits.
Qed.

Lemma within_parse fuel s : limits s -> within (p_parse junk fuel s).
Proof using.
  intros H. apply within_bind; [by apply within_ftypes|]. intros _ s1 H1. apply within_bind; [by apply within_expect|].
  intros _ s2 H2. apply within_bind; [by apply within_descriptors|]. intros _ s3. apply within_expect.
Qed.
End Limits.

(** The symbol table is too small only for a file of more than 250
    identifiers, and a link is stray only when malloc left it so. *)
Lemma parse_limits junk l :
  (parse_tokens junk l = Overflow -> NSYMTAB < idents l) /\ (parse_tokens junk l = Stray -> stray_link junk).
Proof.
  pose proof (within_parse junk (idents l <= NSYMTAB) (S (length l)) (mkP l empty_spec (-1))) as H.
  assert (limits junk (idents l <= NSYMTAB) (mkP l empty_spec (-1))) as Hl by (split; [by intros ?|done]).
  specialize (H Hl). unfold parse_tokens. destruct (p_parse _ _) as [[u s']| | |]; (split; [done|]) || split; try done.
  intros _. simpl in H. lia.
Qed.
