(* ===== verification/ConfigGrammar.v ===== *)
(** * The configuration generator: the language of configuration files

    Configuration files as syntax trees, the tokens they are written with,
    and what they declare, one definition per construct.  The parser accepts
    exactly the trees whose declarations are not refused, and leaves the
    tables they mean; everything else ends with exit code 1. *)

From Stdlib Require Import Ascii String.
From stdpp Require Import base numbers functions list sets.
From S2P Require Import Prelude CString Doprnt Config ConfigLang ConfigSpec ConfigScan ConfigParse.

(** ** Syntax *)

Inductive attr := Csr (n : Z) | Irq (n : Z) | Calls (r : routine) (w : list Z).

(** on <device> <attributes> *)
Record placed := mkPlaced { pl_on : list Z; pl_attrs : list attr }.

(** <name> : <placed> <placed> ... *)
Record type_decl := mkTypeDecl { td_name : list Z; td_first : placed; td_more : list placed }.

(** <name> is <type> [on <device>] <attributes> *)
Record device_decl := mkDeviceDecl {
  dd_name : list Z; dd_type : list Z; dd_on : option (list Z); dd_attrs : list attr
}.

Record file := mkFile { fi_types : list type_decl; fi_devices : list device_decl }.

(** ** The tokens *)

Definition token_of (r : routine) : token :=
  match r with
  | Intr => INTR | Init => INIT | Open => OPEN | Close => CLOSE | Read => READ
  | Write => WRITE | Control => CONTROL | Seek => SEEK | Getc => GETC | Putc => PUTC
  end.

Definition attr_tokens (a : attr) : list token :=
  match a with
  | Csr n => [CSR; INTEGER n]
  | Irq n => [IRQ; INTEGER n]
  | Calls r w => [token_of r; IDENT w]
  end.
Definition attrs_tokens (l : list attr) : list token := concat (attr_tokens <$> l).
Definition placed_tokens (p : placed) : list token := ON :: IDENT (pl_on p) :: attrs_tokens (pl_attrs p).
Definition placeds_tokens (l : list placed) : list token := concat (placed_tokens <$> l).
Definition type_tokens (t : type_decl) : list token :=
  IDENT (td_name t) :: COLON :: placed_tokens (td_first t) ++ placeds_tokens (td_more t).
Definition on_tokens (o : option (list Z)) : list token := match o with Some w => [ON; IDENT w] | None => [] end.
Definition device_tokens (d : device_decl) : list token :=
  IDENT (dd_name d) :: IS :: IDENT (dd_type d) :: on_tokens (dd_on d) ++ attrs_tokens (dd_attrs d).
Definition file_tokens (f : file) : list token :=
  concat (type_tokens <$> fi_types f) ++ DEFBRK :: concat (device_tokens <$> fi_devices f).

(** ** The meaning *)

(** A declaration that is refused ends the file. *)
Fixpoint each {A} (f : A -> spec -> verdict spec) (l : list A) (sp : spec) : verdict spec :=
  match l with
  | [] => Good sp
  | a :: l' => sp' ← f a sp; each f l' sp'
  end.

Definition mean_attr (a : attr) (sp : spec) : verdict spec :=
  match a with
  | Csr n => Good (spec_attr CSR n sp)
  | Irq n => Good (spec_attr IRQ n sp)
  | Calls r w => e ← enter w sp; Good (spec_attr (token_of r) (fst e) (snd e))
  end.
Definition mean_attrs (l : list attr) (sp : spec) : verdict spec := each mean_attr l sp.

Definition mean_on (o : option (list Z)) (sp : spec) : verdict (Z * spec) :=
  match o with Some w => enter w sp | None => Good (0, sp) end.

Definition mean_device (d : device_decl) (sp : spec) : verdict spec :=
  e ← enter (dd_name d) sp;
  i ← new_device (fst e) (snd e);
  t ← enter (dd_type d) (snd e);
  o ← mean_on (dd_on d) (snd t);
  sp' ← spec_device i (fst t) (fst o) (snd o);
  mean_attrs (dd_attrs d) sp'.

Section Meaning.
Context (junk : nat -> dev_ent).

Definition mean_placed (cur : Z) (p : placed) (sp : spec) : verdict spec :=
  e ← enter (pl_on p) sp;
  sp' ← spec_type junk cur (fst e) (snd e);
  mean_attrs (pl_attrs p) sp'.

Definition mean_type (t : type_decl) (sp : spec) : verdict spec :=
  e ← enter (td_name t) sp;
  i ← new_type (fst e) (snd e);
  sp' ← mean_placed i (td_first t) (snd e);
  each (mean_placed i) (td_more t) sp'.

Definition meaning (f : file) : verdict spec :=
  sp ← each mean_type (fi_types f) empty_spec; each mean_device (fi_devices f) sp.
End Meaning.

(** ** What is parsed is written so *)

Lemma routine_token tok r : routine_of tok = Some r -> token_of r = tok.
Proof. by destruct tok; try done; intros [= <-]. Qed.

Lemma p_expect_some tok s r : p_expect tok s = Good r ->
  (tok <> END -> p_toks s = tok :: p_toks (snd r)) /\ p_cur (snd r) = p_cur s /\ p_spec (snd r) = p_spec s.
Proof.
  unfold p_expect. rewrite pbind_peek. case_bool_decide as E; [|done]. intros [= <-]. simpl. split; [|done].
  intros Ht. destruct (p_toks s); simpl in *; [by destruct Ht|by rewrite E].
Qed.

Lemma p_integer_some s n s' : p_integer s = Good (n, s') ->
  p_toks s = INTEGER n :: p_toks s' /\ p_cur s' = p_cur s /\ p_spec s' = p_spec s.
Proof.
  unfold p_integer. rewrite pbind_peek. destruct (p_toks s) as [|t l] eqn:Et; [done|]. simpl. destruct t; try done.
  unfold pbind, pret. simpl. rewrite Et. by intros [= <- <-].
Qed.

(** Taking a token that was seen. *)
Lemma p_shift_some {A} (m : P A) s r : pbind p_shift (fun _ => m) s = Good r -> head_token (p_toks s) <> END ->
  exists l, p_toks s = head_token (p_toks s) :: l /\ m (set_toks l s) = Good r.
Proof. unfold pbind. simpl. destruct (p_toks s) as [|t l]; simpl; [done|]. by exists l. Qed.

(** One part of a file was read: its tokens are gone and the tables are
    those it means. *)
Definition reads (s : pst) (l : list token) (sp : verdict spec) (s' : pst) : Prop :=
  p_toks s = l ++ p_toks s' /\ p_cur s' = p_cur s /\ sp = Good (p_spec s').

Lemma parsed_attrs fuel : forall s u s', p_attr_list fuel s = Good (u, s') ->
  exists l, reads s (attrs_tokens l) (mean_attrs l (p_spec s)) s'.
Proof.
  induction fuel as [|fuel IH]; intros s u s'; [done|]. cbn [p_attr_list]. rewrite pbind_peek.
  assert (forall t a s1, (p_attr t a ;;= p_attr_list fuel) s1 = Good (u, s') ->
    exists l, p_toks s1 = attrs_tokens l ++ p_toks s' /\ p_cur s' = p_cur s1 /\
      mean_attrs l (spec_attr t a (p_spec s1)) = Good (p_spec s')) as Hrest.
  { intros t a s1 H. apply IH in H as (l & H1 & H2 & H3). exists l. by simpl in *. }
  assert (forall m : token, m = head_token (p_toks s) -> m = CSR \/ m = IRQ ->
    (p_shift ;;= n <<= p_integer ;; p_attr m n ;;= p_attr_list fuel) s = Good (u, s') ->
    exists l, reads s (attrs_tokens l) (mean_attrs l (p_spec s)) s') as Hint.
  { intros m -> Hm (l & Et & (n & s1 & (E1 & E2 & E3)%p_integer_some & E4)%pbind_Good)%p_shift_some; [|by destruct Hm as [-> | ->]].
    apply Hrest in E4 as (l' & F1 & F2 & F3). simpl in *.
    exists ((if bool_decide (head_token (p_toks s) = CSR) then Csr n else Irq n) :: l').
    unfold reads, attrs_tokens, mean_attrs. rewrite Et, E1, F1, F2, E2. rewrite E3 in F3.
    destruct Hm as [Em|Em]; rewrite Em in F3 |- *; done. }
  assert (forall (m : token) r, m = head_token (p_toks s) -> routine_of m = Some r ->
    (p_shift ;;= i <<= p_id ;; p_attr m i ;;= p_attr_list fuel) s = Good (u, s') ->
    exists l, reads s (attrs_tokens l) (mean_attrs l (p_spec s)) s') as Hid.
  { intros m r -> Hm (l & Et & (i & s1 & (w & E1 & E2 & E3)%p_id_inv & E4)%pbind_Good)%p_shift_some;
      [|by destruct (head_token (p_toks s))].
    apply Hrest in E4 as (l' & F1 & F2 & F3). simpl in *. apply routine_token in Hm.
    exists (Calls r w :: l'). unfold reads, attrs_tokens, mean_attrs. simpl. rewrite Hm, E3, Et, E1, F1, F2, E2. done. }
  destruct (head_token (p_toks s)) eqn:Eh;
    first [by intros [= <- <-]; exists [] | by apply Hint; auto | by eapply Hid].
Qed.

(** A change of the tables takes no token. *)
Lemma p_tables_some f s u s' : p_tables f s = Good (u, s') ->
  p_toks s' = p_toks s /\ p_cur s' = p_cur s /\ f (p_cur s) (p_spec s) = Good (p_spec s').
Proof. unfold p_tables. destruct (f (p_cur s) (p_spec s)) as [sp| | |]; [|done..]. by intros [= <- <-]. Qed.

Section Parsed.
Context (junk : nat -> dev_ent).

Lemma parsed_header s u s' : p_devheader junk s = Good (u, s') -> exists w, p_toks s = ON :: IDENT w :: p_toks s' /\
  p_cur s' = p_cur s /\ exists e, enter w (p_spec s) = Good e /\ spec_type junk (p_cur s) (fst e) (snd e) = Good (p_spec s').
Proof using.
  intros ([] & s1 & (E1 & E2 & E3)%p_expect_some & (i & s2 & (w & F1 & F2 & F3)%p_id_inv
    & (G1 & G2 & G3)%p_tables_some)%pbind_Good)%pbind_Good.
  simpl in *. exists w. rewrite E1 by done. rewrite F1, G1, G2, F2, E2, <- E3, F3. split; [done|]. split; [done|].
  exists (i, p_spec s2). split; [done|]. simpl. by rewrite <- E2, <- F2.
Qed.

Lemma parsed_placed s s1 fuel u v s' : p_devheader junk s = Good (u, s1) -> p_attr_list fuel s1 = Good (v, s') ->
  exists p, reads s (placed_tokens p) (mean_placed junk (p_cur s) p (p_spec s)) s'.
Proof using.
  intros (w & E1 & E2 & e & E3 & E4)%parsed_header (l & F1 & F2 & F3)%parsed_attrs. exists (mkPlaced w l).
  unfold reads, placed_tokens, mean_placed. simpl. rewrite E3. simpl. rewrite E4, E1, F1, F2, E2. done.
Qed.

Lemma parsed_placeds fuel : forall s u s', p_dev_list junk fuel s = Good (u, s') ->
  exists l, reads s (placeds_tokens l) (each (mean_placed junk (p_cur s)) l (p_spec s)) s'.
Proof using.
  induction fuel as [|fuel IH]; intros s u s'; [done|]. cbn [p_dev_list]. rewrite pbind_peek.
  destruct (head_token (p_toks s)); try by intros [= <- <-]; exists [].
  intros (v & s1 & E1 & (v2 & s2 & E2 & (l & F1 & F2 & F3)%IH)%pbind_Good)%pbind_Good.
  destruct (parsed_placed _ _ _ _ _ _ E1 E2) as (p & G1 & G2 & G3). exists (p :: l).
  unfold reads, placeds_tokens. simpl. rewrite G3. simpl. rewrite G1, F1, <- G2, F3, F2, <- app_assoc. done.
Qed.

Lemma parsed_type fuel s u s' : p_ftype junk fuel s = Good (u, s') -> exists t,
  p_toks s = type_tokens t ++ p_toks s' /\ mean_type junk t (p_spec s) = Good (p_spec s').
Proof using.
  intros (v1 & s1 & (i & s0 & (w & E1 & E2 & E3)%p_id_inv & (v2 & s2 & (F1 & F2 & F3)%p_expect_some & Hn)%pbind_Good)%pbind_Good
    & (v3 & s3 & H1 & (v4 & s4 & H2 & (l & G1 & G2 & G3)%parsed_placeds)%pbind_Good)%pbind_Good)%pbind_Good.
  destruct (parsed_placed _ _ _ _ _ _ H1 H2) as (p & K1 & K2 & K3). simpl in *.
  revert Hn. unfold p_new_type. destruct (new_type i (p_spec s2)) as [j| | |] eqn:Ei; [|done..]. intros [= <- <-]. simpl in *.
  exists (mkTypeDecl w p l). unfold type_tokens, mean_type. simpl. rewrite E3. simpl. rewrite F3 in Ei. rewrite Ei. simpl. rewrite <- F3, K3. simpl.
  rewrite E1, F1, K1, G1, <- app_assoc by done. split; [done|]. by rewrite <- K2.
Qed.

Lemma parsed_types fuel : forall s u s', p_ftypes junk fuel s = Good (u, s') -> exists l,
  p_toks s = concat (type_tokens <$> l) ++ p_toks s' /\ each (mean_type junk) l (p_spec s) = Good (p_spec s').
Proof using.
  induction fuel as [|fuel IH]; intros s u s'; [done|]. cbn [p_ftypes]. rewrite pbind_peek.
  destruct (head_token (p_toks s)); try by intros [= <- <-]; exists [].
  intros (v & s1 & (t & E1 & E2)%parsed_type & (l & F1 & F2)%IH)%pbind_Good. exists (t :: l).
  simpl. rewrite E1, F1, E2, <- app_assoc. done.
Qed.

Lemma parsed_on s i s' : p_optional_on s = Good (i, s') -> exists o,
  p_toks s = on_tokens o ++ p_toks s' /\ mean_on o (p_spec s) = Good (i, p_spec s').
Proof using.
  unfold p_optional_on. rewrite pbind_peek. destruct (head_token (p_toks s)) eqn:Eh; try by intros [= <- <-]; exists None.
  intros (l & Et & (w & E1 & E2 & E3)%p_id_inv)%p_shift_some; [|by rewrite Eh]. exists (Some w). simpl in *.
  by rewrite Et, Eh, E1.
Qed.

Lemma parsed_device fuel s u s' : p_descriptor fuel s = Good (u, s') -> exists d,
  p_toks s = device_tokens d ++ p_toks s' /\ mean_device d (p_spec s) = Good (p_spec s').
Proof using.
  intros (v1 & s1 & (i & s2 & (w & E1 & E2 & E3)%p_id_inv & (d & s3 & Hn & (v2 & s4 & (F1 & F2 & F3)%p_expect_some
    & (t & s5 & (w2 & G1 & G2 & G3)%p_id_inv & (o & s6 & (on & H1 & H2)%parsed_on
    & (K1 & K2 & K3)%p_tables_some)%pbind_Good)%pbind_Good)%pbind_Good)%pbind_Good)%pbind_Good
    & (l & L1 & L2 & L3)%parsed_attrs)%pbind_Good.
  revert Hn. unfold p_new_device. destruct (new_device i (p_spec s2)) as [j| | |] eqn:Ei; [|done..]. intros [= <- <-].
  simpl in *. exists (mkDeviceDecl w w2 on l). unfold device_tokens, mean_device. simpl.
  rewrite E3. simpl. rewrite Ei. simpl. rewrite <- F3, G3. simpl. rewrite H2. simpl. rewrite K3. simpl. rewrite L3, E1, F1, G1, H1 by done.
  rewrite <- K1, L1, <- app_assoc. done.
Qed.

Lemma parsed_devices fuel : forall s u s', p_descriptors fuel s = Good (u, s') -> exists l,
  p_toks s = concat (device_tokens <$> l) ++ p_toks s' /\ each mean_device l (p_spec s) = Good (p_spec s').
Proof using.
  induction fuel as [|fuel IH]; intros s u s'; [done|]. cbn [p_descriptors]. rewrite pbind_peek.
  destruct (head_token (p_toks s)); try by intros [= <- <-]; exists [].
  intros (v & s1 & (t & E1 & E2)%parsed_device & (l & F1 & F2)%IH)%pbind_Good. exists (t :: l).
  simpl. rewrite E1, F1, E2, <- app_assoc. done.
Qed.

Lemma parsed_file fuel l u s' : END ∉ l -> p_parse junk fuel (mkP l empty_spec (-1)) = Good (u, s') ->
  exists f, l = file_tokens f /\ meaning junk f = Good (p_spec s').
Proof using.
  intros Hend (v1 & s1 & (ts & E1 & E2)%parsed_types & (v2 & s2 & (F1 & F2 & F3)%p_expect_some
    & (v3 & s3 & (ds & G1 & G2)%parsed_devices & H)%pbind_Good)%pbind_Good)%pbind_Good.
  simpl in *. exists (mkFile ts ds). unfold file_tokens, meaning. simpl. rewrite E2. simpl.
  revert H. unfold p_expect. rewrite pbind_peek. case_bool_decide as Et; [|done]. intros [= <- <-]. simpl.
  rewrite <- F3, G2. split; [|done]. specialize (F1 ltac:(done)). rewrite E1, F1, G1 in *. destruct (p_toks s3) as [|t l3]; [by rewrite app_nil_r|].
  simpl in Et. subst t. exfalso. apply Hend. set_solver.
Qed.

End Parsed.

(** ** What is written is parsed so *)

(** No attribute comes next. *)
Definition stops (l : list token) : Prop := match head_token l with CSR | IRQ => False | t => routine_of t = None end.

Lemma run_id w rest sp cur : p_id (mkP (IDENT w :: rest) sp cur) = e ← enter w sp; Good (fst e, mkP rest (snd e) cur).
Proof. done. Qed.

Lemma run_expect tok rest sp cur : p_expect tok (mkP (tok :: rest) sp cur) = Good (tt, mkP rest sp cur).
Proof. unfold p_expect. rewrite pbind_peek. simpl. by rewrite bool_decide_eq_true_2. Qed.

Lemma run_attrs l : forall fuel rest sp cur, stops rest -> (length l < fuel)%nat ->
  p_attr_list fuel (mkP (attrs_tokens l ++ rest) sp cur) = sp' ← mean_attrs l sp; Good (tt, mkP rest sp' cur).
Proof.
  induction l as [|a l IH]; intros fuel rest sp cur Hs Hf; (destruct fuel as [|fuel]; [simpl in Hf; lia|]).
  - cbn [p_attr_list]. rewrite pbind_peek. unfold stops in Hs. simpl. by destruct (head_token rest).
  - cbn [p_attr_list]. rewrite pbind_peek. simpl in Hf. unfold attrs_tokens. simpl.
    destruct a as [n|n|r w]; simpl.
    + unfold pbind at 1. simpl. unfold pbind at 1. simpl. apply IH; [done|lia].
    + unfold pbind at 1. simpl. unfold pbind at 1. simpl. apply IH; [done|lia].
    + assert (forall tok, routine_of tok = Some r ->
        (p_shift ;;= i <<= p_id ;; p_attr tok i ;;= p_attr_list fuel)
          (mkP (tok :: IDENT w :: attrs_tokens l ++ rest) sp cur) =
        sp' ← mean_attrs (Calls r w :: l) sp; Good (tt, mkP rest sp' cur)) as Hrun.
      { intros tok <-%routine_token. unfold pbind at 1. simpl. unfold set_toks. simpl. unfold pbind at 1.
        rewrite run_id. unfold mean_attrs. simpl. destruct (enter w sp) as [[i sp']| | |]; [|done..]. simpl.
        unfold pbind. simpl. unfold set_spec. simpl. apply IH; [done|lia]. }
      destruct r; by apply Hrun.
Qed.

Lemma attrs_length l : (length l <= length (attrs_tokens l))%nat.
Proof.
  induction l as [|a l IH]; [simpl; lia|]. change (attrs_tokens (a :: l)) with (attr_tokens a ++ attrs_tokens l).
  rewrite length_app. destruct a; simpl length; lia.
Qed.

(** The run of a part: ended, or on to the rest with the tables it means. *)
Definition runs {A} (r : verdict (A * pst)) (rest : list token) (v : verdict spec) : Prop :=
  match v with
  | Good sp => exists a cur, r = Good (a, mkP rest sp cur)
  | Refused => r = Refused
  | Overflow => r = Overflow
  | Stray => r = Stray
  end.

Lemma runs_bind {A B} (m : P A) (f : P B) s rest rest' v g : runs (m s) rest v ->
  (forall sp cur, v = Good sp -> runs (f (mkP rest sp cur)) rest' (g sp)) ->
  runs ((m ;;= f) s) rest' (v ≫= g).
Proof.
  unfold pbind. destruct v as [sp| | |]; simpl; [|by intros ->..]. intros (a & cur & ->) Hf. by apply Hf.
Qed.

Section Runs.
Context (junk : nat -> dev_ent).

(** A placed declaration and its attributes. *)
Lemma run_placed p fuel rest sp cur : stops rest -> (length (pl_attrs p) < fuel)%nat ->
  (p_devheader junk ;;= p_attr_list fuel) (mkP (placed_tokens p ++ rest) sp cur) =
  sp' ← mean_placed junk cur p sp; Good (tt, mkP rest sp' cur).
Proof using.
  intros Hs Hf. unfold p_devheader, placed_tokens, mean_placed. rewrite pbind_assoc. simpl. unfold pbind at 1. rewrite run_expect.
  simpl. unfold pbind at 1, pbind at 1. rewrite run_id. destruct (enter (pl_on p) sp) as [[i sp1]| | |]; [|done..].
  unfold p_tables. simpl. destruct (spec_type junk cur i sp1) as [sp2| | |]; [|done..]. simpl. unfold set_spec. simpl. by apply run_attrs.
Qed.

Lemma run_placeds l : forall fuel rest sp cur, stops rest -> head_token rest <> ON ->
  (length (placeds_tokens l) < fuel)%nat ->
  p_dev_list junk fuel (mkP (placeds_tokens l ++ rest) sp cur) =
  sp' ← each (mean_placed junk cur) l sp; Good (tt, mkP rest sp' cur).
Proof using.
  induction l as [|p l IH]; intros fuel rest sp cur Hs Ho Hf; (destruct fuel as [|fuel]; [simpl in Hf; lia|]);
    cbn [p_dev_list]; rewrite pbind_peek.
  - simpl. by destruct (head_token rest).
  - change (placeds_tokens (p :: l)) with (placed_tokens p ++ placeds_tokens l) in *.
    rewrite length_app, <- ?app_assoc in *. simpl in Hf. pose proof (attrs_length (pl_attrs p)).
    change (head_token _) with ON at 1. cbv iota.
    rewrite <- (pbind_assoc (p_devheader junk) (fun _ => p_attr_list fuel) (fun _ => p_dev_list junk fuel)). unfold pbind at 1.
    rewrite (run_placed p fuel (placeds_tokens l ++ rest)); [|by destruct l|lia]. cbn [each].
    destruct (mean_placed junk cur p sp) as [sp1| | |]; [|done..]. simpl. apply IH; [done|done|lia].
Qed.

Lemma run_type t fuel rest sp cur : stops rest -> head_token rest <> ON -> (length (type_tokens t) <= fuel)%nat ->
  runs (p_ftype junk fuel (mkP (type_tokens t ++ rest) sp cur)) rest (mean_type junk t sp).
Proof using.
  intros Hs Ho Hf. unfold p_ftype, p_tname, type_tokens, mean_type in *. simpl in Hf. rewrite length_app in Hf. simpl in Hf.
  pose proof (attrs_length (pl_attrs (td_first t))). rewrite <- !app_comm_cons, <- app_assoc.
  rewrite pbind_assoc. unfold pbind at 1. rewrite run_id. destruct (enter (td_name t) sp) as [[i sp1]| | |]; [|done..]. cbn [mbind verdict_bind fst snd p_toks p_spec].
  rewrite pbind_assoc. unfold pbind at 1. rewrite run_expect. cbn [mbind verdict_bind fst snd]. unfold pbind at 1, p_new_type. cbn [p_spec].
  destruct (new_type i sp1) as [j| | |]; [|done..]. cbn [mbind verdict_bind fst snd p_toks p_spec].
  rewrite <- (pbind_assoc (p_devheader junk) (fun _ => p_attr_list fuel) (fun _ => p_dev_list junk fuel)). unfold pbind at 1.
  rewrite (run_placed (td_first t) fuel); [|by destruct (td_more t)|lia].
  destruct (mean_placed junk j (td_first t) sp1) as [sp2| | |]; [|done..]. cbn [mbind verdict_bind fst snd p_toks p_spec].
  rewrite run_placeds by (done || lia). destruct (each (mean_placed junk j) (td_more t) sp2); simpl; [|done..]. by eexists _, _.
Qed.

Lemma run_types l : forall fuel rest sp cur, head_token rest = DEFBRK ->
  (length (concat (type_tokens <$> l)) < fuel)%nat ->
  runs (p_ftypes junk fuel (mkP (concat (type_tokens <$> l) ++ rest) sp cur)) rest (each (mean_type junk) l sp).
Proof using.
  induction l as [|t l IH]; intros fuel rest sp cur Hr Hf; (destruct fuel as [|fuel]; [simpl in Hf; lia|]);
    cbn [p_ftypes]; rewrite pbind_peek.
  - simpl. rewrite Hr. by eexists _, _.
  - rewrite fmap_cons in *. cbn [concat] in *. rewrite <- app_assoc. rewrite length_app in Hf.
    change (head_token _) with (IDENT (td_name t)) at 1. cbv iota. cbn [each].
    assert (stops (concat (type_tokens <$> l) ++ rest) /\ head_token (concat (type_tokens <$> l) ++ rest) <> ON) as [Hs Ho]
      by (destruct l; [unfold stops; simpl; by rewrite Hr|done]).
    assert (0 < length (type_tokens t))%nat by (unfold type_tokens; simpl; lia).
    apply (runs_bind _ _ _ _ _ _ _ (run_type t fuel _ sp cur Hs Ho ltac:(lia))). intros sp1 cur1 _. apply IH; [done|lia].
Qed.

Lemma run_on o rest sp cur : head_token rest <> ON ->
  p_optional_on (mkP (on_tokens o ++ rest) sp cur) = e ← mean_on o sp; Good (fst e, mkP rest (snd e) cur).
Proof using.
  intros Hr. unfold p_optional_on. rewrite pbind_peek. destruct o as [w|]; simpl.
  - unfold pbind. simpl. unfold set_toks. simpl. apply run_id.
  - by destruct (head_token rest).
Qed.

Lemma run_device d fuel rest sp cur : stops rest -> head_token rest <> ON -> (length (device_tokens d) <= fuel)%nat ->
  runs (p_descriptor fuel (mkP (device_tokens d ++ rest) sp cur)) rest (mean_device d sp).
Proof using.
  intros Hs Ho Hf. unfold p_descriptor, device_tokens, mean_device in *. simpl in Hf. rewrite length_app in Hf.
  pose proof (attrs_length (dd_attrs d)). rewrite <- !app_comm_cons, <- app_assoc.
  rewrite pbind_assoc. unfold pbind at 1. rewrite run_id. destruct (enter (dd_name d) sp) as [[i sp1]| | |]; [|done..]. simpl.
  rewrite pbind_assoc. unfold pbind at 1, p_new_device. cbn [p_spec]. destruct (new_device i sp1) as [j| | |]; [|done..]. simpl.
  rewrite pbind_assoc. unfold pbind at 1. rewrite run_expect. simpl. rewrite pbind_assoc. unfold pbind at 1. rewrite run_id.
  destruct (enter (dd_type d) sp1) as [[t sp2]| | |]; [|done..]. simpl. rewrite pbind_assoc. unfold pbind at 1.
  rewrite run_on by (destruct (dd_attrs d) as [|[| |[] ?] ?]; done).
  destruct (mean_on (dd_on d) sp2) as [[o sp3]| | |]; [|done..]. simpl. unfold pbind, p_tables. simpl.
  destruct (spec_device j t o sp3) as [sp4| | |]; [|done..]. simpl. unfold set_spec. simpl. rewrite run_attrs by (done || lia).
  destruct (mean_attrs (dd_attrs d) sp4); simpl; [|done..]. by eexists _, _.
Qed.

Lemma run_devices l : forall fuel sp cur, (length (concat (device_tokens <$> l)) < fuel)%nat ->
  runs (p_descriptors fuel (mkP (concat (device_tokens <$> l)) sp cur)) [] (each mean_device l sp).
Proof using.
  induction l as [|d l IH]; intros fuel sp cur Hf; (destruct fuel as [|fuel]; [simpl in Hf; lia|]);
    cbn [p_descriptors]; rewrite pbind_peek.
  - simpl. by eexists _, _.
  - rewrite fmap_cons in *. cbn [concat] in *. rewrite length_app in Hf.
    change (head_token _) with (IDENT (dd_name d)) at 1. cbv iota. cbn [each].
    assert (stops (concat (device_tokens <$> l)) /\ head_token (concat (device_tokens <$> l)) <> ON) as [Hs Ho] by (by destruct l).
    assert (0 < length (device_tokens d))%nat by (unfold device_tokens; simpl; lia).
    apply (runs_bind _ _ _ _ _ _ _ (run_device d fuel _ sp cur Hs Ho ltac:(lia))). intros sp1 cur1 _. apply IH. lia.
Qed.
End Runs.

(** ** The language *)

Lemma parse_meaning junk f : parse_tokens junk (file_tokens f) = meaning junk f.
Proof.
  unfold parse_tokens, p_parse, meaning, file_tokens. set (fuel := S _).
  assert (length (concat (type_tokens <$> fi_types f)) < fuel /\ length (concat (device_tokens <$> fi_devices f)) < fuel)%nat
    as [Hf1 Hf2] by (subst fuel; rewrite length_app; simpl length; lia).
  pose proof (run_types junk (fi_types f) fuel (DEFBRK :: concat (device_tokens <$> fi_devices f)) empty_spec (-1) eq_refl Hf1) as H1.
  unfold runs, pbind in *. destruct (each (mean_type junk) (fi_types f) empty_spec) as [sp1| | |]; [|by rewrite H1..].
  destruct H1 as (a & cur & ->). cbn [mbind verdict_bind fst snd]. rewrite run_expect. cbn [mbind verdict_bind fst snd].
  pose proof (run_devices (fi_devices f) fuel sp1 cur Hf2) as H2. unfold runs in H2.
  destruct (each mean_device (fi_devices f) sp1) as [sp2| | |]; [|by rewrite H2..]. by destruct H2 as (b & cur2 & ->).
Qed.

Lemma parse_file junk l sp : END ∉ l -> parse_tokens junk l = Good sp -> exists f, l = file_tokens f /\ meaning junk f = Good sp.
Proof.
  unfold parse_tokens. intros Hend. destruct (p_parse _ _) as [[u s']| | |] eqn:E; [|done..]. intros [= <-]. by eapply parsed_file.
Qed.

Lemma tokens_end s : END ∉ tokens s.
Proof.
  unfold tokens. generalize (S (length (sc_in s))). intros n. revert s.
  induction n as [|n IH]; intros s; [by intros ?%elem_of_nil|]. cbn [tokens_loop]. destruct (ConfigScan.next s) as [t s'].
  destruct (decide (t = END)) as [->|Ht]; [by intros ?%elem_of_nil|].
  assert (END ∉ t :: tokens_loop n s') as H by (intros [?|?]%elem_of_cons; [done|by apply (IH s')]). by destruct t.
Qed.

(** C33: The parser accepts exactly the configuration files, whatever malloc
    leaves in the entries.  The text is given a verdict: tables, and the
    parser returns with them; refused, and it exits with 1; or more names
    than the 250 the symbol table has room for, and it writes past its end,
    which takes more than 250 identifiers.  The verdict of a syntax tree's
    tokens is the tree's meaning; a text that is not written as a tree is
    never accepted.  Nothing is said when a search follows a link that
    malloc left and config.c does not set, which takes one that is not
    null. *)
Theorem yyparse_language junk text :
  let l := tokens (start text) in
  match parse_tokens junk l with
  | Good sp => exists c, yyparse junk (initial text) = Ret (inl tt, c) /\ rep sp c
  | Refused => exists c, yyparse junk (initial text) = Ret (inr 1, c)
  | Overflow => yyparse junk (initial text) = Fault OutOfBounds /\ NSYMTAB < idents l
  | Stray => stray_link junk
  end /\
  (forall f, l = file_tokens f -> parse_tokens junk l = meaning junk f) /\
  ((forall f, l <> file_tokens f) -> forall sp, parse_tokens junk l <> Good sp).
Proof.
  intros l. pose proof (yyparse_run junk [] text) as H. change (begun [] text) with (initial text) in H.
  destruct (parse_limits junk l) as [Ho Hs]. split; [|split].
  - fold l in H. destruct (parse_tokens junk l) as [sp| | |]; simpl in H; [|done|by auto|by auto].
    destruct H as (c & E & R & _). by exists c.
  - intros f ->. apply parse_meaning.
  - intros Hno sp E. apply parse_file in E as (f & Ef & _); [|apply tokens_end]. by apply (Hno f).
Qed.
