(* ===== verification/ConfigOut.v ===== *)
(** * The configuration generator: conf.h and conf.c

    What the two files say of the tables, as texts, and that the program
    writes them: one row per device in the order of the file, minor numbers
    that count the devices of a type, and the size of each type.  A row shows
    ten arrays; one without a terminator, which only malloc can have left,
    is read past its end. *)

From Stdlib Require Import Ascii String.
From stdpp Require Import base numbers functions list sets.
From S2P Require Import Prelude CString Doprnt Config ConfigLang ConfigSpec ConfigScan ConfigParse.

(** ** Numbering the devices *)

(** How many devices are of the type with the name [i]. *)
Definition count_of (ds : list dev_ent) (i : Z) : Z := lenZ (List.filter (fun d => d_tnum d =? i) ds).

(** Each device gets the number of devices of its type before it. *)
Fixpoint numbered (before ds : list dev_ent) : list dev_ent :=
  match ds with
  | [] => []
  | d :: ds' => set_d_minor (count_of before (d_tnum d)) d :: numbered (before ++ [d]) ds'
  end.

Lemma count_of_snoc ds d i : count_of (ds ++ [d]) i = count_of ds i + (if d_tnum d =? i then 1 else 0).
Proof. unfold count_of. rewrite List.filter_app, lenZ_app. simpl. by destruct (d_tnum d =? i). Qed.

Lemma count_of_range ds i : 0 <= count_of ds i <= lenZ ds.
Proof. unfold count_of, lenZ. pose proof (List.filter_length_le (fun d => d_tnum d =? i) ds). lia. Qed.

Lemma numbered_lenZ before ds : lenZ (numbered before ds) = lenZ ds.
Proof. revert before. induction ds as [|d ds IH]; intros before; [done|]. simpl. by rewrite !lenZ_cons, IH. Qed.

Lemma numbered_ok d before ds : d ∈ numbered before ds -> exists e m, e ∈ ds /\ d = set_d_minor m e.
Proof.
  revert before. induction ds as [|x ds IH]; intros before; simpl; [by intros ?%elem_of_nil|].
  intros [->|(e & m & He & ->)%IH]%elem_of_cons; [exists x|exists e]; eexists; (split; [|done]); set_solver.
Qed.

(** The symbol table with the occurrences of each type. *)
Definition counted (ns : list (list Z)) (ds : list dev_ent) : list sym_ent :=
  imap (fun i w => mkSym (Some w) (count_of ds (Z.of_nat i))) ns ++ replicate (Z.to_nat NSYMTAB - length ns) (mkSym None 0).

Lemma counted_symbols ns : counted ns [] = symbols ns.
Proof.
  unfold counted, symbols. f_equal. change (fun i w => mkSym (Some w) (count_of [] (Z.of_nat i)))
    with (fun (_ : nat) (w : list Z) => mkSym (Some w) 0). apply imap_const.
Qed.

Lemma counted_at ns ds i w : nthZ ns i = Some w -> nthZ (counted ns ds) i = Some (mkSym (Some w) (count_of ds i)).
Proof.
  intros H. pose proof (nthZ_Some_lt _ _ _ H) as Hi. unfold counted. apply nthZ_app_l. unfold nthZ in *.
  destruct (0 <=? i); [|done]. rewrite list_lookup_imap, H. simpl. by rewrite Z2Nat.id by lia.
Qed.

Lemma counted_upd ns ds d w : nthZ ns (d_tnum d) = Some w ->
  updZ (d_tnum d) (mkSym (Some w) (count_of ds (d_tnum d) + 1)) (counted ns ds) = counted ns (ds ++ [d]).
Proof.
  intros H. pose proof (nthZ_Some_lt _ _ _ H) as Hi. unfold nthZ in H. unfold counted, updZ.
  rewrite (proj2 (Z.leb_le 0 _)) in * by lia. rewrite insert_app_l by (rewrite length_imap; unfold lenZ in *; lia).
  f_equal. apply list_eq. intros k. rewrite list_lookup_imap. destruct (decide (k = Z.to_nat (d_tnum d))) as [->|Hk].
  - rewrite list_lookup_insert_eq by (rewrite length_imap; unfold lenZ in *; lia). rewrite H. simpl.
    rewrite Z2Nat.id, count_of_snoc, Z.eqb_refl by lia. done.
  - rewrite list_lookup_insert_ne, list_lookup_imap by done. destruct (ns !! k); [|done]. simpl.
    rewrite count_of_snoc. rewrite (proj2 (Z.eqb_neq _ _)) by lia. by rewrite Z.add_0_r.
Qed.

(** ** The texts *)

(** The name a pointer leads to. *)
Definition name_at (ns : list (list Z)) (p : option Z) : list Z := default [] (p ≫= nthZ ns).

Fixpoint name_lines (ns : list (list Z)) (i : Z) (ds : list dev_ent) : list Z :=
  match ds with
  | [] => []
  | d :: ds' => name_line (name_at ns (d_name d)) i (name_at ns (d_tname d)) ++ name_lines ns (i + 1) ds'
  end.

(** #define N<TYPE> n *)
Definition size_line (w : list Z) (n : Z) : list Z :=
  if 0 <? n then chars "#define N" ++ (upper <$> w) ++ chars " " ++ dec n ++ NL else [].
Definition include_line (w : list Z) (n : Z) : list Z :=
  if 0 <? n then chars "#include <" ++ w ++ chars ".h>" ++ NL else [].

(** A line for each type that has devices. *)
Fixpoint type_lines (f : list Z -> Z -> list Z) (ds : list dev_ent) (i : Z) (ns : list (list Z)) : list Z :=
  match ns with
  | [] => []
  | w :: ns' => f w (count_of ds i) ++ type_lines f ds (i + 1) ns'
  end.

Definition conf_h (sp : spec) (brk : Z) (literal : list Z) : list Z :=
  line "/* conf.h (GENERATED FILE; DO NOT EDIT) */" ++ NL ++
  line "#ifndef _CONF_H_" ++ line "#define _CONF_H_" ++ NL ++
  line "#include <stddef.h>" ++ NL ++
  line "/* Device table declarations */" ++ NL ++ concat ((fun p => p ++ NL) <$> devstab) ++ NL ++
  line "/* Device name definitions */" ++ NL ++ name_lines (names sp) 0 (devices sp) ++ NL ++
  line "/* Control block sizes */" ++ NL ++ type_lines size_line (devices sp) 0 (names sp) ++ NL ++
  chars "#define DEVMAXNAME " ++ dec CONFMAXNM ++ NL ++
  (if 0 <? lenZ (devices sp) then chars "#define NDEVS " ++ dec (lenZ (devices sp)) ++ NL else []) ++
  (if brk =? 2 then default literal (text_of literal) else []) ++
  NL ++ line "#endif /* _CONF_H_ */".

Definition code_text (d : dev_ent) (r : routine) : list Z := default [] (text_of (d_code d r)).
Definition calls (d : dev_ent) (r1 r2 r3 : routine) : list Z :=
  TAB ++ chars "  (void *)" ++ code_text d r1 ++ chars ", (void *)" ++ code_text d r2 ++
  chars ", (void *)" ++ code_text d r3 ++ chars "," ++ NL.

(** The entry of devtab for device [i]. *)
Definition row (ns : list (list Z)) (i : Z) (d : dev_ent) (last : bool) : list Z :=
  chars "/* " ++ name_at ns (d_name d) ++ chars " is " ++ name_at ns (d_tname d) ++ chars " */" ++ NL ++
  TAB ++ chars "{ " ++ dec i ++ chars ", " ++ dec (d_minor d) ++ chars ", " ++
  QUOTE ++ name_at ns (d_name d) ++ QUOTE ++ chars "," ++ NL ++
  calls d Init Open Close ++ calls d Read Write Seek ++ calls d Getc Putc Control ++
  TAB ++ chars "  (void *)0x" ++ hex (d_csr d) ++ chars ", (void *)" ++ code_text d Intr ++ chars ", " ++
  dec (d_irq d) ++ chars " }" ++
  (if last then NL ++ chars "};" else chars "," ++ NL ++ NL).

Fixpoint rows (ns : list (list Z)) (i : Z) (ds : list dev_ent) : list Z :=
  match ds with
  | [] => []
  | d :: ds' => row ns i d (match ds' with [] => true | _ :: _ => false end) ++ rows ns (i + 1) ds'
  end.

Definition conf_c (sp : spec) : list Z :=
  line "/* conf.c (GENERATED FILE; DO NOT EDIT) */" ++ NL ++
  chars "#include <conf.h>" ++ NL ++ line "#include <device.h>" ++ NL ++
  type_lines include_line (devices sp) 0 (names sp) ++ NL ++
  line "extern devcall ioerr(void);" ++ line "extern devcall ionull(void);" ++ NL ++
  line "/* device independent I/O switch */" ++ NL ++
  (if 0 <? lenZ (devices sp) then
     line "const device devtab[NDEVS] =" ++ line "{" ++ concat ((fun p => p ++ NL) <$> entry_format) ++ NL
   else []) ++
  rows (names sp) 0 (numbered [] (devices sp)) ++ NL.

(** What -v reports while conf.h is written, and at the end. *)
Definition h_report (verbose : bool) (brk : Z) : list Z :=
  (if verbose then line "Writing output..." else []) ++
  (if bool_decide (brk = 2) && verbose then chars "Copying definitions to " ++ CONFIGH ++ line "..." else []).

Fixpoint device_reports (ns : list (list Z)) (ds : list dev_ent) : list Z :=
  match ds with
  | [] => []
  | d :: ds' =>
      chars "Device " ++ name_at ns (d_name d) ++ chars " (on " ++ name_at ns (d_device d) ++ chars ")" ++ NL ++
      chars "    csr=0x" ++ hex4 (d_csr d) ++ chars ", irq=0x" ++ hex4 (d_irq d) ++
      chars ", minor=" ++ dec (d_minor d) ++ NL ++ device_reports ns ds'
  end.
Definition end_report (sp : spec) : list Z :=
  chars "Configuration complete. Number of devs=" ++ dec (lenZ (devices sp)) ++ chars ":" ++ NL ++
  device_reports (names sp) (numbered [] (devices sp)).

(** ** Writing them *)

Lemma gbind_hputs {B} w (k : unit -> G B) c : gbind (hputs w) k c = k tt (set_confh (confh c ++ w) c).
Proof. done. Qed.
Lemma gbind_cputs {B} w (k : unit -> G B) c : gbind (cputs w) k c = k tt (set_confc (confc c ++ w) c).
Proof. done. Qed.

Lemma gbind_counted {B} (k : sym_ent -> G B) ns ds c i w : symtab c = counted ns ds -> nthZ ns i = Some w ->
  gbind (rd_sym i) k c = k (mkSym (Some w) (count_of ds i)) c.
Proof. intros Hs Hw. apply gbind_sym. rewrite Hs. by apply counted_at. Qed.

Lemma gbind_text {B} (k : list Z -> G B) ns ds c i w : symtab c = counted ns ds -> nthZ ns i = Some w ->
  gbind (sym_text (Some i)) k c = k w c.
Proof.
  intros Hs Hw. unfold sym_text. rewrite gbind_assoc, (gbind_must _ i), gbind_assoc by done.
  rewrite (gbind_counted _ ns ds _ _ w) by done. by rewrite (gbind_must _ w).
Qed.

(** What the loops use of a device. *)
Record dev_ok (n : Z) (d : dev_ent) : Prop := {
  do_name : exists i, d_name d = Some i /\ 0 <= i < n;
  do_type : type_ok n d
}.

Lemma typed_dev_ok junk sp d : typed junk sp -> d ∈ devices sp -> dev_ok (lenZ (names sp)) d.
Proof. intros Ht Hd. destruct (ty_devices _ _ Ht d Hd) as (H1 & _ & H2). by constructor. Qed.

Lemma name_at_Some ns i w : nthZ ns i = Some w -> name_at ns (Some i) = w.
Proof. intros H. unfold name_at. simpl. by rewrite H. Qed.

Lemma name_devices_run ns ds : lenZ ns <= NSYMTAB -> forall before pre fuel i c,
  nodes c = pre ++ chained (lenZ pre) ds -> symtab c = counted ns before -> Forall (dev_ok (lenZ ns)) ds ->
  lenZ before + lenZ ds <= NSYMTAB -> (length ds <= fuel)%nat ->
  name_devices fuel i (head_of (lenZ pre) ds) c = Ret (inl tt,
    set_confh (confh c ++ name_lines ns i ds) (set_symtab (counted ns (before ++ ds))
      (set_nodes (pre ++ chained (lenZ pre) (numbered before ds)) c))).
Proof.
  intros Hns. induction ds as [|d ds IH]; intros before pre fuel i c Hn Hs Hok Hl Hf.
  { simpl. rewrite !app_nil_r. simpl in Hn. rewrite app_nil_r in Hn. rewrite <- Hs, <- Hn. destruct fuel; by destruct c. }
  destruct fuel as [|fuel]; [simpl in Hf; lia|]. apply Forall_cons in Hok as [Hd Hok].
  destruct Hd as [(n & En & Hrn) [[Et Hrt] _]].
  destruct (nthZ_lt_Some ns n Hrn) as [wn Hwn], (nthZ_lt_Some ns (d_tnum d) Hrt) as [wt Hwt].
  cbn [head_of name_devices chained_to] in *. set (v := match ds with [] => None | _ :: _ => Some (lenZ pre + 1) end).
  assert (nthZ (nodes c) (lenZ pre) = Some (set_d_next v d)) as Hat by (rewrite Hn; apply nthZ_app_mid).
  rewrite (gbind_dev _ c _ (set_d_next v d)) by done. cbn [d_name d_tname d_tnum set_d_next]. rewrite En, Et.
  rewrite (gbind_text _ ns before _ _ wn), (gbind_text _ ns before _ _ wt) by done. rewrite gbind_hputs.
  rewrite (gbind_counted _ ns before _ _ wt) by done. cbn [sy_name sy_occurs]. unfold wr_sym. rewrite gbind_assoc.
  rewrite (gbind_counted _ ns before _ _ wt) by done. rewrite gbind_set.
  pose proof (count_of_range before (d_tnum d)) as Hc.
  assert (s32 (count_of before (d_tnum d) + 1) = count_of before (d_tnum d) + 1) as ->
    by (unfold NSYMTAB, lenZ in *; apply swrap_small; lia).
  rewrite (gbind_upd_dev _ _ _ _ (set_d_next v d)) by done. cbn [nodes set_symtab set_confh symtab].
  rewrite Hn, updZ_app_mid, Hs, (counted_upd ns before d wt) by done.
  rewrite (gbind_dev _ _ _ (set_d_minor (count_of before (d_tnum d)) (set_d_next v d))) by (apply nthZ_app_mid).
  change (d_next (set_d_minor _ (set_d_next v d))) with v.
  assert (lenZ (pre ++ [set_d_minor (count_of before (d_tnum d)) (set_d_next v d)]) = lenZ pre + 1) as El by (by rewrite lenZ_app).
  specialize (IH (before ++ [d]) (pre ++ [set_d_minor (count_of before (d_tnum d)) (set_d_next v d)]) fuel (i + 1)).
  rewrite El in IH. replace v with (head_of (lenZ pre + 1) ds) by (by destruct ds).
  rewrite IH; clear IH; [|by cbn [nodes set_nodes]; rewrite <- app_assoc|done|done| |simpl in Hf; lia].
  2: { rewrite lenZ_app. rewrite lenZ_cons in Hl. change (lenZ [d]) with 1. lia. }
  cbn [numbered chained_to name_lines confh set_confh set_symtab set_nodes].
  rewrite En, Et, (name_at_Some ns n wn), (name_at_Some ns (d_tnum d) wt) by done. rewrite <- !app_assoc.
  subst v. by destruct ds.
Qed.

Lemma upper_text w : name_ok w ->
  text_of (upper <$> (take 19 (put w (Z.to_nat CONFMAXNM) (replicate (Z.to_nat CONFMAXNM) 0)) ++ [0])) = Some (upper <$> w).
Proof.
  intros [Hl H0]. unfold lenZ, CONFMAXNM in *. change (Z.to_nat 20) with 20%nat.
  assert (take 19 (put w 20 (replicate 20 0)) ++ [0] = w ++ 0 :: replicate (19 - length w) 0) as ->.
  { unfold put. rewrite (drop_ge (replicate 20 0)) by done. rewrite app_nil_r, take_take, Nat.min_l by lia.
    rewrite take_app, take_ge, take_replicate, Nat.min_l, <- app_assoc by lia. by rewrite <- replicate_S_end. }
  rewrite fmap_app, fmap_cons. change (upper 0) with 0. apply text_of_app.
  intros (x & Hx & Hin)%list_elem_of_fmap. unfold upper in Hx.
  destruct ((97 <=? x) && (x <=? 122)) eqn:E; [lia|by subst].
Qed.

Lemma count_types_run ns ds rest : (forall w, w ∈ ns -> name_ok w) -> forall pre c,
  ns = pre ++ rest -> symtab c = counted ns ds ->
  count_types (length rest) (lenZ pre) c = Ret (inl tt, set_confh (confh c ++ type_lines size_line ds (lenZ pre) rest) c).
Proof.
  intros Hok. induction rest as [|w rest IH]; intros pre c Hns Hs; [by simpl; rewrite app_nil_r; destruct c|].
  cbn [length count_types type_lines].
  rewrite (gbind_counted _ ns ds _ _ w) by (done || (rewrite Hns; apply nthZ_app_mid)). cbn [sy_name sy_occurs].
  assert (forall c1, symtab c1 = symtab c -> count_types (length rest) (lenZ pre + 1) c1 =
    Ret (inl tt, set_confh (confh c1 ++ type_lines size_line ds (lenZ pre + 1) rest) c1)) as Hnext.
  { intros c1 Hc1. replace (lenZ pre + 1) with (lenZ (pre ++ [w])) by (by rewrite lenZ_app).
    apply IH; [by rewrite <- app_assoc|congruence]. }
  unfold size_line at 1. destruct (0 <? count_of ds (lenZ pre)).
  - rewrite gbind_assoc, (gbind_must _ w), gbind_assoc by done.
    rewrite (gbind_must _ (upper <$> w)) by (apply upper_text, Hok; set_solver). rewrite gbind_hputs, Hnext by done.
    cbn [confh set_confh]. by rewrite <- app_assoc.
  - rewrite gbind_ret, Hnext by done. done.
Qed.

Lemma include_types_run ns ds rest : forall pre c, ns = pre ++ rest -> symtab c = counted ns ds ->
  include_types (length rest) (lenZ pre) c = Ret (inl tt, set_confc (confc c ++ type_lines include_line ds (lenZ pre) rest) c).
Proof.
  induction rest as [|w rest IH]; intros pre c Hns Hs; [by simpl; rewrite app_nil_r; destruct c|].
  cbn [length include_types type_lines].
  rewrite (gbind_counted _ ns ds _ _ w) by (done || (rewrite Hns; apply nthZ_app_mid)). cbn [sy_name sy_occurs].
  assert (forall c1, symtab c1 = symtab c -> include_types (length rest) (lenZ pre + 1) c1 =
    Ret (inl tt, set_confc (confc c1 ++ type_lines include_line ds (lenZ pre + 1) rest) c1)) as Hnext.
  { intros c1 Hc1. replace (lenZ pre + 1) with (lenZ (pre ++ [w])) by (by rewrite lenZ_app).
    apply IH; [by rewrite <- app_assoc|congruence]. }
  unfold include_line at 1. destruct (0 <? count_of ds (lenZ pre)).
  - rewrite gbind_assoc, (gbind_must _ w) by done. rewrite gbind_cputs, Hnext by done.
    cbn [confc set_confc]. by rewrite <- app_assoc.
  - rewrite gbind_ret, Hnext by done. done.
Qed.

(** The array of a routine has a terminator; the arrays of a row, in order. *)
Definition ends (d : dev_ent) (r : routine) : bool := bool_decide (is_Some (text_of (d_code d r))).
Definition ended (d : dev_ent) : bool :=
  (ends d Init && ends d Open && ends d Close) && ((ends d Read && ends d Write && ends d Seek) &&
  ((ends d Getc && ends d Putc && ends d Control) && ends d Intr)).

Lemma gbind_call {B} (k : list Z -> G B) d r c :
  gbind (call_text d r) k c = if ends d r then k (code_text d r) c else Fault OutOfBounds.
Proof.
  unfold call_text, code_text, ends. destruct (text_of (d_code d r)); [by rewrite bool_decide_eq_true_2 by done|].
  by rewrite bool_decide_eq_false_2 by (by intros [? ?]).
Qed.

Lemma three_calls_run {B} (k : unit -> G B) d r1 r2 r3 c :
  gbind (three_calls d r1 r2 r3) k c =
  if ends d r1 && ends d r2 && ends d r3 then k tt (set_confc (confc c ++ calls d r1 r2 r3) c) else Fault OutOfBounds.
Proof.
  unfold three_calls. gstep. rewrite gbind_call. destruct (ends d r1); [|done]. gstep. rewrite gbind_call.
  destruct (ends d r2); [|done]. gstep. rewrite gbind_call. by destruct (ends d r3).
Qed.

Lemma write_rows_run ns ds0 ds : forall pre fuel i c,
  nodes c = pre ++ chained (lenZ pre) ds -> symtab c = counted ns ds0 -> Forall (dev_ok (lenZ ns)) ds ->
  (length ds <= fuel)%nat ->
  write_rows fuel i (head_of (lenZ pre) ds) c =
  if forallb ended ds then Ret (inl tt, set_confc (confc c ++ rows ns i ds) c) else Fault OutOfBounds.
Proof.
  induction ds as [|d ds IH]; intros pre fuel i c Hn Hs Hok Hf; [simpl; rewrite app_nil_r; destruct fuel; by destruct c|].
  destruct fuel as [|fuel]; [simpl in Hf; lia|]. apply Forall_cons in Hok as [[(n & En & Hrn) Hd] Hok].
  destruct (to_tname _ _ Hd) as [Et Hrt].
  destruct (nthZ_lt_Some ns n Hrn) as [wn Hwn], (nthZ_lt_Some ns (d_tnum d) Hrt) as [wt Hwt].
  cbn [head_of write_rows chained_to forallb] in *. set (v := match ds with [] => None | _ :: _ => Some (lenZ pre + 1) end) in *.
  rewrite (gbind_dev _ c _ (set_d_next v d)) by (rewrite Hn; apply nthZ_app_mid). cbn [d_name d_tname set_d_next].
  rewrite En, Et, (gbind_text _ ns ds0 _ _ wn), (gbind_text _ ns ds0 _ _ wt) by done. rewrite !gbind_cputs.
  change (ended d) with (ended (set_d_next v d)). unfold ended at 1.
  rewrite three_calls_run. destruct (_ && _ && ends _ Close); [|done]. cbn [andb].
  rewrite three_calls_run. destruct (_ && _ && ends _ Seek); [|done]. cbn [andb].
  rewrite three_calls_run. destruct (_ && _ && ends _ Control); [|done]. cbn [andb].
  rewrite gbind_call. destruct (ends _ Intr); [|done]. cbn [andb]. rewrite !gbind_cputs.
  change (d_next (set_d_next v d)) with v.
  assert (lenZ (pre ++ [set_d_next v d]) = lenZ pre + 1) as El by (by rewrite lenZ_app).
  specialize (IH (pre ++ [set_d_next v d]) fuel (i + 1)). rewrite El in IH.
  replace (head_of (lenZ pre + 1) ds) with v in IH by (by destruct ds).
  rewrite IH; clear IH; [|by rewrite <- app_assoc|done|done|simpl in Hf; lia]. destruct (forallb ended ds); [|done].
  cbn [confc set_confc]. cbn [rows]. unfold row. rewrite En, Et, (name_at_Some ns n wn), (name_at_Some ns (d_tnum d) wt) by done. rewrite <- !app_assoc.
  subst v. by destruct ds.
Qed.

(** The state when conf.h is written. *)
Definition after_h (sp : spec) (verbose : bool) (c : conf) : conf :=
  set_confh (conf_h sp (brkcount c) (literal_string c)) (set_symtab (counted (names sp) (devices sp))
    (set_nodes (chained_to (link sp) 0 (types sp) ++ chained (lenZ (types sp)) (numbered [] (devices sp)))
      (set_report (report c ++ h_report verbose (brkcount c)) c))).

Lemma to_nat_lenZ {A} (l : list A) : Z.to_nat (lenZ l) = length l.
Proof. unfold lenZ. apply Nat2Z.id. Qed.

(** The writing computations, on a state that shows what is written. *)
Lemma hputs_acc {B} w (k : unit -> G B) v c : gbind (hputs w) k (set_confh v c) = k tt (set_confh (v ++ w) c).
Proof. done. Qed.
Lemma cputs_acc {B} w (k : unit -> G B) v c : gbind (cputs w) k (set_confc v c) = k tt (set_confc (v ++ w) c).
Proof. done. Qed.
Lemma hputs_if {B} (b : bool) w (k : unit -> G B) v c :
  gbind (if b then hputs w else gret tt) k (set_confh v c) = k tt (set_confh (v ++ (if b then w else [])) c).
Proof. destruct b; [done|]. by rewrite app_nil_r. Qed.

Lemma say_run {B} b w (k : unit -> G B) c :
  gbind (say b w) k c = k tt (set_report (report c ++ (if b then w else [])) c).
Proof. destruct b; [done|]. simpl. rewrite app_nil_r. by destruct c. Qed.
Lemma say_acc {B} b w (k : unit -> G B) v c :
  gbind (say b w) k (set_confh v c) = k tt (set_confh v (set_report (report c ++ (if b then w else [])) c)).
Proof. by rewrite say_run. Qed.

Lemma name_devices_acc {B} (k : unit -> G B) junk sp v c : rep sp c -> typed junk sp ->
  gbind (name_devices (length (nodes c)) 0 (devs c)) k (set_confh v c) = k tt (
    set_confh (v ++ name_lines (names sp) 0 (devices sp)) (set_symtab (counted (names sp) (devices sp))
      (set_nodes (chained_to (link sp) 0 (types sp) ++ chained (lenZ (types sp)) (numbered [] (devices sp))) c))).
Proof.
  intros [R1 R2 R3 R4 R5 R6 R7 R8] Ht. apply gbind_inl. rewrite R6.
  pose proof (name_devices_run (names sp) (devices sp) (ty_room _ _ Ht) [] (chained_to (link sp) 0 (types sp)) (length (nodes c)) 0
    (set_confh v c)) as Hrun.
  rewrite chained_lenZ, counted_symbols in Hrun. apply Hrun; [done|done| |by eapply typed_devices|].
  - apply Forall_forall. intros d. by eapply typed_dev_ok.
  - rewrite R3, length_app. pose proof (chained_lenZ None (lenZ (types sp)) (devices sp)). unfold lenZ in *. lia.
Qed.

Lemma count_types_acc {B} (k : unit -> G B) junk sp v c : typed junk sp -> symtab c = counted (names sp) (devices sp) ->
  gbind (count_types (length (names sp)) 0) k (set_confh v c) =
  k tt (set_confh (v ++ type_lines size_line (devices sp) 0 (names sp)) c).
Proof.
  intros Ht Hs. apply gbind_inl.
  by apply (count_types_run (names sp) (devices sp) (names sp) (proj2 (ty_names _ _ Ht)) [] (set_confh v c)).
Qed.

Lemma include_types_acc {B} (k : unit -> G B) sp v c : symtab c = counted (names sp) (devices sp) ->
  gbind (include_types (length (names sp)) 0) k (set_confc v c) =
  k tt (set_confc (v ++ type_lines include_line (devices sp) 0 (names sp)) c).
Proof. intros Hs. apply gbind_inl. by apply (include_types_run (names sp) (devices sp) (names sp) [] (set_confc v c)). Qed.

Lemma write_confh_run {B} (k : unit -> G B) junk sp verbose c : rep sp c -> typed junk sp -> confh c = [] ->
  gbind (write_confh verbose) k c = k tt (after_h sp verbose c).
Proof.
  intros Hr Ht Hh. apply gbind_inl. assert (c = set_confh [] c) as -> by (rewrite <- Hh; by destruct c).
  unfold write_confh, after_h, conf_h, h_report. rewrite !hputs_acc, say_acc, !hputs_acc, !gbind_get. cbn [devs nodes set_confh].
  rewrite (name_devices_acc _ junk sp) by (done || (destruct Hr; by constructor)).
  rewrite !hputs_acc, gbind_get. cbn [nsym set_confh set_symtab set_nodes set_report]. rewrite (rp_nsym _ _ Hr), to_nat_lenZ.
  rewrite (count_types_acc _ junk sp) by done.
  rewrite !hputs_acc, gbind_get. cbn [ndevs set_confh set_symtab set_nodes set_report]. rewrite (rp_ndevs _ _ Hr).
  rewrite hputs_if, !gbind_get, say_acc, !gbind_get.
  cbn [brkcount literal_string report set_report set_confh set_symtab set_nodes].
  rewrite hputs_if, <- gbind_eta, hputs_acc. rewrite <- !app_assoc. done.
Qed.

Lemma numbered_dev_ok junk sp : typed junk sp -> Forall (dev_ok (lenZ (names sp))) (numbered [] (devices sp)).
Proof.
  intros Ht. apply Forall_forall. intros d Hd. apply (numbered_ok _ []) in Hd as (e & m & He & ->).
  apply (typed_dev_ok junk) in He as [H1 H2]; [|done]. constructor; [done|]. by destruct H2.
Qed.

Lemma numbered_ended before ds : forallb ended (numbered before ds) = forallb ended ds.
Proof. revert before. induction ds as [|d ds IH]; intros before; [done|]. simpl. by rewrite IH. Qed.

Lemma write_rows_acc {B} (k : unit -> G B) junk sp verbose v c : rep sp c -> typed junk sp ->
  let c' := after_h sp verbose c in
  gbind (write_rows (length (nodes c')) 0 (devs c')) k (set_confc v c') =
  if forallb ended (devices sp) then k tt (set_confc (v ++ rows (names sp) 0 (numbered [] (devices sp))) c')
  else Fault OutOfBounds.
Proof.
  intros [R1 R2 R3 R4 R5 R6 R7 R8] Ht c'. change (devs c') with (devs c).
  assert (devs c = head_of (lenZ (chained_to (link sp) 0 (types sp))) (numbered [] (devices sp))) as ->
    by (rewrite R6, chained_lenZ; by destruct (devices sp)).
  unfold gbind, bind.
  rewrite (write_rows_run (names sp) (devices sp) (numbered [] (devices sp)) (chained_to (link sp) 0 (types sp)) _ 0 (set_confc v c')).
  - rewrite numbered_ended. by destruct (forallb ended (devices sp)).
  - by rewrite chained_lenZ.
  - done.
  - by eapply numbered_dev_ok.
  - subst c'. simpl. rewrite length_app. pose proof (chained_lenZ None (lenZ (types sp)) (numbered [] (devices sp))).
    unfold lenZ in *. lia.
Qed.

Lemma cputs_if {B} (b : bool) w1 w2 (k : unit -> G B) v c :
  gbind (if b then cputs w1 ;;. cputs w2 else gret tt) k (set_confc v c) =
  k tt (set_confc (v ++ (if b then w1 ++ w2 else [])) c).
Proof. destruct b; [|by rewrite app_nil_r]. rewrite gbind_assoc, !cputs_acc. by rewrite app_assoc. Qed.

Lemma write_confc_run {B} (k : unit -> G B) junk sp verbose c : rep sp c -> typed junk sp -> confc c = [] ->
  gbind write_confc k (after_h sp verbose c) =
  if forallb ended (devices sp) then k tt (set_confc (conf_c sp) (after_h sp verbose c)) else Fault OutOfBounds.
Proof.
  intros Hr Ht Hc. assert (forall r, write_confc (after_h sp verbose c) = r -> gbind write_confc k (after_h sp verbose c) =
    gbind (fun _ => r) k (after_h sp verbose c)) as Hrun by (intros r E; unfold gbind, bind; by rewrite E).
  assert (write_confc (after_h sp verbose c) = if forallb ended (devices sp)
    then Ret (inl tt, set_confc (conf_c sp) (after_h sp verbose c)) else Fault OutOfBounds) as E0;
    [clear Hrun k|rewrite (Hrun _ E0); by destruct (forallb ended (devices sp))].
  set (c' := after_h sp verbose c). assert (confc c' = []) as Hc' by done.
  assert (c' = set_confc [] c') as E by (rewrite <- Hc'; by destruct c').
  unfold write_confc, conf_c. rewrite E at 1. rewrite !cputs_acc, gbind_get. change (nsym (set_confc _ c')) with (nsym c).
  rewrite (rp_nsym _ _ Hr), to_nat_lenZ, (include_types_acc _ sp) by done. rewrite !cputs_acc, gbind_get.
  change (ndevs (set_confc _ c')) with (ndevs c). rewrite (rp_ndevs _ _ Hr).
  rewrite cputs_if, !gbind_get. change (nodes (set_confc _ c')) with (nodes c'). change (devs (set_confc _ c')) with (devs c').
  subst c'. rewrite (write_rows_acc _ junk sp) by done. destruct (forallb ended (devices sp)); [|done].
  rewrite <- gbind_eta, cputs_acc, <- !app_assoc. done.
Qed.

(** ** The report *)

Lemma report_devices_run ns ds0 ds : forall pre fuel c,
  nodes c = pre ++ chained (lenZ pre) ds -> symtab c = counted ns ds0 -> Forall (dev_ok (lenZ ns)) ds ->
  (length ds <= fuel)%nat ->
  report_devices fuel (head_of (lenZ pre) ds) c = Ret (inl tt, set_report (report c ++ device_reports ns ds) c).
Proof.
  induction ds as [|d ds IH]; intros pre fuel c Hn Hs Hok Hf; [simpl; rewrite app_nil_r; destruct fuel; by destruct c|].
  destruct fuel as [|fuel]; [simpl in Hf; lia|]. apply Forall_cons in Hok as [[(n & En & Hrn) Hd] Hok].
  destruct (to_device _ _ Hd) as (m & Em & Hrm).
  destruct (nthZ_lt_Some ns n Hrn) as [wn Hwn], (nthZ_lt_Some ns m Hrm) as [wm Hwm].
  cbn [head_of report_devices chained_to] in *. set (v := match ds with [] => None | _ :: _ => Some (lenZ pre + 1) end) in *.
  rewrite (gbind_dev _ c _ (set_d_next v d)) by (rewrite Hn; apply nthZ_app_mid). cbn [d_name d_device set_d_next].
  rewrite En, Em, (gbind_text _ ns ds0 _ _ wn), (gbind_text _ ns ds0 _ _ wm), !say_run by done.
  change (d_next (set_d_next v d)) with v.
  assert (lenZ (pre ++ [set_d_next v d]) = lenZ pre + 1) as El by (by rewrite lenZ_app).
  specialize (IH (pre ++ [set_d_next v d]) fuel). rewrite El in IH.
  replace (head_of (lenZ pre + 1) ds) with v in IH by (by destruct ds).
  rewrite IH; clear IH; [|by rewrite <- app_assoc|done|done|simpl in Hf; lia]. cbn [report set_report device_reports].
  rewrite En, Em, (name_at_Some ns n wn), (name_at_Some ns m wm) by done. rewrite <- !app_assoc. done.
Qed.

(** ** The program *)

(** What the generator leaves. *)
Record generated (sp : spec) (fin : scanner) (c : conf) : Prop := {
  ge_confh : confh c = conf_h sp (sc_brk fin) (sc_lit fin);
  ge_confc : confc c = conf_c sp;
  ge_nodes : nodes c = chained_to (link sp) 0 (types sp) ++ chained (lenZ (types sp)) (numbered [] (devices sp));
  ge_symtab : symtab c = counted (names sp) (devices sp);
  ge_devs : devs c = head_of (lenZ (types sp)) (devices sp);
  ge_ndevs : ndevs c = lenZ (devices sp);
  ge_typed : exists junk, typed junk sp
}.

Lemma numbered_head base ds : head_of base (numbered [] ds) = head_of base ds.
Proof. by destruct ds. Qed.

Lemma write_report_run {B} (k : unit -> G B) sp fin c : generated sp fin c ->
  gbind write_report k c = k tt (set_report (report c ++ end_report sp) c).
Proof.
  intros [G1 G2 G3 G4 G5 G6 [junk G7]]. apply gbind_inl. unfold write_report, end_report. rewrite gbind_get, say_run, !gbind_get.
  cbn [devs nodes set_report]. rewrite G6, G5, <- numbered_head, <- (chained_lenZ (link sp) 0 (types sp)).
  rewrite (report_devices_run (names sp) (devices sp)); [..|by eapply numbered_dev_ok|].
  - cbn [report set_report]. by rewrite <- !app_assoc.
  - cbn [nodes set_report]. by rewrite chained_lenZ.
  - done.
  - rewrite G3, length_app. pose proof (chained_lenZ None (lenZ (types sp)) (numbered [] (devices sp))). unfold lenZ in *. lia.
Qed.

(** The command line: whether to report, and the input file. *)
Definition command (argv : list (list Z)) : option (bool * list Z) :=
  let verbose := match argv with _ :: a :: _ => prefix (chars "-v") a | _ => false end in
  match (if verbose then tail argv else argv) with
  | [_; a] => Some (verbose, a)
  | _ :: _ :: _ :: _ => None
  | _ => Some (verbose, CONFIGIN)
  end.

(** What is to be written: the tables of the input file, if there is one, it
    is accepted and the output files can be written. *)
Definition of_file (junk : nat -> dev_ent) (readable : list Z -> option (list Z)) (writable : list Z -> bool)
    (verbose : bool) (name : list Z) : verdict (bool * scanner * spec) :=
  match readable name with
  | None => Refused
  | Some text =>
      sp ← parse_tokens junk (tokens (start text));
      if writable CONFIGC && writable CONFIGH then Good (verbose, ending (start text), sp) else Refused
  end.
Definition requested (junk : nat -> dev_ent) (readable : list Z -> option (list Z)) (writable : list Z -> bool)
    (argv : list (list Z)) : verdict (bool * scanner * spec) :=
  match command argv with
  | None => Refused
  | Some (verbose, name) => of_file junk readable writable verbose name
  end.

Definition progress_report (verbose : bool) (brk : Z) (sp : spec) : list Z :=
  if verbose then
    line "Opening input file..." ++ line "Parsing configuration specs..." ++ line "Opening output files..." ++
    h_report true brk ++ end_report sp
  else [].

Lemma gives_up_bind {A B} (m : G A) (f : A -> G B) c : gives_up (m c) -> gives_up (gbind m f c).
Proof. intros (c' & E). exists c'. by rewrite (gbind_inr _ _ _ _ _ E). Qed.

Lemma open_output_run {B} (writable : list Z -> bool) (name : list Z) (k : unit -> G B) c :
  if writable name then gbind (open_output writable name) k c = k tt c else gives_up (gbind (open_output writable name) k c).
Proof. unfold open_output. destruct (writable name); [done|]. apply gives_up_bind, complain_exit. Qed.

Section Program.
Context (junk : nat -> dev_ent) (readable : list Z -> option (list Z)) (writable : list Z -> bool).

(** The files are written, unless a row has an array without a terminator. *)
Definition writes_out (sp : spec) (fin : scanner) (rp : list Z) (r : outcome ((Z + Z) * conf)) : Prop :=
  if forallb ended (devices sp) then exists c, r = Ret (inl 0, c) /\ generated sp fin c /\ report c = rp
  else r = Fault OutOfBounds.

(** From the parser on. *)
Lemma generate_run (verbose : bool) text rp :
  follows (parse_tokens junk (tokens (start text)) ≫= fun sp : spec => if writable CONFIGC && writable CONFIGH then Good sp else Refused)
    (fun sp => writes_out sp (ending (start text)) (rp ++ (if verbose then line "Opening output files..." ++
       h_report true (sc_brk (ending (start text))) ++ end_report sp else [])))
    (generate junk writable verbose (begun rp text)).
Proof using.
  unfold generate. apply (follows_bind _ _ _ _ _ _ _ (yyparse_run junk rp text)). intros sp.
  intros (c & E & R & T & Hf & Hh & Hc & Hrp). rewrite (gbind_inl _ _ _ _ _ E), say_run.
  set (c1 := set_report _ c). assert (rep sp c1) as R1 by (destruct R; by constructor).
  pose proof (fun B : Type => open_output_run (B := B) writable CONFIGC) as O1.
  pose proof (fun B : Type => open_output_run (B := B) writable CONFIGH) as O2.
  destruct (writable CONFIGC); [|apply O1]. rewrite O1. destruct (writable CONFIGH); [|apply O2]. rewrite O2. cbn [andb follows].
  unfold writes_out. rewrite (write_confh_run _ junk sp), (write_confc_run _ junk sp) by done. destruct (forallb ended (devices sp)); [|done].
  assert (generated sp (ending (start text)) (set_confc (conf_c sp) (after_h sp verbose c1))) as Hg.
  { rewrite <- Hf. constructor; try done; [apply R..|by exists junk]. }
  destruct verbose.
  - rewrite (write_report_run _ sp (ending (start text))) by done. eexists. split; [done|]. split; [by destruct Hg|].
    subst c1. unfold after_h. cbn [report set_report set_confc set_confh set_symtab set_nodes brkcount].
    rewrite Hrp, <- Hf, <- !app_assoc. done.
  - eexists. split; [done|]. split; [done|].
    subst c1. unfold after_h. cbn [report set_report set_confc set_confh set_symtab set_nodes].
    unfold h_report. by rewrite andb_false_r, Hrp, !app_nil_r.
Qed.

Definition produces (v : verdict (bool * scanner * spec)) (r : outcome ((Z + Z) * conf)) : Prop :=
  follows v (fun '(verbose, fin, sp) => writes_out sp fin (progress_report verbose (sc_brk fin) sp)) r.

Lemma open_run verbose name :
  produces (of_file junk readable writable verbose name)
  ((say verbose (line "Opening input file...") ;;. open_input readable name ;;.
    say verbose (line "Parsing configuration specs...") ;;. generate junk writable verbose) (initial [])).
Proof using.
  rewrite say_run. unfold open_input, of_file. destruct (readable name) as [text|] eqn:Et; [|apply gives_up_bind, complain_exit].
  rewrite gbind_set, say_run.
  match goal with |- produces _ (generate _ _ _ ?c0) =>
    change c0 with (begun (([] ++ (if verbose then line "Opening input file..." else [])) ++
      (if verbose then line "Parsing configuration specs..." else [])) text) end.
  pose proof (generate_run verbose text (([] ++ (if verbose then line "Opening input file..." else [])) ++
      (if verbose then line "Parsing configuration specs..." else []))) as H.
  unfold produces. destruct (parse_tokens junk (tokens (start text))) as [sp| | |]; [|done..]. cbn [mbind verdict_bind] in *.
  destruct (writable CONFIGC && writable CONFIGH); [|done]. unfold follows, writes_out in *.
  destruct (forallb ended (devices sp)); [|done]. destruct H as (c & E & G & Hrp).
  exists c. split; [done|]. split; [done|]. rewrite Hrp. unfold progress_report. by destruct verbose.
Qed.

Lemma config_run argv : produces (requested junk readable writable argv) (config junk readable writable argv).
Proof using.
  unfold config, main, requested, command.
  set (verbose := match argv with _ :: a :: _ => prefix (chars "-v") a | _ => false end).
  destruct (if verbose then tail argv else argv) as [|x [|a [|b l]]]; cbv zeta; try apply open_run.
  rewrite (proj2 (Z.ltb_lt 2 (lenZ (x :: a :: b :: l)))) by (rewrite !lenZ_cons; unfold lenZ; lia).
  apply gives_up_bind, complain_exit.
Qed.

(** Some array that malloc returns has no zero behind the place of [ioerr]. *)
Definition stray_text : Prop := exists n r, text_of (put ioerr 5 (d_code (junk n) r)) = None.

Lemma ended_typed sp : typed junk sp -> forallb ended (devices sp) = false -> stray_text.
Proof using.
  intros Ht H. assert (exists d, d ∈ devices sp /\ ended d = false) as (d & Hd & He).
  { clear Ht. induction (devices sp) as [|d ds IH]; [done|]. simpl in H. destruct (ended d) eqn:E; [|exists d; split; [left|done]].
    destruct (IH H) as (e & ? & ?). exists e. split; [by right|done]. }
  assert (exists r, ends d r = false) as (r & Hr).
  { unfold ended in He. repeat (apply andb_false_iff in He as [He|He]); by eexists. }
  unfold ends in Hr. apply bool_decide_eq_false in Hr.
  destruct (ty_codes _ _ Ht d (or_intror Hd) r) as [(w & _ & E)|(n & E)]; [by rewrite E in Hr; destruct Hr; eexists|].
  exists n, r. rewrite <- E. destruct (text_of (d_code d r)); [by destruct Hr; eexists|done].
Qed.

(** What it takes not to write files, nor exit. *)
Lemma requested_limits argv :
  match requested junk readable writable argv with
  | Good (_, _, sp) => forallb ended (devices sp) = false -> stray_text
  | Refused => True
  | Overflow => exists name text, readable name = Some text /\ NSYMTAB < idents (tokens (start text))
  | Stray => stray_link junk
  end.
Proof using.
  unfold requested. destruct (command argv) as [[verbose name]|]; [|done]. unfold of_file.
  destruct (readable name) as [text|] eqn:Et; [|done]. pose proof (yyparse_run junk [] text) as H.
  destruct (parse_limits junk (tokens (start text))) as [Ho Hs].
  destruct (parse_tokens junk (tokens (start text))) as [sp| | |]; cbn [mbind verdict_bind]; [|done|..].
  - destruct (writable CONFIGC && writable CONFIGH); [|done]. destruct H as (c & _ & _ & T & _). by apply ended_typed.
  - exists name, text. split; [done|]. by apply Ho.
  - by apply Hs.
Qed.
End Program.

(** ** Numbers *)

Lemma count_of_split l1 d l2 : count_of l1 (d_tnum d) < count_of (l1 ++ d :: l2) (d_tnum d).
Proof.
  unfold count_of. rewrite List.filter_app, lenZ_app. simpl. rewrite Z.eqb_refl, lenZ_cons. unfold lenZ. lia.
Qed.

Lemma numbered_at before ds k d : nthZ (numbered before ds) k = Some d ->
  exists l1 e l2, ds = l1 ++ e :: l2 /\ lenZ l1 = k /\ d = set_d_minor (count_of (before ++ l1) (d_tnum e)) e.
Proof.
  revert before k. induction ds as [|x ds IH]; intros before k Hk; [by rewrite nthZ_None in Hk by (unfold lenZ; simpl; lia)|].
  pose proof (nthZ_Some_lt _ _ _ Hk). destruct (decide (k = 0)) as [->|].
  - injection Hk as <-. exists [], x, ds. by rewrite app_nil_r.
  - cbn [numbered] in Hk. rewrite nthZ_cons_pos in Hk by lia. destruct (IH _ _ Hk) as (l1 & e & l2 & -> & El & ->).
    exists (x :: l1), e, l2. rewrite lenZ_cons. split; [done|]. split; [lia|]. by rewrite <- app_assoc.
Qed.

(** Two devices of a type do not share a number. *)
Lemma numbered_distinct ds k k' d d' : nthZ (numbered [] ds) k = Some d -> nthZ (numbered [] ds) k' = Some d' ->
  d_tnum d' = d_tnum d -> k < k' -> d_minor d < d_minor d'.
Proof.
  intros (l1 & e & l2 & Ed & <- & ->)%numbered_at (l1' & e' & l2' & -> & <- & ->)%numbered_at Ht Hlt. simpl in *.
  assert (exists l3, l1' = l1 ++ e :: l3) as [l3 ->].
  { apply app_eq_inv in Ed as [(k & E1 & E2)|(k & E1 & E2)].
    - destruct k as [|x k]; [rewrite E1, app_nil_r in Hlt; lia|]. injection E2 as <- _. by exists k.
    - rewrite E1, lenZ_app in Hlt. unfold lenZ in Hlt. lia. }
  rewrite Ht. apply count_of_split.
Qed.

Lemma numbered_minor ds k d : nthZ (numbered [] ds) k = Some d -> 0 <= d_minor d < count_of ds (d_tnum d).
Proof.
  intros (l1 & e & l2 & -> & _ & ->)%numbered_at. simpl. pose proof (count_of_range l1 (d_tnum e)).
  pose proof (count_of_split l1 e l2). lia.
Qed.

Lemma chained_link base l k d : nthZ l k = Some d ->
  nthZ (chained base l) k = Some (set_d_next (if k + 1 =? lenZ l then None else Some (base + k + 1)) d).
Proof.
  revert base k. induction l as [|x l IH]; intros base k Hk; [by rewrite nthZ_None in Hk by (unfold lenZ; simpl; lia)|].
  pose proof (nthZ_Some_lt _ _ _ Hk) as Hr. cbn [chained_to]. rewrite lenZ_cons in *. destruct (decide (k = 0)) as [->|].
  - injection Hk as ->. destruct l as [|y l]; [done|]. rewrite (proj2 (Z.eqb_neq _ _)) by (rewrite lenZ_cons; unfold lenZ; lia).
    by rewrite Z.add_0_r.
  - rewrite nthZ_cons_pos in * by lia. rewrite (IH _ _ Hk).
    replace (k - 1 + 1 =? lenZ l) with (k + 1 =? lenZ l + 1) by lia. by replace (base + 1 + (k - 1) + 1) with (base + k + 1) by lia.
Qed.

Lemma nthZ_app_r {A} (l1 l2 : list A) k : 0 <= k -> nthZ (l1 ++ l2) (lenZ l1 + k) = nthZ l2 k.
Proof.
  intros Hk. unfold nthZ, lenZ. rewrite !(proj2 (Z.leb_le 0 _)) by lia.
  rewrite lookup_app_r by lia. f_equal. lia.
Qed.

(** ** The theorems *)

(** C32: Whatever the command line, the files and what malloc leaves in the
    entries.  When the command line is in order, its input file can be read
    and is given tables, the output files can be written and every array of
    the rows has its terminator, the program returns 0: it has written the
    conf.h and the conf.c of the declarations and, with -v, the report, and
    its tables hold them.  With an array that malloc has left without a
    terminator the program reads past it; with more names than the symbol
    table holds, which takes more than 250 identifiers, it writes past the
    table.  In all other cases it exits with 1, unless a search follows a
    link malloc has left that is not null, where nothing is said. *)
Theorem config_generates junk readable writable argv :
  match requested junk readable writable argv with
  | Good (verbose, fin, sp) =>
      if forallb ended (devices sp) then
        exists c, config junk readable writable argv = Ret (inl 0, c) /\
          confh c = conf_h sp (sc_brk fin) (sc_lit fin) /\ confc c = conf_c sp /\
          report c = progress_report verbose (sc_brk fin) sp /\
          nodes c = chained_to (link sp) 0 (types sp) ++ chained (lenZ (types sp)) (numbered [] (devices sp))
      else config junk readable writable argv = Fault OutOfBounds /\ stray_text junk
  | Refused => exists c, config junk readable writable argv = Ret (inr 1, c)
  | Overflow => config junk readable writable argv = Fault OutOfBounds /\
      exists name text, readable name = Some text /\ NSYMTAB < idents (tokens (start text))
  | Stray => stray_link junk
  end.
Proof.
  pose proof (config_run junk readable writable argv) as H. pose proof (requested_limits junk readable writable argv) as Hl.
  destruct (requested junk readable writable argv) as [[[verbose fin] sp]| | |]; unfold produces, follows, writes_out in *;
    [|done|done|done].
  destruct (forallb ended (devices sp)); [|by auto]. destruct H as (c & E & [] & Hrp). by exists c.
Qed.

(** C34: Whatever the text and whatever malloc leaves in the entries, the
    parser's actions keep the tables well typed: at most 250 names, distinct,
    short and without NUL; every type a distinct pair of a name and a device;
    every device a distinct name with a declared type; all symbol numbers
    inside the table; and in the array of every routine either the name an
    attribute gave it, terminated, or [ioerr] over what malloc left there.
    The other outcomes are an exit with 1, a write past the end of the symbol
    table, which takes more than 250 identifiers, and the step along a link
    that malloc left and that is not null. *)
Theorem tables_typed junk text :
  (exists sp c, yyparse junk (initial text) = Ret (inl tt, c) /\ rep sp c /\ typed junk sp) \/
  (exists c, yyparse junk (initial text) = Ret (inr 1, c)) \/
  (yyparse junk (initial text) = Fault OutOfBounds /\ NSYMTAB < idents (tokens (start text))) \/
  (parse_tokens junk (tokens (start text)) = Stray /\ stray_link junk).
Proof.
  pose proof (yyparse_run junk [] text) as H. change (begun [] text) with (initial text) in H.
  destruct (parse_limits junk (tokens (start text))) as [Ho Hs].
  destruct (parse_tokens junk (tokens (start text))) as [sp| | |].
  - left. destruct H as (c & E & R & T & _). by exists sp, c.
  - by right; left.
  - right; right; left. split; [done|by apply Ho].
  - right; right; right. split; [done|by apply Hs].
Qed.

(** C36: When the program has succeeded, whatever malloc left in the entries,
    the device list has NDEVS entries, and the minor number of each is below
    the size conf.h gives for its type and differs from the minor numbers of
    the other devices of the type; unless a search has followed a link that
    malloc left and that is not null. *)
Theorem minor_numbers junk readable writable argv c :
  config junk readable writable argv = Ret (inl 0, c) ->
  (requested junk readable writable argv = Stray /\ stray_link junk) \/
  exists base, (0 < ndevs c -> devs c = Some base) /\
  forall k, 0 <= k < ndevs c -> exists d e, nthZ (nodes c) (base + k) = Some d /\
    nthZ (symtab c) (d_tnum d) = Some e /\ 0 <= d_minor d < sy_occurs e /\
    d_next d = (if k + 1 =? ndevs c then None else Some (base + k + 1)) /\
    forall k' d', 0 <= k' < ndevs c -> nthZ (nodes c) (base + k') = Some d' ->
      d_tnum d' = d_tnum d -> d_minor d' = d_minor d -> k' = k.
Proof.
  intros E. pose proof (config_run junk readable writable argv) as H. rewrite E in H.
  pose proof (requested_limits junk readable writable argv) as Hl.
  destruct (requested junk readable writable argv) as [[[verbose fin] sp]| | |];
    [right|by destruct H as (? & ?)|done|by left]. unfold produces, follows, writes_out in H.
  destruct (forallb ended (devices sp)); [|done]. destruct H as (c0 & [= <-] & [_ _ Gn Gs Gd Gc [jk Gt]] & _). clear Hl.
  exists (lenZ (types sp)). rewrite Gd, Gc. split.
  { destruct (devices sp); [by unfold lenZ; simpl|done]. }
  intros k Hk.
  assert (forall k d, nthZ (numbered [] (devices sp)) k = Some d -> 0 <= k -> nthZ (nodes c) (lenZ (types sp) + k) =
    Some (set_d_next (if k + 1 =? lenZ (devices sp) then None else Some (lenZ (types sp) + k + 1)) d)) as Hnode.
  { intros j d Hj0 H0. rewrite Gn, <- (chained_lenZ (link sp) 0 (types sp)), nthZ_app_r, (chained_link _ _ _ _ Hj0), numbered_lenZ by done.
    by rewrite chained_lenZ. }
  assert (forall k, 0 <= k < lenZ (devices sp) -> exists d, nthZ (numbered [] (devices sp)) k = Some d) as Hat
    by (intros j Hj0; apply nthZ_lt_Some; by rewrite numbered_lenZ).
  destruct (Hat k Hk) as [d Hd]. pose proof (numbered_minor _ _ _ Hd) as Hm.
  assert (0 <= d_tnum d < lenZ (names sp)) as Ht.
  { assert (d ∈ numbered [] (devices sp)) as Hin
      by (unfold nthZ in Hd; destruct (0 <=? k); [by eapply list_elem_of_lookup_2|done]).
    apply numbered_ok in Hin as (e & m & He & ->). apply (to_tname _ _ (do_type _ _ (typed_dev_ok _ _ _ Gt He))). }
  destruct (nthZ_lt_Some _ _ Ht) as [w Hw]. eexists _, _.
  split; [apply (Hnode k d Hd); lia|]. split; [rewrite Gs; by apply counted_at|]. split; [done|]. split; [done|].
  intros k' d' Hk' Hd'. destruct (Hat k' Hk') as [d2 Hd2]. rewrite (Hnode k' d2 Hd2) in Hd' by lia.
  injection Hd' as <-. simpl. intros Et Em. destruct (Z.lt_trichotomy k k') as [Hlt|[->|Hlt]]; [|done|].
  - pose proof (numbered_distinct _ _ _ _ _ Hd Hd2 Et Hlt). lia.
  - pose proof (numbered_distinct _ _ _ _ _ Hd2 Hd (eq_sym Et) Hlt). lia.
Qed.
