(* ===== verification/Ctype.v ===== *)
(** * Character classes (include/ctype.h, lib/libxc/ctype_.c)

    The table of attribute bits and the macros that test it.  A character is
    converted to [unsigned char] before it indexes the table. *)

From Stdlib Require Import Ascii String.
From stdpp Require Import base numbers list.
From S2P Require Import Prelude CString Doprnt.

(** ** Definitions *)

Definition _U : Z := 0x01.
Definition _L : Z := 0x02.
Definition _N : Z := 0x04.
Definition _S : Z := 0x08.
Definition _P : Z := 0x10.
Definition _C : Z := 0x20.
Definition _X : Z := 0x40.

(** The 128 entries written out; the others are zero. *)
Definition _ctype_ : list Z :=
  [_C; _C; _C; _C; _C; _C; _C; _C;
   _C; Z.lor _C _S; Z.lor _C _S; Z.lor _C _S; Z.lor _C _S; Z.lor _C _S; _C; _C;
   _C; _C; _C; _C; _C; _C; _C; _C;
   _C; _C; _C; _C; _C; _C; _C; _C;
   _S; _P; _P; _P; _P; _P; _P; _P;
   _P; _P; _P; _P; _P; _P; _P; _P;
   _N; _N; _N; _N; _N; _N; _N; _N;
   _N; _N; _P; _P; _P; _P; _P; _P;
   _P; Z.lor _U _X; Z.lor _U _X; Z.lor _U _X; Z.lor _U _X; Z.lor _U _X; Z.lor _U _X;
   _U;
   _U; _U; _U; _U; _U; _U; _U; _U;
   _U; _U; _U; _U; _U; _U; _U; _U;
   _U; _U; _U; _P; _P; _P; _P; _P;
   _P; Z.lor _L _X; Z.lor _L _X; Z.lor _L _X; Z.lor _L _X; Z.lor _L _X; Z.lor _L _X;
   _L;
   _L; _L; _L; _L; _L; _L; _L; _L;
   _L; _L; _L; _L; _L; _L; _L; _L;
   _L; _L; _L; _P; _P; _P; _P; _C] ++ replicate 128 0.

Definition ctest (c bits : Z) : bool := negb (Z.land (nth (Z.to_nat (u8 c)) _ctype_ 0) bits =? 0).

Definition isalpha (c : Z) : bool := ctest c (Z.lor _U _L).
Definition isupper (c : Z) : bool := ctest c _U.
Definition islower (c : Z) : bool := ctest c _L.
Definition isdigit (c : Z) : bool := ctest c _N.
Definition isxdigit (c : Z) : bool := ctest c (Z.lor _N _X).
Definition isspace (c : Z) : bool := ctest c _S.
Definition ispunct (c : Z) : bool := ctest c _P.
Definition isalnum (c : Z) : bool := ctest c (Z.lor _U (Z.lor _L _N)).
Definition isprint (c : Z) : bool := ctest c (Z.lor _P (Z.lor _U (Z.lor _L (Z.lor _N _S)))).
Definition iscntrl (c : Z) : bool := ctest c _C.
Definition isascii (c : Z) : bool := u8 c <=? 0x7F.

Definition toupper (c : Z) : Z := if islower (u8 c) then u8 c + (chr "A" - chr "a") else u8 c.
Definition tolower (c : Z) : Z := if isupper (u8 c) then u8 c + (chr "a" - chr "A") else u8 c.
Definition toascii (c : Z) : Z := Z.land (u8 c) 0x7F.

(** ** The classes as ranges *)

Definition between (lo hi c : Z) : bool := (lo <=? c) && (c <=? hi).

(** A fact about every byte follows from its evaluation on each. *)
Lemma bytes_all (P : Z -> bool) : forallb P (seqZ 0 256) = true -> forall c, 0 <= c < 256 -> P c = true.
Proof. intros H c Hc. rewrite forallb_forall in H. apply H, list_elem_of_In, elem_of_seqZ. lia. Qed.

Lemma bytes_eq {A} `{EqDecision A} (f g : Z -> A) :
  forallb (fun c => bool_decide (f c = g c)) (seqZ 0 256) = true -> forall c, 0 <= c < 256 -> f c = g c.
Proof. intros H c Hc. exact (bool_decide_eq_true_1 _ (bytes_all _ H c Hc)). Qed.

Lemma isdigit_range c : 0 <= c < 256 -> isdigit c = between 48 57 c.
Proof. revert c. apply bytes_eq. vm_compute. reflexivity. Qed.
Lemma isspace_range c : 0 <= c < 256 -> isspace c = between 9 13 c || (c =? 32).
Proof. revert c. apply bytes_eq. vm_compute. reflexivity. Qed.
Lemma isupper_range c : 0 <= c < 256 -> isupper c = between 65 90 c.
Proof. revert c. apply bytes_eq. vm_compute. reflexivity. Qed.
Lemma islower_range c : 0 <= c < 256 -> islower c = between 97 122 c.
Proof. revert c. apply bytes_eq. vm_compute. reflexivity. Qed.
Lemma isxdigit_range c : 0 <= c < 256 -> isxdigit c = between 48 57 c || between 65 70 c || between 97 102 c.
Proof. revert c. apply bytes_eq. vm_compute. reflexivity. Qed.
Lemma ispunct_range c : 0 <= c < 256 ->
  ispunct c = between 33 47 c || between 58 64 c || between 91 96 c || between 123 126 c.
Proof. revert c. apply bytes_eq. vm_compute. reflexivity. Qed.
Lemma iscntrl_range c : 0 <= c < 256 -> iscntrl c = between 0 31 c || (c =? 127).
Proof. revert c. apply bytes_eq. vm_compute. reflexivity. Qed.
Lemma isalnum_parts c : 0 <= c < 256 -> isalnum c = isalpha c || isdigit c.
Proof. revert c. apply bytes_eq. vm_compute. reflexivity. Qed.
Lemma isalpha_parts c : 0 <= c < 256 -> isalpha c = isupper c || islower c.
Proof. revert c. apply bytes_eq. vm_compute. reflexivity. Qed.

(** The white-space controls count as printing, against the C standard, where
    only the space does. *)
Lemma isprint_range c : 0 <= c < 256 -> isprint c = between 32 126 c || between 9 13 c.
Proof. revert c. apply bytes_eq. vm_compute. reflexivity. Qed.

(** On every byte the tests agree with the ranges of ASCII, each letter
    case conversion is the inverse of the other on the letters and leaves
    every other byte alone, and [toascii] gives a 7-bit character. *)
Theorem ctype_ascii c : 0 <= c < 256 ->
  isdigit c = between 48 57 c /\ isupper c = between 65 90 c /\ islower c = between 97 122 c /\
  isspace c = between 9 13 c || (c =? 32) /\ isalnum c = isalpha c || isdigit c /\
  iscntrl c = between 0 31 c || (c =? 127) /\
  (isupper c = true -> islower (tolower c) = true /\ toupper (tolower c) = c) /\
  (islower c = true -> isupper (toupper c) = true /\ tolower (toupper c) = c) /\
  (isupper c = false -> tolower c = c) /\ (islower c = false -> toupper c = c) /\
  isascii (toascii c) = true.
Proof.
  intros Hc. split; [by apply isdigit_range|]. split; [by apply isupper_range|].
  split; [by apply islower_range|]. split; [by apply isspace_range|]. split; [by apply isalnum_parts|].
  split; [by apply iscntrl_range|].
  assert (implb (isupper c) (islower (tolower c) && (toupper (tolower c) =? c)) &&
    implb (islower c) (isupper (toupper c) && (tolower (toupper c) =? c)) &&
    implb (negb (isupper c)) (tolower c =? c) && implb (negb (islower c)) (toupper c =? c) &&
    isascii (toascii c) = true) as H by (revert c Hc; apply bytes_all; vm_compute; reflexivity).
  btest. repeat match goal with |- (_ -> _) /\ _ => split end; try done;
    intros E; rewrite E in *; simpl in *; btest; done.
Qed.
