(* ===== verification/Doscan.v ===== *)
(** * Formatted input (lib/libxc/doscan.c, sscanf.c)

    [_doscan] over an arbitrary character source with one character of
    push-back.  The objects the arguments point to are a list, a pointer is
    one more than an index into it, and zero is [NULL]; storing through a
    pointer to an object of another type, or past the end of a buffer,
    faults.  Loops that wait for input take fuel; for a string its length is
    enough. *)

From Stdlib Require Import Ascii String.
From stdpp Require Import base numbers list.
From S2P Require Import Prelude Kernel CString Doprnt Ctype.

(** ** Definitions *)

Inductive integer_size := SHORT_SIZE | REGULAR_SIZE | LONG_SIZE.

Definition UNLIMITED_LENGTH : Z := 2 ^ 32 - 1.

(** Objects results are stored in. *)
Inductive dest :=
  | DBuf (l : list Z)
  | DShort (v : Z)
  | DInt (v : Z)
  | DLong (v : Z).

Section Scan.
Context {St : Type} (getch ungetch : M St Z).

Abbreviation SM := (M (St * list dest)).

Definition on_input {A} (m : M St A) : SM A := fun '(s, o) =>
  match m s with Ret (a, s') => Ret (a, (s', o)) | Fault f => Fault f end.
Definition get : SM Z := on_input getch.
Definition unget : SM Z := on_input ungetch.

(** *(p + off) = v for a character pointer [p]. *)
Definition put_char (p off v : Z) : SM unit := fun '(s, o) =>
  match nthZ o (p - 1) with
  | Some (DBuf l) => match wrc l off (u8 v) with
                     | Ret l' => Ret (tt, (s, updZ (p - 1) (DBuf l') o))
                     | Fault f => Fault f
                     end
  | _ => Fault OutOfBounds
  end.

Definition put_num (p : Z) (size : integer_size) (n : Z) : SM unit := fun '(s, o) =>
  match size, nthZ o (p - 1) with
  | SHORT_SIZE, Some (DShort _) => Ret (tt, (s, updZ (p - 1) (DShort (swrap 16 n)) o))
  | REGULAR_SIZE, Some (DInt _) => Ret (tt, (s, updZ (p - 1) (DInt (s32 n)) o))
  | LONG_SIZE, Some (DLong _) => Ret (tt, (s, updZ (p - 1) (DLong (s32 n)) o))
  | _, _ => Fault OutOfBounds
  end.

(** Read up to the first character that is not white space. *)
Fixpoint skip_space (fuel : nat) : SM Z :=
  match fuel with
  | O => failwith OutOfFuel
  | S fuel' => c <-- get ;; if c =? EOF then ret EOF else if isspace c then skip_space fuel' else ret c
  end.

(** The loop of [scan_string]; the results are [len] and whether the input
    ended.  The pointer has advanced by [len]. *)
Fixpoint scan_string_loop (fuel : nat) (ptr type maxlen : Z) (stopchar_tab : list Z) (len : Z) : SM (Z * bool) :=
  match fuel with
  | O => failwith OutOfFuel
  | S fuel' =>
      if len <? maxlen then
        c <-- get ;;
        if c =? EOF then ret (len, true)
        else
          stop <-- (if type =? chr "[" then v <-- must (nthZ stopchar_tab c) ;; ret (negb (v =? 0))
                    else ret ((type =? chr "s") && isspace c)) ;;
          if (stop : bool) then unget ;;; ret (len, false)
          else
            (if negb (ptr =? NULL) then put_char ptr len c else ret tt) ;;;
            scan_string_loop fuel' ptr type maxlen stopchar_tab (u32 (len + 1))
      else ret (len, false)
  end.

(** The results are the return value and [*eofptr]. *)
Definition scan_string (fuel : nat) (ptr type maxlen : Z) (stopchar_tab : list Z) : SM (bool * bool) :=
  let maxlen := if (type =? chr "c") && (maxlen =? UNLIMITED_LENGTH) then 1 else maxlen in
  '(len, eof) <-- scan_string_loop fuel ptr type maxlen stopchar_tab 0 ;;
  (if negb (ptr =? NULL) && negb (type =? chr "c") then put_char ptr len 0 else ret tt) ;;;
  ret (negb (len =? 0) && negb ((type =? chr "c") && (len <? maxlen)), eof).

(** The digit [c] in base 8, 10 or 16, by the cases of the switch. *)
Definition digit_in (base c : Z) : option Z :=
  if (base =? 16) && ((chr "a" <=? c) && (c <=? chr "f")) then Some (0xA + (c - chr "a"))
  else if ((base =? 16) || (base =? 10)) && ((chr "8" <=? c) && (c <=? chr "9")) then Some (c - chr "0")
  else if (chr "0" <=? c) && (c <=? chr "7") then Some (c - chr "0")
  else None.

(** The loop over the digits from character [c] on; the results are [c], [n]
    and [len]. *)
Fixpoint scan_number_loop (fuel : nat) (base maxlen c n len : Z) : SM (Z * Z * Z) :=
  match fuel with
  | O => failwith OutOfFuel
  | S fuel' =>
      if c =? EOF then ret (c, n, len)
      else
        let c := tolower c in
        match digit_in base c with
        | None => unget ;;; ret (c, n, len)
        | Some d =>
            let n := u32 (u32 (n * base) + d) in
            let len := u32 (len + 1) in
            if maxlen <=? len then ret (c, n, len)
            else c <-- get ;; scan_number_loop fuel' base maxlen c n len
        end
  end.

Definition scan_number (fuel : nat) (ptr maxlen : Z) (size : integer_size) (base c : Z) : SM (bool * bool) :=
  let negative := c =? chr "-" in
  let had_sign := (c =? chr "-") || (c =? chr "+") in
  c <-- (if had_sign then get else ret c) ;;
  '(c, n, len) <-- scan_number_loop fuel base maxlen c 0 (if had_sign then 1 else 0) ;;
  let eof := c =? EOF in
  if negb (ptr =? NULL) && negb (len =? 0) && negb (had_sign && (len =? 1)) then
    put_num ptr size (if negative then u32 (- n) else n) ;;; ret (true, eof)
  else ret (false, eof).

Definition scan_number_or_string (fuel : nat) (ptr type maxlen : Z) (size : integer_size)
    (stopchar_tab : list Z) : SM (bool * bool) :=
  let skips := negb (type =? chr "[") && negb (type =? chr "c") in
  c <-- (if skips then skip_space fuel else ret EOF) ;;
  if skips && (c =? EOF) then ret (false, true)
  else
    (if type =? chr "s" then unget ;;; ret tt else ret tt) ;;;
    if (type =? chr "c") || (type =? chr "s") || (type =? chr "[") then
      scan_string fuel ptr type maxlen stopchar_tab
    else
      scan_number fuel ptr maxlen size
        (if type =? chr "o" then 8 else if type =? chr "x" then 16 else 10) c.

(** The loop of [build_stopchar_tab]; a structural walk of the format. *)
Fixpoint stopchar_loop (ufmt : list Z) (fill_char : Z) (first : bool) (tab : list Z) : outcome (list Z * list Z) :=
  match ufmt with
  | [] => Fault OutOfBounds
  | c :: ufmt' =>
      if (c =? chr "]") && negb first then Ret (ufmt', tab)
      else if c =? 0 then Ret (ufmt, tab)
      else tab' <~ wrc tab c fill_char ;; stopchar_loop ufmt' fill_char false tab'
  end.

Definition build_stopchar_tab (ufmt stopchar_tab : list Z) : outcome (list Z * list Z) :=
  c <~ rdc ufmt ;;
  let '(ufmt, fill_char) := if c =? chr "^" then (tail ufmt, 0) else (ufmt, 1) in
  tab <~ memset stopchar_tab fill_char 256 ;;
  stopchar_loop ufmt (Z.lxor fill_char 1) true tab.

(** The maximum length of a field. *)
Fixpoint scan_maxlen (ufmt : list Z) (maxlen : Z) : outcome (Z * list Z) :=
  match ufmt with
  | [] => Fault OutOfBounds
  | c :: ufmt' => if isdigit c then scan_maxlen ufmt' (u32 (u32 (maxlen * 10) + (c - chr "0"))) else Ret (maxlen, ufmt)
  end.

Definition scan_modifier (ufmt : list Z) : outcome (integer_size * list Z) :=
  c <~ rdc ufmt ;;
  if c =? chr "l" then Ret (LONG_SIZE, tail ufmt)
  else if c =? chr "h" then Ret (SHORT_SIZE, tail ufmt)
  else Ret (REGULAR_SIZE, ufmt).

(** A conversion specification behind its '%', up to the scan: the pointer,
    [maxlen], [size], the conversion character, and what is left of the
    format and of the arguments. *)
Definition scan_spec (ufmt : list Z) (ap : list Z) : outcome (Z * Z * integer_size * Z * list Z * list Z) :=
  c <~ rdc ufmt ;;
  '(ptr, ufmt, ap) <~ (if c =? chr "*" then Ret (NULL, tail ufmt, ap)
                       else match ap with p :: ap' => Ret (p, ufmt, ap') | [] => Fault OutOfBounds end) ;;
  '(maxlen, ufmt) <~ scan_maxlen ufmt 0 ;;
  let maxlen := if maxlen =? 0 then UNLIMITED_LENGTH else maxlen in
  '(size, ufmt) <~ scan_modifier ufmt ;;
  c <~ rdc ufmt ;;
  Ret (ptr, maxlen, size, c, tail ufmt, ap).

(** What the loop of [_doscan] goes on with: the result, or the rest of the
    format and of the arguments, the count and the table. *)
Inductive progress :=
  | Done (result : Z)
  | Go (ufmt ap : list Z) (nmatch : Z) (stopchar_tab : list Z).

Definition scan_conversion (fuel : nat) (ufmt ap : list Z) (nmatch : Z) (tab : list Z) : SM progress :=
  '(ptr, maxlen, size, c, ufmt, ap) <-- pure (scan_spec ufmt ap) ;;
  if c =? 0 then ret (Done nmatch)
  else
    '(ufmt, tab) <-- (if c =? chr "[" then pure (build_stopchar_tab ufmt tab) else ret (ufmt, tab)) ;;
    let '(c, size) := if negb (c =? chr "[") && isupper c then (tolower c, LONG_SIZE) else (c, size) in
    '(ok, eof) <-- scan_number_or_string fuel ptr (u8 c) maxlen size tab ;;
    if (ok : bool) then
      let nmatch := if negb (ptr =? NULL) then s32 (nmatch + 1) else nmatch in
      if (eof : bool) then ret (Done (if nmatch =? 0 then EOF else nmatch)) else ret (Go ufmt ap nmatch tab)
    else
      if negb (ptr =? NULL) || eof then ret (Done (if eof && (nmatch =? 0) then EOF else nmatch))
      else ret (Go ufmt ap nmatch tab).

(** Skip the white space of the format. *)
Fixpoint skip_fmt (ufmt : list Z) : outcome (list Z) :=
  match ufmt with
  | [] => Fault OutOfBounds
  | c :: ufmt' => if isspace c then skip_fmt ufmt' else Ret ufmt
  end.

(** White space, or a character to match, at the head of the format. *)
Definition scan_ordinary (fuel : nat) (ufmt ap : list Z) (nmatch : Z) (tab : list Z) : SM progress :=
  u <-- pure (rdc ufmt) ;;
  if isspace u then
    c <-- skip_space fuel ;;
    if c =? EOF then ret (Done (if nmatch =? 0 then EOF else nmatch))
    else
      unget ;;;
      ufmt <-- pure (skip_fmt (tail ufmt)) ;;
      ret (Go ufmt ap nmatch tab)
  else
    c <-- get ;;
    if c =? EOF then ret (Done (if nmatch =? 0 then EOF else nmatch))
    else if negb (c =? u) then ret (Done nmatch)
    else ret (Go (tail ufmt) ap nmatch tab).

Fixpoint _doscan_loop (n fuel : nat) (ufmt ap : list Z) (nmatch : Z) (tab : list Z) : SM Z :=
  match n with
  | O => failwith OutOfFuel
  | S n' =>
      u <-- pure (rdc ufmt) ;;
      if u =? 0 then ret nmatch
      else
        r <-- (if u =? chr "%" then
                 u1 <-- pure (rdc (tail ufmt)) ;;
                 if negb (u1 =? chr "%") then scan_conversion fuel (tail ufmt) ap nmatch tab
                 else scan_ordinary fuel (tail ufmt) ap nmatch tab
               else scan_ordinary fuel ufmt ap nmatch tab) ;;
        match r with
        | Done v => ret v
        | Go ufmt ap nmatch tab => _doscan_loop n' fuel ufmt ap nmatch tab
        end
  end.

(** [tab] is the uninitialised [stopchar_tab]. *)
Definition _doscan (fuel : nat) (tab fmt ap : list Z) : SM Z := _doscan_loop (S (length fmt)) fuel fmt ap 0 tab.
End Scan.

(** *** sscanf: the source is a string and the position in it. *)

Definition sgetch : M (list Z * Z) Z := fun '(str, pos) =>
  match nthZ str pos with
  | None => Fault OutOfBounds
  | Some c => if c =? 0 then Ret (EOF, (str, pos)) else Ret (u8 c, (str, pos + 1))
  end.

Definition sungetch : M (list Z * Z) Z := fun '(str, pos) =>
  match nthZ str (pos - 1) with
  | None => Fault OutOfBounds
  | Some c => Ret (u8 c, (str, pos - 1))
  end.

(** The result, and the objects afterwards. *)
Definition sscanf (tab str format ap : list Z) (objs : list dest) : outcome (Z * list dest) :=
  '(r, (_, objs)) <~ _doscan sgetch sungetch (S (length str)) tab format ap ((str, 0), objs) ;;
  Ret (r, objs).

(** ** Scanning numbers from a string *)

Lemma nthZ_app_at {A} (l1 : list A) x l2 i : i = lenZ l1 -> nthZ (l1 ++ x :: l2) i = Some x.
Proof. intros ->. unfold nthZ, lenZ. rewrite (proj2 (Z.leb_le 0 _)), Nat2Z.id by lia. by apply list_lookup_middle. Qed.

Lemma lenZ_snoc {A} (l : list A) x : lenZ l + 1 = lenZ (l ++ [x]).
Proof. by rewrite lenZ_app. Qed.

(** What [sgetch] gives for the byte [t]. *)
Definition delivered (t : Z) : Z := if t =? 0 then EOF else t.

Definition byte (t : Z) : Prop := 0 <= t < 256.

Lemma get_run p1 t p2 pos objs : pos = lenZ p1 -> byte t ->
  get sgetch ((p1 ++ t :: p2, pos), objs) =
  Ret (delivered t, ((p1 ++ t :: p2, if t =? 0 then pos else pos + 1), objs)).
Proof.
  intros Hp Ht. unfold get, on_input, sgetch. rewrite nthZ_app_at by done. unfold delivered.
  destruct (t =? 0) eqn:E; [done|]. by rewrite wrap_small by (unfold byte in Ht; lia).
Qed.

Lemma unget_run p1 t p2 pos objs : pos = lenZ p1 + 1 ->
  unget sungetch ((p1 ++ t :: p2, pos), objs) = Ret (u8 t, ((p1 ++ t :: p2, pos - 1), objs)).
Proof. intros ->. unfold unget, on_input, sungetch. by rewrite nthZ_app_at by lia. Qed.

(** A digit character stands for its digit in every base that has it. *)
Lemma digit_in_char base alt d : base = 8 \/ base = 10 \/ base = 16 -> 0 <= d < base ->
  digit_in base (tolower (digit_char alt d)) = Some d.
Proof.
  intros Hb Hd. assert (d ∈ seqZ 0 base) as Hin by (apply elem_of_seqZ; lia).
  assert (forallb (fun d => bool_decide (digit_in base (tolower (digit_char alt d)) = Some d)) (seqZ 0 base) = true)
    as HF by (destruct Hb as [-> | [-> | ->]], alt; vm_compute; reflexivity).
  rewrite forallb_forall in HF. apply list_elem_of_In in Hin. exact (bool_decide_eq_true_1 _ (HF d Hin)).
Qed.

Lemma digit_char_byte alt d : 0 <= d < 16 -> byte (digit_char alt d) /\ digit_char alt d <> 0 /\
  isspace (digit_char alt d) = false /\ digit_char alt d <> chr "-" /\ digit_char alt d <> chr "+".
Proof.
  intros Hd. assert (d ∈ seqZ 0 16) as Hin by (apply elem_of_seqZ; lia). apply list_elem_of_In in Hin.
  assert (forallb (fun d => let c := digit_char alt d in (0 <=? c) && (c <? 256) && negb (c =? 0) && negb (isspace c) &&
    negb (c =? chr "-") && negb (c =? chr "+")) (seqZ 0 16) = true) as HF by (destruct alt; vm_compute; reflexivity).
  rewrite forallb_forall in HF. specialize (HF d Hin). cbv beta zeta in HF. btest. done.
Qed.

Lemma u32_step n b d : u32 (u32 (n * b) + d) = u32 (n * b + d).
Proof. unfold wrap. by rewrite Z.add_mod_idemp_l. Qed.

Lemma u32_foldl b ds : forall n, foldl (fun a d => u32 (u32 (a * b) + d)) (u32 n) ds = u32 (foldl (fun a d => a * b + d) n ds).
Proof.
  induction ds as [|d ds IH]; intros n; simpl; [done|]. rewrite u32_step, <- IH. f_equal. unfold wrap.
  rewrite <- (Z.add_mod_idemp_l (n * b)), <- (Z.add_mod_idemp_l (n mod 2 ^ 32 * b)) by done.
  by rewrite Z.mul_mod_idemp_l.
Qed.

Lemma u32_valof b ds : foldl (fun a d => u32 (u32 (a * b) + d)) 0 ds = u32 (valof b ds).
Proof. exact (u32_foldl b ds 0). Qed.

(** The digits [d :: ds], the first already read, up to a byte [t] that is
    none. *)
Lemma scan_number_loop_run base alt maxlen t p2 objs ds : forall fuel p1 d n len,
  base = 8 \/ base = 10 \/ base = 16 -> Forall (fun d => 0 <= d < base) (d :: ds) ->
  byte t -> t = 0 \/ digit_in base (tolower t) = None ->
  (length ds + 2 <= fuel)%nat -> 0 <= len -> len + lenZ (d :: ds) < maxlen -> maxlen <= 2 ^ 32 - 1 ->
  let str := p1 ++ (digit_char alt <$> d :: ds) ++ t :: p2 in
  exists c', scan_number_loop sgetch sungetch fuel base maxlen (digit_char alt d) n len
      ((str, lenZ p1 + 1), objs) =
    Ret ((c', foldl (fun a d => u32 (u32 (a * base) + d)) n (d :: ds), len + lenZ (d :: ds)),
         ((str, lenZ p1 + lenZ (d :: ds)), objs)) /\
    (c' = EOF <-> t = 0).
Proof.
  induction ds as [|d2 ds IH]; intros fuel p1 d n len Hb Hds Ht Htd Hf Hlen Hmax Hmax2 str;
    (destruct fuel as [|fuel]; [simpl in Hf; lia|]);
    apply Forall_cons in Hds as [Hd Hds]; pose proof (digit_char_byte alt d ltac:(lia)) as (Hcb & Hc0 & _);
    simpl scan_number_loop;
    (rewrite (proj2 (Z.eqb_neq (digit_char alt d) EOF)) by (unfold EOF, byte in *; lia));
    rewrite digit_in_char by done; rewrite lenZ_cons in Hmax; rewrite (wrap_small 32 (len + 1)) by (unfold lenZ in *; lia);
    (rewrite (proj2 (Z.leb_gt _ _)) by (unfold lenZ in *; lia)).
  - assert (str = (p1 ++ [digit_char alt d]) ++ t :: p2) as Es by (unfold str; simpl; by rewrite <- app_assoc).
    rewrite Es. rewrite (bind_Ret _ _ _ _ _ (get_run _ t p2 (lenZ p1 + 1) objs (lenZ_snoc _ _) Ht)).
    destruct fuel as [|fuel]; [simpl in Hf; lia|]. simpl scan_number_loop. unfold delivered.
    destruct (Z.eqb_spec t 0) as [-> | Hne].
    + exists EOF. simpl. split; [|done]. unfold ret. done.
    + rewrite (proj2 (Z.eqb_neq t EOF)) by (unfold EOF, byte in *; lia).
      destruct Htd as [?|Htd]; [done|]. rewrite Htd.
      rewrite (bind_Ret _ _ _ _ _ (unget_run _ t p2 (lenZ p1 + 1 + 1) objs (f_equal (fun x => x + 1) (lenZ_snoc _ _)))).
      exists (tolower t). split.
      * unfold ret. do 4 f_equal. change (lenZ [d]) with 1. lia.
      * split; [|done]. intros E. exfalso. pose proof (wrap_range 8 t ltac:(lia)).
        unfold tolower, EOF in E. destruct (isupper (u8 t)); change (chr "a" - chr "A") with 32 in E; lia.
  - pose proof (digit_char_byte alt d2) as (Hcb2 & Hc02 & _); [apply Forall_cons in Hds as [? _]; lia|].
    assert (str = (p1 ++ [digit_char alt d]) ++ (digit_char alt <$> d2 :: ds) ++ t :: p2) as Es
      by (unfold str; simpl; by rewrite <- app_assoc).
    rewrite Es. rewrite fmap_cons. simpl app.
    rewrite (bind_Ret _ _ _ _ _ (get_run _ _ ((digit_char alt <$> ds) ++ t :: p2) (lenZ p1 + 1) objs (lenZ_snoc _ _) Hcb2)).
    unfold delivered. rewrite (proj2 (Z.eqb_neq (digit_char alt d2) 0)) by done.
    destruct (IH fuel (p1 ++ [digit_char alt d]) d2 (u32 (u32 (n * base) + d)) (len + 1)) as (c' & R & Hc');
      [done|done|done|done|simpl in Hf; lia|lia|rewrite lenZ_cons in Hmax |- *; lia|done|].
    exists c'. split; [|done]. rewrite fmap_cons in R. simpl app in R.
    replace (lenZ (p1 ++ [digit_char alt d]) + 1) with (lenZ p1 + 1 + 1) in R by (rewrite lenZ_app; change (lenZ [digit_char alt d]) with 1; lia).
    rewrite R. rewrite <- lenZ_snoc, !lenZ_cons. simpl foldl.
    replace (len + 1 + (lenZ ds + 1)) with (len + (lenZ ds + 1 + 1)) by lia.
    by replace (lenZ p1 + 1 + (lenZ ds + 1)) with (lenZ p1 + (lenZ ds + 1 + 1)) by lia.
Qed.

(** The numbers that are printed and scanned with the same conversion. *)
Definition scannable (c : cnv) : Prop :=
  match c with CSigned _ | CUnsigned TU _ | CUnsigned TO _ | CUnsigned TX _ => True | _ => False end.
Definition cnv_value (c : cnv) : Z := match c with CSigned v | CUnsigned _ v => v | _ => 0 end.
Definition cnv_radix (c : cnv) : Z := match c with CUnsigned t _ => utype_base t | _ => 10 end.

Lemma put_num_int {St} (s : St) objs ptr x n : nthZ objs (ptr - 1) = Some (DInt x) ->
  put_num ptr REGULAR_SIZE n (s, objs) = Ret (tt, (s, updZ (ptr - 1) (DInt (s32 n)) objs)).
Proof. intros H. unfold put_num. by rewrite H. Qed.

Lemma s32_neg n v : 0 <= n < 2 ^ 32 -> n = Z.abs v -> s32 (if v <? 0 then u32 (- u32 n) else u32 n) = s32 v.
Proof.
  intros Hn E. unfold swrap. rewrite (wrap_small 32 n) by done. destruct (Z.ltb_spec v 0).
  - rewrite wrap_wrap. by replace (- n) with v by lia.
  - by replace n with v by lia.
Qed.

(** A sign, the empty one included. *)
Definition sign_text (sg : list Z) : Prop := sg = [] \/ sg = [chr "-"] \/ sg = [chr "+"].

(** Scanning a sign and digits up to a byte [t] that is none: what remains is
    to store the number. *)
Lemma scan_signed_run fuel ptr size base alt sg d ds t p1 p2 objs :
  sign_text sg -> base = 8 \/ base = 10 \/ base = 16 -> Forall (fun d => 0 <= d < base) (d :: ds) ->
  byte t -> t = 0 \/ digit_in base (tolower t) = None -> (length ds + 2 <= fuel)%nat ->
  lenZ ds < 2 ^ 32 - 10 -> ptr <> NULL ->
  let text := sg ++ (digit_char alt <$> d :: ds) in
  let str := p1 ++ text ++ t :: p2 in
  let n := u32 (valof base (d :: ds)) in
  exists c0 rest, text = c0 :: rest /\ byte c0 /\ c0 <> 0 /\ isspace c0 = false /\
    scan_number sgetch sungetch fuel ptr UNLIMITED_LENGTH size base c0 ((str, lenZ p1 + 1), objs) =
    (put_num ptr size (if bool_decide (sg = [chr "-"]) then u32 (- n) else n) ;;; ret (true, t =? 0))
      ((str, lenZ p1 + lenZ text), objs).
Proof.
  intros Hsg Hb Hds Ht Htd Hf Hl Hp text str n.
  pose proof (digit_char_byte alt d ltac:(apply Forall_cons in Hds as [? _]; lia)) as (B1 & B2 & B3 & B4 & B5).
  assert (exists c', scan_number_loop sgetch sungetch fuel base UNLIMITED_LENGTH (digit_char alt d) 0 (lenZ sg)
      ((str, lenZ p1 + lenZ sg + 1), objs) =
    Ret ((c', n, lenZ sg + lenZ (d :: ds)), ((str, lenZ p1 + lenZ text), objs)) /\ (c' = EOF <-> t = 0)) as (c' & R & Hc').
  { destruct (scan_number_loop_run base alt UNLIMITED_LENGTH t p2 objs ds fuel (p1 ++ sg) d 0 (lenZ sg))
      as (c' & R & Hc'); [done|done|done|done|done|unfold lenZ; lia| |done|].
    { rewrite lenZ_cons. destruct Hsg as [-> | [-> | ->]]; unfold UNLIMITED_LENGTH; unfold lenZ in *; simpl; lia. }
    exists c'. split; [|done]. rewrite u32_valof, lenZ_app in R. unfold str, text, n. rewrite lenZ_app, <- app_assoc in *.
    replace (lenZ (digit_char alt <$> d :: ds)) with (lenZ (d :: ds)) by (unfold lenZ; by rewrite length_fmap).
    by replace (lenZ p1 + (lenZ sg + lenZ (d :: ds))) with (lenZ p1 + lenZ sg + lenZ (d :: ds)) by lia. }
  assert ((c' =? EOF) = (t =? 0)) as Heof by (destruct (Z.eqb_spec c' EOF), (Z.eqb_spec t 0); tauto).
  assert (forall a : Z, sg = [a] -> (a =? chr "-") || (a =? chr "+") = true ->
    scan_number sgetch sungetch fuel ptr UNLIMITED_LENGTH size base a ((str, lenZ p1 + 1), objs) =
    (put_num ptr size (if a =? chr "-" then u32 (- n) else n) ;;; ret (true, t =? 0)) ((str, lenZ p1 + lenZ text), objs)) as Hsigned.
  { intros a -> Ha. unfold scan_number. rewrite Ha.
    assert (str = (p1 ++ [a]) ++ digit_char alt d :: (digit_char alt <$> ds) ++ t :: p2) as Estr
      by (unfold str, text; simpl; by rewrite <- app_assoc).
    assert (get sgetch ((str, lenZ p1 + 1), objs) = Ret (digit_char alt d, ((str, lenZ p1 + 1 + 1), objs))) as Hg.
    { rewrite Estr, (get_run _ _ _ (lenZ p1 + 1) objs (lenZ_snoc _ _) B1). unfold delivered.
      by rewrite (proj2 (Z.eqb_neq (digit_char alt d) 0)) by done. }
    rewrite (bind_Ret _ _ _ _ _ Hg). change (lenZ [a]) with 1 in R. rewrite (bind_Ret _ _ _ _ _ R), Heof.
    rewrite (proj2 (Z.eqb_neq ptr NULL)), (proj2 (Z.eqb_neq (1 + lenZ (d :: ds)) 0)),
      (proj2 (Z.eqb_neq (1 + lenZ (d :: ds)) 1)) by (rewrite ?lenZ_cons; unfold lenZ; lia || done). done. }
  destruct Hsg as [E | [E | E]].
  - exists (digit_char alt d). eexists. split; [unfold text; rewrite E; reflexivity|]. split; [done|]. split; [done|]. split; [done|].
    rewrite bool_decide_eq_false_2 by (by rewrite E).
    unfold scan_number. rewrite (proj2 (Z.eqb_neq _ (chr "-"))), (proj2 (Z.eqb_neq _ (chr "+"))) by done.
    cbn [orb]. rewrite bind_ret_l. rewrite E in R. change (lenZ (@nil Z)) with 0 in R. rewrite Z.add_0_r, Z.add_0_l in R.
    rewrite (bind_Ret _ _ _ _ _ R), Heof.
    rewrite (proj2 (Z.eqb_neq ptr NULL)), (proj2 (Z.eqb_neq (lenZ (d :: ds)) 0)) by (rewrite ?lenZ_cons; unfold lenZ; lia || done).
    done.
  - exists (chr "-"). eexists. split; [unfold text; rewrite E; reflexivity|]. split; [done|]. split; [done|]. split; [done|].
    rewrite bool_decide_eq_true_2 by done. by apply Hsigned.
  - exists (chr "+"). eexists. split; [unfold text; rewrite E; reflexivity|]. split; [done|]. split; [done|]. split; [done|].
    rewrite bool_decide_eq_false_2 by (by rewrite E). by apply Hsigned.
Qed.

(** A number scanned from its text, the sign included. *)
Lemma scan_number_run fuel c t p1 p2 objs ptr x :
  scannable c -> cnv_ok c -> byte t -> t = 0 \/ digit_in (cnv_radix c) (tolower t) = None ->
  (length (cnv_text c) + 1 <= fuel)%nat -> ptr <> NULL -> nthZ objs (ptr - 1) = Some (DInt x) ->
  let text := cnv_sign c ++ cnv_text c in
  let str := p1 ++ text ++ t :: p2 in
  exists c0 rest, text = c0 :: rest /\ byte c0 /\ c0 <> 0 /\ isspace c0 = false /\
    scan_number sgetch sungetch fuel ptr UNLIMITED_LENGTH REGULAR_SIZE (cnv_radix c) c0
      ((str, lenZ p1 + 1), objs) =
    Ret ((true, t =? 0), ((str, lenZ p1 + lenZ text), updZ (ptr - 1) (DInt (s32 (cnv_value c))) objs)).
Proof.
  intros Hc Hok Ht Htd Hf Hp Hx.
  assert (cnv_radix c = 8 \/ cnv_radix c = 10 \/ cnv_radix c = 16) as Hb by (destruct c as [| | | |[]]; try done; tauto).
  assert (0 <= Z.abs (cnv_value c) < 2 ^ 32) as Hv by (destruct c as [| | |v|[] v]; try done; simpl in *; lia).
  set (ds := numeral (cnv_radix c) (Z.abs (cnv_value c))).
  assert (cnv_text c = digit_char false <$> ds /\
    cnv_sign c = if cnv_value c <? 0 then [chr "-"] else []) as [Et Es].
  { unfold ds. destruct c as [| | |v|[] v]; try done; simpl in *; unfold dec_text, num_text;
      (split; [by rewrite ?Z.abs_eq by lia|]); try done; by rewrite (proj2 (Z.ltb_ge v 0)) by lia. }
  pose proof (numeral_range (cnv_radix c) (Z.abs (cnv_value c)) ltac:(lia)) as Hr.
  pose proof (numeral_length (cnv_radix c) (Z.abs (cnv_value c)) ltac:(lia) Hv) as Hl.
  pose proof (valof_numeral (cnv_radix c) (Z.abs (cnv_value c)) ltac:(lia) Hv) as Hval.
  fold ds in Hr, Hl, Hval. destruct ds as [|d ds]; [simpl in Hl; lia|].
  assert (sign_text (cnv_sign c)) as Hsg by (rewrite Es; unfold sign_text; destruct (cnv_value c <? 0); tauto).
  rewrite Et, length_fmap in Hf. rewrite Et.
  destruct (scan_signed_run fuel ptr REGULAR_SIZE (cnv_radix c) false (cnv_sign c) d ds t p1 p2 objs)
    as (c0 & rest & E0 & B1 & B2 & B3 & R); [done|done|done|done|done|simpl in Hf; lia|unfold lenZ; simpl in Hl; lia|done|].
  exists c0, rest. repeat (split; [done|]). rewrite R, (bind_Ret _ _ _ _ _ (put_num_int _ _ _ _ _ Hx)), Hval. unfold ret.
  pose proof (s32_neg (Z.abs (cnv_value c)) (cnv_value c) Hv eq_refl) as Es32. rewrite <- Es32, Es.
  by destruct (cnv_value c <? 0).
Qed.

(** ** Printing and scanning back *)

(** A number in its plain conversion, and a character behind it. *)
Definition field_items (f : cnv * Z) : list item := [Dir (plain_dir f.1); Lit f.2].
Definition field_ok (f : cnv * Z) : Prop :=
  scannable f.1 /\ cnv_ok f.1 /\ byte f.2 /\ f.2 <> 0 /\ f.2 <> chr "%" /\
  isspace f.2 = false /\ isxdigit f.2 = false.

Definition field_text (f : cnv * Z) : list Z := cnv_sign f.1 ++ cnv_text f.1 ++ [f.2].
Definition field_format (f : cnv * Z) : list Z := [chr "%"; cnv_char f.1; f.2].

Lemma scan_spec_run c F p ap : scannable c ->
  scan_spec (cnv_char c :: F) (p :: ap) = Ret (p, UNLIMITED_LENGTH, REGULAR_SIZE, cnv_char c, F, ap).
Proof. by destruct c as [| | | |[]]; try done; intros _. Qed.

Lemma scan_kind_run {St} (g u : M St Z) fuel p tab c : scannable c ->
  scan_number_or_string g u fuel p (u8 (cnv_char c)) UNLIMITED_LENGTH REGULAR_SIZE tab =
  (c0 <-- skip_space g fuel ;; if c0 =? EOF then ret (false, true)
   else ret tt ;;; scan_number g u fuel p UNLIMITED_LENGTH REGULAR_SIZE (cnv_radix c) c0).
Proof. by destruct c as [| | | |[]]; try done; intros _. Qed.

Lemma separator_ends c sep : scannable c -> byte sep -> isxdigit sep = false ->
  digit_in (cnv_radix c) (tolower sep) = None.
Proof.
  intros Hc Hs Hx.
  assert (implb (negb (isxdigit sep)) (forallb (fun b => bool_decide (digit_in b (tolower sep) = None)) [8; 10; 16]) = true)
    as H by (revert sep Hs Hx; intros sep Hs _; revert sep Hs; apply bytes_all; vm_compute; reflexivity).
  rewrite Hx in H. change (implb (negb false)) with (fun b : bool => b) in H. cbv beta in H.
  rewrite forallb_forall in H. eapply bool_decide_eq_true_1, H. destruct c as [| | | |[]]; try done; simpl; tauto.
Qed.

Lemma skip_space_run fuel p1 c p2 objs : (1 <= fuel)%nat -> byte c -> c <> 0 -> isspace c = false ->
  skip_space sgetch fuel ((p1 ++ c :: p2, lenZ p1), objs) = Ret (c, ((p1 ++ c :: p2, lenZ p1 + 1), objs)).
Proof.
  intros Hf Hb H0 Hs. destruct fuel as [|fuel]; [lia|]. simpl.
  rewrite (bind_Ret _ _ _ _ _ (get_run p1 c p2 (lenZ p1) objs eq_refl Hb)). unfold delivered.
  rewrite (proj2 (Z.eqb_neq c 0)) by done. rewrite (proj2 (Z.eqb_neq c EOF)) by (unfold EOF, byte in *; lia).
  by rewrite Hs.
Qed.

(** One conversion of the loop. *)
Lemma scan_conversion_run fuel c sep F p ap nmatch tab p1 p2 objs x :
  scannable c -> cnv_ok c -> byte sep -> sep <> 0 -> isxdigit sep = false -> (length (cnv_text c) + 1 <= fuel)%nat -> p <> NULL ->
  nthZ objs (p - 1) = Some (DInt x) ->
  let str := p1 ++ (cnv_sign c ++ cnv_text c) ++ sep :: p2 in
  scan_conversion sgetch sungetch fuel (cnv_char c :: F) (p :: ap) nmatch tab ((str, lenZ p1), objs) =
  Ret (Go F ap (s32 (nmatch + 1)) tab,
       ((str, lenZ p1 + lenZ (cnv_sign c ++ cnv_text c)), updZ (p - 1) (DInt (s32 (cnv_value c))) objs)).
Proof.
  intros Hc Hok Hsb Hs0 Hsx Hf Hp Hx str. unfold scan_conversion.
  rewrite (bind_pure _ _ _ _ (scan_spec_run c F p ap Hc)).
  assert ((cnv_char c =? 0) = false /\ (cnv_char c =? chr "[") = false /\ isupper (cnv_char c) = false) as (E1 & E2 & E3)
    by (by destruct c as [| | | |[]]; try done).
  rewrite E1, E2, bind_ret_l, E3. cbn [negb andb]. rewrite scan_kind_run by done.
  destruct (scan_number_run fuel c sep p1 p2 objs p x) as (c0 & rest & Et & B1 & B2 & B3 & R); try done.
  { right. by apply separator_ends. }
  assert (str = p1 ++ c0 :: (rest ++ sep :: p2)) as Es by (unfold str; by rewrite Et).
  assert (skip_space sgetch fuel ((str, lenZ p1), objs) = Ret (c0, ((str, lenZ p1 + 1), objs))) as Hsk.
  { rewrite Es. apply skip_space_run; [lia|done..]. }
  rewrite bind_assoc, (bind_Ret _ _ _ _ _ Hsk).
  rewrite (proj2 (Z.eqb_neq c0 EOF)) by (unfold EOF, byte in *; lia).
  rewrite bind_assoc, bind_ret_l. fold str in R. rewrite (bind_Ret _ _ _ _ _ R).
  rewrite (proj2 (Z.eqb_neq sep 0)), (proj2 (Z.eqb_neq p NULL)) by done. done.
Qed.

(** The character behind it. *)
Lemma scan_literal_run fuel sep F ap nmatch tab p1 p2 objs :
  byte sep -> sep <> 0 -> isspace sep = false ->
  scan_ordinary sgetch sungetch fuel (sep :: F) ap nmatch tab ((p1 ++ sep :: p2, lenZ p1), objs) =
  Ret (Go F ap nmatch tab, ((p1 ++ sep :: p2, lenZ p1 + 1), objs)).
Proof.
  intros Hb H0 Hs. unfold scan_ordinary. change (rdc (sep :: F)) with (@Ret Z sep). rewrite bind_pure with (a := sep) by done.
  rewrite Hs. rewrite (bind_Ret _ _ _ _ _ (get_run p1 sep p2 (lenZ p1) objs eq_refl Hb)). unfold delivered.
  rewrite (proj2 (Z.eqb_neq sep 0)) by done. rewrite (proj2 (Z.eqb_neq sep EOF)) by (unfold EOF, byte in *; lia).
  by rewrite Z.eqb_refl.
Qed.

Definition stored (f : cnv * Z) : dest := DInt (s32 (cnv_value f.1)).

Lemma doscan_fields fuel tab ftl fs : forall n p1 p2 o1 xs o2 nmatch,
  Forall field_ok fs -> length xs = length fs ->
  (length (concat (field_text <$> fs)) + 1 <= fuel)%nat -> (2 * length fs < n)%nat ->
  0 <= nmatch -> nmatch + lenZ fs < 2 ^ 31 ->
  let str := p1 ++ concat (field_text <$> fs) ++ p2 in
  _doscan_loop sgetch sungetch n fuel (concat (field_format <$> fs) ++ 0 :: ftl)
    (seqZ (lenZ o1 + 1) (lenZ fs)) nmatch tab ((str, lenZ p1), o1 ++ (DInt <$> xs) ++ o2) =
  Ret (nmatch + lenZ fs, ((str, lenZ p1 + lenZ (concat (field_text <$> fs))), o1 ++ (stored <$> fs) ++ o2)).
Proof.
  induction fs as [|[c sep] fs IH]; intros n p1 p2 o1 xs o2 nmatch Hok Hxs Hf Hn Hm Hmax str.
  { destruct xs; [|done]. destruct n as [|n]; [simpl in Hn; lia|]. simpl.
    change (lenZ (@nil (cnv * Z))) with 0. change (lenZ (@nil Z)) with 0. by rewrite !Z.add_0_r. }
  destruct xs as [|x xs]; [done|]. apply Forall_cons in Hok as [(Hc & Hcok & Hb & H0 & Hpc & Hsp & Hxd) Hok].
  simpl in Hc, Hcok, Hb, H0, Hpc, Hsp, Hxd. rewrite lenZ_cons in Hmax.
  destruct n as [|[|n]]; [simpl in Hn; lia|simpl in Hn; lia|].
  assert (length (cnv_text c) + 1 <= fuel /\ length (concat (field_text <$> fs)) + 1 <= fuel)%nat as [Hf1 Hf2]
    by (rewrite fmap_cons in Hf; simpl concat in Hf; unfold field_text at 1 in Hf; simpl fst in Hf;
        rewrite !length_app in Hf; lia).
  set (F := concat (field_format <$> fs) ++ 0 :: ftl). set (T := concat (field_text <$> fs) ++ p2).
  set (text := cnv_sign c ++ cnv_text c).
  assert (str = p1 ++ text ++ sep :: T) as Es
    by (unfold str, text, T; rewrite fmap_cons; simpl concat; unfold field_text at 1; simpl; by rewrite <- !app_assoc).
  assert (concat (field_format <$> (c, sep) :: fs) ++ 0 :: ftl = chr "%" :: cnv_char c :: sep :: F) as -> by done.
  assert (seqZ (lenZ o1 + 1) (lenZ ((c, sep) :: fs)) = (lenZ o1 + 1) :: seqZ (lenZ (o1 ++ [stored (c, sep)]) + 1) (lenZ fs)) as ->.
  { rewrite lenZ_cons, seqZ_cons by (unfold lenZ; lia). rewrite <- lenZ_snoc. f_equal. f_equal; lia. }
  assert (forall A B, nthZ (o1 ++ (DInt x :: A) ++ B) (lenZ o1 + 1 - 1) = Some (DInt x)) as Hnth
    by (intros; apply nthZ_app_at; lia).
  assert (lenZ o1 + 1 <> NULL) as Hp by (unfold lenZ, NULL; lia).
  cbn [_doscan_loop]. change (rdc (chr "%" :: cnv_char c :: sep :: F)) with (Ret (chr "%")).
  rewrite (bind_pure _ (chr "%")) by done. change (chr "%" =? 0) with false. change (chr "%" =? chr "%") with true. cbv iota.
  cbn [tail]. rewrite bind_assoc. change (rdc (cnv_char c :: sep :: F)) with (Ret (cnv_char c)).
  rewrite (bind_pure _ (cnv_char c)) by done.
  assert ((cnv_char c =? chr "%") = false) as -> by (by destruct c as [| | | |[]]). cbn [negb].
  rewrite Es, fmap_cons. fold text.
  rewrite (bind_Ret _ _ _ _ _ (scan_conversion_run fuel c sep (sep :: F) (lenZ o1 + 1) _ nmatch tab p1 T _ x
    Hc Hcok Hb H0 Hxd Hf1 Hp (Hnth _ _))).
  cbv iota. fold text. rewrite (swrap_small 32) by (unfold lenZ in *; lia).
  assert (updZ (lenZ o1 + 1 - 1) (DInt (s32 (cnv_value c))) (o1 ++ (DInt x :: (DInt <$> xs)) ++ o2) =
    (o1 ++ [stored (c, sep)]) ++ (DInt <$> xs) ++ o2) as ->.
  { replace (lenZ o1 + 1 - 1) with (lenZ o1) by lia. unfold updZ, lenZ.
    rewrite (proj2 (Z.leb_le 0 _)), Nat2Z.id, insert_app_r_alt, Nat.sub_diag by lia. simpl. by rewrite <- app_assoc. }
  change (rdc (sep :: F)) with (Ret sep). rewrite (bind_pure _ sep) by done.
  rewrite (proj2 (Z.eqb_neq sep 0)), (proj2 (Z.eqb_neq sep (chr "%"))) by done.
  replace (p1 ++ text ++ sep :: T) with ((p1 ++ text) ++ sep :: T) by (by rewrite <- app_assoc).
  rewrite <- lenZ_app.
  rewrite (bind_Ret _ _ _ _ _ (scan_literal_run fuel sep F _ (nmatch + 1) tab (p1 ++ text) T _ Hb H0 Hsp)).
  cbv iota. rewrite (lenZ_snoc _ sep).
  replace ((p1 ++ text) ++ sep :: T) with (((p1 ++ text) ++ [sep]) ++ T) by (by rewrite <- (app_assoc _ [sep])).
  unfold F, T. rewrite IH; [|done|by simpl in Hxs; lia|done|simpl in Hn; lia|lia|lia].
  rewrite lenZ_cons, <- app_assoc. do 2 f_equal; [lia|]. f_equal; [f_equal|by rewrite <- app_assoc].
  rewrite fmap_cons. simpl concat. unfold field_text at 2. simpl fst. simpl snd.
  rewrite !lenZ_app. unfold text. rewrite lenZ_app. lia.
Qed.

Lemma sign_bytes c : (u8 <$> cnv_sign c) = cnv_sign c.
Proof. destruct c as [| | |v|]; try done. simpl. by destruct (v <? 0). Qed.

Lemma text_bytes c : scannable c -> (u8 <$> cnv_text c) = cnv_text c.
Proof.
  intros Hc. assert (Forall byte (cnv_text c)) as HF.
  { destruct c as [| | |v|t v]; try done; simpl; unfold dec_text, num_text;
      (eapply Forall_fmap, Forall_impl; [apply numeral_range|]).
    - lia.
    - intros d Hd. cbv beta in Hd. apply digit_char_byte. lia.
    - by destruct t.
    - intros d Hd. cbv beta in Hd. apply digit_char_byte. by destruct t; simpl in *; try done; lia. }
  induction HF as [|x l Hx _ IH]; [done|]. rewrite fmap_cons, IH. f_equal. by apply wrap_small.
Qed.

Lemma format_length fs : length (concat (field_format <$> fs)) = (3 * length fs)%nat.
Proof. induction fs as [|f fs IH]; [done|]. rewrite fmap_cons. cbn [concat]. rewrite length_app, IH. simpl. lia. Qed.

(** The fields as items of a format for [sprintf]. *)
Lemma fields_data fs : Forall field_ok fs ->
  let items := concat (field_items <$> fs) in let text := concat (field_text <$> fs) in
  concat (item_text <$> items) = concat (field_format <$> fs) /\
  concat (item_args <$> items) = concat (cnv_args ∘ fst <$> fs) /\
  concat (item_out <$> items) = text /\ Forall item_ok items /\ (u8 <$> text) = text.
Proof.
  induction 1 as [|[c sep] fs (H1 & H2 & H3 & H4 & H5 & _) _ (E1 & E2 & E3 & E4 & E5)]; [done|].
  cbv zeta. rewrite !fmap_cons. cbn [concat]. rewrite !fmap_app, !concat_app, E1, E2, E3, E5.
  split; [done|]. split; [simpl; by rewrite app_nil_r|]. split; [|split; [by repeat constructor|]].
  - simpl concat. rewrite render_plain. unfold field_text. simpl. by rewrite <- !app_assoc.
  - f_equal. unfold field_text. rewrite !fmap_app, sign_bytes, text_bytes by done.
    simpl. by rewrite wrap_small.
Qed.

(** C31: What [sprintf] writes, [sscanf] reads back: for a format of plain
    conversions "%d", "%u", "%o" and "%x", each followed by a character that
    is no white space, digit or letter of a digit, scanning the text with the
    format it was printed with matches every conversion and stores every
    number as an [int] with the same bits, for all 32-bit values. *)
Theorem printf_scanf_roundtrip junk tab buf fs xs :
  lenZ junk = LONG_BITS + 1 -> Forall field_ok fs -> length xs = length fs -> lenZ fs < 2 ^ 31 ->
  lenZ (concat (field_text <$> fs)) < lenZ buf ->
  let format := concat (field_format <$> fs) ++ [0] in
  exists buf',
    sprintf junk buf format (concat (cnv_args ∘ fst <$> fs)) = Ret (lenZ (concat (field_text <$> fs)), buf') /\
    sscanf tab buf' format (seqZ 1 (lenZ fs)) (DInt <$> xs) =
    Ret (lenZ fs, (fun f => DInt (s32 (cnv_value f.1))) <$> fs).
Proof.
  intros Hj Hok Hxs Hmax Hlen format. set (text := concat (field_text <$> fs)) in *.
  destruct (fields_data fs Hok) as (E1 & E2 & E3 & E4 & E5). fold text in E3, E5.
  exists (text ++ 0 :: drop (length text + 1) buf). split.
  - pose proof (sprintf_run junk buf (concat (field_items <$> fs)) [] [] Hj E4) as R. cbv zeta in R.
    rewrite E1, E2, E3, app_nil_r, E5 in R. by apply R.
  - unfold sscanf, _doscan.
    pose proof (doscan_fields (S (length (text ++ 0 :: drop (length text + 1) buf))) tab [] fs (S (length format))
      [] (0 :: drop (length text + 1) buf) [] xs [] 0) as R. cbv zeta in R. fold text in R. rewrite !app_nil_l, !app_nil_r in R.
    change (lenZ (@nil Z)) with 0 in R. change (lenZ (@nil dest)) with 0 in R. rewrite !Z.add_0_l in R.
    fold format in R. unfold obind. rewrite R; [done|done|done|rewrite length_app; simpl; lia| |lia|lia].
    unfold format. rewrite length_app, format_length. simpl. lia.
Qed.

(** ** Scanning characters of a set *)

(** The text of a set: "^" when it is inverted, the members, "]".  A "]"
    among the members is the first of them. *)
Definition set_text (neg : bool) (ms : list Z) : list Z := (if neg then [chr "^"] else []) ++ ms ++ [chr "]"].
Definition set_ok (neg : bool) (ms : list Z) : Prop :=
  ms <> [] /\ Forall (fun c => byte c /\ c <> 0) ms /\ Forall (fun c => c <> chr "]") (tail ms) /\
  (neg = false -> head ms <> Some (chr "^")).
Definition in_set (neg : bool) (ms : list Z) (c : Z) : bool := xorb neg (bool_decide (c ∈ ms)).

Lemma stopchar_loop_run fill F ms : forall (first : bool) tab,
  lenZ tab = 256 -> Forall (fun c => byte c /\ c <> 0) ms -> (first = true -> ms <> []) ->
  Forall (fun c => c <> chr "]") (if first then tail ms else ms) ->
  exists tab', stopchar_loop (ms ++ chr "]" :: F) fill first tab = Ret (F, tab') /\
    forall c, nthZ tab' c = if decide (c ∈ ms) then Some fill else nthZ tab c.
Proof.
  induction ms as [|m ms IH]; intros first tab Ht Hb Hf Hn.
  { destruct first; [by destruct Hf|]. exists tab. done. }
  apply Forall_cons in Hb as [[Hm H0] Hb]. simpl.
  assert ((m =? chr "]") && negb first = false) as ->.
  { destruct first; [by rewrite andb_false_r|]. apply Forall_cons in Hn as [Hn _]. by rewrite (proj2 (Z.eqb_neq _ _) Hn). }
  rewrite (proj2 (Z.eqb_neq m 0)), wrc_run by (done || unfold byte in *; lia). simpl.
  destruct (IH false (updZ m fill tab)) as (tab' & R & Hc).
  - by rewrite lenZ_updZ.
  - done.
  - done.
  - by destruct first; [|apply Forall_cons in Hn as [_ ?]].
  - exists tab'. split; [done|]. intros c. rewrite Hc. destruct (decide (c ∈ ms)) as [Hin|Hin].
    + rewrite decide_True; [done|]. by right.
    + destruct (decide (c = m)) as [-> | Hne].
      * rewrite decide_True by by left. apply nthZ_updZ_eq. unfold byte in Hm. lia.
      * rewrite decide_False by (by intros [?|?]%elem_of_cons). by apply nthZ_updZ_ne.
Qed.

Lemma build_stopchar_run neg ms F tab : set_ok neg ms -> lenZ tab = 256 ->
  exists tab', build_stopchar_tab (set_text neg ms ++ F) tab = Ret (F, tab') /\
    forall c, byte c -> nthZ tab' c = Some (if in_set neg ms c then 0 else 1).
Proof.
  intros (Hne & Hb & Hn & Hh) Ht. unfold build_stopchar_tab, set_text.
  assert (forall f, memset tab f 256 = Ret (replicate 256 (u8 f))) as Hms.
  { intros f. unfold memset. rewrite memset_loop_spec by (unfold lenZ in Ht; lia).
    by rewrite drop_ge, app_nil_r by (unfold lenZ in Ht; lia). }
  assert (forall (f : Z) c, byte c -> nthZ (replicate 256 f) c = Some f) as Hrep.
  { intros f c Hc. unfold nthZ. rewrite (proj2 (Z.leb_le 0 c)) by (unfold byte in Hc; lia).
    apply lookup_replicate_2. unfold byte in Hc. lia. }
  assert (forall fill f, exists tab', stopchar_loop (ms ++ chr "]" :: F) fill true (replicate 256 f) = Ret (F, tab') /\
    forall c, byte c -> nthZ tab' c = Some (if decide (c ∈ ms) then fill else f)) as Hloop.
  { intros fill f. destruct (stopchar_loop_run fill F ms true (replicate 256 f)) as (tab' & R & Hc); try done.
    exists tab'. split; [done|]. intros c Hcb. rewrite Hc. case_decide; [done|]. by apply Hrep. }
  unfold in_set. destruct neg.
  - simpl. rewrite Hms. simpl. destruct (Hloop 1 0) as (tab' & R & Hc). exists tab'.
    rewrite <- app_assoc. split; [exact R|]. intros c Hcb. rewrite (Hc c Hcb), <- decide_bool_decide.
    by destruct (decide (c ∈ ms)).
  - destruct ms as [|m ms]; [done|]. simpl.
    rewrite (proj2 (Z.eqb_neq m (chr "^"))) by (intros ->; by apply Hh). rewrite Hms. simpl.
    destruct (Hloop 0 1) as (tab' & R & Hc). exists tab'.
    rewrite <- app_assoc. split; [exact R|]. intros c Hcb. rewrite (Hc c Hcb), <- decide_bool_decide.
    by destruct (decide (c ∈ m :: ms)).
Qed.

(** Characters up to the byte [t] that ends the field, into a buffer; [stop]
    is the test for the end. *)
Lemma scan_string_loop_run type tab stop maxlen t p2 o1 o2 w : forall fuel p1 b1 b2,
  (forall c (s : list Z * Z * list dest), byte c ->
    (if type =? chr "[" then v <-- must (nthZ tab c) ;; ret (negb (v =? 0)) else ret ((type =? chr "s") && isspace c)) s =
    Ret (stop c, s)) ->
  Forall (fun c => byte c /\ c <> 0 /\ stop c = false) w -> byte t -> t = 0 \/ stop t = true ->
  (length w < fuel)%nat -> (length w <= length b2)%nat -> lenZ b1 + lenZ w < maxlen -> maxlen < 2 ^ 32 ->
  let str := p1 ++ w ++ t :: p2 in
  scan_string_loop sgetch sungetch fuel (lenZ o1 + 1) type maxlen tab (lenZ b1)
    ((str, lenZ p1), o1 ++ DBuf (b1 ++ b2) :: o2) =
  Ret ((lenZ b1 + lenZ w, t =? 0),
       ((str, lenZ p1 + lenZ w), o1 ++ DBuf (b1 ++ w ++ drop (length w) b2) :: o2)).
Proof.
  induction w as [|c w IH]; intros fuel p1 b1 b2 Hstop Hw Ht Hend Hf Hb Hmax Hmax2 str;
    (destruct fuel as [|fuel]; [simpl in Hf; lia|]); cbn [scan_string_loop];
    (rewrite (proj2 (Z.ltb_lt (lenZ b1) maxlen)) by (unfold lenZ in *; simpl in *; lia)).
  - unfold str. simpl. rewrite (bind_Ret _ _ _ _ _ (get_run p1 t p2 (lenZ p1) _ eq_refl Ht)). unfold delivered.
    change (lenZ (@nil Z)) with 0. rewrite !Z.add_0_r, drop_0. destruct (Z.eqb_spec t 0) as [-> | Hne]; [done|].
    rewrite (proj2 (Z.eqb_neq t EOF)) by (unfold EOF, byte in *; lia).
    rewrite (bind_Ret _ _ _ _ _ (Hstop t _ Ht)). destruct Hend as [?|Hs]; [done|]. rewrite Hs.
    rewrite (bind_Ret _ _ _ _ _ (unget_run p1 t p2 (lenZ p1 + 1) _ eq_refl)). unfold ret.
    by replace (lenZ p1 + 1 - 1) with (lenZ p1) by lia.
  - apply Forall_cons in Hw as [(Hcb & Hc0 & Hcs) Hw]. destruct b2 as [|b b2]; [simpl in Hb; lia|].
    unfold str. simpl app. rewrite (bind_Ret _ _ _ _ _ (get_run p1 c (w ++ t :: p2) (lenZ p1) _ eq_refl Hcb)).
    unfold delivered. rewrite (proj2 (Z.eqb_neq c 0)) by done.
    rewrite (proj2 (Z.eqb_neq c EOF)) by (unfold EOF, byte in *; lia).
    rewrite (bind_Ret _ _ _ _ _ (Hstop c _ Hcb)), Hcs.
    rewrite (proj2 (Z.eqb_neq (lenZ o1 + 1) NULL)) by (unfold lenZ, NULL; lia). cbn [negb].
    assert (put_char (lenZ o1 + 1) (lenZ b1) c ((p1 ++ c :: w ++ t :: p2, lenZ p1 + 1), o1 ++ DBuf (b1 ++ b :: b2) :: o2) =
      Ret (tt, ((p1 ++ c :: w ++ t :: p2, lenZ p1 + 1), o1 ++ DBuf ((b1 ++ [c]) ++ b2) :: o2))) as Hput.
    { unfold put_char. rewrite nthZ_app_at by lia. rewrite wrc_run by (rewrite lenZ_app, lenZ_cons; unfold lenZ; lia).
      rewrite wrap_small by (unfold byte in Hcb; lia). replace (lenZ o1 + 1 - 1) with (lenZ o1) by lia.
      unfold updZ, lenZ. rewrite !(proj2 (Z.leb_le 0 _)), !Nat2Z.id by lia.
      rewrite !insert_app_r_alt, !Nat.sub_diag by done. simpl. by rewrite <- app_assoc. }
    rewrite (bind_Ret _ _ _ _ _ Hput). rewrite lenZ_cons in Hmax.
    rewrite wrap_small by (unfold lenZ in *; lia). rewrite (lenZ_snoc b1 c), (lenZ_snoc p1 c).
    replace (p1 ++ c :: w ++ t :: p2) with ((p1 ++ [c]) ++ w ++ t :: p2) by by rewrite <- app_assoc.
    rewrite IH; [|done|done|done|done|simpl in Hf; lia|simpl in Hb; lia|rewrite <- lenZ_snoc; lia|done].
    rewrite <- !lenZ_snoc, lenZ_cons. simpl drop. rewrite <- !app_assoc. simpl app.
    replace (lenZ b1 + 1 + lenZ w) with (lenZ b1 + (lenZ w + 1)) by lia.
    by replace (lenZ p1 + 1 + lenZ w) with (lenZ p1 + (lenZ w + 1)) by lia.
Qed.

(** The conversion "%[set]" stores the longest prefix of the input made of
    characters of the set, terminated, into the buffer, and counts as one
    match.  When that prefix is empty nothing but a terminator is stored, and
    the result is zero, or [EOF] at the end of the input.  Inverted sets and
    sets with "]" as first member work as documented. *)
Theorem scan_set tab neg ms w t rest buf :
  lenZ tab = 256 -> set_ok neg ms ->
  Forall (fun c => byte c /\ c <> 0 /\ in_set neg ms c = true) w ->
  byte t -> t = 0 \/ in_set neg ms t = false -> (length w < length buf)%nat -> lenZ w < 2 ^ 32 - 1 ->
  sscanf tab (w ++ t :: rest) ([chr "%"; chr "["] ++ set_text neg ms ++ [0]) [1] [DBuf buf] =
  Ret (if bool_decide (w = []) then if t =? 0 then EOF else 0 else 1,
       [DBuf (w ++ 0 :: drop (length w + 1) buf)]).
Proof.
  intros Htab Hms Hw Ht Hend Hbuf Hlen. unfold sscanf, _doscan. cbn [length].
  change ([chr "%"; chr "["] ++ set_text neg ms ++ [0]) with (chr "%" :: chr "[" :: (set_text neg ms ++ [0])).
  destruct (build_stopchar_run neg ms [0] tab Hms Htab) as (tab' & Hbuild & Htab').
  assert (scan_conversion sgetch sungetch (S (length (w ++ t :: rest))) (chr "[" :: (set_text neg ms ++ [0])) [1] 0 tab
    ((w ++ t :: rest, 0), [DBuf buf]) =
    Ret ((if bool_decide (w = []) then Done (if t =? 0 then EOF else 0)
          else if t =? 0 then Done 1 else Go [0] [] 1 tab'),
         ((w ++ t :: rest, lenZ w), [DBuf (w ++ 0 :: drop (length w + 1) buf)]))) as Hconv.
  { unfold scan_conversion.
    change (scan_spec (chr "[" :: (set_text neg ms ++ [0])) [1]) with
      (@Ret (Z * Z * integer_size * Z * list Z * list Z) (1, UNLIMITED_LENGTH, REGULAR_SIZE, chr "[", set_text neg ms ++ [0], [])).
    rewrite bind_pure with (a := (1, UNLIMITED_LENGTH, REGULAR_SIZE, chr "[", set_text neg ms ++ [0], [])) by done.
    change (chr "[" =? 0) with false. change (chr "[" =? chr "[") with true. cbv iota.
    rewrite (bind_pure _ _ _ _ Hbuild). cbn [negb andb].
    change (scan_number_or_string sgetch sungetch (S (length (w ++ t :: rest))) 1 (u8 (chr "[")) UNLIMITED_LENGTH REGULAR_SIZE tab')
      with (ret EOF ;;; (ret tt ;;; scan_string sgetch sungetch (S (length (w ++ t :: rest))) 1 (chr "[") UNLIMITED_LENGTH tab')).
    rewrite !bind_assoc, bind_ret_l, bind_assoc, bind_ret_l. unfold scan_string.
    change ((chr "[" =? chr "c") && (UNLIMITED_LENGTH =? UNLIMITED_LENGTH)) with false. cbv iota.
    pose proof (scan_string_loop_run (chr "[") tab' (fun c => negb (in_set neg ms c)) UNLIMITED_LENGTH t rest [] [] w
      (S (length (w ++ t :: rest))) [] [] buf) as R. cbv zeta in R. rewrite !app_nil_l in R.
    change (lenZ (@nil dest) + 1) with 1 in R. change (lenZ (@nil Z)) with 0 in R. rewrite !Z.add_0_l in R.
    assert (forall c (s : list Z * Z * list dest), byte c ->
      (if chr "[" =? chr "[" then v <-- must (nthZ tab' c) ;; ret (negb (v =? 0)) else ret ((chr "[" =? chr "s") && isspace c)) s =
      Ret (negb (in_set neg ms c), s)) as Hstop.
    { intros c s Hc. change (chr "[" =? chr "[") with true. cbv iota. rewrite Htab' by done. by destruct (in_set neg ms c). }
    rewrite bind_assoc, (bind_Ret _ _ _ _ _ (R Hstop ltac:(eapply Forall_impl; [exact Hw|]; intros c (? & ? & ->); done) Ht
      ltac:(by destruct Hend as [? | ->]; [left|right]) ltac:(rewrite length_app; lia) ltac:(lia)
      ltac:(unfold UNLIMITED_LENGTH; lia) ltac:(done))). clear R.
    change (negb (1 =? NULL) && negb (chr "[" =? chr "c")) with true. cbv iota.
    change (chr "[" =? chr "c") with false. cbn [andb negb].
    destruct (drop (length w) buf) as [|b rest'] eqn:Ed;
      [exfalso; apply (f_equal length) in Ed; rewrite length_drop in Ed; simpl in Ed; lia|].
    assert (drop (length w + 1) buf = rest') as Ed' by (by rewrite <- drop_drop, Ed).
    assert (put_char 1 (lenZ w) 0 ((w ++ t :: rest, lenZ w), [DBuf (w ++ b :: rest')]) =
      Ret (tt, ((w ++ t :: rest, lenZ w), [DBuf (w ++ 0 :: rest')]))) as Hput.
    { unfold put_char. simpl. rewrite wrc_run by (rewrite lenZ_app, lenZ_cons; unfold lenZ; lia).
      unfold updZ, lenZ. rewrite !(proj2 (Z.leb_le 0 _)), !Nat2Z.id by lia. by rewrite insert_app_r_alt, Nat.sub_diag by done. }
    rewrite bind_assoc, (bind_Ret _ _ _ _ _ Hput), bind_ret_l, Ed'. destruct w as [|c w].
    - simpl. by destruct (t =? 0).
    - rewrite (proj2 (Z.eqb_neq (lenZ (c :: w)) 0)) by (rewrite lenZ_cons; unfold lenZ; lia).
      by destruct (t =? 0). }
  cbn [_doscan_loop]. change (rdc (chr "%" :: chr "[" :: (set_text neg ms ++ [0]))) with (Ret (chr "%")).
  rewrite (bind_pure _ (chr "%")) by done. change (chr "%" =? 0) with false. change (chr "%" =? chr "%") with true. cbv iota.
  cbn [tail]. rewrite bind_assoc. change (rdc (chr "[" :: (set_text neg ms ++ [0]))) with (Ret (chr "[")).
  rewrite (bind_pure _ (chr "[")) by done. change (chr "[" =? chr "%") with false. cbn [negb].
  rewrite (bind_Ret _ _ _ _ _ Hconv). case_bool_decide; destruct (t =? 0); done.
Qed.
