(* ===== verification/Stdio.v ===== *)
(** * Standard input and output, conversion and random numbers
      (lib/libxc/fgetc.c, fgets.c, fputc.c, fputs.c, printf.c, fprintf.c,
      fscanf.c, atol.c, atoi.c, abs.c, labs.c, rand.c)

    The device functions [getc] and [putc] are not part of the repository:
    the functions here take them as arguments, and the theorems rely on the
    interfaces [InputDevice] and [OutputDevice]. *)

From Stdlib Require Import Ascii String.
From stdpp Require Import base numbers list.
From S2P Require Import Prelude Kernel CString Doprnt Ctype Doscan.

(** ** Definitions *)

Section Stdio.
Context {D : Type} (getc : Z -> M D Z) (putc : Z -> Z -> M D Z).

Definition fgetc (dev : Z) : M D Z :=
  c <-- getc dev ;;
  if (c =? SYSERR) || (c =? EOF) then ret EOF else ret (u8 c).

(** The character goes to [putc] as a [char]. *)
Definition fputc (c dev : Z) : M D Z :=
  r <-- putc dev (u8 c) ;;
  if (r =? SYSERR) || (r =? EOF) then ret EOF else ret (u8 r).

(** The loop of [fgets], with [c], the buffer and the offset of [cs].  A turn
    writes a character, so that the size of the buffer bounds the turns. *)
Fixpoint fgets_loop (fuel : nat) (dev n : Z) (s : list Z) (off c : Z) : M D (Z * list Z * Z) :=
  match fuel with
  | O => failwith OutOfFuel
  | S fuel' =>
      let n := s32 (n - 1) in
      if 0 <? n then
        c <-- fgetc dev ;;
        if c =? EOF then ret (c, s, off)
        else
          s <-- pure (wrc s off (u8 c)) ;;
          if chr "010" =? c then ret (c, s, off + 1) else fgets_loop fuel' dev n s (off + 1) c
      else ret (c, s, off)
  end.

(** The result tells whether the pointer returned is [s], or [NULL]. *)
Definition fgets (s : list Z) (n dev : Z) : M D (bool * list Z) :=
  '(c, s, off) <-- fgets_loop (S (length s)) dev n s 0 EOF ;;
  if (c =? EOF) && (off =? 0) then ret (false, s)
  else s <-- pure (wrc s off 0) ;; ret (true, s).

Fixpoint fputs (s : list Z) (dev : Z) : M D Z :=
  match s with
  | [] => failwith OutOfBounds
  | c :: s' =>
      if c =? 0 then ret 0
      else r <-- fputc c dev ;; if r =? EOF then ret EOF else fputs s' dev
  end.

Definition fprintf (junk : list Z) (dev : Z) (format : list Z) (ap : list varg) : M D Z :=
  _doprnt (fun c => fputc c dev) junk format ap.

(** [stdout] is [NULL]. *)
Definition printf (junk format : list Z) (ap : list varg) : M D Z := _doprnt (fun c => fputc c NULL) junk format ap.

(** struct ch_buf: [ch_avail] and [c]. *)
Definition getch (dev : Z) : M (D * (bool * Z)) Z := fun '(d, (ch_avail, c)) =>
  if (ch_avail : bool) then Ret (c, (d, (false, c)))
  else match fgetc dev d with
       | Ret (c', d') => Ret (c', (d', (false, if negb (c' =? EOF) then u8 c' else c)))
       | Fault f => Fault f
       end.

Definition ungetch (dev : Z) : M (D * (bool * Z)) Z := fun '(d, (_, c)) => Ret (c, (d, (true, c))).

(** [fuel] bounds the characters taken from the device; [junk] is the
    uninitialised [buf.c]. *)
Definition fscanf (fuel : nat) (tab : list Z) (junk dev : Z) (format ap : list Z) : M (D * list dest) Z := fun '(d, objs) =>
  match _doscan (getch dev) (ungetch dev) fuel tab format ap ((d, (false, junk)), objs) with
  | Ret (r, ((d', _), objs')) => Ret (r, (d', objs'))
  | Fault f => Fault f
  end.
End Stdio.

(** *** Conversion and arithmetic *)

Definition atol (tab nptr : list Z) : outcome Z :=
  '(_, objs) <~ sscanf tab nptr (lit "%ld") [1] [DLong 0] ;;
  match objs with [DLong n] => Ret n | _ => Fault OutOfBounds end.

Definition atoi (tab nptr : list Z) : outcome Z := n <~ atol tab nptr ;; Ret (s32 n).

Definition abs (j : Z) : Z := if j <? 0 then s32 (- j) else j.
Definition labs (j : Z) : Z := if j <? 0 then s32 (- j) else j.

Definition RAND_MAX : Z := 32767.

(** The state is [seed]. *)
Definition srand (x : Z) : M Z unit := modify (fun _ => x).
Definition rand : M Z Z :=
  modify (fun seed => u32 (u32 (seed * 1103515245) + 12345)) ;;;
  seed <-- gets id ;;
  ret (s32 (Z.shiftr seed 16 mod (RAND_MAX + 1))).

(** ** Input *)

(** A device that delivers bytes until it has no more, and then fails. *)
Class InputDevice {D : Type} (getc : Z -> M D Z) (dev : Z) := {
  pending : D -> list Z;
  getc_law d :
    match pending d with
    | [] => exists r, (r = SYSERR \/ r = EOF) /\ getc dev d = Ret (r, d)
    | c :: l => exists d', getc dev d = Ret (c, d') /\ pending d' = l
    end
}.

(** What [fgets] takes: up to [k] characters, a line at most. *)
Fixpoint take_line (k : nat) (l : list Z) : list Z :=
  match k, l with
  | S k', c :: l' => if c =? chr "010" then [c] else c :: take_line k' l'
  | _, _ => []
  end.

Lemma take_line_length k l : (length (take_line k l) <= k)%nat.
Proof.
  revert l. induction k as [|k IH]; intros [|c l]; simpl; try lia.
  destruct (c =? chr "010"); simpl; [lia|]. specialize (IH l). lia.
Qed.

Section Input.
Context {D : Type} (getc : Z -> M D Z) (dev : Z) `{!InputDevice getc dev}.

Lemma fgetc_run d : Forall byte (pending d) ->
  match pending d with
  | [] => fgetc getc dev d = Ret (EOF, d)
  | c :: l => exists d', fgetc getc dev d = Ret (c, d') /\ pending d' = l
  end.
Proof.
  intros Hb. unfold fgetc. pose proof (getc_law d) as H. destruct (pending d) as [|c l].
  - destruct H as (r & Hr & E). rewrite (bind_Ret _ _ _ _ _ E). destruct Hr as [-> | ->]; done.
  - destruct H as (d' & E & Hd'). exists d'. split; [|done]. rewrite (bind_Ret _ _ _ _ _ E).
    apply Forall_cons in Hb as [Hc _]. unfold byte in Hc.
    rewrite (proj2 (Z.eqb_neq c SYSERR)), (proj2 (Z.eqb_neq c EOF)) by (unfold SYSERR, EOF; lia).
    by rewrite wrap_small by lia.
Qed.

Lemma fgets_loop_run fuel : forall n b1 b2 c d,
  Forall byte (pending d) -> 0 <= n < 2 ^ 31 ->
  let line := take_line (Z.to_nat (n - 1)) (pending d) in
  (length line < fuel)%nat -> (length line <= length b2)%nat ->
  exists c' d', fgets_loop getc fuel dev n (b1 ++ b2) (lenZ b1) c d =
    Ret ((c', b1 ++ line ++ drop (length line) b2, lenZ b1 + lenZ line), d') /\
    pending d' = drop (length line) (pending d) /\ (line = [] -> c' = c \/ c' = EOF).
Proof.
  induction fuel as [|fuel IH]; intros n b1 b2 c d Hb Hn line Hf Hl; [lia|].
  cbn [fgets_loop]. rewrite swrap_small by (change (2 ^ (32 - 1)) with (2 ^ 31); lia).
  destruct (Z.ltb_spec 0 (n - 1)) as [Hn1|Hn1].
  2:{ assert (line = []) as -> by (unfold line; replace (Z.to_nat (n - 1)) with O by lia; by destruct (pending d)).
      exists c, d. simpl. change (lenZ (@nil Z)) with 0. rewrite Z.add_0_r, !drop_0. split; [done|]. split; [done|by left]. }
  pose proof (fgetc_run d Hb) as Hg. unfold line in *. clear line.
  replace (Z.to_nat (n - 1)) with (S (Z.to_nat (n - 1 - 1))) in * by lia.
  destruct (pending d) as [|x l] eqn:Ep.
  - exists EOF, d. rewrite (bind_Ret _ _ _ _ _ Hg). simpl in *. change (lenZ (@nil Z)) with 0. rewrite Z.add_0_r, Ep, drop_0.
    split; [done|]. split; [done|by right].
  - destruct Hg as (d' & Hg & Hp). rewrite (bind_Ret _ _ _ _ _ Hg). apply Forall_cons in Hb as [Hx Hb].
    rewrite (proj2 (Z.eqb_neq x EOF)) by (unfold EOF, byte in *; lia).
    cbn [take_line] in *. assert (exists b2', b2 = hd 0 b2 :: b2' /\ wrc (b1 ++ b2) (lenZ b1) (u8 x) = Ret (b1 ++ x :: b2'))
      as (b2' & Eb & Hw).
    { destruct b2 as [|y b2']; [destruct (x =? chr "010"); simpl in Hl; lia|]. exists b2'. split; [done|].
      rewrite wrc_run by (rewrite lenZ_app, lenZ_cons; unfold lenZ; lia). rewrite wrap_small by (unfold byte in Hx; lia).
      unfold updZ, lenZ. rewrite (proj2 (Z.leb_le 0 _)), Nat2Z.id by lia. by rewrite insert_app_r_alt, Nat.sub_diag. }
    rewrite (bind_pure _ _ _ _ Hw). rewrite (Z.eqb_sym (chr "010") x).
    destruct (x =? chr "010") eqn:Enl.
    + exists x, d'. simpl. change (lenZ [x]) with 1. rewrite Eb. simpl. rewrite drop_0.
      split; [done|]. by split.
    + destruct (IH (n - 1) (b1 ++ [x]) b2' x d') as (c' & d'' & R & Hp' & _);
        [by rewrite Hp|lia|rewrite Hp; simpl in Hf; lia|rewrite Hp; rewrite Eb in Hl; simpl in Hl; lia|].
      rewrite Hp in *. exists c', d''. rewrite <- app_assoc in R. simpl in R. rewrite <- lenZ_snoc in R. rewrite R.
      rewrite Eb. simpl. rewrite lenZ_cons, <- app_assoc. split; [|by split]. simpl.
      by replace (lenZ b1 + 1 + lenZ (take_line (Z.to_nat (n - 1 - 1)) l)) with
        (lenZ b1 + (lenZ (take_line (Z.to_nat (n - 1 - 1)) l) + 1)) by lia.
Qed.

End Input.

(** [fgets] takes a line from the device, its newline included, but at
    most [n - 1] characters and no more than there are; it stores them
    terminated and leaves the rest pending.  When there is nothing to take it
    returns [NULL] and stores nothing. *)
Theorem fgets_line {D} (getc : Z -> M D Z) dev `{!InputDevice getc dev} s n d :
  Forall byte (pending d) -> 0 <= n < 2 ^ 31 ->
  let line := take_line (Z.to_nat (n - 1)) (pending d) in
  (length line < length s)%nat ->
  lenZ line <= Z.max 0 (n - 1) /\
  exists d', fgets getc s n dev d =
      Ret (if bool_decide (line = []) then (false, s) else (true, line ++ 0 :: drop (length line + 1) s), d') /\
    pending d' = drop (length line) (pending d).
Proof.
  intros Hb Hn line Hl. split.
  { pose proof (take_line_length (Z.to_nat (n - 1)) (pending d)). unfold line, lenZ. lia. }
  destruct (fgets_loop_run getc dev (S (length s)) n [] s EOF d) as (c' & d' & R & Hp & Hc);
    [done|done|fold line; lia|fold line; lia|]. fold line in R, Hp, Hc.
  exists d'. split; [|done]. unfold fgets. change (lenZ (@nil Z)) with 0 in R. rewrite !app_nil_l, Z.add_0_l in R.
  rewrite (bind_Ret _ _ _ _ _ R). clearbody line. destruct line as [|x line].
  - destruct (Hc eq_refl) as [-> | ->]; done.
  - rewrite (proj2 (Z.eqb_neq (lenZ (x :: line)) 0)), andb_false_r by (rewrite lenZ_cons; unfold lenZ; lia).
    destruct (drop (length (x :: line)) s) as [|y rest] eqn:Ed;
      [exfalso; apply (f_equal length) in Ed; rewrite length_drop in Ed; simpl in *; lia|].
    rewrite <- drop_drop, Ed. rewrite wrc_run by (rewrite lenZ_app, (lenZ_cons y); unfold lenZ; lia). simpl.
    unfold updZ. rewrite (proj2 (Z.leb_le 0 _)) by (unfold lenZ; lia). unfold lenZ. rewrite Nat2Z.id.
    change (x :: line ++ y :: rest) with ((x :: line) ++ y :: rest).
    rewrite insert_app_r_alt by done. rewrite Nat.sub_diag. done.
Qed.

(** ** Output *)

(** A device that accepts every character. *)
Class OutputDevice {D : Type} (putc : Z -> Z -> M D Z) (dev : Z) := {
  accept : Z -> D -> D;
  putc_law c d : 0 <= c < 256 -> exists r, r <> SYSERR /\ r <> EOF /\ putc dev c d = Ret (r, accept c d)
}.

Lemma fputc_run {D} (putc : Z -> Z -> M D Z) dev `{!OutputDevice putc dev} c d :
  exists r, r <> EOF /\ fputc putc c dev d = Ret (r, accept (u8 c) d).
Proof.
  destruct (putc_law (u8 c) d (wrap_range 8 c ltac:(lia))) as (r & H1 & H2 & E). exists (u8 r).
  pose proof (wrap_range 8 r ltac:(lia)). split; [unfold EOF; lia|]. unfold fputc.
  rewrite (bind_Ret _ _ _ _ _ E). by rewrite (proj2 (Z.eqb_neq r SYSERR)), (proj2 (Z.eqb_neq r EOF)).
Qed.

#[export] Program Instance fputc_sink {D} (putc : Z -> Z -> M D Z) dev `{!OutputDevice putc dev} :
    CharSink (fun c => fputc putc c dev) := {|
  room _ _ := True;
  emit c d := accept (u8 c) d
|}.
Next Obligation. intros D putc dev H c n d _. destruct (fputc_run putc dev c d) as (r & Hr & E). eauto. Qed.

(** [fputs] writes the characters of a string to the device, in order,
    and returns zero; [fprintf] writes what its format and arguments mean and
    returns the number of characters. *)
Theorem stdio_writes {D} (putc : Z -> Z -> M D Z) dev `{!OutputDevice putc dev} junk s w items tl ap d :
  cstr s w -> Forall byte w -> lenZ junk = LONG_BITS + 1 -> Forall item_ok items ->
  let out := concat (item_out <$> items) in
  fputs putc s dev d = Ret (0, foldl (fun d c => accept c d) d w) /\
  fprintf putc junk dev (concat (item_text <$> items) ++ 0 :: tl) (concat (item_args <$> items) ++ ap) d =
    Ret (s32 (lenZ out), foldl (fun d c => accept (u8 c) d) d out).
Proof.
  intros [[rest ->] Hw] Hb Hj Hok out. split.
  - clear -Hw Hb. revert d. induction Hb as [|c w Hc _ IH]; intros d; [done|].
    apply Forall_cons in Hw as [Hc0 Hw]. simpl. rewrite (proj2 (Z.eqb_neq c 0) Hc0).
    destruct (fputc_run putc dev c d) as (r & Hr & E). rewrite (bind_Ret _ _ _ _ _ E), (proj2 (Z.eqb_neq r EOF) Hr).
    rewrite (wrap_small 8 c) by (unfold byte in Hc; lia). by apply IH.
  - exact (doprnt_run (fun c => fputc putc c dev) junk items tl ap d Hj Hok I).
Qed.

(** ** Conversion *)

Lemma skip_spaces_run sp : forall fuel p1 c p2 objs,
  Forall (fun x => byte x /\ isspace x = true) sp -> (length sp < fuel)%nat -> byte c -> c <> 0 -> isspace c = false ->
  skip_space sgetch fuel ((p1 ++ sp ++ c :: p2, lenZ p1), objs) =
  Ret (c, ((p1 ++ sp ++ c :: p2, lenZ p1 + lenZ sp + 1), objs)).
Proof.
  induction sp as [|x sp IH]; intros fuel p1 c p2 objs Hsp Hf Hb H0 Hc.
  { change (lenZ (@nil Z)) with 0. rewrite Z.add_0_r. apply skip_space_run; [simpl in Hf; lia|done..]. }
  apply Forall_cons in Hsp as [[Hx Hxs] Hsp]. destruct fuel as [|fuel]; [simpl in Hf; lia|]. simpl.
  assert (x <> 0) as Hx0 by (by intros ->).
  rewrite (bind_Ret _ _ _ _ _ (get_run p1 x (sp ++ c :: p2) (lenZ p1) objs eq_refl Hx)). unfold delivered.
  rewrite (proj2 (Z.eqb_neq x 0)) by done. rewrite (proj2 (Z.eqb_neq x EOF)) by (unfold EOF, byte in *; lia). rewrite Hxs.
  replace (p1 ++ x :: sp ++ c :: p2) with ((p1 ++ [x]) ++ sp ++ c :: p2) by (by rewrite <- app_assoc).
  rewrite (lenZ_snoc p1 x), IH; [|done|simpl in Hf; lia|done..]. rewrite <- lenZ_snoc, lenZ_cons.
  by replace (lenZ p1 + 1 + lenZ sp + 1) with (lenZ p1 + (lenZ sp + 1) + 1) by lia.
Qed.

Lemma nondigit_ends t : byte t -> isdigit t = false -> digit_in 10 (tolower t) = None.
Proof.
  intros Ht Hd. assert (implb (negb (isdigit t)) (bool_decide (digit_in 10 (tolower t) = None)) = true) as H
    by (clear Hd; revert t Ht; apply bytes_all; vm_compute; reflexivity).
  rewrite Hd in H. by apply bool_decide_eq_true_1 in H.
Qed.

(** [atol] and [atoi] skip leading white space, take an optional sign and
    the decimal digits that follow, and return the number they denote,
    reduced to 32 bits. *)
Theorem atol_parses tab sp sg d ds t rest :
  Forall (fun x => byte x /\ isspace x = true) sp -> sign_text sg -> Forall (fun x => 0 <= x < 10) (d :: ds) ->
  byte t -> isdigit t = false -> lenZ ds < 2 ^ 32 - 10 ->
  let str := sp ++ sg ++ (digit_char false <$> d :: ds) ++ t :: rest in
  let n := valof 10 (d :: ds) in
  atol tab str = Ret (s32 (if bool_decide (sg = [chr "-"]) then - n else n)) /\
  atoi tab str = Ret (s32 (if bool_decide (sg = [chr "-"]) then - n else n)).
Proof.
  intros Hsp Hsg Hds Ht Htd Hl str n.
  assert (t = 0 \/ digit_in 10 (tolower t) = None) as Htd'.
  { right. by apply nondigit_ends. }
  set (fuel := S (length str)).
  assert (length sp + length ds + 2 <= fuel)%nat as Hfuel
    by (unfold fuel, str; rewrite !length_app, length_fmap; simpl; lia).
  destruct (scan_signed_run fuel 1 LONG_SIZE 10 false sg d ds t sp rest [DLong 0]) as (c0 & r0 & Et & B1 & B2 & B3 & R);
    [done|tauto|done|done|done|lia|done|done|].
  assert (str = sp ++ (sg ++ (digit_char false <$> d :: ds)) ++ t :: rest) as Es by (unfold str; by rewrite <- app_assoc).
  rewrite <- Es in R.
  assert (skip_space sgetch fuel ((str, 0), [DLong 0]) = Ret (c0, ((str, lenZ sp + 1), [DLong 0]))) as Hsk.
  { rewrite Es, Et. simpl app. change (0 : Z) with (lenZ (@nil Z)) at 1. rewrite <- (app_nil_l (sp ++ _)).
    rewrite skip_spaces_run by (done || lia). by rewrite Z.add_0_l. }
  set (v := if bool_decide (sg = [chr "-"]) then u32 (- u32 n) else u32 n).
  assert (s32 v = s32 (if bool_decide (sg = [chr "-"]) then - n else n)) as Hv.
  { unfold v, swrap. case_bool_decide; rewrite !wrap_wrap; [|done].
    assert (u32 (- u32 n) = u32 (- n)) as ->; [|done]. unfold wrap.
    replace (- (n mod 2 ^ 32)) with (-1 * (n mod 2 ^ 32)) by lia.
    rewrite Z.mul_mod_idemp_r by done. by replace (-1 * n) with (- n) by lia. }
  assert (exists r, sscanf tab str (lit "%ld") [1] [DLong 0] = Ret (r, [DLong (s32 v)])) as [r Hscan].
  { unfold sscanf, _doscan. fold fuel.
    change (_doscan_loop sgetch sungetch (S (length (lit "%ld"))) fuel (lit "%ld") [1] 0 tab) with
      (r <-- scan_conversion sgetch sungetch fuel (lit "ld") [1] 0 tab ;;
       match r with Done v => ret v | Go u a m tb => _doscan_loop sgetch sungetch 4 fuel u a m tb end).
    unfold scan_conversion.
    change (scan_spec (lit "ld") [1]) with
      (@Ret (Z * Z * integer_size * Z * list Z * list Z) (1, UNLIMITED_LENGTH, LONG_SIZE, chr "d", [0], [])).
    unfold obind. rewrite bind_assoc.
    rewrite bind_pure with (a := (1, UNLIMITED_LENGTH, LONG_SIZE, chr "d", [0], [])) by done.
    change (chr "d" =? 0) with false. change (chr "d" =? chr "[") with false. cbv iota.
    rewrite bind_assoc, bind_ret_l. change (negb false && isupper (chr "d")) with false. cbv iota. rewrite bind_assoc.
    change (scan_number_or_string sgetch sungetch fuel 1 (u8 (chr "d")) UNLIMITED_LENGTH LONG_SIZE tab) with
      (c0 <-- skip_space sgetch fuel ;; if c0 =? EOF then ret (false, true)
       else ret tt ;;; scan_number sgetch sungetch fuel 1 UNLIMITED_LENGTH LONG_SIZE 10 c0).
    rewrite bind_assoc, (bind_Ret _ _ _ _ _ Hsk). rewrite (proj2 (Z.eqb_neq c0 EOF)) by (unfold EOF, byte in *; lia).
    rewrite bind_assoc, bind_ret_l.
    assert (scan_number sgetch sungetch fuel 1 UNLIMITED_LENGTH LONG_SIZE 10 c0 ((str, lenZ sp + 1), [DLong 0]) =
      Ret ((true, t =? 0), ((str, lenZ sp + lenZ (sg ++ (digit_char false <$> d :: ds))), [DLong (s32 v)]))) as Hnum
      by (rewrite R; done).
    rewrite (bind_Ret _ _ _ _ _ Hnum). destruct (t =? 0); eexists; reflexivity. }
  unfold atoi, atol. rewrite Hscan. simpl. rewrite Hv. split; [done|]. do 1 f_equal.
  apply swrap_small; [done|]. unfold swrap. pose proof (wrap_range 32 (if bool_decide (sg = [chr "-"]) then - n else n) ltac:(lia)).
  change (2 ^ (32 - 1)) with (2 ^ 31). case_if; lia.
Qed.

(** ** Arithmetic *)

(** [rand] returns a number from 0 to [RAND_MAX] for every seed, keeps the
    seed a 32-bit number, and never maps two seeds to the same next seed, so
    that the sequence of seeds is a cycle; [srand] restarts it.  [abs] is the
    absolute value but for the smallest [int], which it returns unchanged. *)
Theorem rand_abs_range seed seed' j :
  0 <= seed < 2 ^ 32 -> 0 <= seed' < 2 ^ 32 -> - 2 ^ 31 <= j < 2 ^ 31 ->
  (exists r s s', rand seed = Ret (r, s) /\ 0 <= r <= RAND_MAX /\ 0 <= s < 2 ^ 32 /\
     (exists r', rand seed' = Ret (r', s')) /\ (s = s' -> seed = seed') /\
     (srand seed ;;; rand) seed' = Ret (r, s)) /\
  (abs j = if j =? - 2 ^ 31 then j else Z.abs j) /\ labs j = abs j.
Proof.
  intros Hs Hs' Hj. split; [|split; [|done]].
  - eexists _, _, _. split; [done|]. split; [|split; [|split; [by eexists|split; [|done]]]].
    + assert (0 <= Z.shiftr (u32 (u32 (seed * 1103515245) + 12345)) 16 mod (RAND_MAX + 1) < RAND_MAX + 1) as Hm
        by (by apply Z.mod_pos_bound).
      unfold gets, id. simpl. unfold RAND_MAX in *. rewrite swrap_small; [lia|lia|]. change (2 ^ (32 - 1)) with (2 ^ 31). lia.
    + apply wrap_range. lia.
    + simpl. rewrite !u32_step. unfold wrap. intros E.
      assert ((2 ^ 32 | 1103515245 * (seed - seed'))) as Hd.
      { apply Z.mod_divide; [done|]. replace (1103515245 * (seed - seed')) with
          ((seed * 1103515245 + 12345) - (seed' * 1103515245 + 12345)) by lia.
        rewrite Zminus_mod, E, Z.sub_diag. done. }
      apply Z.gauss in Hd; [|vm_compute; reflexivity]. destruct Hd as [q Hq]. lia.
  - unfold abs. destruct (Z.eqb_spec j (- 2 ^ 31)) as [-> | Hne]; [done|]. destruct (Z.ltb_spec j 0).
    + rewrite swrap_small; [lia|lia|]. change (2 ^ (32 - 1)) with (2 ^ 31). lia.
    + lia.
Qed.
