(* ===== verification/Thread.v ===== *)
(** * Computations that give up the processor

    [ctxsw] (system/ctxsw.S) leaves one process and continues another; the
    code after it runs when the first process is switched to again, with
    whatever the others have made of the kernel state meanwhile.  A [thread]
    is a computation cut at its context switches: it runs on the kernel
    state until it returns a value, faults, or switches away, leaving the
    rest of itself. *)

From stdpp Require Import base numbers list.
From S2P Require Import Prelude Kernel.

Inductive thread (A : Type) : Type :=
  | Thread (run : kernel -> outcome ((A + thread A) * kernel)).
Arguments Thread {A} run.

(** Run up to the return or the next switch. *)
Definition start {A} (t : thread A) : kernel -> outcome ((A + thread A) * kernel) :=
  match t with Thread run => run end.

Definition tret {A} (a : A) : thread A := Thread (fun k => Ret (inl a, k)).

Definition lift {A} (m : K A) : thread A :=
  Thread (fun k => match m k with
                   | Ret (a, k') => Ret (inl a, k')
                   | Fault f => Fault f
                   end).

(** The point where another process runs. *)
Definition switch : thread unit := Thread (fun k => Ret (inr (tret tt), k)).

Fixpoint tbind {A B} (t : thread A) (f : A -> thread B) : thread B :=
  match t with
  | Thread run =>
      Thread (fun k => match run k with
                       | Ret (inl a, k') => start (f a) k'
                       | Ret (inr t', k') => Ret (inr (tbind t' f), k')
                       | Fault e => Fault e
                       end)
  end.

Notation "x <== t ;; f" := (tbind t (fun x => f))
  (at level 100, t at next level, right associativity) : c_scope.
Notation "t ;;== f" := (tbind t (fun _ => f))
  (at level 100, right associativity) : c_scope.

Lemma start_lift_bind {A B} (m : K A) (f : A -> thread B) k :
  start (tbind (lift m) f) k =
  match m k with Ret (a, k') => start (f a) k' | Fault e => Fault e end.
Proof. simpl. by destruct (m k) as [[a k']|]. Qed.

Lemma start_lift_Ret {A B} (m : K A) (f : A -> thread B) k a k' :
  m k = Ret (a, k') -> start (tbind (lift m) f) k = start (f a) k'.
Proof. intros H. by rewrite start_lift_bind, H. Qed.

Lemma start_lift {A} (m : K A) k :
  start (lift m) k = match m k with Ret (a, k') => Ret (inl a, k') | Fault e => Fault e end.
Proof. done. Qed.

(** A thread that returns without switching, in front of another. *)
Lemma start_bind_inl {A B} (t : thread A) (f : A -> thread B) k a k' :
  start t k = Ret (inl a, k') -> start (tbind t f) k = start (f a) k'.
Proof. destruct t as [run]. simpl. by intros ->. Qed.

Lemma start_bind_inr {A B} (t : thread A) (f : A -> thread B) k t' k' :
  start t k = Ret (inr t', k') -> start (tbind t f) k = Ret (inr (tbind t' f), k').
Proof. destruct t as [run]. simpl. by intros ->. Qed.

Lemma start_bind_eq {A B} (t t' : thread A) (f : A -> thread B) k k' :
  start t k = start t' k' -> start (tbind t f) k = start (tbind t' f) k'.
Proof. destruct t, t'. simpl. by intros ->. Qed.

(** Two consecutive pieces of kernel code are one. *)
Lemma start_lift_lift {A B} (m : K A) (f : A -> K B) k :
  start (x <== lift m ;; lift (f x)) k = start (lift (bind m f)) k.
Proof. simpl. unfold bind. by destruct (m k) as [[a k']|]. Qed.
