(* ===== verification/Proc.v ===== *)
(** * Processes and scheduling (system/create.c, ready.c, resched.c, kill.c,
    ctxsw.S)

    The operations on processes, as threads where they can reach a context
    switch.  [acore] and [spec_resched] are the abstract scheduler of a core:
    three FIFO lists and two aging counters. *)

From stdpp Require Import base numbers functions list gmap.
From S2P Require Import Prelude Kernel Spinlock Queue Memory CString Thread.

(** ** Definitions *)

(** Addresses the linker chooses: the process table, functions whose address
    is taken, and the end of the image. *)
Class Layout := {
  proctab_addr : Z;
  userret_addr : Z;
  clkhandler_addr : Z;
  main_addr : Z;
  core_nulluser_addr : Z;
  setupCore_addr : Z;
  start_addr : Z;
  end_addr : Z
}.

(** Elements of the per-core arrays. *)
Definition rdv (get : kernel -> list Z) (i : Z) : K Z := fun k => must (nthZ (get k) i) k.
Definition wrv (get : kernel -> list Z) (set : list Z -> kernel -> kernel) (i v : Z) : K unit :=
  rdv get i ;;; modify (fun k => set (updZ i v (get k)) k).

(** sizeof(pcb) and the offset of [regs] in it. *)
Definition sizeof_pcb : Z := 120.
Definition offset_regs : Z := 36.
Definition regs_addr `{Layout} (pid : Z) : Z := u32 (proctab_addr + sizeof_pcb * pid + offset_regs).

(** The loop of [newpid]. *)
Fixpoint newpid_loop (n : nat) : K Z :=
  match n with
  | O => ret SYSERR
  | S n' =>
      modify (fun k => set_nextpid (atomic_increment_mod (nextpid k) NPROC) k) ;;;
      i <-- gets nextpid ;;
      p <-- rd_proc i ;;
      if PRFREE =? p_state p then ret i else newpid_loop n'
  end.
Definition newpid : K Z := newpid_loop (Z.to_nat NPROC).

(** for (i = 0; i < pads; i++) *--saddr = 0; *)
Fixpoint push_pads (n : nat) (saddr : Z) : K Z :=
  match n with
  | O => ret saddr
  | S n' => let saddr := u32 (saddr - 4) in store saddr 0 ;;; push_pads n' saddr
  end.

(** The argument loops: the first four arguments go to [regs], the others
    to the stack. *)
Fixpoint pass_args (pid saddr i : Z) (args : list Z) : K unit :=
  match args with
  | [] => ret tt
  | a :: args' =>
      (if i <? 4 then upd_proc pid (fun p => set_p_regs (updZ i a (p_regs p)) p)
       else store (u32 (saddr + 4 * (i - 4))) (u32 a)) ;;;
      pass_args pid saddr (i + 1) args'
  end.

Definition strncpy_name (name : list Z) (p : pcb) : K pcb :=
  match strncpy (p_name p) name (Z.to_nat PNMLEN) with
  | Ret n => ret (set_p_name n p)
  | Fault f => failwith f
  end.

(** The fields of the new process, up to [msg_var.msgout]. *)
Definition init_pcb (saddr ssize priority : Z) (p : pcb) : pcb :=
  upd_p_msg (fun m => set_msgout EMPTY (set_msgin EMPTY (set_hasMessage FALSE m)))
    (set_p_priority (s32 priority) (set_p_core_affinity (-1)
      (set_p_stklen (s32 ssize) (set_p_stkbase saddr (set_p_state PRSUSP p))))).

Definition create `{Layout} (cpu funcaddr ssize priority : Z) (name : list Z) (args : list Z) : K Z :=
  let nargs := lenZ args in
  let ssize := if ssize <? MINSTK then MINSTK else ssize in
  let ssize := Z.land (u32 (ssize + 3)) 0xFFFFFFFC in
  saddr <-- getmem cpu ssize ;;
  pid <-- newpid ;;
  if (u32 SYSERR =? saddr) || (u32 SYSERR =? u32 pid) then ret SYSERR
  else
    modify (fun k => set_numproc (atomic_increment (numproc k)) k) ;;;
    p <-- rd_proc pid ;;
    p <-- strncpy_name name p ;;
    upd_proc pid (fun _ => init_pcb saddr ssize priority p) ;;;
    (* Initialize stack with accounting block. *)
    let top := u32 (saddr + ssize - 4) in
    store top STACKMAGIC ;;;
    let top := u32 (top - 4) in
    store top pid ;;;
    let top := u32 (top - 4) in
    p <-- rd_proc pid ;;
    store top (u32 (p_stklen p)) ;;;
    let top := u32 (top - 4) in
    store top (p_stkbase p) ;;;
    let pads := if nargs =? 0 then 0 else ((nargs - 1) / 4) * 4 in
    top <-- push_pads (Z.to_nat pads) top ;;
    pass_args pid top 0 args ;;;
    upd_proc pid (fun p => set_p_regs (updZ PREG_PC (s32 funcaddr) (p_regs p)) p) ;;;
    upd_proc pid (fun p => set_p_regs (updZ PREG_LR (s32 userret_addr) (p_regs p)) p) ;;;
    upd_proc pid (fun p => set_p_regs (updZ PREG_SP (s32 top) (p_regs p)) p) ;;;
    ret pid.

(** ctxsw.S: save r0-r11, lr (twice, as lr and pc) and sp, leaving the ip
    slot; load the same registers of the other process. *)
Definition saved_regs (r old : list Z) : list Z :=
  take 12 r ++ [default 0 (nthZ old 12); default 0 (nthZ r PREG_SP);
    default 0 (nthZ r PREG_LR); default 0 (nthZ r PREG_LR)].
Definition loaded_regs (new : list Z) (ip : Z) : list Z :=
  take 12 new ++ [ip; default 0 (nthZ new PREG_SP); default 0 (nthZ new PREG_LR);
    default 0 (nthZ new PREG_PC)].

Definition ctxsw `{Layout} (cpu old new : Z) : K unit :=
  r <-- (fun k => must (nthZ (regfile k) cpu) k) ;;
  (* the arguments, in r0 and r1 *)
  let r := updZ 0 (regs_addr old) (updZ 1 (regs_addr new) r) in
  upd_proc old (fun p => set_p_regs (saved_regs r (p_regs p)) p) ;;;
  p <-- rd_proc new ;;
  modify (fun k => set_regfile (updZ cpu (loaded_regs (p_regs p) (regs_addr new)) (regfile k)) k).

(** enqueue(dequeue(q1), q2) when q1 is not empty *)
Definition promote_first (cpu q1 q2 : Z) : K unit :=
  b <-- nonempty q1 ;;
  if (b : bool) then pid <-- dequeue cpu q1 ;; enqueue cpu pid q2 ;;; ret tt else ret tt.

(** The AGING part of [resched]; the counters are unsigned. *)
Definition resched_age (cpu : Z) : K unit :=
  pm <-- rdv promote_medium cpu ;;
  wrv promote_medium set_promote_medium cpu (u32 (pm - 1)) ;;;
  if u32 (pm - 1) <=? 0 then
    qm <-- rd_readylist cpu PRIORITY_MED ;;
    qh <-- rd_readylist cpu PRIORITY_HIGH ;;
    promote_first cpu qm qh ;;;
    pl <-- rdv promote_low cpu ;;
    wrv promote_low set_promote_low cpu (u32 (pl - 1)) ;;;
    (if u32 (pl - 1) <=? 0 then
       ql <-- rd_readylist cpu PRIORITY_LOW ;;
       qm <-- rd_readylist cpu PRIORITY_MED ;;
       promote_first cpu ql qm ;;;
       wrv promote_low set_promote_low cpu QUANTUM
     else ret tt) ;;;
    wrv promote_medium set_promote_medium cpu QUANTUM
  else ret tt.

(** Place the current process at the end of its ready queue. *)
Definition resched_requeue (cpu old : Z) : K unit :=
  p <-- rd_proc old ;;
  if PRCURR =? p_state p then
    upd_proc old (set_p_state PRREADY) ;;;
    cur <-- rd_currpid cpu ;;
    q <-- rd_readylist cpu (p_priority p) ;;
    enqueue cpu cur q ;;; ret tt
  else ret tt.

Definition resched_highest (cpu : Z) : K Z :=
  q <-- rd_readylist cpu PRIORITY_HIGH ;;
  b <-- nonempty q ;;
  if (b : bool) then ret PRIORITY_HIGH
  else
    q <-- rd_readylist cpu PRIORITY_MED ;;
    b <-- nonempty q ;;
    if (b : bool) then ret PRIORITY_MED else ret PRIORITY_LOW.

(** [resched] up to and including the switch of registers; the result is the
    interrupt mask the process restores when it runs again. *)
Definition resched_out `{Layout} (cpu : Z) : K Z :=
  old <-- rd_currpid cpu ;;
  im <-- disable cpu ;;
  resched_age cpu ;;;
  resched_requeue cpu old ;;;
  highest_prio <-- resched_highest cpu ;;
  q <-- rd_readylist cpu highest_prio ;;
  new <-- dequeue cpu q ;;
  wrv currpid set_currpid cpu new ;;;
  upd_proc new (set_p_state PRCURR) ;;;
  wrv preempt set_preempt cpu QUANTUM ;;;
  ctxsw cpu old new ;;;
  ret im.

Definition resched `{Layout} (cpu : Z) : thread Z :=
  im <== lift (resched_out cpu) ;;
  switch ;;==
  lift (restore cpu im ;;; ret OK).

(** The part of [ready] before the optional [resched]. *)
Definition ready_enqueue (cpu pid core : Z) : K Z :=
  upd_proc pid (set_p_state PRREADY) ;;;
  p <-- rd_proc pid ;;
  (if -1 =? p_core_affinity p then upd_proc pid (set_p_core_affinity (s32 core)) else ret tt) ;;;
  p <-- rd_proc pid ;;
  q <-- rd_readylist (p_core_affinity p) (p_priority p) ;;
  enqueue cpu pid q ;;;
  ret (p_core_affinity p).

Definition ready `{Layout} (cpu pid : Z) (resch : bool) (core : Z) : thread Z :=
  bad <== lift (isbadpid pid) ;;
  if (bad : bool) then tret SYSERR
  else
    im <== lift (disable cpu) ;;
    affinity <== lift (ready_enqueue cpu pid core) ;;
    (if resch && (cpu =? u32 affinity) then resched cpu else tret OK) ;;==
    lift (restore cpu im ;;; ret OK).

(** The guard of [kill]. *)
Definition kill_refused (cpu pid : Z) : K bool :=
  bad <-- isbadpid pid ;;
  if bad || (0 =? pid) || (1 =? pid) || (2 =? pid) || (3 =? pid) then ret true
  else
    p <-- rd_proc pid ;;
    ret (negb (cpu =? u32 (p_core_affinity p)) || (PRFREE =? p_state p)).

(** The bookkeeping before the switch on the state, which it returns. *)
Definition kill_release (cpu pid : Z) : K Z :=
  modify (fun k => set_numproc (atomic_decrement (numproc k)) k) ;;;
  p <-- rd_proc pid ;;
  freemem cpu (p_stkbase p) (u32 (p_stklen p)) ;;;
  p <-- rd_proc pid ;;
  ret (p_state p).

Definition kill `{Layout} (cpu pid : Z) : thread Z :=
  refused <== lift (kill_refused cpu pid) ;;
  if (refused : bool) then tret SYSERR
  else
    state <== lift (kill_release cpu pid) ;;
    (if state =? PRCURR then
       lift (upd_proc pid (set_p_state PRFREE)) ;;==
       resched cpu ;;==
       lift (remove cpu pid ;;; ret tt)
     else if state =? PRREADY then lift (remove cpu pid ;;; ret tt)
     else tret tt) ;;==
    lift (upd_proc pid (set_p_state PRFREE) ;;; ret OK).

Definition userret `{Layout} (cpu : Z) : thread Z :=
  pid <== lift (rd_currpid cpu) ;; kill cpu pid.

(** ** The abstract scheduler of a core *)

Record acore := mkAcore {
  a_high : list Z;
  a_med : list Z;
  a_low : list Z;
  a_pm : Z;   (* calls left until a medium process is promoted *)
  a_pl : Z    (* such promotions left until a low one is *)
}.

(** Move the first medium process to the high list, and the first low one to
    the medium list, when their turns have come. *)
Definition promote_med (s : acore) : acore :=
  match a_med s with
  | [] => s
  | x :: m => mkAcore (a_high s ++ [x]) m (a_low s) (a_pm s) (a_pl s)
  end.
Definition promote_lo (s : acore) : acore :=
  match a_low s with
  | [] => s
  | x :: l => mkAcore (a_high s) (a_med s ++ [x]) l (a_pm s) (a_pl s)
  end.
Definition with_counters (pm pl : Z) (s : acore) : acore :=
  mkAcore (a_high s) (a_med s) (a_low s) pm pl.

Definition age (s : acore) : acore :=
  if u32 (a_pm s - 1) <=? 0 then
    if u32 (a_pl s - 1) <=? 0 then with_counters QUANTUM QUANTUM (promote_lo (promote_med s))
    else with_counters QUANTUM (u32 (a_pl s - 1)) (promote_med s)
  else with_counters (u32 (a_pm s - 1)) (a_pl s) s.

Definition requeue (prio x : Z) (s : acore) : acore :=
  if prio =? PRIORITY_HIGH then mkAcore (a_high s ++ [x]) (a_med s) (a_low s) (a_pm s) (a_pl s)
  else if prio =? PRIORITY_MED then mkAcore (a_high s) (a_med s ++ [x]) (a_low s) (a_pm s) (a_pl s)
  else mkAcore (a_high s) (a_med s) (a_low s ++ [x]) (a_pm s) (a_pl s).

(** The first process of the highest non-empty list. *)
Definition select (s : acore) : option (Z * acore) :=
  match a_high s, a_med s, a_low s with
  | x :: h, m, l => Some (x, mkAcore h m l (a_pm s) (a_pl s))
  | [], x :: m, l => Some (x, mkAcore [] m l (a_pm s) (a_pl s))
  | [], [], x :: l => Some (x, mkAcore [] [] l (a_pm s) (a_pl s))
  | [], [], [] => None
  end.

(** One scheduling decision; [back] is the priority of the current process
    when it stays eligible. *)
Definition spec_resched (cur : Z) (back : option Z) (s : acore) : option (Z * acore) :=
  select (match back with Some prio => requeue prio cur (age s) | None => age s end).

(** The processes of the three lists; no operation loses or doubles one. *)
Definition members (s : acore) : list Z := a_high s ++ a_med s ++ a_low s.

Lemma members_age s : members (age s) ≡ₚ members s.
Proof.
  destruct s as [h m l pm pl]. unfold age, members, promote_lo, promote_med, with_counters. simpl.
  destruct (u32 (pm - 1) <=? 0), (u32 (pl - 1) <=? 0), m as [|x m], l as [|y l]; simpl;
    try done; solve_Permutation.
Qed.

Lemma members_requeue q x s : members (requeue q x s) ≡ₚ x :: members s.
Proof.
  unfold requeue, members. destruct (q =? PRIORITY_HIGH), (q =? PRIORITY_MED); simpl; solve_Permutation.
Qed.

Lemma members_select s x s' : select s = Some (x, s') -> members s ≡ₚ x :: members s'.
Proof.
  unfold select, members. destruct (a_high s), (a_med s), (a_low s); simpl; intros; simplify_eq/=; done.
Qed.

Lemma select_nonempty s x : x ∈ members s -> exists y s', select s = Some (y, s').
Proof.
  unfold select, members. destruct (a_high s), (a_med s), (a_low s); simpl; eauto.
  by intros ?%not_elem_of_nil.
Qed.

(** ** The queues of the scheduler *)

Lemma set_queuetab_id k : set_queuetab (queuetab k) k = k.
Proof. by destruct k. Qed.

Lemma bind_rdv {B} get i v (c : Z -> K B) k : nthZ (get k) i = Some v -> bind (rdv get i) c k = c v k.
Proof. intros H. unfold bind, rdv. by rewrite H. Qed.
Lemma bind_wrv {B} get set i v (c : unit -> K B) k :
  0 <= i < lenZ (get k) -> bind (wrv get set i v) c k = c tt (set (updZ i v (get k)) k).
Proof. intros [x Hx]%nthZ_lt_Some. unfold bind, wrv, rdv, bind. by rewrite Hx. Qed.

Section Sched.
Context (wf : kernel -> (Z -> list Z) -> Prop) `{!FifoQueues wf}.
Context (RQ : Z -> Z -> Z).  (* the head entry of the ready queue of a core and priority *)

Definition core (c : Z) : Prop := 0 <= c < NCORES.
Definition prio (p : Z) : Prop := 0 <= p <= 2.

Record rq_ok (k : kernel) : Prop := {
  rq_at : forall c p, core c -> prio p ->
    exists row, nthZ (readylist k) c = Some row /\ nthZ row p = Some (qid (RQ c p));
  rq_head : forall c p, core c -> prio p -> is_qhead k (RQ c p);
  rq_inj : forall c p c' p', core c -> prio p -> core c' -> prio p' ->
    RQ c p = RQ c' p' -> c = c' /\ p = p'
}.

Lemma bind_rd_ready {B} k c p (f : Z -> K B) :
  rq_ok k -> core c -> prio p -> bind (rd_readylist c p) f k = f (qid (RQ c p)) k.
Proof.
  intros Hr Hc Hp. destruct (rq_at k Hr c p Hc Hp) as (row & H1 & H2). by eapply bind_rd_readylist.
Qed.

Lemma rq_ne k c p p' : rq_ok k -> core c -> prio p -> prio p' -> p <> p' -> RQ c p <> RQ c p'.
Proof. intros Hr Hc Hp Hp' Hne E. apply Hne. by apply (rq_inj k Hr c p c p'). Qed.

(** The lists of core [c] in [L], and [L] with those lists replaced. *)
Definition abs (k : kernel) (L : Z -> list Z) (c : Z) : acore :=
  mkAcore (L (RQ c PRIORITY_HIGH)) (L (RQ c PRIORITY_MED)) (L (RQ c PRIORITY_LOW))
    (default 0 (nthZ (promote_medium k) c)) (default 0 (nthZ (promote_low k) c)).
Definition setq (c : Z) (s : acore) (L : Z -> list Z) : Z -> list Z :=
  <[RQ c PRIORITY_HIGH := a_high s]> (<[RQ c PRIORITY_MED := a_med s]>
    (<[RQ c PRIORITY_LOW := a_low s]> L)).

Lemma setq_high c s L : setq c s L (RQ c PRIORITY_HIGH) = a_high s.
Proof. apply fn_lookup_insert. Qed.
Lemma setq_med k c s L : rq_ok k -> core c -> setq c s L (RQ c PRIORITY_MED) = a_med s.
Proof.
  intros Hr Hc. unfold setq.
  rewrite fn_lookup_insert_ne, fn_lookup_insert; [done|].
  eapply rq_ne; unfold prio; done || klia.
Qed.
Lemma setq_low k c s L : rq_ok k -> core c -> setq c s L (RQ c PRIORITY_LOW) = a_low s.
Proof.
  intros Hr Hc. unfold setq.
  rewrite fn_lookup_insert_ne, fn_lookup_insert_ne, fn_lookup_insert; [done|..];
    eapply rq_ne; unfold prio; done || klia.
Qed.
Lemma setq_other c s L h :
  h <> RQ c PRIORITY_HIGH -> h <> RQ c PRIORITY_MED -> h <> RQ c PRIORITY_LOW -> setq c s L h = L h.
Proof. intros. unfold setq. by rewrite !fn_lookup_insert_ne. Qed.

(** Decide a lookup in updated lists by comparing the queue heads. *)
Lemma setq_case k c s L h : rq_ok k -> core c ->
  setq c s L h = if decide (h = RQ c PRIORITY_HIGH) then a_high s
    else if decide (h = RQ c PRIORITY_MED) then a_med s
    else if decide (h = RQ c PRIORITY_LOW) then a_low s else L h.
Proof.
  intros Hr Hc. repeat case_decide; subst; [apply setq_high|by eapply setq_med|by eapply setq_low|].
  by apply setq_other.
Qed.

Lemma promote_run cpu k L h1 h2 :
  wf k L -> is_qhead k h1 -> is_qhead k h2 -> h1 <> h2 -> (forall x, x ∈ L h1 -> live k x) ->
  exists tab', promote_first cpu (qid h1) (qid h2) k = Ret (tt, set_queuetab tab' k) /\
    wf (set_queuetab tab' k)
      (match L h1 with [] => L | x :: l => <[h2 := L h2 ++ [x]]> (<[h1 := l]> L) end).
Proof.
  intros Hwf Hq1 Hq2 Hne Hlive. unfold promote_first.
  erewrite bind_Ret by (by apply (fq_nonempty (wf := wf))).
  destruct (L h1) as [|x l] eqn:E; [exists (queuetab k); by rewrite set_queuetab_id|].
  destruct (fq_dequeue cpu k L h1 x l Hwf Hq1 E) as (tab1 & Hr1 & Hwf1).
  rewrite (bind_Ret _ _ _ _ _ Hr1).
  pose proof (fq_nodup k L h1 Hwf Hq1) as Hnd. rewrite E in Hnd. apply NoDup_cons in Hnd as [Hni _].
  destruct (fq_enqueue (wf := wf) cpu _ _ h2 x Hwf1 Hq2) as (tab2 & Hr2 & Hwf2).
  - apply Hlive. left.
  - intros h Hq Hin. destruct (decide (h = h1)) as [->|Hn].
    + by rewrite fn_lookup_insert in Hin.
    + rewrite fn_lookup_insert_ne in Hin by done. apply Hn.
      apply (fq_disj k L h h1 x Hwf); [done|done|done|]. rewrite E. left.
  - exists tab2. rewrite (bind_Ret _ _ _ _ _ Hr2). split; [done|].
    by rewrite fn_lookup_insert_ne in Hwf2.
Qed.

(** [setq] determines the lists up to their other queues. *)
Lemma setq_abs k L c pm pl h : setq c (with_counters pm pl (abs k L c)) L h = L h.
Proof.
  unfold setq. destruct (decide (h = RQ c PRIORITY_HIGH)) as [->|H1]; [by rewrite fn_lookup_insert|].
  rewrite fn_lookup_insert_ne by done.
  destruct (decide (h = RQ c PRIORITY_MED)) as [->|H2]; [by rewrite fn_lookup_insert|].
  rewrite fn_lookup_insert_ne by done.
  destruct (decide (h = RQ c PRIORITY_LOW)) as [->|H3]; [by rewrite fn_lookup_insert|].
  by rewrite fn_lookup_insert_ne.
Qed.

(** Replacing one of the three lists. *)
Lemma setq_insert_high c s L l h :
  (<[RQ c PRIORITY_HIGH := l]> (setq c s L)) h =
  setq c (mkAcore l (a_med s) (a_low s) (a_pm s) (a_pl s)) L h.
Proof.
  unfold setq. simpl. destruct (decide (h = RQ c PRIORITY_HIGH)) as [->|H1];
    [by rewrite !fn_lookup_insert|]. by rewrite !(fn_lookup_insert_ne _ (RQ c PRIORITY_HIGH)).
Qed.
Lemma setq_insert_med k c s L l h : rq_ok k -> core c ->
  (<[RQ c PRIORITY_MED := l]> (setq c s L)) h =
  setq c (mkAcore (a_high s) l (a_low s) (a_pm s) (a_pl s)) L h.
Proof.
  intros Hr Hc. destruct (decide (h = RQ c PRIORITY_MED)) as [->|H1].
  - rewrite fn_lookup_insert. by erewrite setq_med.
  - rewrite fn_lookup_insert_ne by done. rewrite !(setq_case k) by done. simpl.
    by repeat case_decide.
Qed.
Lemma setq_insert_low k c s L l h : rq_ok k -> core c ->
  (<[RQ c PRIORITY_LOW := l]> (setq c s L)) h =
  setq c (mkAcore (a_high s) (a_med s) l (a_pm s) (a_pl s)) L h.
Proof.
  intros Hr Hc. destruct (decide (h = RQ c PRIORITY_LOW)) as [->|H1].
  - rewrite fn_lookup_insert. by erewrite setq_low.
  - rewrite fn_lookup_insert_ne by done. rewrite !(setq_case k) by done. simpl.
    by repeat case_decide.
Qed.

Lemma fn_insert_ext (f g : Z -> list Z) i l h : (forall j, f j = g j) -> (<[i := l]> f) h = (<[i := l]> g) h.
Proof.
  intros E. destruct (decide (h = i)) as [->|Hn]; [by rewrite !fn_lookup_insert|].
  by rewrite !fn_lookup_insert_ne.
Qed.

Lemma promote_med_run k L s c :
  wf k (setq c s L) -> rq_ok k -> core c -> (forall x, x ∈ a_med s -> live k x) ->
  exists tab', promote_first c (qid (RQ c PRIORITY_MED)) (qid (RQ c PRIORITY_HIGH)) k =
      Ret (tt, set_queuetab tab' k) /\
    wf (set_queuetab tab' k) (setq c (promote_med s) L).
Proof.
  intros Hwf Hr Hc Hl.
  destruct (promote_run c k (setq c s L) (RQ c PRIORITY_MED) (RQ c PRIORITY_HIGH)) as (tab' & Hrun & Hwf');
    [done|apply (rq_head k Hr); unfold prio; done || klia|apply (rq_head k Hr); unfold prio; done || klia
    |eapply rq_ne; unfold prio; done || klia|by erewrite setq_med|].
  exists tab'. split; [done|]. eapply fq_ext; [|exact Hwf']. intros h.
  rewrite (setq_med k) by done. unfold promote_med. destruct (a_med s) as [|x m]; [done|].
  rewrite setq_high. erewrite fn_insert_ext by (intros j; by apply (setq_insert_med k)).
  by rewrite setq_insert_high.
Qed.

Lemma promote_lo_run k L s c :
  wf k (setq c s L) -> rq_ok k -> core c -> (forall x, x ∈ a_low s -> live k x) ->
  exists tab', promote_first c (qid (RQ c PRIORITY_LOW)) (qid (RQ c PRIORITY_MED)) k =
      Ret (tt, set_queuetab tab' k) /\
    wf (set_queuetab tab' k) (setq c (promote_lo s) L).
Proof.
  intros Hwf Hr Hc Hl.
  destruct (promote_run c k (setq c s L) (RQ c PRIORITY_LOW) (RQ c PRIORITY_MED)) as (tab' & Hrun & Hwf');
    [done|apply (rq_head k Hr); unfold prio; done || klia|apply (rq_head k Hr); unfold prio; done || klia
    |eapply rq_ne; unfold prio; done || klia|by erewrite setq_low|].
  exists tab'. split; [done|]. eapply fq_ext; [|exact Hwf']. intros h.
  rewrite (setq_low k) by done. unfold promote_lo. destruct (a_low s) as [|x m]; [done|].
  rewrite (setq_med k) by done. erewrite fn_insert_ext by (intros j; by apply (setq_insert_low k)).
  by rewrite (setq_insert_med k).
Qed.

(** A state that differs in the aging counters and the queue table. *)
Definition aged (c : Z) (s : acore) (tab : list qentry) (k : kernel) : kernel :=
  set_promote_low (updZ c (a_pl s) (promote_low k))
    (set_promote_medium (updZ c (a_pm s) (promote_medium k)) (set_queuetab tab k)).

Lemma age_run c k L :
  wf k L -> rq_ok k -> core c ->
  lenZ (promote_medium k) = NCORES -> lenZ (promote_low k) = NCORES ->
  (forall p x, prio p -> x ∈ L (RQ c p) -> live k x) ->
  let s := age (abs k L c) in
  exists tab', resched_age c k = Ret (tt, aged c s tab' k) /\
    wf (set_queuetab tab' k) (setq c s L).
Proof.
  intros Hwf Hr Hc Hl1 Hl2 Hlive. cbv zeta. unfold core in Hc.
  destruct (nthZ_lt_Some (promote_medium k) c) as [pm Hpm]; [lia|].
  destruct (nthZ_lt_Some (promote_low k) c) as [pl Hpl]; [lia|].
  set (s0 := abs k L c).
  assert (a_pm s0 = pm /\ a_pl s0 = pl) as [Epm Epl] by (unfold s0, abs; simpl; by rewrite Hpm, Hpl).
  unfold resched_age, age. rewrite (bind_rdv _ _ _ _ _ Hpm), bind_wrv, Epm, Epl by lia.
  destruct (u32 (pm - 1) <=? 0).
  2: { exists (queuetab k). unfold aged, s0. simpl. rewrite (updZ_id c pl) by done.
       split; [by destruct k|]. rewrite set_queuetab_id.
       eapply fq_ext; [|exact Hwf]. intros h. apply setq_abs. }
  set (k1 := set_promote_medium _ k).
  assert (rq_ok k1) as Hr1 by (destruct Hr; by constructor).
  assert (wf k1 (setq c s0 L)) as Hwf1.
  { eapply (fq_frame (wf := wf) k); [done..|]. eapply fq_ext; [|exact Hwf]. intros h.
    apply (setq_abs k L c (a_pm s0) (a_pl s0)). }
  rewrite !bind_rd_ready by (done || unfold prio; klia).
  destruct (promote_med_run k1 L s0 c Hwf1 Hr1 Hc) as (tab1 & Hrun1 & Hwf2).
  { intros x Hx. by apply (Hlive PRIORITY_MED); [unfold prio; klia|]. }
  rewrite (bind_Ret _ _ _ _ _ Hrun1). rewrite (bind_rdv promote_low c pl), bind_wrv by (exact Hpl || simpl; lia).
  destruct (u32 (pl - 1) <=? 0).
  - set (k2 := set_promote_low _ _).
    rewrite !bind_assoc, bind_rd_ready, bind_assoc, bind_rd_ready by
      (done || unfold prio; klia || by destruct Hr; constructor).
    destruct (promote_lo_run k2 L (promote_med s0) c) as (tab2 & Hrun2 & Hwf3).
    + eapply (fq_frame (wf := wf) (set_queuetab tab1 k1)); done.
    + destruct Hr. by constructor.
    + done.
    + intros x Hx. apply (Hlive PRIORITY_LOW); [unfold prio; klia|].
      unfold promote_med in Hx. by destruct (a_med s0).
    + rewrite bind_assoc, (bind_Ret _ _ _ _ _ Hrun2).
      rewrite bind_wrv by (simpl; rewrite lenZ_updZ; lia).
      exists tab2. unfold wrv, rdv, bind, modify. simpl.
      rewrite nthZ_updZ_eq by lia. simpl. unfold aged. simpl. rewrite !updZ_updZ. split; [done|].
      eapply (fq_frame (wf := wf) (set_queuetab tab2 k2)); done.
  - rewrite bind_ret_l. exists tab1. unfold wrv, rdv, bind, modify. simpl.
    rewrite nthZ_updZ_eq by lia. simpl. unfold aged. simpl. rewrite !updZ_updZ. split; [done|].
    eapply (fq_frame (wf := wf) (set_queuetab tab1 k1)); done.
Qed.

(** The current process goes to the end of the list of its priority. *)
Lemma requeue_run c k L s x p :
  wf k (setq c s L) -> rq_ok k -> core c ->
  nthZ (currpid k) c = Some x -> 0 <= x < NPROC -> nthZ (proctab k) x = Some p ->
  (p_state p = PRCURR -> prio (p_priority p) /\ unqueued k (setq c s L) x) ->
  let back := if PRCURR =? p_state p then Some (p_priority p) else None in
  let s' := match back with Some q => requeue q x s | None => s end in
  let pt' := match back with Some _ => updZ x (set_p_state PRREADY p) (proctab k)
             | None => proctab k end in
  exists tab', resched_requeue c x k = Ret (tt, set_queuetab tab' (set_proctab pt' k)) /\
    wf (set_queuetab tab' k) (setq c s' L).
Proof.
  intros Hwf Hr Hc Hcur Hx Hp Hun. cbv zeta. unfold resched_requeue.
  rewrite (bind_rd_proc _ _ _ _ Hp). destruct (Z.eqb_spec PRCURR (p_state p)) as [E|E].
  2: { exists (queuetab k). rewrite set_queuetab_id. split; [by destruct k|done]. }
  destruct (Hun (eq_sym E)) as [Hpr Hu]. rewrite (bind_upd_proc _ _ _ _ _ Hp).
  rewrite (bind_rd_currpid c x) by done.
  rewrite bind_rd_ready by (done || by destruct Hr; constructor).
  set (k1 := set_proctab _ k).
  destruct (fq_enqueue (wf := wf) c k1 (setq c s L) (RQ c (p_priority p)) x) as (tab' & Hrun & Hwf').
  - by eapply (fq_frame (wf := wf) k).
  - by apply (rq_head k Hr).
  - split; [done|]. eexists. split; [apply nthZ_updZ_eq; by eapply nthZ_Some_lt|done].
  - done.
  - rewrite (bind_Ret _ _ _ _ _ Hrun). exists tab'. split; [done|].
    apply (fq_frame (wf := wf) _ (set_queuetab tab' k)) in Hwf'; [|done..].
    eapply fq_ext; [|exact Hwf']. intros h. unfold requeue.
    assert (p_priority p = PRIORITY_HIGH \/ p_priority p = PRIORITY_MED \/ p_priority p = PRIORITY_LOW)
      as [-> | [-> | ->]] by (unfold prio in Hpr; klia).
    + rewrite setq_insert_high. by rewrite setq_high.
    + rewrite (setq_insert_med k) by done. by rewrite (setq_med k).
    + rewrite (setq_insert_low k) by done. by rewrite (setq_low k).
Qed.

(** Picking the first process of the highest non-empty list. *)
Lemma select_run c k L s x s' :
  wf k (setq c s L) -> rq_ok k -> core c -> select s = Some (x, s') ->
  exists tab', (hp <-- resched_highest c ;; q <-- rd_readylist c hp ;; dequeue c q) k =
      Ret (x, set_queuetab tab' k) /\
    wf (set_queuetab tab' k) (setq c s' L).
Proof.
  intros Hwf Hr Hc Hsel.
  assert (is_qhead k (RQ c PRIORITY_HIGH) /\ is_qhead k (RQ c PRIORITY_MED) /\
    is_qhead k (RQ c PRIORITY_LOW)) as (Hh & Hm & Hl).
  { split; [|split]; apply (rq_head k Hr); unfold prio; done || klia. }
  assert (forall q l, prio q -> setq c s L (RQ c q) = x :: l ->
    exists tab', (q <-- rd_readylist c q ;; dequeue c q) k = Ret (x, set_queuetab tab' k) /\
      wf (set_queuetab tab' k) (<[RQ c q := l]> (setq c s L))) as Hdeq.
  { intros q l Hq E. rewrite bind_rd_ready by done.
    apply (fq_dequeue (wf := wf)); [done|by apply (rq_head k Hr)|done]. }
  unfold resched_highest. rewrite !bind_assoc, bind_rd_ready by (done || unfold prio; klia).
  rewrite bind_assoc, (bind_Ret _ _ _ _ _ (fq_nonempty k _ _ Hwf Hh)), setq_high.
  unfold select in Hsel. destruct (a_high s) as [|y h] eqn:Eh.
  - rewrite bind_assoc, bind_rd_ready by (done || unfold prio; klia).
    rewrite bind_assoc, (bind_Ret _ _ _ _ _ (fq_nonempty k _ _ Hwf Hm)), (setq_med k) by done.
    destruct (a_med s) as [|y m] eqn:Em.
    + destruct (a_low s) as [|y l] eqn:El; [done|]. injection Hsel as -> <-. rewrite bind_ret_l.
      destruct (Hdeq PRIORITY_LOW l) as (tab' & Hrun & Hwf'); [unfold prio; klia|by rewrite (setq_low k)|].
      exists tab'. split; [done|]. eapply fq_ext; [|exact Hwf']. intros h'.
      rewrite (setq_insert_low k) by done. by rewrite Eh, Em.
    + injection Hsel as -> <-. rewrite bind_ret_l.
      destruct (Hdeq PRIORITY_MED m) as (tab' & Hrun & Hwf'); [unfold prio; klia|by rewrite (setq_med k)|].
      exists tab'. split; [done|]. eapply fq_ext; [|exact Hwf']. intros h'.
      rewrite (setq_insert_med k) by done. by rewrite Eh.
  - injection Hsel as -> <-. rewrite bind_ret_l.
    destruct (Hdeq PRIORITY_HIGH h) as (tab' & Hrun & Hwf'); [unfold prio; klia|by rewrite setq_high|].
    exists tab'. split; [done|]. eapply fq_ext; [|exact Hwf']. intros h'. by rewrite setq_insert_high.
Qed.

(** ** The invariant of the scheduler *)

(** Core [t] may be between marking its current process (blocked, dead)
    and switching away from it; on every other core, and everywhere when
    [t] is no core, the current process is marked current. *)
Record sched_inv (t : Z) (k : kernel) (L : Z -> list Z) : Prop := {
  si_wf : wf k L;
  si_rq : rq_ok k;
  si_proctab : lenZ (proctab k) = NPROC;
  si_currpid : lenZ (currpid k) = NCORES;
  si_cpsr : lenZ (cpsr k) = NCORES;
  si_regfile : lenZ (regfile k) = NCORES;
  si_aging : lenZ (promote_medium k) = NCORES /\ lenZ (promote_low k) = NCORES;
  si_preempt : lenZ (preempt k) = NCORES;
  si_queued : forall h x, is_qhead k h -> x ∈ L h -> exists p,
    nthZ (proctab k) x = Some p /\ (p_state p = PRREADY \/ p_state p = PRSEND);
  si_in : forall c q x, core c -> prio q -> x ∈ L (RQ c q) -> exists p,
    nthZ (proctab k) x = Some p /\ p_state p = PRREADY /\ p_core_affinity p = c;
  si_ready : forall x p, nthZ (proctab k) x = Some p -> p_state p = PRREADY ->
    core (p_core_affinity p) /\ exists q, prio q /\ x ∈ L (RQ (p_core_affinity p) q);
  si_prio : forall x p, nthZ (proctab k) x = Some p -> p_state p <> PRFREE -> prio (p_priority p);
  si_cur : forall c, core c -> exists x p, nthZ (currpid k) c = Some x /\
    nthZ (proctab k) x = Some p /\ p_core_affinity p = c /\ p_state p <> PRREADY /\
    (c <> t -> p_state p = PRCURR);
  si_only : forall x p, nthZ (proctab k) x = Some p -> p_state p = PRCURR ->
    core (p_core_affinity p) /\ nthZ (currpid k) (p_core_affinity p) = Some x;
  si_null : forall c, core c -> exists p, nthZ (proctab k) c = Some p /\
    p_core_affinity p = c /\ (p_state p = PRCURR \/ p_state p = PRREADY)
}.

(** No core is switching. *)
Definition settled : Z := -1.

Lemma sched_inv_transit t k L : sched_inv settled k L -> sched_inv t k L.
Proof.
  intros []. constructor; try done. intros c Hc.
  destruct (si_cur0 c Hc) as (x & p & ? & ? & ? & ? & Hcur). exists x, p. repeat (split; [done|]).
  intros _. apply Hcur. unfold core, settled in *. lia.
Qed.

Lemma elem_members k c s L x : rq_ok k -> core c ->
  (x ∈ members s <-> exists q, prio q /\ x ∈ setq c s L (RQ c q)).
Proof.
  intros Hr Hc. unfold members. rewrite !elem_of_app. split.
  - intros [Hx|[Hx|Hx]]; [exists PRIORITY_HIGH|exists PRIORITY_MED|exists PRIORITY_LOW];
      (split; [unfold prio; klia|]); rewrite ?setq_high, ?(setq_med k), ?(setq_low k); done.
  - intros (q & Hq & Hx).
    assert (q = PRIORITY_HIGH \/ q = PRIORITY_MED \/ q = PRIORITY_LOW) as [-> | [-> | ->]]
      by (unfold prio in Hq; klia); rewrite ?setq_high, ?(setq_med k), ?(setq_low k) in Hx; auto.
Qed.

Lemma elem_abs k c L x : core c ->
  (x ∈ members (abs k L c) <-> exists q, prio q /\ x ∈ L (RQ c q)).
Proof.
  intros Hc. unfold members, abs. simpl. rewrite !elem_of_app. split.
  - intros [Hx|[Hx|Hx]]; eexists; (split; [|exact Hx]); unfold prio; klia.
  - intros (q & Hq & Hx).
    assert (q = PRIORITY_HIGH \/ q = PRIORITY_MED \/ q = PRIORITY_LOW) as [-> | [-> | ->]]
      by (unfold prio in Hq; klia); auto.
Qed.

(** A list of queue [h] after the lists of core [c] were replaced: one of
    the new lists, or a list as before. *)
Lemma setq_elem k c s L h x : rq_ok k -> core c -> x ∈ setq c s L h ->
  (x ∈ members s /\ exists q, prio q /\ h = RQ c q) \/
  (x ∈ L h /\ forall q, prio q -> h <> RQ c q).
Proof.
  intros Hr Hc. rewrite (setq_case k) by done. unfold members. rewrite !elem_of_app.
  repeat case_decide; intros Hx.
  1-3: left; (split; [tauto|]); eexists; (split; [|done]); unfold prio; klia.
  right. split; [done|]. intros q Hq ->.
  assert (q = PRIORITY_HIGH \/ q = PRIORITY_MED \/ q = PRIORITY_LOW) as [-> | [-> | ->]]
    by (unfold prio in Hq; klia); done.
Qed.

Lemma setq_other_core k c s L c' q : rq_ok k -> core c -> core c' -> prio q -> c' <> c ->
  setq c s L (RQ c' q) = L (RQ c' q).
Proof.
  intros Hr Hc Hc' Hq Hne. apply setq_other; intros E; apply Hne;
    apply (rq_inj k Hr c' q c) in E; unfold prio in *; try done; try klia; tauto.
Qed.

(** A process marked current, free, suspended or receiving is in no queue. *)
Lemma not_queued t k L x p : sched_inv t k L -> nthZ (proctab k) x = Some p ->
  p_state p <> PRREADY -> p_state p <> PRSEND -> unqueued k L x.
Proof.
  intros Hi Hp H1 H2 h Hq Hx. destruct (si_queued _ _ _ Hi h x Hq Hx) as (p' & Hp' & Hs).
  replace p' with p in Hs by congruence. tauto.
Qed.

(** ** [resched] *)

(** The process entry [y] after a switch from [x] to [new] with registers
    [r]; [back] when [x] went back to a ready queue. *)
Definition switched (r : list Z) (x new : Z) (back : bool) (y : Z) (p : pcb) : pcb :=
  let p := set_p_state (if y =? new then PRCURR
                        else if (y =? x) && back then PRREADY else p_state p) p in
  if y =? x then set_p_regs (saved_regs r (p_regs p)) p else p.

Lemma set_p_state_id p : set_p_state (p_state p) p = p.
Proof. by destruct p. Qed.

(** The tail of [resched_out], from the assignment of [currpid]. *)
Lemma switch_run `{Layout} c k x new p r back pt0 :
  core c -> lenZ (currpid k) = NCORES -> lenZ (preempt k) = NCORES ->
  lenZ (proctab k) = lenZ pt0 -> 0 <= new < lenZ pt0 ->
  nthZ pt0 x = Some p -> nthZ (regfile k) c = Some r ->
  (forall y, nthZ (proctab k) y =
     (fun p => set_p_state (if (y =? x) && back then PRREADY else p_state p) p) <$> nthZ pt0 y) ->
  let r' := updZ 0 (regs_addr x) (updZ 1 (regs_addr new) r) in
  exists pt' pn,
    (forall y, nthZ pt' y = switched r' x new back y <$> nthZ pt0 y) /\
    nthZ pt' new = Some pn /\
    (wrv currpid set_currpid c new ;;; upd_proc new (set_p_state PRCURR) ;;;
     wrv preempt set_preempt c QUANTUM ;;; ctxsw c x new) k =
    Ret (tt, set_regfile (updZ c (loaded_regs (p_regs pn) (regs_addr new)) (regfile k))
      (set_proctab pt' (set_preempt (updZ c QUANTUM (preempt k))
        (set_currpid (updZ c new (currpid k)) k)))).
Proof.
  intros Hc Hl1 Hl2 Hl3 Hnew Hx Hr Hpt. cbv zeta. unfold core in Hc.
  rewrite bind_wrv by lia.
  destruct (nthZ_lt_Some (proctab k) new) as [p1 Hp1]; [lia|].
  rewrite (bind_upd_proc new p1) by done. rewrite bind_wrv by (simpl; lia).
  unfold ctxsw. rewrite (bind_Ret _ _ _ r (set_preempt (updZ c QUANTUM (preempt k)) (set_proctab
    (updZ new (set_p_state PRCURR p1) (proctab k)) (set_currpid (updZ c new (currpid k)) k)))).
  2: { simpl. by rewrite Hr. }
  set (pt1 := updZ new (set_p_state PRCURR p1) (proctab k)).
  assert (lenZ pt1 = lenZ pt0) as Hlen by (unfold pt1; rewrite lenZ_updZ; lia).
  pose proof (nthZ_Some_lt _ _ _ Hx) as Hxr.
  destruct (nthZ_lt_Some pt1 x) as [p2 Hp2]; [lia|].
  rewrite (bind_upd_proc x p2) by done.
  set (pt2 := updZ x (set_p_regs (saved_regs (updZ 0 (regs_addr x) (updZ 1 (regs_addr new) r))
    (p_regs p2)) p2) pt1).
  destruct (nthZ_lt_Some pt2 new) as [pn Hpn]; [unfold pt2; rewrite lenZ_updZ; lia|].
  exists pt2, pn. split; [|split; [done|]].
  2: { by rewrite (bind_rd_proc new pn) by done. }
  assert (forall y, nthZ pt1 y = (fun p => set_p_state (if y =? new then PRCURR
      else if (y =? x) && back then PRREADY else p_state p) p) <$> nthZ pt0 y) as Hpt1.
  { intros y. unfold pt1. rewrite nthZ_updZ by lia. case_decide as E.
    - subst y. rewrite Z.eqb_refl. rewrite Hpt in Hp1. destruct (nthZ pt0 new) as [q|]; [|done].
      simpl in *. injection Hp1 as <-. done.
    - rewrite (proj2 (Z.eqb_neq y new)) by congruence. apply Hpt. }
  intros y. unfold pt2. rewrite nthZ_updZ by lia. case_decide as E.
  - subst y. rewrite Hpt1, Hx in Hp2. simpl in Hp2. injection Hp2 as <-. rewrite Hx. simpl.
    unfold switched. by rewrite Z.eqb_refl.
  - rewrite Hpt1. destruct (nthZ pt0 y) as [q|]; [|done]. simpl. unfold switched.
    by rewrite (proj2 (Z.eqb_neq y x)) by congruence.
Qed.

Lemma bind_regroup {A B C D} (m : K A) (f : A -> K B) (g : B -> K C) (rest : C -> K D) k :
  (a <-- m ;; b <-- f a ;; c <-- g b ;; rest c) k =
  (c <-- (a <-- m ;; b <-- f a ;; g b) ;; rest c) k.
Proof.
  unfold bind. destruct (m k) as [[a k1]|]; [|done]. destruct (f a k1) as [[b k2]|]; [|done]. done.
Qed.

Lemma spec_counters x back s new s' :
  spec_resched x back s = Some (new, s') -> a_pm s' = a_pm (age s) /\ a_pl s' = a_pl (age s).
Proof.
  unfold spec_resched, select, requeue. destruct back as [q|];
    [destruct (q =? PRIORITY_HIGH), (q =? PRIORITY_MED)|]; simpl;
    repeat match goal with |- context [match ?l with [] => _ | _ :: _ => _ end] => destruct l end;
    intros; simplify_eq/=; done.
Qed.

(** The state after the switch. *)
Definition after_switch `{Layout} (c im : Z) (new : Z) (pn : pcb) (pt : list pcb) (s : acore)
    (tab : list qentry) (k : kernel) : kernel :=
  set_regfile (updZ c (loaded_regs (p_regs pn) (regs_addr new)) (regfile k))
    (set_proctab pt (set_preempt (updZ c QUANTUM (preempt k))
      (set_currpid (updZ c new (currpid k))
        (aged c s tab (set_cpsr (updZ c (Z.lor im ARM_I_BIT) (cpsr k)) k))))).

Lemma spec_resched_some t k L c x p :
  sched_inv t k L -> core c -> nthZ (currpid k) c = Some x -> nthZ (proctab k) x = Some p ->
  exists new s', spec_resched x (if PRCURR =? p_state p then Some (p_priority p) else None)
    (abs k L c) = Some (new, s').
Proof.
  intros Hi Hc Hcur Hp. unfold spec_resched. destruct (Z.eqb_spec PRCURR (p_state p)) as [E|E].
  - apply (select_nonempty _ x). rewrite members_requeue. left.
  - destruct (si_null _ _ _ Hi c Hc) as (pn & Hpn & Haff & [Hs|Hs]).
    + exfalso. destruct (si_only _ _ _ Hi c pn Hpn Hs) as [_ Hcn]. rewrite Haff in Hcn. congruence.
    + apply (select_nonempty _ c). rewrite members_age, elem_abs by done.
      destruct (si_ready _ _ _ Hi c pn Hpn Hs) as [_ Hq]. by rewrite Haff in Hq.
Qed.

Lemma resched_out_run `{Layout} t c k L x p :
  sched_inv t k L -> core c -> nthZ (currpid k) c = Some x -> nthZ (proctab k) x = Some p ->
  p_state p <> PRREADY ->
  let isback := PRCURR =? p_state p in
  let back := if isback then Some (p_priority p) else None in
  exists im r new s' tab pt' pn,
    nthZ (cpsr k) c = Some im /\ nthZ (regfile k) c = Some r /\
    spec_resched x back (abs k L c) = Some (new, s') /\
    (forall y, nthZ pt' y =
      switched (updZ 0 (regs_addr x) (updZ 1 (regs_addr new) r)) x new isback y <$> nthZ (proctab k) y) /\
    nthZ pt' new = Some pn /\
    resched_out c k = Ret (im, after_switch c im new pn pt' s' tab k) /\
    wf (set_queuetab tab k) (setq c s' L).
Proof.
  intros Hi Hc Hcur Hp Hnr. cbv zeta.
  pose proof Hi as [Hwf Hrq Hl1 Hl2 Hl3 Hl4 [Hl5 Hl6] Hl7 Hqd Hin _ Hpr _ _ _]. unfold core in Hc.
  destruct (nthZ_lt_Some (cpsr k) c) as [im Him]; [lia|].
  destruct (nthZ_lt_Some (regfile k) c) as [r Hr]; [lia|].
  destruct (spec_resched_some t k L c x p Hi Hc Hcur Hp) as (new & s' & Hspec).
  pose proof (nthZ_Some_lt _ _ _ Hp) as Hxr.
  set (k1 := set_cpsr (updZ c (Z.lor im ARM_I_BIT) (cpsr k)) k).
  assert (rq_ok k1) as Hrq1 by (destruct Hrq; by constructor).
  assert (wf k1 L) as Hwf1 by (by apply (fq_frame (wf := wf) k)).
  destruct (age_run c k1 L Hwf1 Hrq1 Hc Hl5 Hl6) as (tab1 & Hrun1 & Hwf2).
  { intros q y Hq Hy. destruct (Hin c q y Hc Hq Hy) as (py & Hpy & Hs & _).
    pose proof (nthZ_Some_lt _ _ _ Hpy). split; [lia|]. exists py. split; [done|]. klia. }
  change (abs k1 L c) with (abs k L c) in *. set (s1 := age (abs k L c)) in *.
  set (k2 := aged c s1 tab1 k1).
  assert (rq_ok k2) as Hrq2 by (destruct Hrq; by constructor).
  assert (wf k2 (setq c s1 L)) as Hwf2' by (by apply (fq_frame (wf := wf) (set_queuetab tab1 k1))).
  destruct (requeue_run c k2 L s1 x p Hwf2' Hrq2 Hc Hcur) as (tab2 & Hrun2 & Hwf3); [lia|done| |].
  { intros Hs. split; [apply (Hpr x p Hp); klia|]. intros h Hq Hxh.
    apply (setq_elem k) in Hxh as [[Hxm _]|[Hxh _]]; [|..|done|done].
    - unfold s1 in Hxm. rewrite members_age, elem_abs in Hxm by done. destruct Hxm as (q & Hq' & Hxq).
      destruct (Hin c q x Hc Hq' Hxq) as (p' & Hp' & Hs' & _). congruence.
    - destruct (Hqd h x Hq Hxh) as (p' & Hp' & Hs'). replace p' with p in Hs' by congruence. klia. }
  set (s2 := match _ with Some q => requeue q x s1 | None => s1 end) in Hwf3.
  set (pt2 := match _ with Some _ => _ | None => proctab k2 end) in Hrun2.
  set (k3 := set_queuetab tab2 (set_proctab pt2 k2)) in Hrun2.
  assert (rq_ok k3) as Hrq3 by (destruct Hrq; by constructor).
  assert (wf k3 (setq c s2 L)) as Hwf3' by (by apply (fq_frame (wf := wf) (set_queuetab tab2 k2))).
  assert (select s2 = Some (new, s')) as Hsel by (unfold s2; by destruct (PRCURR =? p_state p)).
  destruct (select_run c k3 L s2 new s' Hwf3' Hrq3 Hc Hsel) as (tab3 & Hrun3 & Hwf4).
  assert (0 <= new < lenZ (proctab k)) as Hnew.
  { rewrite Hl1. assert (new ∈ members s2) as Hnm by (rewrite (members_select _ _ _ Hsel); left).
    apply (elem_members k3 c s2 L new Hrq3 Hc) in Hnm as (q & Hq & Hnm).
    eapply (fq_range (wf := wf) k3); [exact Hwf3'|by apply (rq_head k3 Hrq3)|done]. }
  destruct (switch_run c (set_queuetab tab3 k3) x new p r (PRCURR =? p_state p) (proctab k))
    as (pt' & pn & Hpt' & Hpn & Hrun4); try done.
  { simpl. unfold pt2. destruct (PRCURR =? p_state p); [apply lenZ_updZ|done]. }
  { intros y. simpl. unfold pt2. destruct (Z.eqb_spec PRCURR (p_state p)) as [E|E]; simpl.
    - rewrite nthZ_updZ by (simpl; lia). case_decide as Ey.
      + subst y. rewrite Z.eqb_refl, Hp. done.
      + rewrite (proj2 (Z.eqb_neq y x)) by congruence. simpl.
        destruct (nthZ (proctab k) y); simpl; [by rewrite set_p_state_id|done].
    - rewrite andb_false_r. destruct (nthZ (proctab k) y); simpl; [by rewrite set_p_state_id|done]. }
  exists im, r, new, s', tab3, pt', pn. repeat (split; [done|]). split.
  - unfold resched_out. rewrite (bind_rd_currpid _ _ _ _ Hcur), (bind_disable _ _ _ _ Him).
    fold k1. rewrite (bind_Ret _ _ _ _ _ Hrun1). fold k2. rewrite (bind_Ret _ _ _ _ _ Hrun2). fold k3.
    rewrite bind_regroup, (bind_Ret _ _ _ _ _ Hrun3).
    rewrite <- !bind_assoc. unfold bind at 1. 
    destruct (spec_counters _ _ _ _ _ Hspec) as [Epm Epl].
    rewrite !bind_assoc. rewrite Hrun4. unfold ret. do 2 f_equal.
    unfold after_switch, aged. by rewrite Epm, Epl.
  - eapply (fq_frame (wf := wf) (set_queuetab tab3 k3)); [done..|exact Hwf4].
Qed.

Lemma switched_fields r x new back y p :
  p_core_affinity (switched r x new back y p) = p_core_affinity p /\
  p_priority (switched r x new back y p) = p_priority p /\
  p_state (switched r x new back y p) =
    if y =? new then PRCURR else if (y =? x) && back then PRREADY else p_state p.
Proof. unfold switched. by destruct (y =? x). Qed.

(** The lists after a decision hold the old ready processes and, when it
    stays eligible, the old current one, except the chosen process. *)
Lemma spec_members x back s new s' :
  spec_resched x back s = Some (new, s') ->
  new :: members s' ≡ₚ match back with Some _ => x :: members s | None => members s end.
Proof.
  intros H. unfold spec_resched in H. apply members_select in H. rewrite <- H.
  destruct back; [by rewrite members_requeue, members_age|apply members_age].
Qed.

Lemma abs_nodup t k L c : sched_inv t k L -> core c -> NoDup (members (abs k L c)).
Proof.
  intros Hi Hc. unfold members, abs. simpl.
  pose proof (si_rq _ _ _ Hi) as Hrq. pose proof (si_wf _ _ _ Hi) as Hwf.
  assert (forall q, prio q -> NoDup (L (RQ c q))) as Hn.
  { intros q Hq. eapply (fq_nodup (wf := wf) k); [done|by apply (rq_head k Hrq)]. }
  assert (forall q q' y, prio q -> prio q' -> q <> q' -> y ∈ L (RQ c q) -> y ∉ L (RQ c q')) as Hd.
  { intros q q' y Hq Hq' Hne Hy Hy'. apply (rq_ne k c q q' Hrq Hc Hq Hq' Hne).
    eapply (fq_disj (wf := wf) k); [done|by apply (rq_head k Hrq)..|done|done]. }
  apply NoDup_app. split; [apply Hn; unfold prio; klia|]. split.
  - intros y Hy [Hy'|Hy']%elem_of_app; revert Hy'; eapply Hd; try exact Hy; unfold prio; klia.
  - apply NoDup_app. split; [apply Hn; unfold prio; klia|]. split; [|apply Hn; unfold prio; klia].
    intros y Hy Hy'. revert Hy'. eapply Hd; try exact Hy; unfold prio; klia.
Qed.

(** The processes after a decision, against the entries before it. *)
Section Decision.
Context `{Layout} (t c : Z) (k : kernel) (L : Z -> list Z) (x : Z) (p : pcb) (new : Z) (s' : acore).
Context (Hi : sched_inv t k L) (Hc : core c) (Ht : t = c \/ t = settled).
Context (Hcur : nthZ (currpid k) c = Some x) (Hp : nthZ (proctab k) x = Some p).
Context (Hnr : p_state p <> PRREADY).
Let isback := PRCURR =? p_state p.
Context (Hspec : spec_resched x (if isback then Some (p_priority p) else None) (abs k L c) = Some (new, s')).

Lemma isback_iff : isback = true <-> p_state p = PRCURR.
Proof. unfold isback. rewrite Z.eqb_eq. split; congruence. Qed.

Lemma cur_affinity : p_core_affinity p = c.
Proof. destruct (si_cur _ _ _ Hi c Hc) as (x' & p' & ? & ? & ? & _). congruence. Qed.

(** A process that takes part in the decision. *)
Definition eligible (y : Z) (p0 : pcb) : Prop :=
  nthZ (proctab k) y = Some p0 /\ p_core_affinity p0 = c /\
  ((y = x /\ isback = true) \/ p_state p0 = PRREADY).

Lemma eligible_iff y : y ∈ new :: members s' <-> exists p0, eligible y p0.
Proof.
  rewrite (spec_members _ _ _ _ _ Hspec). unfold eligible. split.
  - intros Hy. assert ((y = x /\ isback = true) \/ y ∈ members (abs k L c)) as [[-> Hb]|Hy2].
    { destruct isback; [apply elem_of_cons in Hy as [->|?]; auto|auto]. }
    + exists p. split; [done|]. split; [apply cur_affinity|by left].
    + apply elem_abs in Hy2 as (q & Hq & Hyq); [|done].
      destruct (si_in _ _ _ Hi c q y Hc Hq Hyq) as (p0 & ? & ? & ?). exists p0. auto.
  - intros (p0 & H0 & Ha & Hcase). destruct Hcase as [[-> Hb]|Hs]; [rewrite Hb; left|].
    assert (y ∈ members (abs k L c)) as Hy.
    { rewrite elem_abs by done. rewrite <- Ha. by apply (si_ready _ _ _ Hi y p0). }
    destruct isback; [by right|done].
Qed.

Lemma decision_nodup : new ∉ members s'.
Proof.
  assert (NoDup (new :: members s')) as Hnd; [|by apply NoDup_cons in Hnd as [? _]].
  rewrite (spec_members _ _ _ _ _ Hspec). pose proof (abs_nodup _ _ _ _ Hi Hc) as Hnd0.
  destruct isback eqn:Eb; [|done]. apply NoDup_cons. split; [|done].
  rewrite elem_abs by done. intros (q & Hq & Hx).
  destruct (si_in _ _ _ Hi c q x Hc Hq Hx) as (p' & Hp' & Hs & _). congruence.
Qed.

Lemma chosen : exists pn, eligible new pn.
Proof. apply eligible_iff. left. Qed.

Lemma waiting y : y ∈ members s' <-> y <> new /\ exists p0, eligible y p0.
Proof.
  rewrite <- eligible_iff. split.
  - intros Hy. split; [|by right]. intros ->. by apply decision_nodup.
  - intros [Hne [?|?]%elem_of_cons]; done.
Qed.

(** The state of a process after the decision, and what it says. *)
Definition state_after (y : Z) (p0 : pcb) : Z :=
  if y =? new then PRCURR else if (y =? x) && isback then PRREADY else p_state p0.

Lemma state_after_case y p0 : nthZ (proctab k) y = Some p0 ->
  (y = new /\ state_after y p0 = PRCURR /\ p_core_affinity p0 = c) \/
  (y ∈ members s' /\ state_after y p0 = PRREADY /\ p_core_affinity p0 = c) \/
  (y <> new /\ y ∉ members s' /\ state_after y p0 = p_state p0 /\
    (p_core_affinity p0 = c -> p_state p0 <> PRREADY /\ p_state p0 <> PRCURR)).
Proof.
  intros H0. unfold state_after. destruct (Z.eqb_spec y new) as [->|Hne].
  - left. split; [done|]. split; [done|]. destruct chosen as (pn & Hpn & Ha & _). congruence.
  - right. destruct (decide (y ∈ members s')) as [Hy|Hy].
    + left. split; [done|]. apply waiting in Hy as [_ (p1 & H1 & Ha & Hcase)].
      replace p1 with p0 in * by congruence. split; [|done].
      destruct Hcase as [[-> ->]|Hs]; [by rewrite Z.eqb_refl|].
      by destruct ((y =? x) && isback).
    + right. split; [done|]. split; [done|].
      assert (p_core_affinity p0 = c -> ~ ((y = x /\ isback = true) \/ p_state p0 = PRREADY)) as Hno.
      { intros Ha Hcase. apply Hy, waiting. split; [done|]. exists p0. done. }
      destruct (Z.eqb_spec y x) as [->|Hyx]; simpl.
      * replace p0 with p in * by congruence. pose proof (Hno cur_affinity) as Hn.
        destruct isback eqn:Eb; [tauto|]. split; [done|]. intros _. split; [done|].
        intros Hs. apply isback_iff in Hs. congruence.
      * split; [done|]. intros Ha. split; [intros Hs; apply (Hno Ha); by right|].
        intros Hs. destruct (si_only _ _ _ Hi y p0 H0 Hs) as [_ Hcy]. rewrite Ha in Hcy. congruence.
Qed.

Context (r : list Z) (im : Z) (pn : pcb) (pt' : list pcb) (tab : list qentry).
Context (Hpt : forall y, nthZ pt' y = switched r x new isback y <$> nthZ (proctab k) y).
Context (Hwf' : wf (set_queuetab tab k) (setq c s' L)).
Let k' := after_switch c im new pn pt' s' tab k.

Lemma after_lookup y q : nthZ (proctab k') y = Some q -> exists p0, nthZ (proctab k) y = Some p0 /\
  p_core_affinity q = p_core_affinity p0 /\ p_priority q = p_priority p0 /\ p_state q = state_after y p0.
Proof.
  simpl. rewrite Hpt. destruct (nthZ (proctab k) y) as [p0|]; [|done]. simpl. intros [= <-].
  exists p0. destruct (switched_fields r x new isback y p0) as (-> & -> & ->). done.
Qed.

Lemma after_exists y p0 : nthZ (proctab k) y = Some p0 -> exists q, nthZ (proctab k') y = Some q /\
  p_core_affinity q = p_core_affinity p0 /\ p_state q = state_after y p0.
Proof.
  intros H0. simpl. rewrite Hpt, H0. simpl. eexists. split; [done|].
  destruct (switched_fields r x new isback y p0) as (-> & _ & ->). done.
Qed.

Lemma after_rq : rq_ok k'.
Proof. destruct (si_rq _ _ _ Hi). by constructor. Qed.

Lemma after_queued h y : is_qhead k h -> y ∈ setq c s' L h ->
  exists q, nthZ (proctab k') y = Some q /\ (p_state q = PRREADY \/ p_state q = PRSEND).
Proof.
  intros Hh Hy. apply (setq_elem k) in Hy as [[Hy _]|[Hy Hnq]]; [..|apply Hi|done].
  - pose proof Hy as [_ (p0 & H0 & _)]%waiting. destruct (after_exists y p0 H0) as (q & Hq & _ & Hs).
    exists q. split; [done|]. left. rewrite Hs.
    destruct (state_after_case y p0 H0) as [(-> & _)|[(_ & ? & _)|(_ & ? & _)]]; [|done|done].
    exfalso. by apply decision_nodup.
  - destruct (si_queued _ _ _ Hi h y Hh Hy) as (p0 & H0 & Hst).
    destruct (after_exists y p0 H0) as (q & Hq & _ & Hs). exists q. split; [done|]. rewrite Hs.
    assert (forall c', p_core_affinity p0 = c' -> p_state p0 = PRREADY -> core c' -> c' = c -> False) as Hno.
    { intros c' Ha Hr Hc' ->. destruct (si_ready _ _ _ Hi y p0 H0 Hr) as [_ (q' & Hq' & Hyq)].
      rewrite Ha in Hyq. apply (Hnq q' Hq').
      eapply (fq_disj (wf := wf) k); [apply Hi|done|by apply (rq_head k (si_rq _ _ _ Hi))|done|done]. }
    destruct (state_after_case y p0 H0) as [(-> & _ & Ha)|[(Hm & _ & Ha)|(_ & _ & -> & _)]]; [|..|done].
    + exfalso. destruct chosen as (p1 & H1 & _ & [[-> Hb]|Hr]); replace p1 with p0 in * by congruence.
      * apply isback_iff in Hb. replace p with p0 in Hb by congruence. klia.
      * by eapply Hno.
    + exfalso. apply waiting in Hm as [_ (p1 & H1 & _ & [[-> Hb]|Hr])]; replace p1 with p0 in * by congruence.
      * apply isback_iff in Hb. replace p with p0 in Hb by congruence. klia.
      * by eapply Hno.
Qed.

Lemma after_ready y q : nthZ (proctab k') y = Some q -> p_state q = PRREADY ->
  core (p_core_affinity q) /\ exists pr, prio pr /\ y ∈ setq c s' L (RQ (p_core_affinity q) pr).
Proof.
  intros (p0 & H0 & Ea & _ & Es)%after_lookup Hs. rewrite Ea. rewrite Es in Hs.
  destruct (state_after_case y p0 H0) as [(_ & E & _)|[(Hm & _ & Ha)|(_ & _ & E & Hno)]].
  - rewrite E in Hs. klia.
  - rewrite Ha. split; [done|]. by apply (elem_members k c s' L y (si_rq _ _ _ Hi) Hc).
  - rewrite E in Hs. destruct (si_ready _ _ _ Hi y p0 H0 Hs) as [Hca (pr & Hpr & Hy)].
    split; [done|]. exists pr. split; [done|].
    rewrite (setq_other_core k); try done; [apply Hi|]. intros Ha. by destruct (Hno Ha).
Qed.

Lemma after_cur c' : core c' -> exists y q, nthZ (currpid k') c' = Some y /\
  nthZ (proctab k') y = Some q /\ p_core_affinity q = c' /\ p_state q <> PRREADY /\
  (c' <> settled -> p_state q = PRCURR).
Proof.
  intros Hc'. assert (lenZ (currpid k) = NCORES) as Hl by apply Hi. destruct (decide (c' = c)) as [->|Hne].
  - destruct chosen as (p0 & H0 & Ha & _). destruct (after_exists new p0 H0) as (q & Hq & Ea & Es).
    exists new, q. unfold state_after in Es. rewrite Z.eqb_refl in Es.
    split; [simpl; apply nthZ_updZ_eq; unfold core in Hc; lia|]. split; [done|]. split; [congruence|].
    split; [klia|done].
  - destruct (si_cur _ _ _ Hi c' Hc') as (y & p0 & Hy & H0 & Ha & _ & Hst).
    destruct (after_exists y p0 H0) as (q & Hq & Ea & Es). exists y, q.
    assert (p_state p0 = PRCURR) as Hs by (apply Hst; destruct Ht; unfold settled, core in *; lia).
    assert (state_after y p0 = PRCURR) as E.
    { destruct (state_after_case y p0 H0) as [(_ & ? & _)|[(_ & _ & ?)|(_ & _ & ? & _)]]; congruence. }
    split; [simpl; by rewrite nthZ_updZ_ne by congruence|]. split; [done|]. split; [congruence|].
    rewrite Es, E. split; [klia|done].
Qed.

Lemma after_only y q : nthZ (proctab k') y = Some q -> p_state q = PRCURR ->
  core (p_core_affinity q) /\ nthZ (currpid k') (p_core_affinity q) = Some y.
Proof.
  intros (p0 & H0 & Ea & _ & Es)%after_lookup Hs. rewrite Ea. rewrite Es in Hs.
  assert (lenZ (currpid k) = NCORES) as Hl by apply Hi.
  destruct (state_after_case y p0 H0) as [(-> & _ & Ha)|[(_ & E & _)|(_ & _ & E & Hno)]].
  - rewrite Ha. split; [done|]. simpl. apply nthZ_updZ_eq. unfold core in Hc. lia.
  - rewrite E in Hs. klia.
  - rewrite E in Hs. destruct (si_only _ _ _ Hi y p0 H0 Hs) as [Hca Hcy]. split; [done|]. simpl.
    rewrite nthZ_updZ_ne; [done|]. intros Ha. symmetry in Ha. destruct (Hno Ha). done.
Qed.

Lemma after_prio y q : nthZ (proctab k') y = Some q -> p_state q <> PRFREE -> prio (p_priority q).
Proof.
  intros (p0 & H0 & _ & Ep & Es)%after_lookup Hs. rewrite Ep. rewrite Es in Hs.
  apply (si_prio _ _ _ Hi y p0 H0).
  destruct (state_after_case y p0 H0) as [(-> & _)|[(Hm & _)|(_ & _ & E & _)]]; [..|congruence].
  - destruct chosen as (p1 & H1 & _ & [[-> Hb%isback_iff]|Hr]); replace p1 with p0 in * by congruence;
      [replace p with p0 in Hb by congruence|]; klia.
  - apply waiting in Hm as [_ (p1 & H1 & _ & [[-> Hb%isback_iff]|Hr])]; replace p1 with p0 in * by congruence;
      [replace p with p0 in Hb by congruence|]; klia.
Qed.

Lemma resched_inv : sched_inv settled k' (setq c s' L).
Proof.
  pose proof after_rq as Hrq. destruct (si_aging _ _ _ Hi) as [Ha1 Ha2]. constructor.
  - by apply (fq_frame (wf := wf) (set_queuetab tab k)).
  - done.
  - simpl. rewrite (lenZ_fmap_ext _ _ _ Hpt). apply Hi.
  - simpl. rewrite lenZ_updZ. apply Hi.
  - simpl. rewrite lenZ_updZ. apply Hi.
  - simpl. rewrite lenZ_updZ. apply Hi.
  - simpl. by rewrite !lenZ_updZ.
  - simpl. rewrite lenZ_updZ. apply Hi.
  - intros h y Hh. by apply after_queued.
  - intros c' pr y Hc' Hpr Hy. destruct (decide (c' = c)) as [->|Hne].
    + assert (y ∈ members s') as Hm by (apply (elem_members k c s' L y (si_rq _ _ _ Hi) Hc); eauto).
      pose proof Hm as [_ (p0 & H0 & Ha & _)]%waiting.
      destruct (after_exists y p0 H0) as (q & Hq & Ea & Es). exists q. split; [done|].
      split; [|congruence]. rewrite Es.
      destruct (state_after_case y p0 H0) as [(-> & _)|[(_ & ? & _)|(_ & ? & _)]]; [|done|done].
      exfalso. by apply decision_nodup.
    + rewrite (setq_other_core k) in Hy by (done || apply Hi).
      destruct (si_in _ _ _ Hi c' pr y Hc' Hpr Hy) as (p0 & H0 & Hs & Ha).
      destruct (after_exists y p0 H0) as (q & Hq & Ea & Es). exists q. split; [done|].
      split; [|congruence]. rewrite Es.
      destruct (state_after_case y p0 H0) as [(_ & _ & ?)|[(_ & _ & ?)|(_ & _ & -> & _)]]; congruence.
  - apply after_ready.
  - apply after_prio.
  - apply after_cur.
  - apply after_only.
  - intros c' Hc'. destruct (si_null _ _ _ Hi c' Hc') as (p0 & H0 & Ha & Hs).
    destruct (after_exists c' p0 H0) as (q & Hq & Ea & Es). exists q. split; [done|]. split; [congruence|].
    rewrite Es. destruct (state_after_case c' p0 H0) as [(_ & -> & _)|[(_ & -> & _)|(_ & _ & -> & _)]]; tauto.
Qed.
End Decision.
End Sched.

(** ** Claims on the scheduler *)

(** What [restore(im)] leaves in the status word of core [c]. *)
Definition restored (c im : Z) (k : kernel) : kernel :=
  set_cpsr (updZ c (Z.lor (Z.ldiff (default 0 (nthZ (cpsr k) c)) 0xFF) (Z.land im 0xFF)) (cpsr k)) k.

Lemma restore_run c im k : 0 <= c < lenZ (cpsr k) -> (restore c im ;;; ret OK) k = Ret (OK, restored c im k).
Proof. intros [v Hv]%nthZ_lt_Some. unfold restored. by rewrite (bind_restore _ _ _ _ _ Hv), Hv. Qed.

Lemma abs_after `{Layout} RQ k L c c' im new pn pt s tab :
  rq_ok RQ k -> core c -> core c' -> lenZ (promote_medium k) = NCORES -> lenZ (promote_low k) = NCORES ->
  abs RQ (after_switch c im new pn pt s tab k) (setq RQ c s L) c' =
  if decide (c' = c) then s else abs RQ k L c'.
Proof.
  intros Hr Hc Hc' H1 H2. unfold abs. case_decide as E.
  - subst c'. simpl. rewrite !nthZ_updZ_eq by (unfold core in Hc; lia). simpl.
    rewrite setq_high, (setq_med RQ k), (setq_low RQ k) by done. by destruct s.
  - simpl. rewrite !nthZ_updZ_ne by congruence.
    rewrite !(setq_other_core RQ k) by (done || unfold prio; klia). done.
Qed.

Section Refines.
Context (wf : kernel -> (Z -> list Z) -> Prop) `{!FifoQueues wf} (RQ : Z -> Z -> Z).
Local Abbreviation kinv := (sched_inv wf RQ).

(** C6: [resched] on a core implements the abstract scheduler.  It ages the
    lists, puts the current process back at the end of the list of its
    priority when it is still eligible, takes the first process of the
    highest non-empty list (there always is one, the null process at least),
    makes it current with a full quantum, saves the registers of the old
    process and loads those of the new one, and leaves the other cores'
    lists and the invariant of the scheduler as they were.  Interrupts stay
    off across the switch, and the old process, when it runs again, restores
    the mask it had and returns [OK]. *)
Theorem resched_refines `{Layout} t c k L :
  kinv t k L -> core c -> t = c \/ t = settled ->
  exists x p im r new s' k' L' rest,
    nthZ (currpid k) c = Some x /\ nthZ (proctab k) x = Some p /\ nthZ (cpsr k) c = Some im /\
    nthZ (regfile k) c = Some r /\
    spec_resched x (if PRCURR =? p_state p then Some (p_priority p) else None) (abs RQ k L c) = Some (new, s') /\
    start (resched c) k = Ret (inr rest, k') /\
    kinv settled k' L' /\
    (forall c', core c' -> abs RQ k' L' c' = if decide (c' = c) then s' else abs RQ k L c') /\
    nthZ (currpid k') c = Some new /\ nthZ (preempt k') c = Some QUANTUM /\
    nthZ (cpsr k') c = Some (Z.lor im ARM_I_BIT) /\
    (exists q, nthZ (proctab k') x = Some q /\
       p_regs q = saved_regs (updZ 0 (regs_addr x) (updZ 1 (regs_addr new) r)) (p_regs p)) /\
    (exists q, nthZ (proctab k') new = Some q /\
       nthZ (regfile k') c = Some (loaded_regs (p_regs q) (regs_addr new))) /\
    (forall k2, lenZ (cpsr k2) = NCORES -> start rest k2 = Ret (inl OK, restored c im k2)).
Proof.
  intros Hi Hc Ht. pose proof Hc as Hc'. unfold core in Hc'.
  destruct (si_cur _ _ _ _ _ Hi c Hc) as (x & p & Hx & Hp & _ & Hnr & _).
  destruct (resched_out_run wf RQ t c k L x p Hi Hc Hx Hp Hnr)
    as (im & r & new & s' & tab & pt' & pn & Him & Hr & Hspec & Hpt & Hpn & Hrun & Hwf).
  pose proof (resched_inv wf RQ t c k L x p new s' Hi Hc Ht Hx Hp Hnr Hspec
    (updZ 0 (regs_addr x) (updZ 1 (regs_addr new) r)) im pn pt' tab Hpt Hwf) as Hinv.
  exists x, p, im, r, new, s', (after_switch c im new pn pt' s' tab k), (setq RQ c s' L). eexists.
  repeat (split; [done|]). split; [|split; [done|]].
  { unfold resched. erewrite start_lift_Ret by exact Hrun. done. }
  pose proof (si_aging _ _ _ _ _ Hi) as [Ha1 Ha2].
  split; [intros c2 Hc2; apply abs_after; try done; apply Hi|].
  assert (forall A (l : list A) v, lenZ l = NCORES -> nthZ (updZ c v l) c = Some v) as Hupd.
  { intros A l v Hl. apply nthZ_updZ_eq. lia. }
  simpl. rewrite !Hupd by apply Hi. repeat (split; [done|]). split; [|split].
  - rewrite Hpt, Hp. simpl. eexists. split; [done|]. unfold switched. by rewrite Z.eqb_refl.
  - exists pn. done.
  - intros k2 Hk2. simpl. by rewrite restore_run by lia.
Qed.

End Refines.

(** *** Freedom from starvation *)

Definition counters_ok (s : acore) : Prop := 1 <= a_pm s <= QUANTUM /\ 1 <= a_pl s <= QUANTUM.

(** How far [y] is from running: its list, and a bound on the calls of
    [resched] until it leaves that list. *)
Definition waits (y : Z) (s : acore) (level : nat) (d : Z) : Prop :=
  exists i : nat, match level with
    | O => a_high s !! i = Some y /\ d = Z.of_nat i
    | S O => a_med s !! i = Some y /\ d = 3 * Z.of_nat i + a_pm s
    | _ => a_low s !! i = Some y /\ d = 9 * Z.of_nat i + 3 * (a_pl s - 1) + a_pm s
    end.

Definition progress (y : Z) (s : acore) (level : nat) (d : Z) : Prop :=
  exists level' d', waits y s level' d' /\ ((level' < level)%nat \/ level' = level /\ d' < d).

Lemma counters_age s : counters_ok s -> counters_ok (age s) /\
  ((1 < a_pm s /\ age s = with_counters (a_pm s - 1) (a_pl s) s) \/
   (a_pm s = 1 /\ 1 < a_pl s /\ age s = with_counters QUANTUM (a_pl s - 1) (promote_med s)) \/
   (a_pm s = 1 /\ a_pl s = 1 /\ age s = with_counters QUANTUM QUANTUM (promote_lo (promote_med s)))).
Proof.
  intros [Hpm Hpl]. unfold age, counters_ok. kconst.
  rewrite !wrap_small by (change (2 ^ 32) with 4294967296; lia).
  destruct (Z.leb_spec (a_pm s - 1) 0), (Z.leb_spec (a_pl s - 1) 0); simpl; (split; [lia|]).
  - right. right. repeat split; lia.
  - right. left. repeat split; lia.
  - left. split; [lia|done].
  - left. split; [lia|done].
Qed.

(** The lists when the turn of the medium list has come. *)
Lemma age_lists s : counters_ok s -> a_pm s = 1 ->
  a_high (age s) = a_high s ++ take 1 (a_med s) /\ a_pm (age s) = 3 /\
  exists l, a_med (age s) = drop 1 (a_med s) ++ l /\
    ((1 < a_pl s /\ l = [] /\ a_low (age s) = a_low s /\ a_pl (age s) = a_pl s - 1) \/
     (a_pl s = 1 /\ l = take 1 (a_low s) /\ a_low (age s) = drop 1 (a_low s) /\ a_pl (age s) = 3)).
Proof.
  intros Hc Hpm. destruct s as [h m l pm pl]. simpl in *.
  destruct (counters_age _ Hc) as [_ [[? _]|[(_ & Hpl & ->)|(_ & Hpl & ->)]]]; simpl in *; [lia|..];
    unfold promote_lo, promote_med; destruct m as [|x m], l as [|z l]; simpl;
    rewrite ?app_nil_r; (split; [done|]); (split; [done|]); eexists;
    (split; [symmetry; first [apply app_nil_r | apply app_nil_l | done]|]); auto 6.
Qed.

(** Aging brings [y] closer, unless it is in the high list already. *)
Lemma age_waits y s level d : counters_ok s -> waits y s level d ->
  (level = 0%nat /\ waits y (age s) level d) \/ progress y (age s) level d.
Proof.
  intros Hc [i Hi]. destruct (counters_age s Hc) as [_ Hage]. unfold progress, waits.
  destruct (Z.eq_dec (a_pm s) 1) as [Hpm|Hpm].
  - destruct (age_lists s Hc Hpm) as (Eh & Ep & l & Em & Hl).
    destruct level as [|[|level]]; destruct Hi as [Hi ->].
    + left. split; [done|]. exists i. rewrite Eh. split; [by apply lookup_app_l_Some|done].
    + right. destruct i as [|i].
      * exists 0%nat. eexists. split; [|left; lia]. exists (length (a_high s)). split; [|done].
        rewrite Eh, lookup_app_r, Nat.sub_diag by done. by destruct (a_med s).
      * exists 1%nat. eexists. split; [exists i; rewrite Em, Ep; split; [|done]|right; lia].
        apply lookup_app_l_Some. by rewrite lookup_drop.
    + right. destruct Hl as [(Hpl & -> & El & Epl)|(Hpl & -> & El & Epl)].
      * exists (S (S level)). eexists. split; [exists i; rewrite El, Ep, Epl; done|right; lia].
      * destruct i as [|i].
        -- exists 1%nat. eexists. split; [|left; lia]. exists (length (drop 1 (a_med s))). rewrite Em.
           split; [|done]. rewrite lookup_app_r, Nat.sub_diag by done. by destruct (a_low s).
        -- exists (S (S level)). eexists. split; [exists i; rewrite El, Ep, Epl, lookup_drop; done|right; lia].
  - destruct Hage as [[_ ->]|[(? & _)|(? & _)]]; [|lia|lia].
    destruct level as [|[|level]]; destruct Hi as [Hi ->]; [left; split; [done|by exists i]|right..].
    + exists 1%nat. eexists. split; [exists i; split; [exact Hi|done]|]. simpl. right. lia.
    + exists (S (S level)). eexists. split; [exists i; split; [exact Hi|done]|]. simpl. right. lia.
Qed.

Lemma requeue_waits y q z s level d : waits y s level d -> waits y (requeue q z s) level d.
Proof.
  intros [i Hi]. exists i. destruct s as [h m l pm pl]. unfold requeue.
  destruct (q =? PRIORITY_HIGH), (q =? PRIORITY_MED), level as [|[|level]]; simpl in *;
    destruct Hi as [Hi ->]; (split; [|done]); first [done | by apply lookup_app_l_Some].
Qed.

Lemma requeue_counters q z s : counters_ok s -> counters_ok (requeue q z s).
Proof. unfold requeue, counters_ok. by destruct (q =? PRIORITY_HIGH), (q =? PRIORITY_MED). Qed.

(** Taking a process off the front brings the others of that list closer. *)
Lemma select_waits y s level d new s' :
  select s = Some (new, s') -> waits y s level d ->
  new = y \/ (waits y s' level d /\ level <> 0%nat) \/ progress y s' level d.
Proof.
  intros Hsel [i Hi]. destruct s as [h m l pm pl]. unfold select in Hsel. simpl in *.
  unfold waits, progress. destruct level as [|[|level]]; destruct Hi as [Hi ->].
  - destruct h as [|x h]; [done|]. simplify_eq/=. destruct i as [|i]; simplify_eq/=; [by left|].
    right. right. exists 0%nat. eexists. split; [by exists i|]. right. lia.
  - destruct h as [|x h]; [|simplify_eq/=; right; left; split; [by exists i|done]].
    destruct m as [|x m]; [done|]. simplify_eq/=. destruct i as [|i]; simplify_eq/=; [by left|].
    right. right. exists 1%nat. eexists. split; [by exists i|]. simpl. right. lia.
  - destruct h as [|x h]; [|simplify_eq/=; right; left; split; [by exists i|done]].
    destruct m as [|x m]; [|simplify_eq/=; right; left; split; [by exists i|done]].
    destruct l as [|x l]; [done|]. simplify_eq/=. destruct i as [|i]; simplify_eq/=; [by left|].
    right. right. exists (S (S level)). eexists. split; [by exists i|]. simpl. right. lia.
Qed.

Lemma progress_le y s level d level' d' :
  waits y s level' d' -> ((level' < level)%nat \/ level' = level /\ d' < d) -> progress y s level d.
Proof. intros. by exists level', d'. Qed.

Lemma spec_resched_counters cur back s new s' : counters_ok s -> spec_resched cur back s = Some (new, s') ->
  counters_ok s'.
Proof.
  intros Hc Hspec. destruct (spec_counters _ _ _ _ _ Hspec) as [E1 E2].
  pose proof (proj1 (counters_age s Hc)) as [? ?]. unfold counters_ok. by rewrite E1, E2.
Qed.

(** Every call of [resched] runs [y] or brings it closer. *)
Lemma resched_progress cur back s new s' y level d :
  counters_ok s -> spec_resched cur back s = Some (new, s') -> waits y s level d ->
  counters_ok s' /\ (new = y \/ progress y s' level d).
Proof.
  intros Hc Hspec Hw. split; [by eapply spec_resched_counters|].
  - unfold spec_resched in Hspec.
    set (s1 := match back with Some prio => _ | None => _ end) in Hspec.
    assert ((level = 0%nat /\ waits y s1 level d) \/ progress y s1 level d) as [[-> Hw1]|Hp1].
    { destruct (age_waits y s level d Hc Hw) as [[-> Hw1]|(l' & d' & Hw1 & Hlt)]; unfold s1.
      - left. split; [done|]. destruct back; [by apply requeue_waits|done].
      - right. exists l', d'. split; [|done]. destruct back; [by apply requeue_waits|done]. }
    + destruct (select_waits _ _ _ _ _ _ Hspec Hw1) as [?|[[_ ?]|?]]; [by left|done|by right].
    + destruct Hp1 as (l' & d' & Hw1 & Hlt).
      destruct (select_waits _ _ _ _ _ _ Hspec Hw1) as [?|[[Hw2 _]|(l2 & d2 & Hw2 & Hlt2)]];
        [by left|right; by eapply progress_le|right; eapply progress_le; [done|lia]].
Qed.

(** [y] waits in [s'] in the list it waits in in [s], no further back. *)
Definition closer (y : Z) (s s' : acore) : Prop :=
  a_pm s' = a_pm s /\ a_pl s' = a_pl s /\
  forall level d, waits y s level d -> exists d', d' <= d /\ waits y s' level d'.

#[export] Instance closer_preorder y : PreOrder (closer y).
Proof.
  split; [intros s; split; [done|split; [done|]]; intros level d Hw; by exists d|].
  intros s1 s2 s3 (A1 & A2 & A3) (B1 & B2 & B3). split; [congruence|split; [congruence|]].
  intros level d Hw. destruct (A3 level d Hw) as (d1 & H1 & Hw1). destruct (B3 level d1 Hw1) as (d2 & H2 & Hw2).
  exists d2. split; [lia|done].
Qed.

Lemma closer_counters y s s' : closer y s s' -> counters_ok s -> counters_ok s'.
Proof. intros (E1 & E2 & _). unfold counters_ok. by rewrite E1, E2. Qed.

Lemma waits_nonneg y s level d : counters_ok s -> waits y s level d -> 0 <= d.
Proof. intros [? ?] [i Hi]. destruct level as [|[|level]]; destruct Hi as [_ ->]; lia. Qed.

(** Lists in which every place of [y] has an earlier one in the other. *)
Lemma closer_lists y s s' : a_pm s' = a_pm s -> a_pl s' = a_pl s ->
  (forall i : nat, a_high s !! i = Some y -> exists j : nat, (j <= i)%nat /\ a_high s' !! j = Some y) ->
  (forall i : nat, a_med s !! i = Some y -> exists j : nat, (j <= i)%nat /\ a_med s' !! j = Some y) ->
  (forall i : nat, a_low s !! i = Some y -> exists j : nat, (j <= i)%nat /\ a_low s' !! j = Some y) ->
  closer y s s'.
Proof.
  intros E1 E2 H1 H2 H3. split; [done|split; [done|]]. unfold waits. rewrite E1, E2.
  intros level d [i Hi]. destruct level as [|[|level]]; destruct Hi as [Hi ->].
  - destruct (H1 i Hi) as (j & Hj & Hy). exists (Z.of_nat j). split; [lia|by exists j].
  - destruct (H2 i Hi) as (j & Hj & Hy). eexists. split; [|by exists j]. lia.
  - destruct (H3 i Hi) as (j & Hj & Hy). eexists. split; [|by exists j]. lia.
Qed.

(** What there is to see of a core: its current process, what is left of its
    quantum, and its lists. *)
Record look := mkLook { look_cur : option Z; look_quantum : Z; look_core : acore }.

(** Between two looks, with [n] clock ticks between them, [y] has kept its
    place or come closer; or the scheduler has made a decision. *)
Definition turned (n y : Z) (v v' : look) : Prop :=
  (look_cur v' = look_cur v /\ look_quantum v' = look_quantum v - n /\ closer y (look_core v) (look_core v')) \/
  (exists x back s1 new, closer y (look_core v) s1 /\ spec_resched x back s1 = Some (new, look_core v') /\
     look_cur v' = Some new).

Lemma turned_after m n y v1 v2 v3 : look_cur v2 = look_cur v1 -> look_quantum v2 = look_quantum v1 - m ->
  closer y (look_core v1) (look_core v2) -> turned n y v2 v3 -> turned (m + n) y v1 v3.
Proof.
  intros E1 E2 H12 [(F1 & F2 & F3)|(x & back & s1 & new & F1 & F2 & F3)].
  - left. rewrite F1, F2, E1, E2. split; [done|split; [lia|by etrans]].
  - right. exists x, back, s1, new. split; [by etrans|done].
Qed.

Lemma turned_counters n y v v' : turned n y v v' -> counters_ok (look_core v) -> counters_ok (look_core v').
Proof.
  intros [(_ & _ & Hcl)|(x & back & s1 & new & Hcl & Hsp & _)] Hc; [by eapply closer_counters|].
  eapply spec_resched_counters; [|exact Hsp]. by eapply closer_counters.
Qed.

Section Liveness.
Context (v : nat -> look) (n : nat -> Z) (y : Z) (first : nat).
Context (Hturn : forall i, (first <= i)%nat -> turned (n i) y (v i) (v (S i))).
Context (Hpos : forall i, 1 <= look_quantum (v i)) (Hn : forall i, 0 <= n i).
Context (Hticks : forall i, exists j, (i <= j)%nat /\ n j = 1).

(** A decision of the scheduler runs [y] or brings it closer. *)
Definition decided (i level : nat) (d : Z) : Prop :=
  exists m, (i < m)%nat /\ counters_ok (look_core (v m)) /\
    (look_cur (v m) = Some y \/ progress y (look_core (v m)) level d).

Lemma decided_weaken i j level d d' : (i <= j)%nat -> d' <= d -> decided j level d' -> decided i level d.
Proof using.
  intros Hi Hd (m & Hm & Hc & H). exists m. split; [lia|]. split; [done|].
  destruct H as [?|(l & e & He & Hl)]; [by left|]. right. exists l, e. split; [done|].
  destruct Hl as [?|[-> ?]]; [by left|right; split; [done|lia]].
Qed.

(** The clock brings a decision about. *)
Lemma decision_comes g : forall i level d, (first <= i)%nat -> (Z.to_nat (look_quantum (v i)) <= g)%nat ->
  counters_ok (look_core (v i)) -> waits y (look_core (v i)) level d -> decided i level d.
Proof using Hturn Hpos Hn Hticks.
  induction g as [|g IH]; intros i level d Hs Hg Hc Hw; [pose proof (Hpos i); lia|].
  destruct (Hticks i) as (j & Hj & Hnj). remember (j - i)%nat as dist eqn:Ed.
  revert i level d Hs Hg Hc Hw Hj Ed. induction dist as [|dist IHd]; intros i level d Hs Hg Hc Hw Hj Ed;
    destruct (Hturn i Hs) as [(E1 & E2 & E3)|(x & back & s1 & new & Hcl & Hsp & Hcur)].
  2, 4: destruct (proj2 (proj2 Hcl) level d Hw) as (d1 & Hd1 & Hw1);
    destruct (resched_progress _ _ _ _ _ _ _ _ (closer_counters _ _ _ Hcl Hc) Hsp Hw1) as [Hc' Hp];
    apply (decided_weaken i i level d d1); [done|done|]; exists (S i); split; [lia|]; split; [done|];
    destruct Hp as [->|Hp]; [by left|by right].
  - destruct (proj2 (proj2 E3) level d Hw) as (d1 & Hd1 & Hw1). apply (decided_weaken i (S i) level d d1); [lia|done|].
    replace j with i in Hnj by lia. pose proof (Hpos i).
    apply IH; [lia|lia|by eapply closer_counters|done].
  - destruct (proj2 (proj2 E3) level d Hw) as (d1 & Hd1 & Hw1). apply (decided_weaken i (S i) level d d1); [lia|done|].
    pose proof (Hn i). apply IHd; [lia|lia|by eapply closer_counters|done|lia|lia].
Qed.

Lemma waits_runs level : forall (g : nat) i d, (first <= i)%nat -> Z.to_nat d = g ->
  counters_ok (look_core (v i)) -> waits y (look_core (v i)) level d ->
  exists m, (i < m)%nat /\ look_cur (v m) = Some y.
Proof using Hturn Hpos Hn Hticks.
  induction level as [level IHl] using lt_wf_ind. induction g as [g IHg] using lt_wf_ind.
  intros i d Hs Eg Hc Hw. pose proof (waits_nonneg _ _ _ _ Hc Hw) as Hd.
  destruct (decision_comes _ i level d Hs (le_n _) Hc Hw) as (m & Hm & Hcm & [?|(l' & d' & Hw' & Hlt)]); [by exists m|].
  pose proof (waits_nonneg _ _ _ _ Hcm Hw').
  assert (exists m', (m < m')%nat /\ look_cur (v m') = Some y) as (m' & Hm' & Hr); [|exists m'; split; [lia|done]].
  destruct Hlt as [Hlt|[-> Hlt]].
  - apply (IHl l' Hlt (Z.to_nat d') m d'); [lia|done..].
  - apply (IHg (Z.to_nat d')) with (d := d'); [lia|lia|done..].
Qed.
End Liveness.

Lemma members_waits y s : y ∈ members s -> exists level d, waits y s level d.
Proof.
  unfold members. rewrite !elem_of_app.
  intros [[i Hi]%list_elem_of_lookup|[[i Hi]%list_elem_of_lookup|[i Hi]%list_elem_of_lookup]].
  - exists 0%nat. eexists. by exists i.
  - exists 1%nat. eexists. by exists i.
  - exists 2%nat. eexists. by exists i.
Qed.
