(* ===== verification/ProcOps.v ===== *)
(** * Claims on creating, readying and killing processes

    The operations of Proc.v on a kernel that satisfies the scheduler and
    heap invariants: what [ready], [newpid], [create] and [kill] do on each
    of their branches, and that they keep the invariants. *)

From stdpp Require Import base numbers functions list gmap.
From S2P Require Import Prelude Kernel Spinlock Queue Memory CString Thread Proc.

Section Ops.
Context (wf : kernel -> (Z -> list Z) -> Prop) `{!FifoQueues wf} (RQ : Z -> Z -> Z).
Local Abbreviation kinv := (sched_inv wf RQ).

(** ** Changing one process entry *)

(** The scheduler's invariant reads only part of the kernel. *)
Lemma kinv_frame t k k' L :
  queuetab k' = queuetab k -> nextqueue k' = nextqueue k -> locktab k' = locktab k ->
  proctab k' = proctab k -> readylist k' = readylist k -> currpid k' = currpid k ->
  lenZ (cpsr k') = lenZ (cpsr k) -> regfile k' = regfile k ->
  lenZ (promote_medium k') = lenZ (promote_medium k) -> lenZ (promote_low k') = lenZ (promote_low k) ->
  lenZ (preempt k') = lenZ (preempt k) ->
  kinv t k L -> kinv t k' L.
Proof.
  intros E1 E2 E3 E4 E5 E6 E7 E8 E9 E10 E11 Hi.
  assert (forall h, is_qhead k' h -> is_qhead k h) as Hq by (unfold is_qhead; by rewrite E2).
  destruct Hi as [H1 [R1 R2 R3] H3 H4 H5 H6 H7 H8 H9 H10 H11 H12 H13 H14 H15].
  constructor; rewrite ?E4, ?E5, ?E6, ?E7, ?E8, ?E9, ?E10, ?E11; try done; auto.
  - by apply (fq_frame (wf := wf) k).
  - constructor; rewrite ?E5; try done. intros c p Hc Hp. unfold is_qhead. rewrite E2. by apply R2.
  - intros h x Hh. apply H9. auto.
Qed.

(** Nobody is current but the processes [currpid] names. *)
Lemma not_current k L c x p :
  kinv settled k L -> core c -> nthZ (proctab k) x = Some p -> p_state p <> PRCURR ->
  nthZ (currpid k) c <> Some x.
Proof.
  intros Hi Hc Hp Hs E. destruct (si_cur _ _ _ _ _ Hi c Hc) as (y & q & Hy & Hq & _ & _ & Hst).
  assert (y = x) as -> by congruence. apply Hs. replace p with q by congruence.
  apply Hst. unfold core, settled in *. lia.
Qed.

(** The entry of a process that is neither current nor in a queue may
    change, as long as it does not claim to be either. *)
Lemma kinv_entry k L x p p' :
  kinv settled k L -> nthZ (proctab k) x = Some p ->
  p_state p <> PRCURR -> unqueued k L x ->
  p_state p' <> PRCURR -> p_state p' <> PRREADY -> (p_state p' <> PRFREE -> prio (p_priority p')) ->
  kinv settled (set_proctab (updZ x p' (proctab k)) k) L.
Proof.
  intros Hi Hp Hs Hu Hs1 Hs2 Hpr. pose proof (nthZ_Some_lt _ _ _ Hp) as Hx.
  assert (forall c, core c -> nthZ (currpid k) c <> Some x) as Hnc by (intros c Hc; by eapply not_current).
  destruct Hi as [H1 H2 H3 H4 H5 H6 H7 H8 H9 H10 H11 H12 H13 H14 H15].
  assert (forall y q, y <> x -> nthZ (proctab k) y = Some q -> nthZ (updZ x p' (proctab k)) y = Some q) as Hne
    by (intros y q Hy Hq; by rewrite nthZ_updZ_ne by congruence).
  assert (forall y q, nthZ (updZ x p' (proctab k)) y = Some q ->
    (y = x /\ q = p') \/ (y <> x /\ nthZ (proctab k) y = Some q)) as Hinv.
  { intros y q. rewrite nthZ_updZ by done. case_decide as E; [intros [= <-]; by left|]. intros Hq.
    right. split; [congruence|done]. }
  constructor; simpl; try done.
  - by apply (fq_frame (wf := wf) k).
  - destruct H2. by constructor.
  - by rewrite lenZ_updZ.
  - intros h y Hh Hy. destruct (H9 h y Hh Hy) as (q & Hq & ?). exists q. split; [|done].
    apply Hne; [|done]. intros ->. by apply (Hu h).
  - intros c q y Hc Hq Hy. destruct (H10 c q y Hc Hq Hy) as (q' & Hq' & ?). exists q'. split; [|done].
    apply Hne; [|done]. intros ->. by apply (Hu (RQ c q)); [apply (rq_head RQ k H2)|].
  - intros y q [[-> ->]|[_ Hq]]%Hinv Hst; [congruence|by apply (H11 y)].
  - intros y q [[-> ->]|[_ Hq]]%Hinv Hst; [by apply Hpr|by apply (H12 y)].
  - intros c Hc. destruct (H13 c Hc) as (y & q & Hy & Hq & ?). exists y, q. split; [done|]. split; [|done].
    apply Hne; [|done]. intros ->. by apply (Hnc c).
  - intros y q [[-> ->]|[_ Hq]]%Hinv Hst; [congruence|by apply H14].
  - intros c Hc. destruct (H15 c Hc) as (q & Hq & Ha & Hst). exists q. split; [|done].
    apply Hne; [|done]. intros ->. replace q with p in * by congruence. destruct Hst as [?|Hr]; [done|].
    destruct (H11 x p Hp Hr) as [_ (pr & Hpr' & Hin)]. rewrite Ha in Hin.
    by apply (Hu (RQ x pr)); [apply (rq_head RQ k H2)|].
Qed.

(** A change of an entry that keeps its state, priority and core. *)
Lemma kinv_same t k L x p p' :
  kinv t k L -> nthZ (proctab k) x = Some p ->
  p_state p' = p_state p -> p_priority p' = p_priority p -> p_core_affinity p' = p_core_affinity p ->
  kinv t (set_proctab (updZ x p' (proctab k)) k) L.
Proof.
  intros Hi Hp E1 E2 E3. pose proof (nthZ_Some_lt _ _ _ Hp) as Hx.
  destruct Hi as [H1 H2 H3 H4 H5 H6 H7 H8 H9 H10 H11 H12 H13 H14 H15].
  assert (forall y q, nthZ (proctab k) y = Some q -> exists q', nthZ (updZ x p' (proctab k)) y = Some q' /\
    p_state q' = p_state q /\ p_core_affinity q' = p_core_affinity q) as Hex.
  { intros y q Hq. rewrite nthZ_updZ by done. case_decide as E; [subst y|by exists q].
    exists p'. replace q with p by congruence. done. }
  assert (forall y q', nthZ (updZ x p' (proctab k)) y = Some q' -> exists q, nthZ (proctab k) y = Some q /\
    p_state q' = p_state q /\ p_core_affinity q' = p_core_affinity q /\ p_priority q' = p_priority q) as Hinv.
  { intros y q'. rewrite nthZ_updZ by done. case_decide as E; [subst y; intros [= <-]; by exists p|].
    intros Hq. by exists q'. }
  constructor; simpl; try done.
  - by apply (fq_frame (wf := wf) k).
  - destruct H2. by constructor.
  - by rewrite lenZ_updZ.
  - intros h y Hh Hy. destruct (H9 h y Hh Hy) as (q & Hq & Hs). destruct (Hex y q Hq) as (q' & ? & Es & _).
    exists q'. by rewrite Es.
  - intros c q y Hc Hq Hy. destruct (H10 c q y Hc Hq Hy) as (q0 & Hq0 & ? & ?).
    destruct (Hex y q0 Hq0) as (q' & ? & Es & Ea). exists q'. by rewrite Es, Ea.
  - intros y q' (q & Hq & -> & -> & _)%Hinv. by apply (H11 y).
  - intros y q' (q & Hq & -> & _ & ->)%Hinv. by apply (H12 y).
  - intros c Hc. destruct (H13 c Hc) as (y & q & Hy & Hq & ? & ? & ?).
    destruct (Hex y q Hq) as (q' & ? & Es & Ea). exists y, q'. by rewrite Es, Ea.
  - intros y q' (q & Hq & -> & -> & _)%Hinv. by apply H14.
  - intros c Hc. destruct (H15 c Hc) as (q & Hq & ? & ?).
    destruct (Hex c q Hq) as (q' & ? & Es & Ea). exists q'. by rewrite Es, Ea.
Qed.

(** ** [ready] *)

(** The core a process goes to. *)
Definition home (p : pcb) (core : Z) : Z :=
  if -1 =? p_core_affinity p then s32 core else p_core_affinity p.

Definition readied (a : Z) (p : pcb) : pcb := set_p_core_affinity a (set_p_state PRREADY p).

Lemma ready_enqueue_run cpu k L pid p cr :
  kinv settled k L -> nthZ (proctab k) pid = Some p ->
  p_state p <> PRFREE -> p_state p <> PRCURR -> unqueued k L pid -> core (home p cr) ->
  let a := home p cr in
  exists tab, let k' := set_queuetab tab (set_proctab (updZ pid (readied a p) (proctab k)) k) in
    ready_enqueue cpu pid cr k = Ret (a, k') /\
    wf k' (<[RQ a (p_priority p) := L (RQ a (p_priority p)) ++ [pid]]> L).
Proof.
  intros Hi Hp Hs1 Hs2 Hu Ha. cbv zeta. pose proof (nthZ_Some_lt _ _ _ Hp) as Hx.
  assert (prio (p_priority p)) as Hpr by (by apply (si_prio _ _ _ _ _ Hi pid p)).
  set (k1 := set_proctab (updZ pid (readied (home p cr) p) (proctab k)) k).
  assert (rq_ok RQ k1) as Hrq by (destruct (si_rq _ _ _ _ _ Hi); by constructor).
  destruct (fq_enqueue (wf := wf) cpu k1 L (RQ (home p cr) (p_priority p)) pid) as (tab & Hrun & Hwf).
  - apply (fq_frame (wf := wf) k); [done..|apply Hi].
  - by apply (rq_head RQ k1 Hrq).
  - split; [rewrite (si_proctab _ _ _ _ _ Hi) in Hx; done|]. eexists. split; [by apply nthZ_updZ_eq|done].
  - done.
  - exists tab. split; [|done]. unfold ready_enqueue. rewrite (bind_upd_proc _ _ _ _ _ Hp).
    rewrite (bind_rd_proc _ (set_p_state PRREADY p)) by (by apply nthZ_updZ_eq).
    cbn [p_core_affinity set_p_state].
    assert (forall k2, k2 = k1 -> (p0 <-- rd_proc pid ;; q <-- rd_readylist (p_core_affinity p0) (p_priority p0) ;;
      enqueue cpu pid q ;;; ret (p_core_affinity p0)) k2 = Ret (home p cr, set_queuetab tab k1)) as Htail.
    { intros k2 ->. rewrite (bind_rd_proc _ (readied (home p cr) p)) by (by apply nthZ_updZ_eq). simpl.
      rewrite (bind_rd_ready RQ) by done. by rewrite (bind_Ret _ _ _ _ _ Hrun). }
    destruct (Z.eqb_spec (-1) (p_core_affinity p)) as [E|E].
    + assert (home p cr = s32 cr) as Eh by (unfold home; by rewrite (proj2 (Z.eqb_eq _ _) E)).
      rewrite (bind_upd_proc _ (set_p_state PRREADY p)) by (by apply nthZ_updZ_eq).
      rewrite Htail; [done|]. unfold k1. simpl. by rewrite updZ_updZ, Eh.
    + assert (home p cr = p_core_affinity p) as Eh by (unfold home; by rewrite (proj2 (Z.eqb_neq _ _) E)).
      rewrite bind_ret_l, Htail; [done|]. unfold k1, readied. rewrite Eh. by destruct p.
Qed.

(** A process becomes ready. *)
Lemma kinv_ready k L x p a tab :
  kinv settled k L -> nthZ (proctab k) x = Some p ->
  p_state p <> PRFREE -> p_state p <> PRCURR -> unqueued k L x -> core a ->
  let k' := set_queuetab tab (set_proctab (updZ x (readied a p) (proctab k)) k) in
  let L' := <[RQ a (p_priority p) := L (RQ a (p_priority p)) ++ [x]]> L in
  wf k' L' -> kinv settled k' L'.
Proof.
  intros Hi Hp Hs1 Hs2 Hu Ha. cbv zeta. intros Hwf. pose proof (nthZ_Some_lt _ _ _ Hp) as Hx.
  assert (prio (p_priority p)) as Hpr by (by apply (si_prio _ _ _ _ _ Hi x p)).
  assert (forall c, core c -> nthZ (currpid k) c <> Some x) as Hnc by (intros c Hc; by eapply not_current).
  destruct Hi as [H1 H2 H3 H4 H5 H6 H7 H8 H9 H10 H11 H12 H13 H14 H15].
  set (h0 := RQ a (p_priority p)) in *. set (p' := readied a p) in *.
  assert (forall y q, y <> x -> nthZ (proctab k) y = Some q -> nthZ (updZ x p' (proctab k)) y = Some q) as Hne
    by (intros y q Hy Hq; by rewrite nthZ_updZ_ne by congruence).
  assert (nthZ (updZ x p' (proctab k)) x = Some p') as Hself by (by apply nthZ_updZ_eq).
  assert (forall y q, nthZ (updZ x p' (proctab k)) y = Some q ->
    (y = x /\ q = p') \/ (y <> x /\ nthZ (proctab k) y = Some q)) as Hinv.
  { intros y q. rewrite nthZ_updZ by done. case_decide as E; [intros [= <-]; by left|]. intros Hq.
    right. split; [congruence|done]. }
  assert (forall h y, y ∈ (<[h0 := L h0 ++ [x]]> L) h -> (y = x /\ h = h0) \/ y ∈ L h) as Hel.
  { intros h y. destruct (decide (h = h0)) as [->|Hn]; [|rewrite fn_lookup_insert_ne by done; auto].
    rewrite fn_lookup_insert, elem_of_app, list_elem_of_singleton. intros [?|?]; auto. }
  assert (forall h y, y ∈ L h -> y ∈ (<[h0 := L h0 ++ [x]]> L) h) as Hmono.
  { intros h y Hy. destruct (decide (h = h0)) as [->|Hn]; [|by rewrite fn_lookup_insert_ne].
    rewrite fn_lookup_insert. apply elem_of_app. by left. }
  constructor; simpl; try done.
  - destruct H2. by constructor.
  - by rewrite lenZ_updZ.
  - intros h y Hh [[-> ->]|Hy]%Hel; [exists p'; auto|].
    destruct (H9 h y Hh Hy) as (q & Hq & ?). exists q. split; [|done].
    apply Hne; [|done]. intros ->. by apply (Hu h).
  - intros c q y Hc Hq [[-> E]|Hy]%Hel.
    + exists p'. split; [done|]. split; [done|]. symmetry. by apply (rq_inj RQ k H2 c q a (p_priority p)).
    + destruct (H10 c q y Hc Hq Hy) as (q' & Hq' & ?). exists q'. split; [|done].
      apply Hne; [|done]. intros ->. by apply (Hu (RQ c q)); [apply (rq_head RQ k H2)|].
  - intros y q [[-> ->]|[_ Hq]]%Hinv Hst.
    + split; [done|]. exists (p_priority p). split; [done|]. simpl. fold h0. rewrite fn_lookup_insert.
      apply elem_of_app. right. left.
    + destruct (H11 y q Hq Hst) as [Hc (pr & Hpr' & Hin)]. split; [done|]. exists pr. split; [done|]. auto.
  - intros y q [[-> ->]|[_ Hq]]%Hinv Hst; [done|by apply (H12 y)].
  - intros c Hc. destruct (H13 c Hc) as (y & q & Hy & Hq & ?). exists y, q. split; [done|]. split; [|done].
    apply Hne; [|done]. intros ->. by apply (Hnc c).
  - intros y q [[-> ->]|[_ Hq]]%Hinv Hst; [done|by apply H14].
  - intros c Hc. destruct (H15 c Hc) as (q & Hq & Haf & Hst). exists q. split; [|done].
    apply Hne; [|done]. intros ->. replace q with p in * by congruence. destruct Hst as [?|Hr]; [done|].
    destruct (H11 x p Hp Hr) as [_ (pr & Hpr' & Hin)]. rewrite Haf in Hin.
    by apply (Hu (RQ x pr)); [apply (rq_head RQ k H2)|].
Qed.

Lemma restored_masked c im k :
  nthZ (cpsr k) c = Some (Z.lor im ARM_I_BIT) -> restored c im k = set_cpsr (updZ c im (cpsr k)) k.
Proof. intros H. unfold restored. rewrite H. simpl. by rewrite restore_disable_bits. Qed.

(** [ready] up to the point where it may reschedule: the process is at the
    end of the list of its core and priority, with interrupts off. *)
Lemma ready_prefix `{Layout} cpu k L pid p resch cr im :
  kinv settled k L -> nthZ (cpsr k) cpu = Some im -> nthZ (proctab k) pid = Some p ->
  p_state p <> PRFREE -> p_state p <> PRCURR -> unqueued k L pid -> core (home p cr) ->
  let a := home p cr in
  exists tab, let k' := set_cpsr (updZ cpu (Z.lor im ARM_I_BIT) (cpsr k))
      (set_queuetab tab (set_proctab (updZ pid (readied a p) (proctab k)) k)) in
    start (ready cpu pid resch cr) k =
      start ((if resch && (cpu =? u32 a) then resched cpu else tret OK) ;;==
        lift (restore cpu im ;;; ret OK)) k' /\
    kinv settled k' (<[RQ a (p_priority p) := L (RQ a (p_priority p)) ++ [pid]]> L).
Proof.
  intros Hi Him Hp Hs1 Hs2 Hu Ha. cbv zeta. pose proof (nthZ_Some_lt _ _ _ Hp) as Hx.
  rewrite (si_proctab _ _ _ _ _ Hi) in Hx.
  set (k1 := set_cpsr (updZ cpu (Z.lor im ARM_I_BIT) (cpsr k)) k).
  assert (kinv settled k1 L) as Hi1 by (apply (kinv_frame settled k); try done; apply lenZ_updZ).
  destruct (ready_enqueue_run cpu k1 L pid p cr Hi1 Hp Hs1 Hs2 Hu Ha) as (tab & Hrun & Hwf).
  exists tab. split.
  - unfold ready. erewrite start_lift_Ret by (apply isbadpid_live; split; [done|by exists p]).
    cbv beta iota. erewrite start_lift_Ret; [|unfold disable; by rewrite (bind_Ret _ _ _ im k) by (by rewrite Him)].
    erewrite start_lift_Ret by exact Hrun. done.
  - exact (kinv_ready k1 L pid p (home p cr) tab Hi1 Hp Hs1 Hs2 Hu Ha Hwf).
Qed.

Lemma ready_noresched `{Layout} cpu k L pid p resch cr im :
  kinv settled k L -> nthZ (cpsr k) cpu = Some im -> nthZ (proctab k) pid = Some p ->
  p_state p <> PRFREE -> p_state p <> PRCURR -> unqueued k L pid -> core (home p cr) ->
  resch && (cpu =? u32 (home p cr)) = false ->
  exists tab,
    let a := home p cr in
    let k' := set_queuetab tab (set_proctab (updZ pid (readied a p) (proctab k)) k) in
    start (ready cpu pid resch cr) k = Ret (inl OK, k') /\
    kinv settled k' (<[RQ a (p_priority p) := L (RQ a (p_priority p)) ++ [pid]]> L).
Proof.
  intros Hi Him Hp Hs1 Hs2 Hu Ha Hr. pose proof (nthZ_Some_lt _ _ _ Him) as Hc.
  destruct (ready_prefix cpu k L pid p resch cr im Hi Him Hp Hs1 Hs2 Hu Ha) as (tab & Hrun & Hinv).
  exists tab. cbv zeta. rewrite Hrun, Hr. split.
  - erewrite start_bind_inl by done. rewrite start_lift, restore_run by (simpl; by rewrite lenZ_updZ).
    rewrite restored_masked by (simpl; by apply nthZ_updZ_eq). simpl.
    rewrite updZ_updZ, (updZ_id cpu im) by done. by destruct k.
  - apply (kinv_frame settled _ _ _) with (12 := Hinv); try done. simpl. by rewrite lenZ_updZ.
Qed.

(** C21: [ready] of a process that is neither free, nor current, nor queued,
    without rescheduling (not asked for, or the process belongs to another
    core): it becomes ready on its core (the core given, when it had none),
    goes to the end of the list of its priority there, the scheduler's
    invariant holds again, the interrupt mask is as before, and the result
    is [OK]. *)
Theorem ready_appends `{Layout} cpu k L pid p resch cr im :
  kinv settled k L -> nthZ (cpsr k) cpu = Some im -> nthZ (proctab k) pid = Some p ->
  p_state p <> PRFREE -> p_state p <> PRCURR -> unqueued k L pid -> core (home p cr) ->
  resch && (cpu =? u32 (home p cr)) = false ->
  exists tab,
    let a := home p cr in
    let k' := set_queuetab tab (set_proctab (updZ pid (readied a p) (proctab k)) k) in
    start (ready cpu pid resch cr) k = Ret (inl OK, k') /\
    kinv settled k' (<[RQ a (p_priority p) := L (RQ a (p_priority p)) ++ [pid]]> L).
Proof. apply ready_noresched. Qed.

(** ** [newpid] *)

Definition slot_free (k : kernel) (i : Z) : Prop :=
  exists p, nthZ (proctab k) i = Some p /\ p_state p = PRFREE.

Lemma newpid_loop_found n k :
  lenZ (proctab k) = NPROC -> 0 <= nextpid k < NPROC ->
  (exists j, 1 <= j <= Z.of_nat n /\ slot_free k ((nextpid k + j) mod NPROC)) ->
  exists i, 0 <= i < NPROC /\ slot_free k i /\ newpid_loop n k = Ret (i, set_nextpid i k).
Proof.
  revert k. induction n as [|n IH]; intros k Hlen Hs (j & Hj & Hf); [lia|].
  simpl. rewrite bind_modify, bind_gets. simpl.
  rewrite atomic_increment_mod_cyclic by klia.
  set (i := (nextpid k + 1) mod NPROC).
  assert (0 <= i < NPROC) as Hi by (apply Z.mod_pos_bound; klia).
  destruct (nthZ_lt_Some (proctab k) i) as [p Hp]; [lia|].
  rewrite (bind_rd_proc _ p) by exact Hp.
  destruct (Z.eqb_spec PRFREE (p_state p)) as [Hfree|Hused].
  - exists i. split; [done|]. split; [by exists p|done].
  - destruct (IH (set_nextpid i k)) as (i' & Hi' & Hf' & Hrun); [done|done| |].
    + exists (j - 1). assert (j <> 1) as Hj1.
      { intros ->. destruct Hf as (p0 & Hp0 & ?). fold i in Hp0. congruence. }
      split; [lia|]. simpl. unfold i. rewrite Z.add_mod_idemp_l by klia.
      by replace (nextpid k + 1 + (j - 1)) with (nextpid k + j) by lia.
    + exists i'. split; [done|]. split; [done|]. by rewrite Hrun.
Qed.

Lemma newpid_found k i :
  lenZ (proctab k) = NPROC -> 0 <= nextpid k < NPROC -> slot_free k i ->
  exists i', 0 <= i' < NPROC /\ slot_free k i' /\ newpid k = Ret (i', set_nextpid i' k).
Proof.
  intros Hlen Hs Hf. apply newpid_loop_found; [done|done|].
  assert (0 <= i < NPROC) as Hi.
  { destruct Hf as (p & Hp%nthZ_Some_lt & _). lia. }
  exists ((i - nextpid k - 1) mod NPROC + 1).
  assert (0 <= (i - nextpid k - 1) mod NPROC < NPROC) by (apply Z.mod_pos_bound; klia).
  split; [klia|].
  replace (nextpid k + ((i - nextpid k - 1) mod NPROC + 1))
    with (nextpid k + 1 + (i - nextpid k - 1) mod NPROC) by lia.
  rewrite Z.add_mod_idemp_r by klia.
  replace (nextpid k + 1 + (i - nextpid k - 1)) with i by lia.
  by rewrite Z.mod_small.
Qed.

Lemma newpid_full n k :
  lenZ (proctab k) = NPROC -> 0 <= nextpid k < NPROC -> (forall i, ~ slot_free k i) ->
  exists s, 0 <= s < NPROC /\ newpid_loop n k = Ret (SYSERR, set_nextpid s k).
Proof.
  revert k. induction n as [|n IH]; intros k Hlen Hs Hf.
  - exists (nextpid k). split; [done|]. by destruct k.
  - simpl. rewrite bind_modify, bind_gets. simpl.
    rewrite atomic_increment_mod_cyclic by klia.
    set (i := (nextpid k + 1) mod NPROC).
    assert (0 <= i < NPROC) as Hi by (apply Z.mod_pos_bound; klia).
    destruct (nthZ_lt_Some (proctab k) i) as [p Hp]; [lia|].
    rewrite (bind_rd_proc _ p) by exact Hp.
    destruct (Z.eqb_spec PRFREE (p_state p)) as [Hfree|Hused].
    + exfalso. apply (Hf i). by exists p.
    + destruct (IH (set_nextpid i k)) as (s & ? & Hrun); [done|done|done|].
      exists s. split; [done|]. by rewrite Hrun.
Qed.

(** ** [create] *)

Fixpoint pads_mem (n : nat) (s : Z) (m : gmap Z Z) : gmap Z Z :=
  match n with O => m | S n' => pads_mem n' (s - 4) (<[s - 4 := 0]> m) end.

Lemma push_pads_run n s k : 4 * Z.of_nat n <= s < 2 ^ 32 ->
  push_pads n s k = Ret (s - 4 * Z.of_nat n, set_memory (pads_mem n s (memory k)) k).
Proof.
  revert s k. induction n as [|n IH]; intros s k Hs.
  - simpl. rewrite Z.mul_0_r, Z.sub_0_r. by destruct k.
  - cbn [push_pads pads_mem]. cbv zeta. rewrite wrap_small by lia. rewrite bind_store, IH by lia.
    simpl. do 2 f_equal. lia.
Qed.

Lemma pads_mem_out n s m x : x < s - 4 * Z.of_nat n \/ s <= x -> mload (pads_mem n s m) x = mload m x.
Proof.
  revert s m. induction n as [|n IH]; intros s m Hx; [done|]. cbn [pads_mem].
  rewrite IH by lia. apply mload_insert_ne. lia.
Qed.

Fixpoint args_regs (i : Z) (args r : list Z) : list Z :=
  match args with
  | [] => r
  | a :: args' => args_regs (i + 1) args' (if i <? 4 then updZ i a r else r)
  end.
Fixpoint args_mem (s i : Z) (args : list Z) (m : gmap Z Z) : gmap Z Z :=
  match args with
  | [] => m
  | a :: args' => args_mem s (i + 1) args' (if i <? 4 then m else <[s + 4 * (i - 4) := u32 a]> m)
  end.

Lemma pass_args_run pid s i args k p :
  nthZ (proctab k) pid = Some p -> 0 <= s -> 0 <= i -> s + 4 * (i + lenZ args) < 2 ^ 32 ->
  pass_args pid s i args k =
  Ret (tt, set_memory (args_mem s i args (memory k))
    (set_proctab (updZ pid (set_p_regs (args_regs i args (p_regs p)) p) (proctab k)) k)).
Proof.
  revert i k p. induction args as [|a args IH]; intros i k p Hp Hs Hi Hb; simpl.
  - unfold ret. do 2 f_equal. rewrite updZ_id by (rewrite Hp; by destruct p). by destruct k.
  - unfold lenZ in *. simpl in Hb. destruct (Z.ltb_spec i 4).
    + rewrite (bind_upd_proc _ p) by done.
      rewrite (IH _ _ (set_p_regs (updZ i a (p_regs p)) p)); [|simpl; apply nthZ_updZ_eq; by eapply nthZ_Some_lt|lia|lia|lia].
      simpl. by rewrite updZ_updZ.
    + rewrite wrap_small by lia. rewrite bind_store, (IH _ _ p); [done|done|lia|lia|lia].
Qed.

Lemma args_regs_other i args r j : j < i \/ 4 <= j -> nthZ (args_regs i args r) j = nthZ r j.
Proof.
  revert i r. induction args as [|a args IH]; intros i r Hj; simpl; [done|].
  rewrite IH by lia. destruct (Z.ltb_spec i 4); [|done]. apply nthZ_updZ_ne. lia.
Qed.

Lemma args_regs_len i args r : lenZ (args_regs i args r) = lenZ r.
Proof.
  revert i r. induction args as [|a args IH]; intros i r; simpl; [done|]. rewrite IH.
  destruct (i <? 4); [apply lenZ_updZ|done].
Qed.

(** The first four arguments are in registers 0 to 3. *)
Lemma args_regs_at i args r j a : 0 <= i -> 4 <= lenZ r -> nthZ args j = Some a -> i + j < 4 ->
  nthZ (args_regs i args r) (i + j) = Some a.
Proof.
  revert i r j. induction args as [|b args IH]; intros i r j Hi Hr Hj Hlt; [by rewrite nthZ_None in Hj by (unfold lenZ; simpl; lia)|].
  simpl. destruct (decide (j = 0)) as [->|Hne].
  - injection Hj as ->. rewrite Z.add_0_r, args_regs_other by lia.
    rewrite (proj2 (Z.ltb_lt i 4)) by lia. apply nthZ_updZ_eq. lia.
  - pose proof (nthZ_Some_lt _ _ _ Hj). rewrite nthZ_cons_pos in Hj by lia.
    replace (i + j) with (i + 1 + (j - 1)) by lia. apply IH; [lia| |done|lia].
    destruct (i <? 4); [by rewrite lenZ_updZ|done].
Qed.

Lemma args_mem_out s i args m x :
  0 <= i -> x < s \/ s + 4 * (i + lenZ args - 4) <= x \/ i + lenZ args <= 4 ->
  mload (args_mem s i args m) x = mload m x.
Proof.
  revert i m. induction args as [|a args IH]; intros i m Hi Hx; simpl; [done|].
  unfold lenZ in *. simpl in Hx. rewrite IH by lia. destruct (Z.ltb_spec i 4); [done|].
  apply mload_insert_ne. lia.
Qed.

Lemma args_mem_low s i args m x : 0 <= i -> (4 <= i -> x < s + 4 * (i - 4)) -> (i < 4 -> x < s) ->
  mload (args_mem s i args m) x = mload m x.
Proof.
  revert i m. induction args as [|a args IH]; intros i m Hi H1 H2; simpl; [done|].
  rewrite IH by lia. destruct (Z.ltb_spec i 4); [done|]. apply mload_insert_ne. lia.
Qed.

(** The others are on the stack, in order. *)
Lemma args_mem_at s i args m j a : 0 <= i -> nthZ args j = Some a -> 4 <= i + j ->
  mload (args_mem s i args m) (s + 4 * (i + j - 4)) = u32 a.
Proof.
  revert i m j. induction args as [|b args IH]; intros i m j Hi Hj Hge; [by rewrite nthZ_None in Hj by (unfold lenZ; simpl; lia)|].
  simpl. destruct (decide (j = 0)) as [->|Hne].
  - injection Hj as ->. rewrite Z.add_0_r in *. rewrite args_mem_low by lia.
    rewrite (proj2 (Z.ltb_ge i 4)) by lia. apply mload_insert_eq.
  - pose proof (nthZ_Some_lt _ _ _ Hj). rewrite nthZ_cons_pos in Hj by lia.
    replace (i + j - 4) with (i + 1 + (j - 1) - 4) by lia. by apply IH; [lia|..|lia].
Qed.

(** The stack size [create] asks for. *)
Definition stack_size (ssize : Z) : Z :=
  Z.land (u32 ((if ssize <? MINSTK then MINSTK else ssize) + 3)) 0xFFFFFFFC.

Lemma stack_size_spec ssize : 0 <= ssize <= 2 ^ 32 - 8 ->
  MINSTK <= stack_size ssize <= 2 ^ 32 - 8 /\ (4 | stack_size ssize) /\
  Z.max ssize MINSTK <= stack_size ssize < Z.max ssize MINSTK + 4.
Proof.
  intros Hs. unfold stack_size. change (2 ^ 32) with 4294967296 in *.
  set (z := if ssize <? MINSTK then MINSTK else ssize).
  assert (z = Z.max ssize MINSTK) as Hz by (unfold z; destruct (Z.ltb_spec ssize MINSTK); lia).
  assert (0 <= z + 3 < 4294967296) by klia.
  rewrite wrap_small by (change (2 ^ 32) with 4294967296; lia).
  change 0xFFFFFFFC with (Z.land (Z.ones 32) (Z.lnot (Z.ones 2))).
  rewrite Z.land_assoc, Z.land_ones by lia. rewrite (Z.mod_small (z + 3)) by (change (2 ^ 32) with 4294967296; lia).
  rewrite land_lnot_ones by lia. change (2 ^ 2) with 4.
  pose proof (Z.mod_pos_bound (z + 3) 4 ltac:(lia)). pose proof (Z.div_mod (z + 3) 4 ltac:(lia)).
  assert (z + 3 - (z + 3) mod 4 <= 4294967288) by klia.
  split; [klia|]. split; [exists ((z + 3) / 4); lia|lia].
Qed.

Definition pads (n : Z) : Z := if n =? 0 then 0 else ((n - 1) / 4) * 4.

Lemma pads_spec n : 0 <= n -> 0 <= pads n <= n /\ n - 4 <= pads n.
Proof.
  intros Hn. unfold pads. destruct (Z.eqb_spec n 0); [lia|].
  pose proof (Z.div_mod (n - 1) 4 ltac:(lia)). pose proof (Z.mod_pos_bound (n - 1) 4 ltac:(lia)).
  pose proof (Z.div_pos (n - 1) 4 ltac:(lia) ltac:(lia)). lia.
Qed.

(** The stack of the new process: the accounting block, the padding and the
    arguments that do not fit in registers. *)
Definition stack_mem (pid saddr ssz : Z) (args : list Z) (m : gmap Z Z) : gmap Z Z :=
  let top := saddr + ssz - 16 in
  args_mem (top - 4 * pads (lenZ args)) 0 args
    (pads_mem (Z.to_nat (pads (lenZ args))) top
      (<[top := saddr]> (<[top + 4 := ssz]> (<[top + 8 := pid]> (<[top + 12 := STACKMAGIC]> m))))).

Definition created_pcb `{Layout} (saddr ssz priority funcaddr sp : Z) (name args : list Z) (p : pcb) : pcb :=
  let p1 := init_pcb saddr ssz priority (set_p_name name p) in
  set_p_regs (updZ PREG_SP (s32 sp) (updZ PREG_LR (s32 userret_addr) (updZ PREG_PC (s32 funcaddr)
    (args_regs 0 args (p_regs p1))))) p1.

Lemma create_run `{Layout} cpu funcaddr ssize priority name args k saddr k1 pid k2 p name' :
  getmem cpu (stack_size ssize) k = Ret (saddr, k1) -> newpid k1 = Ret (pid, k2) ->
  saddr <> u32 SYSERR -> 0 <= pid < NPROC -> 0 < saddr -> saddr + stack_size ssize < 2 ^ 32 ->
  0 <= ssize <= 2 ^ 32 - 8 -> lenZ args <= 1000 ->
  nthZ (proctab k2) pid = Some p -> strncpy (p_name p) name (Z.to_nat PNMLEN) = Ret name' ->
  let ssz := stack_size ssize in
  let sp := saddr + ssz - 16 - 4 * pads (lenZ args) in
  create cpu funcaddr ssize priority name args k =
  Ret (pid, set_memory (stack_mem pid saddr ssz args (memory k2))
    (set_proctab (updZ pid (created_pcb saddr ssz priority funcaddr sp name' args p) (proctab k2))
      (set_numproc (atomic_increment (numproc k2)) k2))).
Proof.
  intros Hg Hn Hsa Hpid Hs0 Hs1 Hsz Hargs Hp Hname. cbv zeta.
  destruct (stack_size_spec ssize Hsz) as (Hz1 & Hz2 & _).
  destruct (pads_spec (lenZ args)) as [Hpad Hpad2]; [unfold lenZ; lia|].
  pose proof (nthZ_Some_lt _ _ _ Hp) as Hlt. change (2 ^ 32) with 4294967296 in *.
  unfold create. cbv zeta. fold (stack_size ssize). rewrite (bind_Ret _ _ _ _ _ Hg), (bind_Ret _ _ _ _ _ Hn).
  rewrite (proj2 (Z.eqb_neq (u32 SYSERR) saddr)) by congruence.
  rewrite (wrap_small 32 pid), (proj2 (Z.eqb_neq (u32 SYSERR) pid)) by
    (change (u32 SYSERR) with 4294967295; change (2 ^ 32) with 4294967296; klia).
  cbn [orb]. rewrite bind_modify, (bind_rd_proc _ p) by exact Hp.
  unfold strncpy_name. rewrite Hname, bind_ret_l, (bind_upd_proc _ p) by exact Hp.
  assert (forall x, 0 <= x < 4294967296 -> u32 x = x) as Hw by (intros x Hx; by apply wrap_small).
  rewrite (Hw (saddr + stack_size ssize - 4)), (Hw (saddr + stack_size ssize - 4 - 4)),
    (Hw (saddr + stack_size ssize - 4 - 4 - 4)), (Hw (saddr + stack_size ssize - 4 - 4 - 4 - 4)) by klia.
  rewrite !bind_store, (bind_rd_proc _ (init_pcb saddr (stack_size ssize) priority (set_p_name name' p)))
    by (simpl; by apply nthZ_updZ_eq).
  rewrite !bind_store. fold (pads (lenZ args)).
  erewrite bind_Ret; [|apply push_pads_run; change (2 ^ 32) with 4294967296; klia].
  rewrite (Z2Nat.id (pads (lenZ args))) by lia.
  erewrite bind_Ret; [|apply pass_args_run; [simpl; by apply nthZ_updZ_eq|klia|lia|
    change (2 ^ 32) with 4294967296; klia]].
  do 3 (erewrite bind_upd_proc by (simpl; apply nthZ_updZ_eq; rewrite ?lenZ_updZ; done)).
  unfold ret. simpl. rewrite !updZ_updZ. unfold stack_mem, created_pcb. simpl.
  replace (saddr + stack_size ssize - 4 - 4 - 4 - 4) with (saddr + stack_size ssize - 16) by lia.
  replace (saddr + stack_size ssize - 4 - 4 - 4) with (saddr + stack_size ssize - 16 + 4) by lia.
  replace (saddr + stack_size ssize - 4 - 4) with (saddr + stack_size ssize - 16 + 8) by lia.
  replace (saddr + stack_size ssize - 4) with (saddr + stack_size ssize - 16 + 12) by lia.
  rewrite (wrap_swrap 32), (Hw (stack_size ssize)) by klia. done.
Qed.

Lemma stack_mem_out pid saddr ssz args m x :
  4 * lenZ args + 16 <= ssz -> ~ (saddr <= x < saddr + ssz) ->
  mload (stack_mem pid saddr ssz args m) x = mload m x.
Proof.
  intros Hs Hx. assert (0 <= lenZ args) by (unfold lenZ; lia).
  destruct (pads_spec (lenZ args)) as [Hp1 Hp2]; [done|]. unfold stack_mem.
  rewrite args_mem_out by lia. rewrite pads_mem_out by lia. by rewrite !mload_insert_ne by lia.
Qed.

(** The accounting block at the top of the stack. *)
Lemma stack_mem_top pid saddr ssz args m :
  let a := stack_mem pid saddr ssz args m in
  mload a (saddr + ssz - 4) = STACKMAGIC /\ mload a (saddr + ssz - 8) = pid /\
  mload a (saddr + ssz - 12) = ssz /\ mload a (saddr + ssz - 16) = saddr.
Proof.
  assert (0 <= lenZ args) by (unfold lenZ; lia).
  destruct (pads_spec (lenZ args)) as [Hp1 Hp2]; [done|]. cbv zeta. unfold stack_mem.
  rewrite !args_mem_out by lia. rewrite !pads_mem_out by lia.
  replace (saddr + ssz - 4) with (saddr + ssz - 16 + 12) by lia.
  replace (saddr + ssz - 8) with (saddr + ssz - 16 + 8) by lia.
  replace (saddr + ssz - 12) with (saddr + ssz - 16 + 4) by lia.
  repeat split; repeat (rewrite mload_insert_ne by lia); apply mload_insert_eq.
Qed.

(** What every process entry has: room for its name and its registers. *)
Definition pcb_shape (k : kernel) : Prop :=
  forall i p, nthZ (proctab k) i = Some p -> lenZ (p_name p) = PNMLEN /\ lenZ (p_regs p) = PREGS.

(** The heap invariant after memory outside the free bytes and parts of the
    kernel unrelated to the heap have changed. *)
Lemma heaps_wf_frame k k' FL :
  freelist k' = freelist k -> locktab k' = locktab k -> memheap k' = memheap k -> maxaddr k' = maxaddr k ->
  (forall x, free_byte FL x -> mload (memory k') x = mload (memory k) x) ->
  heaps_wf k FL -> heaps_wf k' FL.
Proof.
  intros E1 E2 E3 E4 Hm Hwf. apply (heaps_wf_memory _ _ _ Hwf) in Hm. destruct Hm as [H1 H2 H3].
  constructor; rewrite ?E1, ?E3, ?E4; try done. intros n h Hh.
  destruct (H2 n h Hh) as ([W1 W2 W3 W4 W5 W6 W7 W8] & ? & ?). split; [|done].
  constructor; rewrite ?E1, ?E2; try done. unfold at_rest. by rewrite E2.
Qed.

(** The state [create] leaves when it succeeds. *)
Definition created_kernel `{Layout} (saddr ssize priority funcaddr pid : Z) (name args : list Z) (p : pcb)
    (m : gmap Z Z) (f : list memhead) (k : kernel) : kernel :=
  let ssz := stack_size ssize in
  set_memory (stack_mem pid saddr ssz args m)
    (set_proctab (updZ pid (created_pcb saddr ssz priority funcaddr (saddr + ssz - 16 - 4 * pads (lenZ args)) name args p)
        (proctab k))
      (set_numproc (atomic_increment (numproc k)) (set_nextpid pid (set_memory m (set_freelist f k))))).

Lemma create_succeeds `{Layout} cpu k L FL funcaddr ssize priority name w args saddr m f l' :
  let k1 := set_memory m (set_freelist f k) in let b := (saddr, roundmb (stack_size ssize)) in
  kinv settled k L -> heaps_wf k FL -> pcb_shape k -> core cpu ->
  0 <= nextpid k < NPROC -> (exists i, slot_free k i) ->
  cstr name w -> 0 <= ssize <= 2 ^ 32 - 8 -> prio priority -> lenZ args <= 1000 ->
  getmem cpu (stack_size ssize) k = Ret (saddr, k1) -> heaps_wf k1 (<[cpu := l']> FL) -> block_of k cpu b ->
  (forall x, (covers (FL cpu) x <-> inb b x \/ covers l' x) /\ ~ (inb b x /\ covers l' x)) ->
  exists pid p, let k' := created_kernel saddr ssize priority funcaddr pid (take 16 w ++ replicate (16 - length w) 0) args p m f k in
    create cpu funcaddr ssize priority name args k = Ret (pid, k') /\
    0 <= pid < NPROC /\ nthZ (proctab k) pid = Some p /\ p_state p = PRFREE /\
    kinv settled k' L /\ heaps_wf k' (<[cpu := l']> FL).
Proof.
  intros k1 b Hi Hhs Hsh Hc Hnp [i Hfree] Hname Hsz Hprio Hargs Hg Hhs1 Hb Hx.
  destruct (stack_size_spec ssize Hsz) as (Hz1 & Hz2 & _).
  pose proof Hb as (h & Hh & Hb1 & Hb2 & [y Hy] & _). simpl in Hb1, Hb2, Hy.
  destruct (hs_each _ _ Hhs cpu h Hh) as ([_ _ _ _ Hbase [_ Hbound] _ _] & _).
  destruct (roundmb_spec (stack_size ssize)) as (Hr & _); [klia|].
  destruct (newpid_found k1 i) as (pid & Hpid & (p & Hp & Hpf) & Hn); [apply Hi|done|done|].
  simpl in Hp. destruct (Hsh pid p Hp) as [Hnl Hrl].
  exists pid, p. cbv zeta. split; [|split; [done|split; [done|split; [done|split]]]].
  - unfold created_kernel. cbv zeta.
    pose proof (create_run cpu funcaddr ssize priority name args k saddr k1 pid (set_nextpid pid k1) p
      (take 16 w ++ replicate (16 - length w) 0)) as Hrun. cbv zeta in Hrun. simpl proctab in Hrun.
    apply Hrun; try done; [|lia|lia|].
    + change (u32 SYSERR) with 4294967295. lia.
    + rewrite (strncpy_cstr _ _ w) by (done || unfold lenZ in Hnl; klia).
      rewrite drop_ge, app_nil_r by (unfold lenZ in Hnl; klia). done.
  - set (p' := created_pcb saddr (stack_size ssize) priority funcaddr
      (saddr + stack_size ssize - 16 - 4 * pads (lenZ args)) (take 16 w ++ replicate (16 - length w) 0) args p).
    assert (kinv settled (set_proctab (updZ pid p' (proctab k)) k) L) as Hi'.
    { apply (kinv_entry k L pid p p' Hi Hp); [klia| |done|done|].
      - eapply (not_queued wf RQ settled); [done|exact Hp|klia|klia].
      - intros _. simpl. rewrite swrap_small; [done|lia|]. unfold prio in Hprio.
        change (2 ^ (32 - 1)) with 2147483648. lia. }
    by apply (kinv_frame settled _ _ _) with (12 := Hi').
  - eapply heaps_wf_frame; [..|exact Hhs1]; try done. intros x Hf. cbn [memory]. apply stack_mem_out; [klia|].
    intros Hin. assert (inb b x) as Hbx by (unfold inb; simpl; lia).
    apply (free_byte_insert _ _ _ _ Hc) in Hf as [Hf|(n & Hne & Hn' & Hf)]; [by apply (proj2 (Hx x))|].
    exact (block_of_other _ _ _ _ _ _ Hhs Hb Hbx Hn' Hne Hf).
Qed.

(** C18: [create], when a process slot and a block for the stack are free,
    returns the id of a slot that was free.  The new process is suspended,
    with no core yet, the priority and (cut to size) the name given, an
    empty mailbox, a stack of the rounded size taken from the heap of the
    calling core with the accounting block at its top (the magic word, the
  id, the length and the base of the stack, downwards), the first four
    arguments in registers 0 to 3 and the others at the stack pointer, and
    it will start at the function and return to [userret].  No other
    process entry changes, [numproc] counts it, and the invariants of
    scheduler and heap hold again. *)
Theorem create_spec `{Layout} cpu k L FL funcaddr ssize priority name w args :
  kinv settled k L -> heaps_wf k FL -> pcb_shape k -> core cpu ->
  0 <= nextpid k < NPROC -> (exists i, slot_free k i) -> 0 <= numproc k < 2 ^ 31 - 1 ->
  cstr name w -> 0 <= ssize <= 2 ^ 32 - 8 -> prio priority -> lenZ args <= 1000 ->
  (exists b, b ∈ FL cpu /\ stack_size ssize <= snd b) ->
  exists pid saddr p k' l',
    let ssz := stack_size ssize in
    let p' := default p (nthZ (proctab k') pid) in
    let sp := saddr + ssz - 16 - 4 * pads (lenZ args) in
    create cpu funcaddr ssize priority name args k = Ret (pid, k') /\
    0 <= pid < NPROC /\ nthZ (proctab k) pid = Some p /\ p_state p = PRFREE /\
    proctab k' = updZ pid p' (proctab k) /\ numproc k' = numproc k + 1 /\
    p_state p' = PRSUSP /\ p_core_affinity p' = -1 /\ p_priority p' = priority /\
    p_stkbase p' = saddr /\ u32 (p_stklen p') = ssz /\ hasMessage (p_msg p') = FALSE /\
    p_name p' = take 16 w ++ replicate (16 - length w) 0 /\
    nthZ (p_regs p') PREG_PC = Some (s32 funcaddr) /\ nthZ (p_regs p') PREG_LR = Some (s32 userret_addr) /\
    nthZ (p_regs p') PREG_SP = Some (s32 sp) /\
    (forall j a, nthZ args j = Some a -> if j <? 4 then nthZ (p_regs p') j = Some a
                                         else mload (memory k') (sp + 4 * (j - 4)) = u32 a) /\
    mload (memory k') (saddr + ssz - 4) = STACKMAGIC /\ mload (memory k') (saddr + ssz - 8) = pid /\
    mload (memory k') (saddr + ssz - 12) = ssz /\ mload (memory k') (saddr + ssz - 16) = saddr /\
    block_of k cpu (saddr, roundmb ssz) /\
    kinv settled k' L /\ heaps_wf k' (<[cpu := l']> FL) /\
    (forall x, covers (FL cpu) x <-> inb (saddr, roundmb ssz) x \/ covers l' x).
Proof.
  intros Hi Hhs Hsh Hc Hnp Hfree Hnum Hname Hsz Hprio Hargs (b0 & Hb0 & Hbig).
  destruct (stack_size_spec ssize Hsz) as (Hz1 & Hz2 & _).
  assert (exists im, nthZ (cpsr k) cpu = Some im) as [im Him].
  { apply nthZ_lt_Some. rewrite (si_cpsr _ _ _ _ _ Hi). done. }
  destruct (getmem_heaps cpu k FL im (stack_size ssize) Hhs Hc Him) as
    [[_ Hno]|(saddr & k1 & l' & Hg & Hhs1 & [(m & f & ->) Hfr] & Hb & Hx)]; [klia| |].
  { specialize (Hno b0 Hb0). lia. }
  destruct (create_succeeds cpu k L FL funcaddr ssize priority name w args saddr m f l')
    as (pid & p & Hrun & Hpid & Hp & Hpf & Hi' & Hhs'); try done.
  destruct (Hsh pid p Hp) as [Hnl Hrl]. pose proof (nthZ_Some_lt _ _ _ Hp) as Hlt.
  pose proof Hb as (h & Hh & Hb1 & Hb2 & _). simpl in Hb1, Hb2.
  destruct (hs_each _ _ Hhs cpu h Hh) as ([_ _ _ _ Hbase [_ Hbound] _ _] & _).
  exists pid, saddr, p. eexists. exists l'. cbv zeta. split; [exact Hrun|].
  clear Hrun. unfold created_kernel. cbn [set_memory set_proctab set_numproc proctab numproc memory].
  rewrite (nthZ_updZ_eq pid _ (proctab k)) by done. cbn [default from_option].
  set (ssz := stack_size ssize) in *. set (sp := saddr + ssz - 16 - 4 * pads (lenZ args)).
  destruct (pads_spec (lenZ args)) as [Hp1 Hp2]; [unfold lenZ; lia|].
  assert (lenZ (args_regs 0 args (p_regs p)) = 16) as Hrl' by (by rewrite args_regs_len).
  split; [done|]. split; [done|]. split; [done|]. split; [done|].
  split. { unfold atomic_increment. simpl. rewrite swrap_small; [done|lia|].
    change (2 ^ (32 - 1)) with 2147483648. change (2 ^ 31) with 2147483648 in Hnum. lia. }
  split; [done|]. split; [done|]. split.
  { simpl. apply swrap_small; [lia|]. unfold prio in Hprio. change (2 ^ (32 - 1)) with 2147483648. lia. }
  split; [done|]. split; [simpl; rewrite wrap_swrap, wrap_small; [done|klia|lia]|]. split; [done|]. split; [done|].
  split; [simpl; rewrite nthZ_updZ_ne, nthZ_updZ_ne by done; apply nthZ_updZ_eq; unfold PREG_PC; lia|].
  split; [simpl; rewrite nthZ_updZ_ne by done; apply nthZ_updZ_eq; rewrite lenZ_updZ; unfold PREG_LR; lia|].
  split; [simpl; apply nthZ_updZ_eq; rewrite !lenZ_updZ; unfold PREG_SP; lia|].
  split. { intros j a Hj. pose proof (nthZ_Some_lt _ _ _ Hj). destruct (Z.ltb_spec j 4).
    - simpl. rewrite !nthZ_updZ_ne by (unfold PREG_SP, PREG_LR, PREG_PC; lia).
      apply (args_regs_at 0 args (p_regs p) j); [lia|unfold PREGS in Hrl; lia|done|lia].
    - unfold stack_mem. apply (args_mem_at _ 0 args _ j a); [lia|done|lia]. }
  destruct (stack_mem_top pid saddr ssz args m) as (T1 & T2 & T3 & T4).
  do 7 (split; [done|]). intros x. apply Hx.
Qed.

Lemma create_no_slot `{Layout} cpu funcaddr ssize priority name args k saddr k1 pid k2 :
  getmem cpu (stack_size ssize) k = Ret (saddr, k1) -> newpid k1 = Ret (pid, k2) ->
  saddr = u32 SYSERR \/ pid = SYSERR -> create cpu funcaddr ssize priority name args k = Ret (SYSERR, k2).
Proof.
  intros Hg Hn Hbad. unfold create. cbv zeta. fold (stack_size ssize).
  rewrite (bind_Ret _ _ _ _ _ Hg), (bind_Ret _ _ _ _ _ Hn).
  destruct Hbad as [->| ->]; rewrite Z.eqb_refl; [done|by rewrite orb_true_r].
Qed.

(** When the process table is full, [create] has already taken the
    stack from the heap; it returns [SYSERR] and the stack is lost: the block
    is on no free list and no process refers to it. *)
Theorem create_leaks_stack `{Layout} cpu k L FL funcaddr ssize priority name args :
  kinv settled k L -> heaps_wf k FL -> core cpu -> 0 <= nextpid k < NPROC ->
  (forall i, ~ slot_free k i) -> 0 <= ssize <= 2 ^ 32 - 8 ->
  (exists b, b ∈ FL cpu /\ stack_size ssize <= snd b) ->
  exists saddr k' l', create cpu funcaddr ssize priority name args k = Ret (SYSERR, k') /\
    proctab k' = proctab k /\ heaps_wf k' (<[cpu := l']> FL) /\
    (forall x, (covers (FL cpu) x <-> inb (saddr, roundmb (stack_size ssize)) x \/ covers l' x) /\
       ~ (inb (saddr, roundmb (stack_size ssize)) x /\ covers l' x)).
Proof.
  intros Hi Hhs Hc Hnp Hfull Hsz (b0 & Hb0 & Hbig).
  destruct (stack_size_spec ssize Hsz) as (Hz1 & _ & _).
  assert (exists im, nthZ (cpsr k) cpu = Some im) as [im Him].
  { apply nthZ_lt_Some. rewrite (si_cpsr _ _ _ _ _ Hi). done. }
  destruct (getmem_heaps cpu k FL im (stack_size ssize) Hhs Hc Him) as
    [[_ Hno]|(saddr & k1 & l' & Hg & Hhs1 & [(m & f & ->) Hfr] & Hb & Hx)]; [klia| |].
  { specialize (Hno b0 Hb0). lia. }
  set (k1 := set_memory m (set_freelist f k)) in *.
  destruct (newpid_full (Z.to_nat NPROC) k1) as (s & Hs & Hn); [apply Hi|done|done|].
  exists saddr, (set_nextpid s k1), l'. split; [|split; [done|split; [|done]]].
  - eapply create_no_slot; [exact Hg|exact Hn|by right].
  - by apply (heaps_wf_frame k1).
Qed.

(** ** [kill] *)

Lemma resched_start `{Layout} c k im k' :
  resched_out c k = Ret (im, k') ->
  start (resched c) k = Ret (inr (tbind (tret tt) (fun _ => lift (restore c im ;;; ret OK))), k').
Proof. intros H0. unfold resched. by rewrite (start_lift_Ret _ _ _ _ _ H0). Qed.

(** The current process of core [c] stops being eligible; null processes
    never do. *)
Lemma kinv_leave k L c x p st :
  kinv settled k L -> core c -> nthZ (currpid k) c = Some x -> nthZ (proctab k) x = Some p ->
  ~ core x -> st <> PRCURR -> st <> PRREADY ->
  kinv c (set_proctab (updZ x (set_p_state st p) (proctab k)) k) L.
Proof.
  intros Hi Hc Hcur Hp Hnull Hs1 Hs2. pose proof (nthZ_Some_lt _ _ _ Hp) as Hx.
  assert (p_state p = PRCURR /\ p_core_affinity p = c) as [Hst Haff].
  { destruct (si_cur _ _ _ _ _ Hi c Hc) as (y & q & Hy & Hq & Ha & _ & Hs).
    assert (y = x) as -> by congruence. replace p with q by congruence. split; [|done].
    apply Hs. unfold core, settled in *. lia. }
  assert (unqueued k L x) as Hu by (eapply (not_queued wf RQ settled); [done|exact Hp|klia|klia]).
  destruct Hi as [H1 H2 H3 H4 H5 H6 H7 H8 H9 H10 H11 H12 H13 H14 H15].
  set (p' := set_p_state st p).
  assert (forall y q, y <> x -> nthZ (proctab k) y = Some q -> nthZ (updZ x p' (proctab k)) y = Some q) as Hne
    by (intros y q Hy Hq; by rewrite nthZ_updZ_ne by congruence).
  assert (nthZ (updZ x p' (proctab k)) x = Some p') as Hself by (by apply nthZ_updZ_eq).
  assert (forall y q, nthZ (updZ x p' (proctab k)) y = Some q ->
    (y = x /\ q = p') \/ (y <> x /\ nthZ (proctab k) y = Some q)) as Hinv.
  { intros y q. rewrite nthZ_updZ by done. case_decide as E; [intros [= <-]; by left|]. intros Hq.
    right. split; [congruence|done]. }
  constructor; simpl; try done.
  - by apply (fq_frame (wf := wf) k).
  - destruct H2. by constructor.
  - by rewrite lenZ_updZ.
  - intros h y Hh Hy. destruct (H9 h y Hh Hy) as (q & Hq & ?). exists q. split; [|done].
    apply Hne; [|done]. intros ->. by apply (Hu h).
  - intros c' q y Hc' Hq Hy. destruct (H10 c' q y Hc' Hq Hy) as (q' & Hq' & ?). exists q'. split; [|done].
    apply Hne; [|done]. intros ->. by apply (Hu (RQ c' q)); [apply (rq_head RQ k H2)|].
  - intros y q [[-> ->]|[_ Hq]]%Hinv Hs; [done|by apply (H11 y)].
  - intros y q [[-> ->]|[_ Hq]]%Hinv Hs; [apply (H12 x p Hp); klia|by apply (H12 y)].
  - intros c' Hc'. destruct (H13 c' Hc') as (y & q & Hy & Hq & Ha & Hnr & Hs). destruct (decide (y = x)) as [->|Hyx].
    + assert (p_core_affinity p = c') as Ha' by congruence. exists x, p'.
      split; [done|]. split; [done|]. split; [done|]. split; [done|]. congruence.
    + exists y, q. split; [done|]. split; [by apply Hne|]. split; [done|]. split; [done|].
      intros _. apply Hs. unfold core, settled in *. lia.
  - intros y q [[-> ->]|[_ Hq]]%Hinv Hs; [done|by apply H14].
  - intros c' Hc'. destruct (H15 c' Hc') as (q & Hq & Ha & Hs). exists q. split; [|done].
    apply Hne; [|done]. intros ->. done.
Qed.

(** A ready process leaves its queue and stops being eligible. *)
Lemma kinv_unready k L x p h l1 l2 tab :
  kinv settled k L -> nthZ (proctab k) x = Some p -> p_state p = PRREADY -> ~ core x ->
  is_qhead k h -> L h = l1 ++ x :: l2 ->
  let k' := set_proctab (updZ x (set_p_state PRFREE p) (proctab k)) (set_queuetab tab k) in
  wf (set_queuetab tab k) (<[h := l1 ++ l2]> L) ->
  kinv settled k' (<[h := l1 ++ l2]> L).
Proof.
  intros Hi Hp Hst Hnull Hh El. cbv zeta. intros Hwf. pose proof (nthZ_Some_lt _ _ _ Hp) as Hx.
  assert (forall c, core c -> nthZ (currpid k) c <> Some x) as Hnc
    by (intros c Hc; eapply not_current; [done|done|exact Hp|klia]).
  assert (NoDup (L h)) as Hnd by (eapply (fq_nodup (wf := wf) k); [apply Hi|done]).
  rewrite El in Hnd. apply NoDup_app in Hnd as (_ & Hd & [Hx2 _]%NoDup_cons).
  assert (x ∉ l1 ++ l2) as Hni.
  { intros [Hin|Hin]%elem_of_app; [|done]. apply (Hd x Hin). left. }
  assert (forall h', is_qhead k h' -> x ∉ (<[h := l1 ++ l2]> L) h') as Hno.
  { intros h' Hh'. destruct (decide (h' = h)) as [->|Hne]; [by rewrite fn_lookup_insert|].
    rewrite fn_lookup_insert_ne by done. intros Hin. apply Hne.
    eapply (fq_disj (wf := wf) k); [apply Hi|done|done|done|]. rewrite El. set_solver. }
  assert (forall h' y, y ∈ (<[h := l1 ++ l2]> L) h' -> y ∈ L h') as Hsub.
  { intros h' y. destruct (decide (h' = h)) as [->|Hne]; [|by rewrite fn_lookup_insert_ne].
    rewrite fn_lookup_insert, El. set_solver. }
  assert (forall h' y, y <> x -> y ∈ L h' -> y ∈ (<[h := l1 ++ l2]> L) h') as Hsup.
  { intros h' y Hy. destruct (decide (h' = h)) as [->|Hne]; [|by rewrite fn_lookup_insert_ne].
    rewrite fn_lookup_insert, El. set_solver. }
  destruct Hi as [H1 H2 H3 H4 H5 H6 H7 H8 H9 H10 H11 H12 H13 H14 H15].
  set (p' := set_p_state PRFREE p).
  assert (forall y q, y <> x -> nthZ (proctab k) y = Some q -> nthZ (updZ x p' (proctab k)) y = Some q) as Hne
    by (intros y q Hy Hq; by rewrite nthZ_updZ_ne by congruence).
  assert (forall y q, nthZ (updZ x p' (proctab k)) y = Some q ->
    (y = x /\ q = p') \/ (y <> x /\ nthZ (proctab k) y = Some q)) as Hinv.
  { intros y q. rewrite nthZ_updZ by done. case_decide as E; [intros [= <-]; by left|]. intros Hq.
    right. split; [congruence|done]. }
  constructor; simpl; try done.
  - by apply (fq_frame (wf := wf) (set_queuetab tab k)).
  - destruct H2. by constructor.
  - by rewrite lenZ_updZ.
  - intros h' y Hh' Hy. destruct (H9 h' y Hh' (Hsub _ _ Hy)) as (q & Hq & ?). exists q. split; [|done].
    apply Hne; [|done]. intros ->. by apply (Hno h').
  - intros c q y Hc Hq Hy. destruct (H10 c q y Hc Hq (Hsub _ _ Hy)) as (q' & Hq' & ?). exists q'.
    split; [|done]. apply Hne; [|done]. intros ->. by apply (Hno (RQ c q)); [apply (rq_head RQ k H2)|].
  - intros y q [[-> ->]|[Hyx Hq]]%Hinv Hs; [done|].
    destruct (H11 y q Hq Hs) as [Hc (pr & Hpr & Hin)]. split; [done|]. exists pr. split; [done|]. by apply Hsup.
  - intros y q [[-> ->]|[_ Hq]]%Hinv Hs; [apply (H12 x p Hp); klia|by apply (H12 y)].
  - intros c Hc. destruct (H13 c Hc) as (y & q & Hy & Hq & ?). exists y, q. split; [done|]. split; [|done].
    apply Hne; [|done]. intros ->. by apply (Hnc c).
  - intros y q [[-> ->]|[_ Hq]]%Hinv Hs; [done|by apply H14].
  - intros c Hc. destruct (H15 c Hc) as (q & Hq & Ha & Hs). exists q. split; [|done].
    apply Hne; [|done]. intros ->. done.
Qed.

(** The stack of a process: a block of core [n] none of whose bytes is free. *)
Definition owns_stack (k : kernel) (FL : Z -> list block) (p : pcb) (n : Z) : Prop :=
  let b := (p_stkbase p, roundmb (u32 (p_stklen p))) in
  0 < u32 (p_stklen p) <= 2 ^ 32 - 8 /\ core n /\ block_of k n b /\ forall x, inb b x -> ~ covers (FL n) x.

Lemma kill_accepts cpu k pid p :
  lenZ (proctab k) = NPROC -> nthZ (proctab k) pid = Some p -> p_state p <> PRFREE -> 4 <= pid ->
  p_core_affinity p = cpu -> core cpu -> kill_refused cpu pid k = Ret (false, k).
Proof.
  intros Hl Hp Hs Hpid Ha Hc. pose proof (nthZ_Some_lt _ _ _ Hp). unfold kill_refused.
  erewrite bind_Ret by (apply isbadpid_live; split; [lia|by exists p]).
  repeat rewrite (proj2 (Z.eqb_neq _ pid)) by lia. cbn [orb].
  rewrite (bind_rd_proc _ _ _ _ Hp), Ha, wrap_small, Z.eqb_refl by (unfold core in Hc; klia).
  rewrite (proj2 (Z.eqb_neq PRFREE _)) by congruence. done.
Qed.

(** [kill] gives the stack back. *)
Lemma kill_release_run cpu k FL pid p n im :
  heaps_wf k FL -> nthZ (cpsr k) cpu = Some im -> nthZ (proctab k) pid = Some p -> owns_stack k FL p n ->
  exists m f l', let k' := set_numproc (atomic_decrement (numproc k)) (set_memory m (set_freelist f k)) in
    kill_release cpu pid k = Ret (p_state p, k') /\ heaps_wf k' (<[n := l']> FL) /\
    heap_frame k (set_memory m (set_freelist f k)) /\
    forall x, covers l' x <-> covers (FL n) x \/ inb (p_stkbase p, roundmb (u32 (p_stklen p))) x.
Proof.
  intros Hhs Him Hp (Hsz & Hn & Hb & Hno).
  set (k0 := set_numproc (atomic_decrement (numproc k)) k).
  assert (heaps_wf k0 FL) as Hhs0 by (by apply (heaps_wf_frame k)).
  destruct (freemem_heaps cpu n k0 FL im (p_stkbase p) (u32 (p_stklen p)) Hhs0 Him Hsz Hb Hno)
    as (k1 & l' & Hrun & Hhs1 & [(m & f & ->) Hfr] & Hx).
  exists m, f, l'. cbv zeta. split; [|split; [done|split; [|done]]].
  2: { split; [by exists m, f|exact Hfr]. }
  unfold kill_release. rewrite bind_modify, (bind_rd_proc _ p) by exact Hp. fold k0.
  rewrite (bind_Ret _ _ _ _ _ Hrun), (bind_rd_proc _ p) by exact Hp. done.
Qed.

Lemma kill_refused_run `{Layout} cpu k pid :
  lenZ (proctab k) = NPROC -> core cpu ->
  pid < 4 \/ NPROC <= pid \/ (exists p, nthZ (proctab k) pid = Some p /\
    (p_state p = PRFREE \/ u32 (p_core_affinity p) <> cpu)) ->
  start (kill cpu pid) k = Ret (inl SYSERR, k).
Proof.
  intros Hl Hc Hcase. unfold kill. rewrite (start_lift_Ret _ _ _ true k); [done|].
  unfold kill_refused, isbadpid.
  destruct (Z.ltb_spec pid 0), (Z.leb_spec NPROC pid); try done. cbn [orb].
  destruct (nthZ_lt_Some (proctab k) pid) as [p Hp]; [lia|].
  rewrite bind_assoc, (bind_rd_proc _ _ _ _ Hp), bind_ret_l.
  destruct (Z.eqb_spec PRFREE (p_state p)) as [Hf|Hf]; [done|]. cbn [orb].
  destruct (Z.eqb_spec 0 pid), (Z.eqb_spec 1 pid), (Z.eqb_spec 2 pid), (Z.eqb_spec 3 pid); try done.
  cbn [orb]. rewrite (bind_rd_proc _ _ _ _ Hp).
  destruct Hcase as [?|[?|(q & Hq & Hs)]]; [lia|lia|]. replace q with p in Hs by congruence.
  destruct Hs as [?|Hs]; [congruence|]. by rewrite (proj2 (Z.eqb_neq cpu _)) by congruence.
Qed.

(** C39: [kill] refuses, with [SYSERR] and without any effect, an id out of
    range or of a free slot, the null processes, and a process that belongs
    to another core. *)
Theorem kill_refuses `{Layout} cpu k pid :
  lenZ (proctab k) = NPROC -> core cpu ->
  pid < 4 \/ NPROC <= pid \/ (exists p, nthZ (proctab k) pid = Some p /\
    (p_state p = PRFREE \/ u32 (p_core_affinity p) <> cpu)) ->
  start (kill cpu pid) k = Ret (inl SYSERR, k).
Proof. apply kill_refused_run. Qed.

(** C20: [kill] of a ready process of the calling core takes it out of its
    ready queue without disturbing the order of the others, gives its stack
    back to the heap it came from, frees its slot, counts it out, returns
    [OK], and leaves the invariants of scheduler and heap. *)
Theorem kill_ready `{Layout} cpu k L FL pid p n :
  kinv settled k L -> heaps_wf k FL -> core cpu -> nthZ (proctab k) pid = Some p ->
  p_state p = PRREADY -> p_core_affinity p = cpu -> 4 <= pid -> owns_stack k FL p n ->
  exists k' h l1 l2 l',
    start (kill cpu pid) k = Ret (inl OK, k') /\ is_qhead k h /\ L h = l1 ++ pid :: l2 /\
    kinv settled k' (<[h := l1 ++ l2]> L) /\
    proctab k' = updZ pid (set_p_state PRFREE p) (proctab k) /\
    numproc k' = s32 (numproc k - 1) /\ heaps_wf k' (<[n := l']> FL) /\
    forall x, covers l' x <-> covers (FL n) x \/ inb (p_stkbase p, roundmb (u32 (p_stklen p))) x.
Proof.
  intros Hi Hhs Hc Hp Hst Ha Hpid Hown. pose proof (nthZ_Some_lt _ _ _ Hp) as Hlt.
  destruct (nthZ_lt_Some (cpsr k) cpu) as [im Him]; [by rewrite (si_cpsr _ _ _ _ _ Hi)|].
  destruct (kill_release_run cpu k FL pid p n im Hhs Him Hp Hown) as (m & f & l' & Hrel & Hhs' & _ & Hx).
  set (k1 := set_numproc _ _) in *.
  assert (kinv settled k1 L) as Hi1 by (by apply (kinv_frame settled k)).
  destruct (si_ready _ _ _ _ _ Hi pid p Hp Hst) as [Hca (pr & Hpr & Hin)]. rewrite Ha in Hin.
  assert (is_qhead k (RQ cpu pr)) as Hh by (apply (rq_head RQ k (si_rq _ _ _ _ _ Hi)); done).
  apply list_elem_of_split in Hin as (l1 & l2 & El).
  rewrite (si_proctab _ _ _ _ _ Hi) in Hlt.
  destruct (fq_remove (wf := wf) cpu k1 L (RQ cpu pr) l1 pid l2) as (tab & Hrem & Hwf).
  { apply Hi1. } { done. } { split; [done|]. exists p. split; [done|klia]. } { done. }
  eexists. exists (RQ cpu pr), l1, l2, l'.
  split; [|split; [done|split; [done|]]].
  - unfold kill. erewrite start_lift_Ret by (apply (kill_accepts cpu k pid p); try done; [apply Hi|klia]).
    cbv beta iota. erewrite start_lift_Ret by exact Hrel. rewrite Hst. cbn [Z.eqb].
    rewrite (proj2 (Z.eqb_neq PRREADY PRCURR)), Z.eqb_refl by done.
    erewrite start_lift_Ret by (by rewrite (bind_Ret _ _ _ _ _ Hrem)).
    rewrite start_lift, (bind_upd_proc _ p) by exact Hp. done.
  - split; [|split; [done|split; [done|split; [|done]]]].
    + apply (kinv_unready k1 L pid p (RQ cpu pr) l1 l2 tab); try done.
      unfold core. klia.
    + by apply (heaps_wf_frame k1).
Qed.

(** C19: [kill] of the process that runs on the calling core (by itself, or
    by [userret] when its function returns) gives its stack back, frees its
    slot and switches to another process; the dead process is in no queue,
    so it is not switched to again, and the invariants of scheduler and heap
    hold. *)
Theorem kill_current `{Layout} cpu k L FL pid p n :
  kinv settled k L -> heaps_wf k FL -> core cpu -> nthZ (currpid k) cpu = Some pid ->
  nthZ (proctab k) pid = Some p -> 4 <= pid -> owns_stack k FL p n ->
  exists rest k' L' l' new p',
    start (kill cpu pid) k = Ret (inr rest, k') /\ start (userret cpu) k = Ret (inr rest, k') /\
    kinv settled k' L' /\ nthZ (currpid k') cpu = Some new /\ new <> pid /\
    nthZ (proctab k') pid = Some p' /\ p_state p' = PRFREE /\ unqueued k' L' pid /\
    numproc k' = s32 (numproc k - 1) /\ heaps_wf k' (<[n := l']> FL) /\
    forall x, covers l' x <-> covers (FL n) x \/ inb (p_stkbase p, roundmb (u32 (p_stklen p))) x.
Proof.
  intros Hi Hhs Hc Hcur Hp Hpid Hown.
  assert (p_state p = PRCURR /\ p_core_affinity p = cpu) as [Hst Ha].
  { destruct (si_cur _ _ _ _ _ Hi cpu Hc) as (y & q & Hy & Hq & Ha & _ & Hs).
    assert (y = pid) as -> by congruence. replace p with q by congruence. split; [|done].
    apply Hs. unfold core, settled in *. lia. }
  destruct (nthZ_lt_Some (cpsr k) cpu) as [im Him]; [by rewrite (si_cpsr _ _ _ _ _ Hi)|].
  destruct (kill_release_run cpu k FL pid p n im Hhs Him Hp Hown) as (m & f & l' & Hrel & Hhs' & _ & Hx).
  set (k1 := set_numproc _ _) in *.
  assert (kinv settled k1 L) as Hi1 by (by apply (kinv_frame settled k)).
  assert (~ core pid) as Hnn by (unfold core; klia).
  pose proof (kinv_leave k1 L cpu pid p PRFREE Hi1 Hc Hcur Hp Hnn ltac:(done) ltac:(done)) as Hi2.
  pose proof (nthZ_Some_lt _ _ _ Hp) as Hlt.
  set (k2 := set_proctab _ k1) in *. set (pd := set_p_state PRFREE p) in *.
  assert (nthZ (proctab k2) pid = Some pd) as Hp2 by (by apply nthZ_updZ_eq).
  destruct (resched_out_run wf RQ cpu cpu k2 L pid pd Hi2 Hc Hcur Hp2)
    as (im' & r & new & s' & tab & pt' & pn & Him' & Hr & Hspec & Hpt & Hpn & Hrun & Hwf); [done|].
  pose proof (resched_inv wf RQ cpu cpu k2 L pid pd new s' Hi2 Hc (or_introl eq_refl) Hcur Hp2 
    ltac:(done) Hspec (updZ 0 (regs_addr pid) (updZ 1 (regs_addr new) r)) im' pn pt' tab Hpt Hwf) as Hinv.
  set (k3 := after_switch _ _ _ _ _ _ _ _) in *.
  assert (new <> pid) as Hne.
  { intros ->. destruct (chosen wf RQ cpu cpu k2 L pid pd pid s' Hi2 Hc Hcur Hp2 Hspec)
      as (q & Hq & _ & [[_ Hb]|Hs]); [done|]. rewrite Hp2 in Hq. injection Hq as <-. done. }
  assert (nthZ (proctab k3) pid = Some (switched (updZ 0 (regs_addr pid) (updZ 1 (regs_addr new) r)) pid new false pid pd)) as Hp3.
  { simpl. by rewrite Hpt, Hp2. }
  assert (p_state (switched (updZ 0 (regs_addr pid) (updZ 1 (regs_addr new) r)) pid new false pid pd) = PRFREE) as Hs3.
  { destruct (switched_fields (updZ 0 (regs_addr pid) (updZ 1 (regs_addr new) r)) pid new false pid pd) as (_ & _ & ->).
    rewrite (proj2 (Z.eqb_neq pid new)) by congruence. by rewrite andb_false_r. }
  assert (exists rest, start (kill cpu pid) k = Ret (inr rest, k3)) as [rest Hkill].
  { unfold kill. erewrite start_lift_Ret by (apply (kill_accepts cpu k pid p); try done; [apply Hi|klia]).
    cbv beta iota. erewrite start_lift_Ret by exact Hrel. rewrite Hst, Z.eqb_refl.
    eexists. eapply start_bind_inr. rewrite (start_lift_Ret _ _ _ tt k2).
    - eapply start_bind_inr. by apply resched_start.
    - unfold upd_proc. by rewrite (bind_rd_proc _ p) by exact Hp. }
  exists rest, k3, (setq RQ cpu s' L), l', new. eexists. split; [done|]. split.
  { unfold userret. rewrite (start_lift_Ret _ _ _ pid k); [done|]. unfold rd_currpid. by rewrite Hcur. }
  split; [done|]. split; [simpl; apply nthZ_updZ_eq; by rewrite (si_currpid _ _ _ _ _ Hi)|].
  split; [done|]. split; [exact Hp3|]. split; [done|]. split; [|split; [done|split; [|done]]].
  - eapply (not_queued wf RQ settled); [exact Hinv|exact Hp3|klia|klia].
  - by apply (heaps_wf_frame k1).
Qed.

End Ops.
