(* ===== verification/Message.v ===== *)
(** * Message passing (system/send.c, sendnow.c, recv.c, recvnow.c)

    A process has room for one message; senders that find it taken wait in
    the receiver's queue with their message in their own entry.  [mbox] is
    the mailbox this makes: the pending messages, oldest first. *)

From stdpp Require Import base numbers functions list gmap.
From S2P Require Import Prelude Kernel Spinlock Queue Memory Thread Proc ProcOps.

(** ** Definitions *)

(** How [send] goes on after its critical section. *)
Inductive send_next :=
  | SendReturn (r : Z)
  | SendBlock               (* resched() *)
  | SendWake (affinity : Z) (* ready(pid, RESCHED_YES, affinity) *).

Definition upd_msg (pid : Z) (f : pmessage -> pmessage) : K unit := upd_proc pid (upd_p_msg f).

(** lock_release(rpcb->msg_var.core_com_lock); v *)
Definition com_release {A} (pid : Z) (v : A) : K A :=
  p <-- rd_proc pid ;; lock_release (core_com_lock (p_msg p)) ;;; ret v.

Definition send_locked (cpu pid msg : Z) : K send_next :=
  cur <-- rd_currpid cpu ;;
  rp <-- rd_proc pid ;;
  lock_acquire cpu (core_com_lock (p_msg rp)) ;;;
  rp <-- rd_proc pid ;;
  if PRFREE =? p_state rp then com_release pid (SendReturn SYSERR)
  else if TRUE =? hasMessage (p_msg rp) then
    upd_msg cur (set_msgout msg) ;;;
    upd_proc cur (set_p_state PRSEND) ;;;
    rp <-- rd_proc pid ;;
    enqueue cpu cur (msgqueue (p_msg rp)) ;;;
    com_release pid SendBlock
  else
    upd_msg pid (set_msgin msg) ;;;
    upd_msg pid (set_hasMessage TRUE) ;;;
    rp <-- rd_proc pid ;;
    if PRRECV =? p_state rp then com_release pid (SendWake (p_core_affinity rp))
    else com_release pid (SendReturn OK).

Definition send `{Layout} (cpu pid msg : Z) : thread Z :=
  bad <== lift (isbadpid pid) ;;
  if (bad : bool) then tret SYSERR
  else
    next <== lift (send_locked cpu pid msg) ;;
    match next with
    | SendReturn r => tret r
    | SendBlock => resched cpu ;;== tret OK
    | SendWake a => ready cpu pid true a ;;== tret OK
    end.

(** The lock is taken before the process id is checked. *)
Definition sendnow_locked (cpu pid msg : Z) : K send_next :=
  p <-- rd_proc pid ;;
  lock_acquire cpu (core_com_lock (p_msg p)) ;;;
  bad <-- isbadpid pid ;;
  if (bad : bool) then com_release pid (SendReturn SYSERR)
  else
    p <-- rd_proc pid ;;
    if (PRFREE =? p_state p) || negb (hasMessage (p_msg p) =? 0) then com_release pid (SendReturn SYSERR)
    else
      upd_msg pid (set_msgin msg) ;;;
      upd_msg pid (set_hasMessage TRUE) ;;;
      p <-- rd_proc pid ;;
      if PRRECV =? p_state p then com_release pid (SendWake (p_core_affinity p))
      else com_release pid (SendReturn OK).

Definition sendnow `{Layout} (cpu pid msg : Z) : thread Z :=
  next <== lift (sendnow_locked cpu pid msg) ;;
  match next with
  | SendWake a => ready cpu pid false a ;;== tret OK
  | SendReturn r => tret r
  | SendBlock => tret OK
  end.

(** Take the lock; when there is no message, wait for one: [true] when the
    process has to reschedule. *)
Definition recv_wait (cpu cur : Z) : K bool :=
  p <-- rd_proc cur ;;
  lock_acquire cpu (core_com_lock (p_msg p)) ;;;
  p <-- rd_proc cur ;;
  if FALSE =? hasMessage (p_msg p) then
    upd_proc cur (set_p_state PRRECV) ;;;
    com_release cur true
  else ret false.

(** With the lock held: collect the message, and the next one from the first
    waiting sender, which is returned. *)
Definition recv_take (cpu cur : Z) : K (Z * option (Z * Z)) :=
  p <-- rd_proc cur ;;
  let msg := msgin (p_msg p) in
  b <-- nonempty (msgqueue (p_msg p)) ;;
  if (b : bool) then
    senderpid <-- dequeue cpu (msgqueue (p_msg p)) ;;
    sp <-- rd_proc senderpid ;;
    upd_msg cur (set_msgin (msgout (p_msg sp))) ;;;
    upd_msg senderpid (set_msgout EMPTY) ;;;
    com_release cur tt ;;;
    sp <-- rd_proc senderpid ;;
    ret (msg, Some (senderpid, p_core_affinity sp))
  else
    upd_msg cur (set_hasMessage FALSE) ;;;
    com_release cur tt ;;;
    ret (msg, None).

Definition recv_finish `{Layout} (cpu cur : Z) : thread Z :=
  r <== lift (recv_take cpu cur) ;;
  match snd r with
  | Some (senderpid, affinity) => ready cpu senderpid false affinity ;;== tret (fst r)
  | None => tret (fst r)
  end.

Definition recv `{Layout} (cpu : Z) : thread Z :=
  cur <== lift (rd_currpid cpu) ;;
  wait <== lift (recv_wait cpu cur) ;;
  (if (wait : bool) then
     resched cpu ;;==
     lift (p <-- rd_proc cur ;; lock_acquire cpu (core_com_lock (p_msg p)) ;;; ret tt)
   else tret tt) ;;==
  recv_finish cpu cur.

Definition recvnow (cpu : Z) : K Z :=
  cur <-- rd_currpid cpu ;;
  p <-- rd_proc cur ;;
  lock_acquire cpu (core_com_lock (p_msg p)) ;;;
  p <-- rd_proc cur ;;
  if FALSE =? hasMessage (p_msg p) then com_release cur SYSERR
  else
    let msg := msgin (p_msg p) in
    upd_msg cur (set_hasMessage FALSE) ;;;
    com_release cur msg.

(** ** The invariant of mailboxes *)

Section Mail.
Context (QL : Z -> Z) (RQ : Z -> Z -> Z) (MQ : Z -> Z).
Local Abbreviation kinv := (sched_inv (queues_at QL) RQ).

(** Every process has a queue of its own and a lock that is no queue's;
    only senders wait in such a queue, and nobody waits for a receiver
    that has room for a message. *)
Record mail_inv (k : kernel) (L : Z -> list Z) : Prop := {
  mi_queue : forall i p, nthZ (proctab k) i = Some p ->
    msgqueue (p_msg p) = qid (MQ i) /\ is_qhead k (MQ i);
  mi_inj : forall i j, 0 <= i < NPROC -> 0 <= j < NPROC -> MQ i = MQ j -> i = j;
  mi_apart : forall i c q, 0 <= i < NPROC -> core c -> prio q -> MQ i <> RQ c q;
  mi_lock : forall i p, nthZ (proctab k) i = Some p -> 0 <= core_com_lock (p_msg p) < NLOCK /\
    at_rest k (core_com_lock (p_msg p)) /\ forall h, is_qhead k h -> QL h <> core_com_lock (p_msg p);
  mi_flag : forall i p, nthZ (proctab k) i = Some p ->
    hasMessage (p_msg p) = TRUE \/ (hasMessage (p_msg p) = FALSE /\ L (MQ i) = []);
  mi_send : forall i x, 0 <= i < NPROC -> x ∈ L (MQ i) -> exists p,
    nthZ (proctab k) x = Some p /\ p_state p = PRSEND /\ core (p_core_affinity p)
}.

Definition msgout_of (k : kernel) (y : Z) : Z :=
  default 0 ((fun p => msgout (p_msg p)) <$> nthZ (proctab k) y).

(** The pending messages of process [i], oldest first. *)
Definition mbox (k : kernel) (L : Z -> list Z) (i : Z) : list Z :=
  match nthZ (proctab k) i with
  | Some p => if hasMessage (p_msg p) =? TRUE
              then msgin (p_msg p) :: (msgout_of k <$> L (MQ i)) else []
  | None => []
  end.

Lemma mail_frame k k' L :
  proctab k' = proctab k -> locktab k' = locktab k -> nextqueue k' = nextqueue k ->
  mail_inv k L -> mail_inv k' L.
Proof.
  intros E1 E2 E3 [M1 M2 M3 M4 M5 M6].
  assert (forall h, is_qhead k' h <-> is_qhead k h) as Hq by (intros h; unfold is_qhead; by rewrite E3).
  constructor; rewrite ?E1; try done.
  - intros i p Hp. rewrite Hq. by apply M1.
  - intros i p Hp. unfold at_rest. rewrite E2. setoid_rewrite Hq. by apply (M4 i p).
Qed.

(** One entry changes, and lists that are no mailbox's. *)
Lemma mail_upd k L k' L' x p p' :
  mail_inv k L -> lenZ (proctab k) = NPROC -> nthZ (proctab k) x = Some p ->
  proctab k' = updZ x p' (proctab k) -> locktab k' = locktab k -> nextqueue k' = nextqueue k ->
  msgqueue (p_msg p') = msgqueue (p_msg p) -> core_com_lock (p_msg p') = core_com_lock (p_msg p) ->
  (forall i, 0 <= i < NPROC -> L' (MQ i) = L (MQ i)) ->
  (forall i, 0 <= i < NPROC -> x ∈ L (MQ i) -> p_state p' = PRSEND /\ core (p_core_affinity p')) ->
  hasMessage (p_msg p') = TRUE \/ (hasMessage (p_msg p') = FALSE /\ L (MQ x) = []) ->
  mail_inv k' L'.
Proof.
  intros [M1 M2 M3 M4 M5 M6] Hlen Hp E1 E2 E3 E4 E5 HL Hs Hf.
  pose proof (nthZ_Some_lt _ _ _ Hp) as Hx. rewrite Hlen in Hx.
  assert (forall h, is_qhead k' h <-> is_qhead k h) as Hq by (intros h; unfold is_qhead; by rewrite E3).
  assert (forall i q, nthZ (updZ x p' (proctab k)) i = Some q ->
    (i = x /\ q = p') \/ (i <> x /\ nthZ (proctab k) i = Some q)) as Hinv.
  { intros i q. rewrite nthZ_updZ by lia. case_decide as E; [intros [= <-]; by left|].
    intros Hi. right. split; [congruence|done]. }
  constructor; rewrite ?E1; try done.
  - intros i q [[-> ->]|[_ Hi]]%Hinv; rewrite Hq; [rewrite E4|]; by apply M1.
  - intros i q [[-> ->]|[_ Hi]]%Hinv; unfold at_rest; rewrite E2, ?E5; setoid_rewrite Hq;
      [by apply (M4 x p)|by apply (M4 i q)].
  - intros i q [[-> ->]|[Hne Hi]]%Hinv; (rewrite HL; [|by rewrite <- Hlen; eapply nthZ_Some_lt]); [done|].
    by apply M5.
  - intros i y Hi. rewrite HL by done. intros Hy. destruct (M6 i y Hi Hy) as (q & Hq' & Hs').
    destruct (decide (y = x)) as [->|Hne].
    + exists p'. split; [apply nthZ_updZ_eq; lia|by apply (Hs i)].
    + exists q. split; [by rewrite nthZ_updZ_ne by congruence|done].
Qed.

(** Entering and leaving the critical section of process [i]'s mailbox. *)
Lemma com_release_run {A} cpu k i p (v : A) :
  nthZ (proctab k) i = Some p -> 0 <= core_com_lock (p_msg p) < NLOCK ->
  nthZ (locktab k) (core_com_lock (p_msg p)) = Some (heldby cpu) ->
  com_release i v k =
  Ret (v, set_locktab (updZ (core_com_lock (p_msg p)) unheld (locktab k)) k).
Proof.
  intros Hp Hl Hh. unfold com_release. rewrite (bind_rd_proc _ _ _ _ Hp).
  by rewrite (bind_release cpu).
Qed.

Lemma bind_upd_msg {B} i p f (c : unit -> K B) k :
  nthZ (proctab k) i = Some p ->
  bind (upd_msg i f) c k = c tt (set_proctab (updZ i (upd_p_msg f p) (proctab k)) k).
Proof. apply bind_upd_proc. Qed.

(** The message put in the receiver's entry. *)
Definition deposit (msg : Z) (p : pcb) : pcb :=
  upd_p_msg (fun m => set_hasMessage TRUE (set_msgin msg m)) p.

Lemma send_locked_deposit cpu k L pid p cur msg :
  mail_inv k L -> nthZ (currpid k) cpu = Some cur -> nthZ (proctab k) pid = Some p ->
  p_state p <> PRFREE -> hasMessage (p_msg p) = FALSE ->
  send_locked cpu pid msg k =
  Ret (if PRRECV =? p_state p then SendWake (p_core_affinity p) else SendReturn OK,
       set_proctab (updZ pid (deposit msg p) (proctab k)) k).
Proof.
  intros Hm Hcur Hp Hs Hf. destruct (mi_lock _ _ Hm pid p Hp) as (Hl & Hrest & _).
  pose proof (nthZ_Some_lt _ _ _ Hp) as Hx. pose proof (nthZ_Some_lt _ _ _ Hrest) as Hlr.
  unfold send_locked. rewrite (bind_rd_currpid _ _ _ _ Hcur), (bind_rd_proc _ _ _ _ Hp).
  rewrite bind_acquire by done. rewrite (bind_rd_proc _ p) by exact Hp.
  rewrite (proj2 (Z.eqb_neq PRFREE (p_state p))), Hf by congruence.
  change (TRUE =? FALSE) with false. cbv beta iota.
  rewrite (bind_upd_msg _ p) by exact Hp.
  rewrite (bind_upd_msg _ (upd_p_msg (set_msgin msg) p)) by (simpl; by apply nthZ_updZ_eq).
  rewrite (bind_rd_proc _ (deposit msg p)) by (simpl; rewrite updZ_updZ; by apply nthZ_updZ_eq).
  cbn [p_state deposit upd_p_msg p_core_affinity]. simpl. rewrite updZ_updZ.
  destruct (PRRECV =? p_state p); erewrite com_release_run;
    try (simpl; apply nthZ_updZ_eq; done); try done; simpl; rewrite release_acquire_tab by done; by destruct k.
Qed.

(** *** Waiting in a mailbox *)

Lemma kinv_park t k L h x p tab :
  kinv t k L -> nthZ (proctab k) x = Some p -> p_state p = PRSEND ->
  (forall c q, core c -> prio q -> h <> RQ c q) ->
  let L' := <[h := L h ++ [x]]> L in
  queues_at QL (set_queuetab tab k) L' -> kinv t (set_queuetab tab k) L'.
Proof.
  intros Hi Hp Hst Hh. cbv zeta. intros Hwf.
  destruct Hi as [H1 H2 H3 H4 H5 H6 H7 H8 H9 H10 H11 H12 H13 H14 H15].
  assert (forall c q, core c -> prio q -> (<[h := L h ++ [x]]> L) (RQ c q) = L (RQ c q)) as HL
    by (intros c q Hc Hq; rewrite fn_lookup_insert_ne by (by apply Hh); done).
  constructor; try done.
  - destruct H2. by constructor.
  - intros h' y Hh'. destruct (decide (h' = h)) as [->|Hne];
      [rewrite fn_lookup_insert|rewrite fn_lookup_insert_ne by done; by apply H9].
    intros [Hy|Hy%list_elem_of_singleton]%elem_of_app; [by apply (H9 h)|subst]. exists p. auto.
  - intros c q y Hc Hq. rewrite HL by done. by apply H10.
  - intros y q Hy Hs. destruct (H11 y q Hy Hs) as [Hc (pr & Hpr & Hin)]. split; [done|].
    exists pr. split; [done|]. by rewrite HL.
Qed.

Lemma mail_park k L i x p tab :
  mail_inv k L -> nthZ (proctab k) x = Some p -> p_state p = PRSEND -> core (p_core_affinity p) ->
  0 <= i < NPROC ->
  (forall q, nthZ (proctab k) i = Some q -> hasMessage (p_msg q) = TRUE) -> lenZ (proctab k) = NPROC ->
  mail_inv (set_queuetab tab k) (<[MQ i := L (MQ i) ++ [x]]> L).
Proof.
  intros [M1 M2 M3 M4 M5 M6] Hp Hs Ha Hi Hf Hlen. constructor; try done.
  - intros j q Hj. assert (0 <= j < NPROC) as Hjr by (rewrite <- Hlen; by eapply nthZ_Some_lt).
    destruct (decide (j = i)) as [->|Hne]; [left; by apply Hf|].
    rewrite fn_lookup_insert_ne; [by apply M5|]. intros E. by apply Hne, M2.
  - intros j y Hj. destruct (decide (j = i)) as [->|Hne].
    + rewrite fn_lookup_insert. intros [Hy|Hy%list_elem_of_singleton]%elem_of_app; [by apply (M6 i)|].
      subst. by exists p.
    + rewrite fn_lookup_insert_ne; [by apply M6|]. intros E. by apply Hne, M2.
Qed.

(** The sender's entry while it waits. *)
Definition parked (msg : Z) (p : pcb) : pcb := set_p_state PRSEND (upd_p_msg (set_msgout msg) p).

Lemma send_locked_block cpu k L pid p cur pc msg :
  kinv settled k L -> mail_inv k L -> nthZ (currpid k) cpu = Some cur -> nthZ (proctab k) cur = Some pc ->
  nthZ (proctab k) pid = Some p -> cur <> pid -> core cpu ->
  p_state p <> PRFREE -> hasMessage (p_msg p) = TRUE ->
  exists tab, send_locked cpu pid msg k =
    Ret (SendBlock, set_queuetab tab (set_proctab (updZ cur (parked msg pc) (proctab k)) k)) /\
    queues_at QL (set_queuetab tab k) (<[MQ pid := L (MQ pid) ++ [cur]]> L).
Proof.
  intros Hi Hm Hcur Hpc Hp Hne Hc Hs Hf.
  destruct (mi_lock _ _ Hm pid p Hp) as (Hl & Hrest & Hlq).
  destruct (mi_queue _ _ Hm pid p Hp) as [Eq Hq].
  pose proof (nthZ_Some_lt _ _ _ Hpc) as Hx. pose proof (nthZ_Some_lt _ _ _ Hrest) as Hlr.
  assert (p_state pc = PRCURR) as Hst.
  { destruct (si_cur _ _ _ _ _ Hi cpu Hc) as (y & q & Hy & Hq' & _ & _ & Hst).
    replace pc with q by congruence. apply Hst. unfold core, settled in *. lia. }
  set (l := core_com_lock (p_msg p)) in *.
  set (k1 := set_proctab (updZ cur (parked msg pc) (proctab k))
    (set_locktab (updZ l (heldby cpu) (locktab k)) k)).
  destruct (fq_enqueue (wf := queues_at QL) cpu k1 L (MQ pid) cur) as (tab & Hrun & Hwf).
  - apply (fq_frame (wf := queues_at QL) (set_locktab (updZ l (heldby cpu) (locktab k)) k)); [done..|].
    by apply queues_at_lock; [apply Hi| |].
  - done.
  - split; [rewrite <- (si_proctab _ _ _ _ _ Hi); done|]. exists (parked msg pc).
    split; [by apply nthZ_updZ_eq|done].
  - apply (not_queued (queues_at QL) RQ settled k L cur pc Hi Hpc); klia.
  - exists tab. split.
    + unfold send_locked. rewrite (bind_rd_currpid _ _ _ _ Hcur), (bind_rd_proc _ _ _ _ Hp).
      rewrite bind_acquire by done. rewrite (bind_rd_proc _ p) by exact Hp.
      rewrite (proj2 (Z.eqb_neq PRFREE (p_state p))), Hf by congruence.
      change (TRUE =? TRUE) with true. cbv beta iota.
      rewrite (bind_upd_msg _ pc) by exact Hpc.
      rewrite (bind_upd_proc _ (upd_p_msg (set_msgout msg) pc)) by (simpl; by apply nthZ_updZ_eq).
      simpl. rewrite updZ_updZ.
      rewrite (bind_rd_proc _ p) by (simpl; by rewrite nthZ_updZ_ne by congruence).
      rewrite Eq. fold (parked msg pc). rewrite (bind_Ret _ _ _ _ _ Hrun).
      erewrite (com_release_run cpu); [|simpl; rewrite nthZ_updZ_ne by congruence; exact Hp|done|].
      * simpl. rewrite release_acquire_tab by done. by destruct k.
      * simpl. by apply nthZ_updZ_eq.
    + assert (queues_at QL (set_locktab (updZ l unheld (locktab (set_queuetab tab k1))) (set_queuetab tab k1))
        (<[MQ pid := L (MQ pid) ++ [cur]]> L)) as Hwf'.
      { apply queues_at_lock; [done|simpl; by rewrite lenZ_updZ|done]. }
      eapply (fq_frame (wf := queues_at QL)); [..|exact Hwf']; try done.
      simpl. by rewrite release_acquire_tab.
Qed.

Lemma switched_msg r x new back y p : p_msg (switched r x new back y p) = p_msg p.
Proof. unfold switched. by destruct (y =? x). Qed.

(** Mailboxes across a context switch. *)
Lemma mail_switch `{Layout} t c k L x p new s' r im pn pt' tab :
  kinv t k L -> mail_inv k L -> core c -> t = c \/ t = settled ->
  nthZ (currpid k) c = Some x -> nthZ (proctab k) x = Some p ->
  let isback := PRCURR =? p_state p in
  spec_resched x (if isback then Some (p_priority p) else None) (abs RQ k L c) = Some (new, s') ->
  (forall y, nthZ pt' y = switched r x new isback y <$> nthZ (proctab k) y) ->
  p_state p <> PRREADY ->
  mail_inv (after_switch c im new pn pt' s' tab k) (setq RQ c s' L) /\
  forall i, 0 <= i < NPROC -> mbox (after_switch c im new pn pt' s' tab k) (setq RQ c s' L) i = mbox k L i.
Proof.
  intros Hi Hm Hc Ht Hcur Hp. cbv zeta. set (isback := PRCURR =? p_state p). intros Hspec Hpt Hnr.
  pose proof Hm as [M1 M2 M3 M4 M5 M6].
  assert (forall i, 0 <= i < NPROC -> setq RQ c s' L (MQ i) = L (MQ i)) as HL.
  { intros i Hir. apply setq_other; apply M3; unfold prio; done || klia. }
  assert (forall y q, nthZ pt' y = Some q -> exists p0, nthZ (proctab k) y = Some p0 /\ p_msg q = p_msg p0) as Hinv.
  { intros y q. rewrite Hpt. destruct (nthZ (proctab k) y) as [p0|]; [|done]. simpl. intros [= <-].
    exists p0. split; [done|apply switched_msg]. }
  assert (forall y, msgout_of (after_switch c im new pn pt' s' tab k) y = msgout_of k y) as Hmo.
  { intros y. unfold msgout_of. simpl. rewrite Hpt. destruct (nthZ (proctab k) y); [|done]. simpl.
    by rewrite switched_msg. }
  split; [constructor; simpl; try done|].
  - intros i q (p0 & H0 & ->)%Hinv. by apply M1.
  - intros i q (p0 & H0 & ->)%Hinv. by apply (M4 i).
  - intros i q Hq. pose proof Hq as (p0 & H0 & ->)%Hinv. rewrite HL; [by apply M5|].
    rewrite <- (si_proctab _ _ _ _ _ Hi). by eapply nthZ_Some_lt.
  - intros i y Hir. rewrite HL by done. intros Hy. destruct (M6 i y Hir Hy) as (p0 & H0 & Hs & Hca).
    rewrite Hpt, H0. simpl. eexists. split; [done|].
    destruct (switched_fields r x new isback y p0) as (-> & _ & ->). split; [|done].
    destruct (state_after_case (queues_at QL) RQ t c k L x p new s' Hi Hc Ht Hcur Hp Hnr Hspec y p0 H0)
      as [(-> & _ & Ha)|[(Hmem & _)|(Hne & _ & E & _)]]; [..|exact (eq_trans E Hs)].
    + exfalso. destruct (chosen (queues_at QL) RQ t c k L x p new s' Hi Hc Hcur Hp Hspec)
        as (q & Hq & _ & [[-> Hb]|Hr]).
      * apply (isback_iff p) in Hb. replace p0 with p in Hs by congruence. klia.
      * replace q with p0 in Hr by congruence. klia.
    + exfalso. apply (waiting (queues_at QL) RQ t c k L x p new s' Hi Hc Hcur Hp Hnr Hspec) in Hmem
        as [_ (q & Hq & _ & [[-> Hb]|Hr])].
      * apply (isback_iff p) in Hb. replace p0 with p in Hs by congruence. klia.
      * replace q with p0 in Hr by congruence. klia.
  - intros i Hir. unfold mbox. simpl. rewrite Hpt, HL by done.
    destruct (nthZ (proctab k) i) as [p0|]; [|done]. simpl. rewrite switched_msg.
    destruct (_ =? TRUE); [|done]. f_equal. apply list_fmap_ext. intros ? y _. apply Hmo.
Qed.

(** ** Claims on messages *)

(** The invariant of the kernel between operations. *)
Definition sys_inv (k : kernel) (L : Z -> list Z) : Prop := kinv settled k L /\ mail_inv k L.

Lemma mbox_nil k L i p : mail_inv k L -> nthZ (proctab k) i = Some p ->
  mbox k L i = [] <-> hasMessage (p_msg p) = FALSE.
Proof.
  intros Hm Hp. unfold mbox. rewrite Hp. destruct (mi_flag _ _ Hm i p Hp) as [->|[-> _]]; done.
Qed.

(** Mailboxes when one entry changes. *)
Lemma mbox_upd k L k' L' x p p' :
  nthZ (proctab k) x = Some p -> proctab k' = updZ x p' (proctab k) ->
  msgout (p_msg p') = msgout (p_msg p) -> (forall i, 0 <= i < NPROC -> L' (MQ i) = L (MQ i)) ->
  lenZ (proctab k) = NPROC ->
  forall i, 0 <= i < NPROC -> mbox k' L' i =
    if decide (i = x) then (if hasMessage (p_msg p') =? TRUE
      then msgin (p_msg p') :: (msgout_of k <$> L (MQ i)) else [])
    else mbox k L i.
Proof.
  intros Hp E1 E2 HL Hlen i Hi. pose proof (nthZ_Some_lt _ _ _ Hp) as Hx.
  assert (forall y, msgout_of k' y = msgout_of k y) as Hmo.
  { intros y. unfold msgout_of. rewrite E1, nthZ_updZ by done. case_decide; [|done]. subst y.
    rewrite Hp. simpl. done. }
  unfold mbox. rewrite E1, nthZ_updZ, HL by done. destruct (decide (x = i)) as [->|Hne].
  - rewrite decide_True by done. destruct (_ =? TRUE); [|done]. f_equal. apply list_fmap_ext. auto.
  - rewrite decide_False by congruence. destruct (nthZ (proctab k) i); [|done].
    destruct (_ =? TRUE); [|done]. f_equal. apply list_fmap_ext. auto.
Qed.

Lemma deposit_inv k L pid p msg :
  sys_inv k L -> nthZ (proctab k) pid = Some p -> mbox k L pid = [] ->
  let k' := set_proctab (updZ pid (deposit msg p) (proctab k)) k in
  sys_inv k' L /\ mbox k' L pid = [msg] /\
  forall i, 0 <= i < NPROC -> i <> pid -> mbox k' L i = mbox k L i.
Proof.
  intros [Hi Hm] Hp Hb. cbv zeta. pose proof (si_proctab _ _ _ _ _ Hi) as Hlen.
  pose proof (nthZ_Some_lt _ _ _ Hp) as Hx. rewrite Hlen in Hx.
  pose proof Hb as Hf. apply (mbox_nil k L pid p Hm Hp) in Hf.
  assert (L (MQ pid) = []) as HL.
  { destruct (mi_flag _ _ Hm pid p Hp) as [E|[_ ?]]; [|done]. rewrite Hf in E. done. }
  split; [split|].
  - by apply (kinv_same (queues_at QL) RQ settled k L pid p).
  - apply (mail_upd k L _ L pid p (deposit msg p)); try done; [|by left].
    intros i Hir Hin. destruct (mi_send _ _ Hm i pid Hir Hin) as (q & Hq & Hs). simpl.
    by replace q with p in Hs by congruence.
  - pose proof (mbox_upd k L (set_proctab (updZ pid (deposit msg p) (proctab k)) k) L pid p (deposit msg p)
      Hp eq_refl eq_refl (fun _ _ => eq_refl) Hlen) as Hmb. split.
    + rewrite Hmb by done. rewrite decide_True by done. simpl. by rewrite HL.
    + intros i Hir Hne. rewrite Hmb by done. by rewrite decide_False.
Qed.

(** [send] to a process whose mailbox is empty and that is not waiting
    for a message deposits the message and returns [OK]: the mailbox then
    holds it, no other mailbox changes, and the invariants hold. *)
Theorem send_deposits `{Layout} cpu k L pid p cur msg :
  sys_inv k L -> nthZ (currpid k) cpu = Some cur -> nthZ (proctab k) pid = Some p ->
  p_state p <> PRFREE -> p_state p <> PRRECV -> mbox k L pid = [] ->
  exists k', start (send cpu pid msg) k = Ret (inl OK, k') /\ sys_inv k' L /\
    mbox k' L pid = [msg] /\ forall i, 0 <= i < NPROC -> i <> pid -> mbox k' L i = mbox k L i.
Proof.
  intros Hinv Hcur Hp Hs1 Hs2 Hb. destruct (deposit_inv k L pid p msg Hinv Hp Hb) as (Hk & Hmb & Ho).
  pose proof Hinv as [Hi Hm]. eexists. split; [|done].
  assert (0 <= pid < NPROC) as Hx by (rewrite <- (si_proctab _ _ _ _ _ Hi); by eapply nthZ_Some_lt).
  unfold send. erewrite start_lift_Ret by (apply isbadpid_live; split; [done|by exists p]).
  cbv beta iota. erewrite start_lift_Ret.
  2: { apply (send_locked_deposit cpu k L pid p cur msg Hm Hcur Hp Hs1). by apply (mbox_nil k L pid p). }
  by rewrite (proj2 (Z.eqb_neq PRRECV (p_state p))) by congruence.
Qed.

(** The lists after a ready queue grew are those of the mailboxes. *)
Lemma mail_lists k L c q l : mail_inv k L -> core c -> prio q ->
  forall i, 0 <= i < NPROC -> (<[RQ c q := l]> L) (MQ i) = L (MQ i).
Proof.
  intros Hm Hc Hq i Hi. rewrite fn_lookup_insert_ne; [done|]. intros E. symmetry in E. revert E.
  by apply (mi_apart _ _ Hm).
Qed.

(** Mailboxes when a process that is in no queue has been put in a ready
    queue. *)
Lemma mail_readied k L k' x p a :
  sys_inv k L -> nthZ (proctab k) x = Some p -> p_state p <> PRFREE -> unqueued k L x -> core a ->
  proctab k' = updZ x (readied a p) (proctab k) -> locktab k' = locktab k -> nextqueue k' = nextqueue k ->
  let L' := <[RQ a (p_priority p) := L (RQ a (p_priority p)) ++ [x]]> L in
  mail_inv k' L' /\ forall i, 0 <= i < NPROC -> mbox k' L' i = mbox k L i /\ L' (MQ i) = L (MQ i).
Proof.
  intros [Hi Hm] Hp Hs Hu Ha E1 E2 E3 L'. pose proof (si_proctab _ _ _ _ _ Hi) as Hlen.
  assert (prio (p_priority p)) as Hpr by (by apply (si_prio _ _ _ _ _ Hi x p)).
  pose proof (mail_lists k L a (p_priority p) (L (RQ a (p_priority p)) ++ [x]) Hm Ha Hpr) as HL.
  split.
  - apply (mail_upd k L k' L' x p (readied a p)); try done; [|apply (mi_flag _ _ Hm x p Hp)].
    intros i Hir Hin. exfalso. apply (Hu (MQ i)); [|done].
    destruct (nthZ_lt_Some (proctab k) i) as [q Hq]; [lia|]. by apply (mi_queue _ _ Hm i q).
  - intros i Hir. split; [|by apply HL].
    rewrite (mbox_upd k L k' L' x p (readied a p) Hp E1 eq_refl HL Hlen i Hir).
    case_decide; [subst|done]. unfold mbox. by rewrite Hp.
Qed.

(** [send] to a process that waits for a message on another core
    deposits the message, makes the receiver ready at the end of the list
    of its priority on its own core, and returns [OK] to the sender. *)
Theorem send_wakes `{Layout} cpu k L pid p cur msg :
  sys_inv k L -> core cpu -> nthZ (currpid k) cpu = Some cur -> nthZ (proctab k) pid = Some p ->
  p_state p = PRRECV -> core (p_core_affinity p) -> p_core_affinity p <> cpu -> mbox k L pid = [] ->
  exists k' p', let h := RQ (p_core_affinity p) (p_priority p) in
    start (send cpu pid msg) k = Ret (inl OK, k') /\ sys_inv k' (<[h := L h ++ [pid]]> L) /\
    mbox k' (<[h := L h ++ [pid]]> L) pid = [msg] /\
    nthZ (proctab k') pid = Some p' /\ p_state p' = PRREADY.
Proof.
  intros Hinv Hcpu Hcur Hp Hs Ha Hne Hb. destruct (deposit_inv k L pid p msg Hinv Hp Hb) as (Hk & Hmb & _).
  pose proof Hinv as [Hi Hm]. pose proof Hk as [Hi1 Hm1]. cbv zeta.
  pose proof (nthZ_Some_lt _ _ _ Hp) as Hx. pose proof (si_proctab _ _ _ _ _ Hi) as Hlen.
  assert (0 <= pid < NPROC) as Hxr by lia.
  set (k1 := set_proctab _ k) in *.
  assert (nthZ (proctab k1) pid = Some (deposit msg p)) as Hp1 by (by apply nthZ_updZ_eq).
  destruct (nthZ_lt_Some (cpsr k) cpu) as [im Him]; [by rewrite (si_cpsr _ _ _ _ _ Hi)|].
  assert (home (deposit msg p) (p_core_affinity p) = p_core_affinity p) as Eh.
  { unfold home. simpl. rewrite (proj2 (Z.eqb_neq (-1) _)); [done|]. unfold core in Ha. lia. }
  assert (unqueued k1 L pid) as Hu.
  { apply (not_queued (queues_at QL) RQ settled k1 L pid _ Hi1 Hp1); simpl; klia. }
  destruct (ready_prefix (queues_at QL) RQ cpu k1 L pid (deposit msg p) true (p_core_affinity p) im)
    as (tab & Hrun & Hinv2); try done; try (rewrite Eh; done); try (simpl; klia).
  rewrite Eh in Hrun, Hinv2. simpl p_priority in Hinv2.
  set (k2 := set_cpsr _ _) in Hrun. 
  assert (start (ready cpu pid true (p_core_affinity p)) k1 = Ret (inl OK, set_cpsr (cpsr k) k2)) as Hready.
  { rewrite Hrun. rewrite wrap_small by (unfold core in Ha; klia).
    rewrite (proj2 (Z.eqb_neq cpu _)) by congruence. cbn [andb]. erewrite start_bind_inl by done.
    rewrite start_lift, restore_run by (simpl; rewrite lenZ_updZ; by eapply nthZ_Some_lt).
    rewrite restored_masked by (simpl; apply nthZ_updZ_eq; by eapply nthZ_Some_lt). simpl.
    by rewrite updZ_updZ, (updZ_id cpu im). }
  pose proof (mail_readied k1 L (set_cpsr (cpsr k) k2) pid (deposit msg p) (p_core_affinity p) Hk Hp1
    ltac:(simpl; klia) Hu Ha eq_refl eq_refl eq_refl) as Hm2.
  exists (set_cpsr (cpsr k) k2). eexists. split; [|split; [split|split; [|split]]].
  - unfold send. erewrite start_lift_Ret by (apply isbadpid_live; split; [done|exists p; split; [done|klia]]).
    cbv beta iota. erewrite start_lift_Ret.
    2: { apply (send_locked_deposit cpu k L pid p cur msg Hm Hcur Hp); [klia|by apply (mbox_nil k L pid p)]. }
    rewrite Hs, Z.eqb_refl. by rewrite (start_bind_inl _ _ _ _ _ Hready).
  - eapply kinv_frame with (13 := Hinv2); try done; [apply _|]. simpl. by rewrite lenZ_updZ.
  - apply Hm2.
  - by etrans; [apply (proj2 Hm2 pid Hxr)|].
  - simpl. apply nthZ_updZ_eq. by rewrite lenZ_updZ.
  - done.
Qed.

Lemma mbox_queue_frame k k' L L' i :
  nthZ (proctab k') i = nthZ (proctab k) i -> L' (MQ i) = L (MQ i) ->
  (forall y, y ∈ L (MQ i) -> msgout_of k' y = msgout_of k y) -> mbox k' L' i = mbox k L i.
Proof.
  intros E1 E2 Hm. unfold mbox. rewrite E1, E2. destruct (nthZ (proctab k) i); [|done].
  destruct (_ =? TRUE); [|done]. f_equal. apply list_fmap_ext. intros j y Hy. apply Hm.
  by apply list_elem_of_lookup_2 in Hy.
Qed.

(** What is left of [resched] for a process that gave up the processor. *)
Definition resched_rest (cpu im : Z) : thread Z := tbind (tret tt) (fun _ => lift (restore cpu im ;;; ret OK)).

(** The current process, in a state in which it waits, gives up the
    processor: the mailboxes are as before, and it keeps its state. *)
Lemma block_switch `{Layout} cpu k L cur p :
  kinv cpu k L -> mail_inv k L -> core cpu -> nthZ (currpid k) cpu = Some cur -> nthZ (proctab k) cur = Some p ->
  p_state p <> PRCURR -> p_state p <> PRREADY ->
  exists im k' L', start (resched cpu) k = Ret (inr (resched_rest cpu im), k') /\ sys_inv k' L' /\
    nthZ (cpsr k) cpu = Some im /\ (forall i, 0 <= i < NPROC -> L' (MQ i) = L (MQ i)) /\
    (forall i, 0 <= i < NPROC -> mbox k' L' i = mbox k L i) /\
    exists q, nthZ (proctab k') cur = Some q /\ p_state q = p_state p.
Proof.
  intros Hi Hm Hc Hcur Hp Hnc Hnr.
  destruct (resched_out_run (queues_at QL) RQ cpu cpu k L cur p Hi Hc Hcur Hp)
    as (im & r & new & s' & tab & pt & pn & Him & _ & Hspec & Hpt & _ & Hout & Hwf); [done|].
  destruct (mail_switch cpu cpu k L cur p new s' _ im pn pt tab Hi Hm Hc (or_introl eq_refl) Hcur Hp Hspec Hpt Hnr)
    as [Hmail Hmb].
  exists im, (after_switch cpu im new pn pt s' tab k), (setq RQ cpu s' L).
  split; [by apply resched_start|]. split; [|split; [done|split; [|split; [done|]]]].
  - split; [|done]. exact (resched_inv (queues_at QL) RQ cpu cpu k L cur p new s' Hi Hc (or_introl eq_refl) Hcur Hp
      Hnr Hspec (updZ 0 (regs_addr cur) (updZ 1 (regs_addr new) r)) im pn pt tab Hpt Hwf).
  - intros i Hir. rewrite setq_other; [done|..]; intros; apply (mi_apart _ _ Hm); unfold prio; done || klia.
  - simpl. rewrite Hpt, Hp. simpl. eexists. split; [done|].
    destruct (switched_fields (updZ 0 (regs_addr cur) (updZ 1 (regs_addr new) r)) cur new (PRCURR =? p_state p) cur p)
      as (_ & _ & ->). destruct (Z.eqb_spec cur new) as [<-|Hne];
      [exfalso|by rewrite (proj2 (Z.eqb_neq PRCURR _)), andb_false_r by congruence].
    destruct (chosen (queues_at QL) RQ cpu cpu k L cur p cur s' Hi Hc Hcur Hp Hspec)
      as (q & Hq & _ & [[_ Hbk]|Hrd]); [by apply (isback_iff p) in Hbk|congruence].
Qed.

Lemma current_entry k L cpu cur pc : kinv settled k L -> core cpu ->
  nthZ (currpid k) cpu = Some cur -> nthZ (proctab k) cur = Some pc ->
  p_state pc = PRCURR /\ p_core_affinity pc = cpu /\ unqueued k L cur.
Proof.
  intros Hi Hc Hcur Hpc. destruct (si_cur _ _ _ _ _ Hi cpu Hc) as (y & q & Hy & Hq' & Ha & _ & Hst).
  replace pc with q by congruence. assert (p_state q = PRCURR) as E.
  { apply Hst. unfold core, settled in *. lia. }
  split; [done|]. split; [done|]. apply (not_queued (queues_at QL) RQ settled k L cur q Hi);
    [congruence|klia|klia].
Qed.

(** The sender has entered the queue of the mailbox. *)
Lemma sender_parked cpu k L pid p cur pc msg tab :
  sys_inv k L -> core cpu -> nthZ (currpid k) cpu = Some cur -> nthZ (proctab k) cur = Some pc ->
  nthZ (proctab k) pid = Some p -> hasMessage (p_msg p) = TRUE -> cur <> pid -> ~ core cur ->
  let k0 := set_proctab (updZ cur (parked msg pc) (proctab k)) k in
  let L1 := <[MQ pid := L (MQ pid) ++ [cur]]> L in let k1 := set_queuetab tab k0 in
  queues_at QL (set_queuetab tab k) L1 -> kinv cpu k1 L1 /\ mail_inv k1 L1.
Proof.
  intros [Hi Hm] Hc Hcur Hpc Hp Hf Hne Hnull k0 L1 k1 Hwf. pose proof (si_proctab _ _ _ _ _ Hi) as Hlen.
  destruct (current_entry k L cpu cur pc Hi Hc Hcur Hpc) as (_ & Haff & Hu). pose proof (nthZ_Some_lt _ _ _ Hpc) as Hcx.
  assert (0 <= pid < NPROC) as Hx by (rewrite <- Hlen; by eapply nthZ_Some_lt).
  assert (nthZ (proctab k0) cur = Some (parked msg pc)) as Hpc0 by (by apply nthZ_updZ_eq).
  assert (kinv cpu k0 L) as Hi0.
  { pose proof (kinv_same (queues_at QL) RQ settled k L cur pc (upd_p_msg (set_msgout msg) pc) Hi Hpc
      eq_refl eq_refl eq_refl) as Hi'.
    pose proof (kinv_leave (queues_at QL) RQ _ L cpu cur (upd_p_msg (set_msgout msg) pc) PRSEND Hi' Hc Hcur)
      as Hi''. simpl in Hi''. rewrite updZ_updZ in Hi''.
    apply Hi''; [by apply nthZ_updZ_eq|done|klia|klia]. }
  assert (mail_inv k0 L) as Hm0.
  { apply (mail_upd k L k0 L cur pc (parked msg pc)); try done; [|apply (mi_flag _ _ Hm cur pc Hpc)].
    intros i Hir Hin. exfalso. apply (Hu (MQ i)); [|done].
    destruct (nthZ_lt_Some (proctab k) i) as [q Hq]; [lia|]. by apply (mi_queue _ _ Hm i q). }
  split.
  - apply (kinv_park cpu k0 L (MQ pid) cur (parked msg pc) tab Hi0 Hpc0); [done| |].
    + intros c q Hcc Hq. by apply (mi_apart _ _ Hm).
    + eapply (fq_frame (wf := queues_at QL)); [..|exact Hwf]; done.
  - apply (mail_park k0 L pid cur (parked msg pc) tab Hm0 Hpc0); [done|simpl; by rewrite Haff|done| |].
    + intros q. simpl. rewrite nthZ_updZ_ne by done. intros Hq. by replace q with p by congruence.
    + simpl. by rewrite lenZ_updZ.
Qed.

(** Its message is the last of the mailbox, and the others are as before. *)
Lemma parked_boxes k L pid p cur pc msg tab :
  mail_inv k L -> nthZ (proctab k) cur = Some pc -> nthZ (proctab k) pid = Some p -> hasMessage (p_msg p) = TRUE ->
  cur <> pid -> (forall i, 0 <= i < NPROC -> cur ∉ L (MQ i)) -> 0 <= pid < NPROC ->
  let k1 := set_queuetab tab (set_proctab (updZ cur (parked msg pc) (proctab k)) k) in
  let L1 := <[MQ pid := L (MQ pid) ++ [cur]]> L in
  mbox k1 L1 pid = mbox k L pid ++ [msg] /\ forall i, 0 <= i < NPROC -> i <> pid -> mbox k1 L1 i = mbox k L i.
Proof.
  intros Hm Hpc Hp Hf Hne Hu Hx k1 L1. pose proof (nthZ_Some_lt _ _ _ Hpc) as Hcx.
  assert (forall y, y <> cur -> msgout_of k1 y = msgout_of k y) as Hmo.
  { intros y Hy. unfold msgout_of. simpl. by rewrite nthZ_updZ_ne by congruence. }
  assert (forall i, 0 <= i < NPROC -> msgout_of k1 <$> L (MQ i) = msgout_of k <$> L (MQ i)) as Hmos.
  { intros i Hir. apply list_fmap_ext. intros j y Hy. apply Hmo. intros ->. apply list_elem_of_lookup_2 in Hy.
    by apply (Hu i). }
  split.
  - unfold mbox. simpl. rewrite nthZ_updZ_ne by done. rewrite Hp, Hf. change (TRUE =? TRUE) with true. cbv iota.
    simpl. f_equal. unfold L1. rewrite fn_lookup_insert, fmap_app, Hmos by done. simpl. do 2 f_equal.
    unfold msgout_of. simpl. by rewrite nthZ_updZ_eq.
  - intros i Hir Hni. assert (L1 (MQ i) = L (MQ i)) as HL.
    { unfold L1. rewrite fn_lookup_insert_ne; [done|]. intros E. by apply Hni, (mi_inj _ _ Hm). }
    unfold mbox. rewrite HL. simpl. destruct (decide (i = cur)) as [->|Hic].
    + rewrite nthZ_updZ_eq, Hpc by done. simpl. destruct (_ =? TRUE); [|done]. by rewrite Hmos.
    + rewrite nthZ_updZ_ne by congruence. destruct (nthZ (proctab k) i); [|done]. destruct (_ =? TRUE); [|done]. by rewrite Hmos.
Qed.

(** C16: [send] to a process whose mailbox is taken queues the message
    behind the others: the sender goes to the end of the receiver's queue
    with its message and gives up the processor, the mailbox is the old
    one followed by the new message, no other mailbox changes, and the
    invariants hold; when the sender runs again it returns [OK]. *)
Theorem send_blocks `{Layout} cpu k L pid p cur pc msg :
  sys_inv k L -> core cpu -> nthZ (currpid k) cpu = Some cur -> nthZ (proctab k) cur = Some pc ->
  nthZ (proctab k) pid = Some p -> p_state p <> PRFREE -> cur <> pid -> ~ core cur ->
  mbox k L pid <> [] ->
  exists rest k' L' im,
    start (send cpu pid msg) k = Ret (inr rest, k') /\ sys_inv k' L' /\
    L' (MQ pid) = L (MQ pid) ++ [cur] /\
    (exists q, nthZ (proctab k') cur = Some q /\ p_state q = PRSEND) /\
    mbox k' L' pid = mbox k L pid ++ [msg] /\
    (forall i, 0 <= i < NPROC -> i <> pid -> mbox k' L' i = mbox k L i) /\
    nthZ (cpsr k) cpu = Some im /\
    forall k2, lenZ (cpsr k2) = NCORES -> start rest k2 = Ret (inl OK, restored cpu im k2).
Proof.
  intros Hinv Hc Hcur Hpc Hp Hs Hne Hnull Hb. pose proof Hinv as [Hi Hm].
  pose proof (si_proctab _ _ _ _ _ Hi) as Hlen. pose proof (nthZ_Some_lt _ _ _ Hpc) as Hcx.
  assert (hasMessage (p_msg p) = TRUE) as Hf.
  { destruct (mi_flag _ _ Hm pid p Hp) as [?|[Hf _]]; [done|]. by apply (mbox_nil k L pid p) in Hf. }
  assert (0 <= pid < NPROC) as Hx by (rewrite <- Hlen; by eapply nthZ_Some_lt).
  destruct (current_entry k L cpu cur pc Hi Hc Hcur Hpc) as (_ & _ & Hu).
  assert (forall i, 0 <= i < NPROC -> cur ∉ L (MQ i)) as Hu'.
  { intros i Hir. apply Hu. destruct (nthZ_lt_Some (proctab k) i) as [q Hq]; [lia|]. by apply (mi_queue _ _ Hm i q). }
  destruct (send_locked_block cpu k L pid p cur pc msg Hi Hm Hcur Hpc Hp Hne Hc Hs Hf) as (tab & Hrun & Hwf).
  destruct (sender_parked cpu k L pid p cur pc msg tab Hinv Hc Hcur Hpc Hp Hf Hne Hnull Hwf) as [Hi1 Hm1].
  destruct (parked_boxes k L pid p cur pc msg tab Hm Hpc Hp Hf Hne Hu' Hx) as [Hb1 Hb2].
  set (k1 := set_queuetab tab _) in *. set (L1 := <[MQ pid := _]> L) in *.
  destruct (block_switch cpu k1 L1 cur (parked msg pc) Hi1 Hm1 Hc Hcur) as (im & k' & L' & Hr & Hinv' & Him & HL & Hmb & Hq);
    [by apply nthZ_updZ_eq|done|done|].
  eexists. exists k', L', im. split; [|split; [done|split; [|split; [done|split; [|split; [|split; [done|]]]]]]].
  - unfold send. erewrite start_lift_Ret by (apply isbadpid_live; split; [done|by exists p]).
    cbv beta iota. erewrite start_lift_Ret by exact Hrun. cbv beta iota.
    erewrite start_bind_inr by exact Hr. done.
  - rewrite HL by done. unfold L1. by rewrite fn_lookup_insert.
  - by rewrite Hmb.
  - intros i Hir Hni. rewrite Hmb by done. by apply Hb2.
  - intros k2 Hk2. simpl. unfold core in Hc. by rewrite restore_run by lia.
Qed.

(** *** Receiving *)

(** The first waiting sender leaves the queue. *)
Lemma kinv_unpark t k L h x l tab :
  kinv t k L -> L h = x :: l -> (forall c q, core c -> prio q -> h <> RQ c q) ->
  queues_at QL (set_queuetab tab k) (<[h := l]> L) -> kinv t (set_queuetab tab k) (<[h := l]> L).
Proof.
  intros Hi El Hh Hwf. destruct Hi as [H1 H2 H3 H4 H5 H6 H7 H8 H9 H10 H11 H12 H13 H14 H15].
  assert (forall c q, core c -> prio q -> (<[h := l]> L) (RQ c q) = L (RQ c q)) as HL
    by (intros c q Hc Hq; rewrite fn_lookup_insert_ne by (by apply Hh); done).
  constructor; try done.
  - destruct H2. by constructor.
  - intros h' y Hh'. destruct (decide (h' = h)) as [->|Hne];
      [rewrite fn_lookup_insert|rewrite fn_lookup_insert_ne by done; by apply H9].
    intros Hy. apply (H9 h); [done|]. rewrite El. by right.
  - intros c q y Hc Hq. rewrite HL by done. by apply H10.
  - intros y q Hy Hs. destruct (H11 y q Hy Hs) as [Hc (pr & Hpr & Hin)]. split; [done|].
    exists pr. split; [done|]. by rewrite HL.
Qed.

Lemma mail_unpark k L i x l tab :
  mail_inv k L -> L (MQ i) = x :: l -> 0 <= i < NPROC -> lenZ (proctab k) = NPROC ->
  mail_inv (set_queuetab tab k) (<[MQ i := l]> L).
Proof.
  intros [M1 M2 M3 M4 M5 M6] El Hi Hlen. constructor; try done.
  - intros j q Hj. assert (0 <= j < NPROC) as Hjr by (rewrite <- Hlen; by eapply nthZ_Some_lt).
    destruct (decide (j = i)) as [->|Hne].
    + destruct (M5 i q Hj) as [?|[_ E]]; [by left|]. by rewrite El in E.
    + rewrite fn_lookup_insert_ne; [by apply M5|]. intros E. by apply Hne, M2.
  - intros j y Hj. destruct (decide (j = i)) as [->|Hne].
    + rewrite fn_lookup_insert. intros Hy. apply (M6 i); [done|]. rewrite El. by right.
    + rewrite fn_lookup_insert_ne; [by apply M6|]. intros E. by apply Hne, M2.
Qed.

Definition took (p : pcb) : pcb := upd_p_msg (set_hasMessage FALSE) p.
Definition refilled (msg : Z) (p : pcb) : pcb := upd_p_msg (set_msgin msg) p.
Definition unsent (p : pcb) : pcb := upd_p_msg (set_msgout EMPTY) p.

Section RecvTake.
Context (k : kernel) (L : Z -> list Z) (cpu cur : Z) (pc : pcb).
Context (Hi : kinv settled k L) (Hm : mail_inv k L) (Hc : core cpu).
Context (Hcur : nthZ (currpid k) cpu = Some cur) (Hpc : nthZ (proctab k) cur = Some pc).
Let l := core_com_lock (p_msg pc).
Let kl := set_locktab (updZ l (heldby cpu) (locktab k)) k.

Lemma recv_queues : queues_at QL kl L.
Proof.
  destruct (mi_lock _ _ Hm cur pc Hpc) as (Hl & Hrest & Hlq).
  apply queues_at_lock; [apply Hi|by eapply nthZ_Some_lt|done].
Qed.

Lemma recv_take_last : L (MQ cur) = [] ->
  recv_take cpu cur kl =
  Ret ((msgin (p_msg pc), None), set_proctab (updZ cur (took pc) (proctab k)) k).
Proof.
  intros HL. destruct (mi_lock _ _ Hm cur pc Hpc) as (Hl & Hrest & Hlq).
  destruct (mi_queue _ _ Hm cur pc Hpc) as [Eq Hq].
  pose proof (nthZ_Some_lt _ _ _ Hpc) as Hx. pose proof (nthZ_Some_lt _ _ _ Hrest) as Hlr.
  unfold recv_take. rewrite (bind_rd_proc _ pc) by exact Hpc. rewrite Eq.
  erewrite bind_Ret by (apply (fq_nonempty (wf := queues_at QL)); [apply recv_queues|done]).
  rewrite HL. rewrite (bind_upd_msg _ pc) by exact Hpc.
  erewrite bind_Ret.
  2: { apply (com_release_run cpu _ _ (took pc)); [simpl; by apply nthZ_updZ_eq|done|].
       simpl. by apply nthZ_updZ_eq. }
  unfold ret. simpl. rewrite release_acquire_tab by done. by destruct k.
Qed.

Lemma recv_take_next y ys py : L (MQ cur) = y :: ys -> nthZ (proctab k) y = Some py ->
  exists tab, recv_take cpu cur kl =
    Ret ((msgin (p_msg pc), Some (y, p_core_affinity py)),
      set_queuetab tab (set_proctab (updZ y (unsent py)
        (updZ cur (refilled (msgout (p_msg py)) pc) (proctab k))) k)) /\
    queues_at QL (set_queuetab tab k) (<[MQ cur := ys]> L).
Proof.
  intros HL Hpy. destruct (mi_lock _ _ Hm cur pc Hpc) as (Hl & Hrest & Hlq).
  destruct (mi_queue _ _ Hm cur pc Hpc) as [Eq Hq].
  pose proof (nthZ_Some_lt _ _ _ Hpc) as Hx. pose proof (nthZ_Some_lt _ _ _ Hrest) as Hlr.
  pose proof (nthZ_Some_lt _ _ _ Hpy) as Hy.
  destruct (current_entry k L cpu cur pc Hi Hc Hcur Hpc) as (_ & _ & Hu).
  assert (y <> cur) as Hyc by (intros ->; apply (Hu (MQ cur) Hq); rewrite HL; left).
  destruct (fq_dequeue (wf := queues_at QL) cpu kl L (MQ cur) y ys recv_queues Hq HL) as (tab & Hrun & Hwf).
  exists tab. split.
  - unfold recv_take. rewrite (bind_rd_proc _ pc) by exact Hpc. rewrite Eq.
    erewrite bind_Ret by (apply (fq_nonempty (wf := queues_at QL)); [apply recv_queues|done]).
    rewrite HL. cbv beta iota. rewrite (bind_Ret _ _ _ _ _ Hrun).
    rewrite (bind_rd_proc _ py) by exact Hpy. rewrite (bind_upd_msg _ pc) by exact Hpc.
    rewrite (bind_upd_msg _ py) by (simpl; by rewrite nthZ_updZ_ne by congruence).
    erewrite bind_Ret.
    2: { apply (com_release_run cpu _ _ (refilled (msgout (p_msg py)) pc)); [|done|].
         - simpl. rewrite nthZ_updZ_ne by congruence. by apply nthZ_updZ_eq.
         - simpl. by apply nthZ_updZ_eq. }
    rewrite (bind_rd_proc _ (unsent py)) by (simpl; apply nthZ_updZ_eq; by rewrite lenZ_updZ).
    unfold ret. simpl. rewrite release_acquire_tab by done. by destruct k.
  - assert (queues_at QL (set_locktab (updZ l unheld (locktab (set_queuetab tab kl))) (set_queuetab tab kl))
      (<[MQ cur := ys]> L)) as Hwf'.
    { apply queues_at_lock; [done|simpl; by rewrite lenZ_updZ|done]. }
    eapply (fq_frame (wf := queues_at QL)); [..|exact Hwf']; try done.
    simpl. by rewrite release_acquire_tab.
Qed.
End RecvTake.

Lemma took_inv k L cur pc : sys_inv k L -> nthZ (proctab k) cur = Some pc -> L (MQ cur) = [] ->
  let k' := set_proctab (updZ cur (took pc) (proctab k)) k in
  sys_inv k' L /\ mbox k' L cur = [] /\
  forall i, 0 <= i < NPROC -> i <> cur -> mbox k' L i = mbox k L i.
Proof.
  intros [Hi Hm] Hpc HL. cbv zeta. pose proof (si_proctab _ _ _ _ _ Hi) as Hlen.
  pose proof (nthZ_Some_lt _ _ _ Hpc) as Hx. split; [split|].
  - by apply (kinv_same (queues_at QL) RQ settled k L cur pc).
  - apply (mail_upd k L _ L cur pc (took pc)); try done; [|by right].
    intros i Hir Hin. destruct (mi_send _ _ Hm i cur Hir Hin) as (q & Hq & Hs). simpl.
    by replace q with pc in Hs by congruence.
  - pose proof (mbox_upd k L (set_proctab (updZ cur (took pc) (proctab k)) k) L cur pc (took pc)
      Hpc eq_refl eq_refl (fun _ _ => eq_refl) Hlen) as Hmb. split.
    + rewrite Hmb by lia. by rewrite decide_True.
    + intros i Hir Hne. rewrite Hmb by done. by rewrite decide_False.
Qed.

(** The state between taking the first sender off the queue and making it
    ready. *)
Lemma refilled_inv k L cur pc y ys py tab :
  sys_inv k L -> nthZ (proctab k) cur = Some pc -> unqueued k L cur ->
  hasMessage (p_msg pc) = TRUE -> L (MQ cur) = y :: ys -> nthZ (proctab k) y = Some py ->
  queues_at QL (set_queuetab tab k) (<[MQ cur := ys]> L) ->
  let k' := set_queuetab tab (set_proctab (updZ y (unsent py)
    (updZ cur (refilled (msgout (p_msg py)) pc) (proctab k))) k) in
  let L' := <[MQ cur := ys]> L in
  sys_inv k' L' /\ unqueued k' L' y /\
  mbox k' L' cur = msgout (p_msg py) :: (msgout_of k <$> ys) /\
  forall i, 0 <= i < NPROC -> i <> cur -> mbox k' L' i = mbox k L i.
Proof.
  intros [Hi Hm] Hpc Hu Hf HL Hpy Hwf. cbv zeta. pose proof (si_proctab _ _ _ _ _ Hi) as Hlen.
  pose proof (nthZ_Some_lt _ _ _ Hpc) as Hx. pose proof (nthZ_Some_lt _ _ _ Hpy) as Hy.
  destruct (mi_queue _ _ Hm cur pc Hpc) as [_ Hq].
  assert (0 <= cur < NPROC) as Hcr by lia.
  assert (y <> cur) as Hyc by (intros ->; apply (Hu (MQ cur) Hq); rewrite HL; left).
  assert (forall i, 0 <= i < NPROC -> is_qhead k (MQ i)) as Hqh.
  { intros i Hir. destruct (nthZ_lt_Some (proctab k) i) as [q Hqq]; [lia|]. by apply (mi_queue _ _ Hm i q). }
  assert (NoDup (y :: ys)) as Hnd.
  { rewrite <- HL. eapply (fq_nodup (wf := queues_at QL)); [apply Hi|done]. }
  apply NoDup_cons in Hnd as [Hny _].
  assert (forall h, is_qhead k h -> y ∉ (<[MQ cur := ys]> L) h) as Huy.
  { intros h Hh. destruct (decide (h = MQ cur)) as [->|Hne]; [by rewrite fn_lookup_insert|].
    rewrite fn_lookup_insert_ne by done. intros Hin. apply Hne.
    eapply (fq_disj (wf := queues_at QL) k); [apply Hi|done|done|done|]. rewrite HL. left. }
  set (p1 := refilled (msgout (p_msg py)) pc). set (L1 := <[MQ cur := ys]> L) in *.
  set (k1 := set_proctab (updZ cur p1 (proctab k)) (set_queuetab tab k)).
  assert (nthZ (proctab k1) y = Some py) as Hpy1 by (simpl; by rewrite nthZ_updZ_ne by congruence).
  assert (kinv settled (set_queuetab tab k) L1) as Hi0.
  { apply (kinv_unpark settled k L (MQ cur) y ys tab); try done.
    intros c q Hcc Hqq. by apply (mi_apart _ _ Hm). }
  assert (mail_inv (set_queuetab tab k) L1) as Hm0 by (by apply (mail_unpark k L cur y ys tab)).
  assert (kinv settled k1 L1) as Hi1 by (by apply (kinv_same (queues_at QL) RQ settled (set_queuetab tab k) L1 cur pc)).
  assert (mail_inv k1 L1) as Hm1.
  { apply (mail_upd (set_queuetab tab k) L1 k1 L1 cur pc p1); try done; [|by left].
    intros i Hir Hin. destruct (mi_send _ _ Hm0 i cur Hir Hin) as (q & Hqq & Hs). simpl in *.
    by replace q with pc in Hs by congruence. }
  split; [split|split; [done|split]].
  - apply (kinv_same (queues_at QL) RQ settled k1 L1 y py (unsent py) Hi1 Hpy1); done.
  - apply (mail_upd k1 L1 _ L1 y py (unsent py)); try done; [apply Hi1| |].
    + intros i Hir Hin. exfalso. by apply (Huy (MQ i)); [apply Hqh|].
    + apply (mi_flag _ _ Hm1 y py Hpy1).
  - unfold mbox. simpl. rewrite nthZ_updZ_ne, nthZ_updZ_eq by done. simpl. rewrite Hf.
    change (TRUE =? TRUE) with true. cbv beta iota. f_equal. unfold L1. rewrite fn_lookup_insert.
    apply list_fmap_ext. intros j z Hz. apply list_elem_of_lookup_2 in Hz. unfold msgout_of. simpl.
    assert (z <> y) by (intros ->; done).
    assert (z <> cur) by (intros ->; apply (Hu (MQ cur) Hq); rewrite HL; by right).
    by rewrite !nthZ_updZ_ne by congruence.
  - intros i Hir Hne. assert (L1 (MQ i) = L (MQ i)) as HLi.
    { unfold L1. rewrite fn_lookup_insert_ne; [done|]. intros E. by apply Hne, (mi_inj _ _ Hm). }
    assert (forall z, z ∈ L (MQ i) -> z <> y /\ z <> cur) as Hz.
    { intros z Hz. split; intros ->; [|by apply (Hu (MQ i)); [apply Hqh|]].
      apply (Huy (MQ i)); [by apply Hqh|by rewrite HLi]. }
    assert (forall z, z <> cur -> msgout_of (set_queuetab tab (set_proctab (updZ y (unsent py)
      (updZ cur p1 (proctab k))) k)) z = if decide (y = z) then EMPTY else msgout_of k z) as Hmo.
    { intros z Hzc. unfold msgout_of. simpl. rewrite (nthZ_updZ y z) by (by rewrite lenZ_updZ).
      case_decide; [done|]. by rewrite nthZ_updZ_ne by congruence. }
    destruct (decide (i = y)) as [->|Hiy].
    + unfold mbox. simpl. rewrite nthZ_updZ_eq by (by rewrite lenZ_updZ). rewrite Hpy, HLi. simpl.
      destruct (_ =? TRUE); [|done]. f_equal. apply list_fmap_ext. intros j z Hzj.
      apply list_elem_of_lookup_2 in Hzj. destruct (Hz z Hzj) as [? ?].
      rewrite Hmo by done. by rewrite decide_False by congruence.
    + apply mbox_queue_frame; [simpl; by rewrite !nthZ_updZ_ne by congruence|done|].
      intros z Hzj. destruct (Hz z Hzj) as [? ?]. rewrite Hmo by done. by rewrite decide_False by congruence.
Qed.

(** A process that is in no queue is made ready without a reschedule. *)
Lemma mail_ready `{Layout} cpu k L x p a im :
  sys_inv k L -> core cpu -> nthZ (cpsr k) cpu = Some im -> nthZ (proctab k) x = Some p ->
  p_state p <> PRFREE -> p_state p <> PRCURR -> unqueued k L x -> p_core_affinity p = a -> core a ->
  exists k' p', let L' := <[RQ a (p_priority p) := L (RQ a (p_priority p)) ++ [x]]> L in
    start (ready cpu x false a) k = Ret (inl OK, k') /\ sys_inv k' L' /\
    nthZ (proctab k') x = Some p' /\ p_state p' = PRREADY /\
    forall i, 0 <= i < NPROC -> mbox k' L' i = mbox k L i.
Proof.
  intros Hk Hc Him Hp Hs1 Hs2 Hu Ha Hca. pose proof Hk as [Hi _].
  assert (home p a = a) as Eh.
  { unfold home. rewrite Ha, (proj2 (Z.eqb_neq (-1) a)); [done|]. unfold core in Hca. lia. }
  destruct (ready_noresched (queues_at QL) RQ cpu k L x p false a im) as (tab & Hrun & Hinv);
    try done; [by rewrite Eh|]. cbv zeta in *. rewrite Eh in Hrun, Hinv.
  destruct (mail_readied k L (set_queuetab tab (set_proctab (updZ x (readied a p) (proctab k)) k)) x p a)
    as [Hm' Hb]; try done.
  eexists. exists (readied a p). split; [exact Hrun|]. split; [done|]. split; [|split; [done|by apply Hb]].
  simpl. apply nthZ_updZ_eq. by eapply nthZ_Some_lt.
Qed.

(** With a message there, [recv] goes on to collect it with the lock held. *)
Lemma recv_has_message `{Layout} cpu k L cur pc :
  mail_inv k L -> nthZ (currpid k) cpu = Some cur -> nthZ (proctab k) cur = Some pc ->
  hasMessage (p_msg pc) = TRUE ->
  start (recv cpu) k = start (recv_finish cpu cur)
    (set_locktab (updZ (core_com_lock (p_msg pc)) (heldby cpu) (locktab k)) k).
Proof.
  intros Hm Hcur Hpc Hf. destruct (mi_lock _ _ Hm cur pc Hpc) as (Hl & Hrest & _).
  set (kl := set_locktab _ k).
  unfold recv. rewrite (start_lift_Ret _ _ _ cur k) by (unfold rd_currpid; by rewrite Hcur).
  rewrite (start_lift_Ret _ _ _ false kl); [done|].
  unfold recv_wait. rewrite (bind_rd_proc _ pc) by exact Hpc. rewrite bind_acquire by done.
  rewrite (bind_rd_proc _ pc) by exact Hpc. rewrite Hf. done.
Qed.

(** What is left of a [recv] that waited; on a state with a message it is a
    [recv]. *)
Definition recv_rest `{Layout} (cpu cur im : Z) : thread Z :=
  tbind (tbind (resched_rest cpu im) (fun _ =>
    lift (p <-- rd_proc cur ;; lock_acquire cpu (core_com_lock (p_msg p)) ;;; ret tt)))
  (fun _ => recv_finish cpu cur).

Lemma recv_resumes `{Layout} cpu im k L cur :
  sys_inv k L -> core cpu -> nthZ (currpid k) cpu = Some cur -> mbox k L cur <> [] ->
  start (recv_rest cpu cur im) k = start (recv cpu) (restored cpu im k).
Proof.
  intros [Hi Hm] Hc Hcur Hb. destruct (si_cur _ _ _ _ _ Hi cpu Hc) as (x & pc & Hx & Hpc & _).
  assert (x = cur) as -> by congruence. destruct (mi_lock _ _ Hm cur pc Hpc) as (Hl & Hrest & _).
  assert (hasMessage (p_msg pc) = TRUE) as Hf.
  { destruct (mi_flag _ _ Hm cur pc Hpc) as [?|[Hf _]]; [done|]. by apply (mbox_nil k L cur pc Hm Hpc) in Hf. }
  rewrite (recv_has_message cpu (restored cpu im k) L cur pc); [|by apply (mail_frame k)|done|done|done].
  set (kl := set_locktab _ _). unfold recv_rest. rewrite (start_bind_inl _ _ _ tt kl); [done|].
  rewrite (start_bind_inl _ _ _ OK (restored cpu im k)).
  - rewrite start_lift, (bind_rd_proc _ pc) by exact Hpc. by rewrite bind_acquire.
  - unfold resched_rest. simpl. rewrite restore_run; [done|]. by rewrite (si_cpsr _ _ _ _ _ Hi).
Qed.

(** C15: [recv] in a process with a pending message returns the oldest one
    and leaves the others in order: when senders wait, the first one's
    message takes the place of the one collected and that sender becomes
    ready.  No other mailbox changes, and the invariants hold. *)
Theorem recv_fifo `{Layout} cpu k L cur m ms :
  sys_inv k L -> core cpu -> nthZ (currpid k) cpu = Some cur -> mbox k L cur = m :: ms ->
  exists k' L', start (recv cpu) k = Ret (inl m, k') /\ sys_inv k' L' /\ mbox k' L' cur = ms /\
    (forall i, 0 <= i < NPROC -> i <> cur -> mbox k' L' i = mbox k L i) /\
    forall y ys, L (MQ cur) = y :: ys -> L' (MQ cur) = ys /\
      exists p, nthZ (proctab k') y = Some p /\ p_state p = PRREADY.
Proof.
  intros [Hi Hm] Hc Hcur Hbox. pose proof (si_proctab _ _ _ _ _ Hi) as Hlen.
  destruct (si_cur _ _ _ _ _ Hi cpu Hc) as (x & pc & Hx & Hpc & _).
  assert (x = cur) as -> by congruence. clear Hx.
  destruct (current_entry k L cpu cur pc Hi Hc Hcur Hpc) as (_ & _ & Hu).
  destruct (mi_lock _ _ Hm cur pc Hpc) as (Hl & Hrest & _).
  pose proof (nthZ_Some_lt _ _ _ Hpc) as Hxr.
  assert (hasMessage (p_msg pc) = TRUE) as Hf.
  { destruct (mi_flag _ _ Hm cur pc Hpc) as [?|[Hf _]]; [done|].
    apply (mbox_nil k L cur pc Hm Hpc) in Hf. congruence. }
  unfold mbox in Hbox. rewrite Hpc, Hf in Hbox. change (TRUE =? TRUE) with true in Hbox.
  injection Hbox as Em Ems.
  rewrite (recv_has_message cpu k L cur pc Hm Hcur Hpc Hf). unfold recv_finish.
  destruct (L (MQ cur)) as [|y ys] eqn:EL.
  - rewrite (start_lift_Ret _ _ _ _ _ (recv_take_last k L cpu cur pc Hi Hm Hcur Hpc EL)). simpl.
    destruct (took_inv k L cur pc (conj Hi Hm) Hpc EL) as (Hinv & Hb & Ho).
    eexists _, L. split; [by rewrite Em|]. split; [done|]. split; [by rewrite Hb, <- Ems|]. by split.
  - destruct (mi_send _ _ Hm cur y) as (py & Hpy & Hsy & Hay); [lia|rewrite EL; left|].
    destruct (recv_take_next k L cpu cur pc Hi Hm Hc Hcur Hpc y ys py EL Hpy) as (tab & Hrun & Hwf).
    rewrite (start_lift_Ret _ _ _ _ _ Hrun). cbn [fst snd].
    destruct (refilled_inv k L cur pc y ys py tab (conj Hi Hm) Hpc Hu Hf EL Hpy Hwf) as (Hinv & Huy & Hb & Ho).
    set (k1 := set_queuetab tab _) in *. set (L1 := <[MQ cur := ys]> L) in *.
    destruct (nthZ_lt_Some (cpsr k) cpu) as [im Him]; [by rewrite (si_cpsr _ _ _ _ _ Hi)|].
    pose proof (nthZ_Some_lt _ _ _ Hpy) as Hyr.
    destruct (mail_ready cpu k1 L1 y (unsent py) (p_core_affinity py) im Hinv Hc Him)
      as (k' & p' & Hready & Hinv' & Hp' & Hs' & Hmb); try done; try (simpl; klia).
    { simpl. apply nthZ_updZ_eq. by rewrite lenZ_updZ. }
    rewrite (start_bind_inl _ _ _ _ _ Hready). eexists k', _. split; [by rewrite Em|].
    split; [exact Hinv'|]. split; [rewrite Hmb by lia; rewrite Hb, <- Ems; simpl; f_equal; unfold msgout_of; by rewrite Hpy|].
    split; [intros i Hir Hne; rewrite Hmb by done; by apply Ho|].
    intros y0 ys0 [= <- <-]. split; [|by exists p'].
    rewrite (mail_lists k1 L1 _ _ _ (proj2 Hinv)) by (done || lia || (apply (si_prio _ _ _ _ _ Hi y py Hpy); klia)).
    unfold L1. by rewrite fn_lookup_insert.
Qed.

(** The receiver finds no message and waits. *)
Lemma recv_wait_blocks cpu k L cur pc :
  sys_inv k L -> core cpu -> nthZ (currpid k) cpu = Some cur -> nthZ (proctab k) cur = Some pc -> ~ core cur ->
  mbox k L cur = [] ->
  let k1 := set_proctab (updZ cur (set_p_state PRRECV pc) (proctab k)) k in
  recv_wait cpu cur k = Ret (true, k1) /\ kinv cpu k1 L /\ mail_inv k1 L /\
  forall i, 0 <= i < NPROC -> mbox k1 L i = mbox k L i.
Proof.
  intros [Hi Hm] Hc Hcur Hpc Hnull Hb k1. pose proof (si_proctab _ _ _ _ _ Hi) as Hlen.
  destruct (current_entry k L cpu cur pc Hi Hc Hcur Hpc) as (_ & _ & Hu).
  destruct (mi_lock _ _ Hm cur pc Hpc) as (Hl & Hrest & _).
  pose proof (nthZ_Some_lt _ _ _ Hpc) as Hxr. pose proof (nthZ_Some_lt _ _ _ Hrest) as Hlr.
  pose proof (proj1 (mbox_nil k L cur pc Hm Hpc) Hb) as Hf.
  split; [|split; [|split]].
  - unfold recv_wait. rewrite (bind_rd_proc _ _ _ _ Hpc), bind_acquire by done.
    rewrite (bind_rd_proc _ pc) by exact Hpc. rewrite Hf. change (FALSE =? FALSE) with true. cbv beta iota.
    rewrite (bind_upd_proc _ pc) by exact Hpc.
    erewrite (com_release_run cpu _ _ (set_p_state PRRECV pc)); [|simpl; by apply nthZ_updZ_eq|done|simpl; by apply nthZ_updZ_eq].
    simpl. rewrite release_acquire_tab by done. unfold k1. by destruct k.
  - apply (kinv_leave (queues_at QL) RQ k L cpu cur pc PRRECV); done || klia.
  - apply (mail_upd k L k1 L cur pc (set_p_state PRRECV pc)); try done; [|apply (mi_flag _ _ Hm cur pc Hpc)].
    intros i Hir Hin. exfalso. apply (Hu (MQ i)); [|done].
    destruct (nthZ_lt_Some (proctab k) i) as [q Hq]; [lia|]. by apply (mi_queue _ _ Hm i q).
  - intros i Hir. rewrite (mbox_upd k L k1 L cur pc (set_p_state PRRECV pc) Hpc eq_refl eq_refl (fun _ _ => eq_refl) Hlen i Hir).
    case_decide; [subst|done]. unfold mbox. by rewrite Hpc.
Qed.

(** C17: [recv] in a process whose mailbox is empty marks it as waiting and
    gives up the processor, leaving the invariants and every mailbox.  When
    the process runs again with a message in its mailbox, it goes on
    exactly as a fresh call of [recv] would, with the interrupt mask it
    had. *)
Theorem recv_blocks `{Layout} cpu k L cur :
  sys_inv k L -> core cpu -> nthZ (currpid k) cpu = Some cur -> ~ core cur -> mbox k L cur = [] ->
  exists rest k' L' im,
    start (recv cpu) k = Ret (inr rest, k') /\ sys_inv k' L' /\
    (exists q, nthZ (proctab k') cur = Some q /\ p_state q = PRRECV) /\
    (forall i, 0 <= i < NPROC -> mbox k' L' i = mbox k L i) /\
    nthZ (cpsr k) cpu = Some im /\
    forall k2 L2, sys_inv k2 L2 -> nthZ (currpid k2) cpu = Some cur -> mbox k2 L2 cur <> [] ->
      start rest k2 = start (recv cpu) (restored cpu im k2).
Proof.
  intros Hinv Hc Hcur Hnull Hb. pose proof Hinv as [Hi Hm].
  destruct (si_cur _ _ _ _ _ Hi cpu Hc) as (x & pc & Hx & Hpc & _).
  assert (x = cur) as -> by congruence. clear Hx. pose proof (nthZ_Some_lt _ _ _ Hpc) as Hxr.
  destruct (recv_wait_blocks cpu k L cur pc Hinv Hc Hcur Hpc Hnull Hb) as (Hwait & Hi1 & Hm1 & Hb1).
  set (k1 := set_proctab _ k) in *.
  destruct (block_switch cpu k1 L cur (set_p_state PRRECV pc) Hi1 Hm1 Hc Hcur) as (im & k' & L' & Hr & Hinv' & Him & _ & Hmb & Hq);
    [by apply nthZ_updZ_eq|done|done|].
  exists (recv_rest cpu cur im), k', L', im. split; [|split; [done|split; [done|split; [|split; [done|]]]]].
  - unfold recv. rewrite (start_lift_Ret _ _ _ cur k) by (unfold rd_currpid; by rewrite Hcur).
    rewrite (start_lift_Ret _ _ _ _ _ Hwait). eapply start_bind_inr, start_bind_inr. exact Hr.
  - intros i Hir. by rewrite Hmb, Hb1.
  - intros k2 L2 Hinv2 Hcur2 Hb2. by apply (recv_resumes cpu im k2 L2).
Qed.

Lemma recvnow_run cpu k L cur pc :
  mail_inv k L -> nthZ (currpid k) cpu = Some cur -> nthZ (proctab k) cur = Some pc ->
  recvnow cpu k = Ret (if FALSE =? hasMessage (p_msg pc) then (SYSERR, k)
    else (msgin (p_msg pc), set_proctab (updZ cur (took pc) (proctab k)) k)).
Proof.
  intros Hm Hcur Hpc. destruct (mi_lock _ _ Hm cur pc Hpc) as (Hl & Hrest & _).
  pose proof (nthZ_Some_lt _ _ _ Hpc) as Hxr. pose proof (nthZ_Some_lt _ _ _ Hrest) as Hlr.
  unfold recvnow. rewrite (bind_rd_currpid _ _ _ _ Hcur), (bind_rd_proc _ _ _ _ Hpc), bind_acquire by done.
  rewrite (bind_rd_proc _ pc) by exact Hpc. destruct (FALSE =? hasMessage (p_msg pc)).
  - erewrite (com_release_run cpu _ _ pc); [|exact Hpc|done|simpl; by apply nthZ_updZ_eq].
    simpl. rewrite release_acquire_tab by done. by destruct k.
  - cbv zeta. rewrite (bind_upd_msg _ pc) by exact Hpc.
    erewrite (com_release_run cpu _ _ (took pc)); [|simpl; by apply nthZ_updZ_eq|done|simpl; by apply nthZ_updZ_eq].
    simpl. rewrite release_acquire_tab by done. by destruct k.
Qed.

(** [recvnow] never waits: it fails with [SYSERR] and changes nothing
    when there is no message, and otherwise returns the message and empties
    the mailbox. *)
Theorem recvnow_spec cpu k L cur :
  sys_inv k L -> core cpu -> nthZ (currpid k) cpu = Some cur -> L (MQ cur) = [] ->
  match mbox k L cur with
  | [] => recvnow cpu k = Ret (SYSERR, k)
  | m :: _ => exists k', recvnow cpu k = Ret (m, k') /\ sys_inv k' L /\ mbox k' L cur = [] /\
      forall i, 0 <= i < NPROC -> i <> cur -> mbox k' L i = mbox k L i
  end.
Proof.
  intros [Hi Hm] Hc Hcur HL. destruct (si_cur _ _ _ _ _ Hi cpu Hc) as (x & pc & Hx & Hpc & _).
  assert (x = cur) as -> by congruence. rewrite (recvnow_run cpu k L cur pc Hm Hcur Hpc).
  unfold mbox at 1. rewrite Hpc. destruct (mi_flag _ _ Hm cur pc Hpc) as [->|[-> _]]; [|done].
  change (TRUE =? TRUE) with true. change (FALSE =? TRUE) with false. cbv iota.
  destruct (took_inv k L cur pc (conj Hi Hm) Hpc HL) as (Hinv & Hb & Ho). by eexists.
Qed.

(** When senders wait, [recvnow] drops the whole mailbox: it clears the
    flag without collecting the next message, so that after it the mailbox
    is empty while the senders still wait in the queue, and the invariant
    of mailboxes is broken. *)
Theorem recvnow_strands_senders cpu k L cur m ms y ys :
  sys_inv k L -> core cpu -> nthZ (currpid k) cpu = Some cur ->
  mbox k L cur = m :: ms -> L (MQ cur) = y :: ys ->
  exists k', recvnow cpu k = Ret (m, k') /\ queues_at QL k' L /\ mbox k' L cur = [] /\
    (exists p, nthZ (proctab k') y = Some p /\ p_state p = PRSEND) /\ ~ mail_inv k' L.
Proof.
  intros [Hi Hm] Hc Hcur Hbox HL. pose proof (si_proctab _ _ _ _ _ Hi) as Hlen.
  destruct (si_cur _ _ _ _ _ Hi cpu Hc) as (x & pc & Hx & Hpc & _).
  assert (x = cur) as -> by congruence. clear Hx.
  destruct (mi_lock _ _ Hm cur pc Hpc) as (Hl & Hrest & _).
  destruct (current_entry k L cpu cur pc Hi Hc Hcur Hpc) as (_ & _ & Hu).
  pose proof (nthZ_Some_lt _ _ _ Hpc) as Hxr. pose proof (nthZ_Some_lt _ _ _ Hrest) as Hlr.
  assert (hasMessage (p_msg pc) = TRUE) as Hf.
  { destruct (mi_flag _ _ Hm cur pc Hpc) as [?|[_ E]]; [done|]. congruence. }
  assert (msgin (p_msg pc) = m) as Em.
  { unfold mbox in Hbox. rewrite Hpc, Hf in Hbox. change (TRUE =? TRUE) with true in Hbox. by injection Hbox. }
  destruct (mi_send _ _ Hm cur y) as (py & Hpy & Hsy & _); [lia|rewrite HL; left|].
  assert (y <> cur) as Hyc.
  { intros ->. apply (Hu (MQ cur)); [by apply (mi_queue _ _ Hm cur pc)|]. rewrite HL. left. }
  exists (set_proctab (updZ cur (took pc) (proctab k)) k). split; [|split; [|split; [|split]]].
  - by rewrite (recvnow_run cpu k L cur pc Hm Hcur Hpc), Hf, Em.
  - eapply (fq_frame (wf := queues_at QL) k); [done..|apply Hi].
  - unfold mbox. simpl. by rewrite nthZ_updZ_eq.
  - exists py. split; [simpl; by rewrite nthZ_updZ_ne by congruence|done].
  - intros Hm'. destruct (mi_flag _ _ Hm' cur (took pc)) as [E|[_ E]]; [simpl; by apply nthZ_updZ_eq|done|].
    congruence.
Qed.

(** [sendnow] takes the receiver's lock before it checks the process
    id: an id outside the table reads past it, where [send] returns
    [SYSERR]. *)
Theorem sendnow_unchecked `{Layout} cpu k pid msg :
  lenZ (proctab k) = NPROC -> pid < 0 \/ NPROC <= pid ->
  start (sendnow cpu pid msg) k = Fault OutOfBounds /\ start (send cpu pid msg) k = Ret (inl SYSERR, k).
Proof.
  intros Hlen Hp. split.
  - unfold sendnow. rewrite start_lift_bind. unfold sendnow_locked, bind, rd_proc.
    by rewrite nthZ_None by lia.
  - unfold send. rewrite (start_lift_Ret _ _ _ true k); [done|]. unfold isbadpid.
    destruct (Z.ltb_spec pid 0), (Z.leb_spec NPROC pid); try done. lia.
Qed.

(** [kill] of a process that waits to send frees its slot but leaves
    it in the receiver's queue: a later [create] can take the slot while
    the entry is still linked there. *)
Theorem kill_leaves_sender_queued `{Layout} cpu k L FL pid p n i :
  sys_inv k L -> heaps_wf k FL -> core cpu -> 0 <= i < NPROC -> pid ∈ L (MQ i) ->
  nthZ (proctab k) pid = Some p -> p_core_affinity p = cpu -> 4 <= pid -> owns_stack k FL p n ->
  exists k', start (kill cpu pid) k = Ret (inl OK, k') /\ slot_free k' pid /\
    queues_at QL k' L /\ pid ∈ L (MQ i) /\ ~ kinv settled k' L.
Proof.
  intros [Hi Hm] Hhs Hc Hir Hin Hp Ha Hpid Hown. pose proof (nthZ_Some_lt _ _ _ Hp) as Hx.
  assert (p_state p = PRSEND) as Hs.
  { destruct (mi_send _ _ Hm i pid Hir Hin) as (q & Hq & Hs & _). by replace p with q by congruence. }
  destruct (nthZ_lt_Some (cpsr k) cpu) as [im Him]; [by rewrite (si_cpsr _ _ _ _ _ Hi)|].
  destruct (kill_release_run cpu k FL pid p n im Hhs Him Hp Hown) as (m & f & l' & Hrel & _ & _ & _).
  eexists. split; [|split; [|split; [|split; [done|]]]].
  - unfold kill. erewrite start_lift_Ret by
      (apply (kill_accepts cpu k pid p); try done; [apply Hi|klia]).
    cbv beta iota. erewrite start_lift_Ret by exact Hrel. rewrite Hs.
    change (PRSEND =? PRCURR) with false. change (PRSEND =? PRREADY) with false. cbv beta iota.
    erewrite start_bind_inl by done. rewrite start_lift, (bind_upd_proc _ p) by exact Hp. done.
  - exists (set_p_state PRFREE p). split; [|done]. simpl. by apply nthZ_updZ_eq.
  - eapply (fq_frame (wf := queues_at QL) k); [done..|apply Hi].
  - intros Hi'. destruct (si_queued _ _ _ _ _ Hi' (MQ i) pid) as (q & Hq & Hst); [|done|].
    + destruct (nthZ_lt_Some (proctab k) i) as [q Hq]; [rewrite (si_proctab _ _ _ _ _ Hi); done|].
      by apply (mi_queue _ _ Hm i q).
    + simpl in Hq. rewrite nthZ_updZ_eq in Hq by done. injection Hq as <-. simpl in Hst. klia.
Qed.
End Mail.
