(* ===== verification/Interrupt.v ===== *)
(** * Interrupts and the clock (system/dispatch.c, timer.c, clkinit.c,
      clkhandler.c, timer_util.S)

    The interrupt controller, the table of handlers, the timers of the cores
    and the clock tick.  The code of a handler is given by a function [call]
    from its address; [clkhandler] is the one the kernel installs. *)

From Stdlib Require Import Ascii String.
From stdpp Require Import base numbers functions list gmap sorting.
From S2P Require Import Prelude Kernel Spinlock Queue Memory CString Doprnt Kio Thread Proc ProcOps.

(** ** Definitions *)

(** *** The interrupt controller *)

Definition INTERRUPT_REGS_BASE : Z := 0x3F00B200.
Definition Enable_IRQs_1 : Z := INTERRUPT_REGS_BASE + 0x10.
Definition Enable_IRQs_2 : Z := INTERRUPT_REGS_BASE + 0x14.
Definition Enable_Basic_IRQs : Z := INTERRUPT_REGS_BASE + 0x18.
Definition Disable_IRQs_1 : Z := INTERRUPT_REGS_BASE + 0x1C.
Definition Disable_IRQs_2 : Z := INTERRUPT_REGS_BASE + 0x20.
Definition Disable_Basic_IRQs : Z := INTERRUPT_REGS_BASE + 0x24.

Definition BCM2835_NUM_IRQS : Z := 64 + 8.
Definition IRQ_TIMER : Z := 3.
Definition IRQ_USB : Z := 9.
Definition IRQ_PCM : Z := 55.
Definition IRQ_PL011 : Z := 57.
Definition IRQ_SD : Z := 62.

Definition rd_dev (get : devices -> list Z) (i : Z) : K Z := fun k => must (nthZ (get (devs k)) i) k.

(** [arm_enabled_irqs[i]] is updated in place. *)
Definition upd_enabled (i : Z) (f : Z -> Z) : K unit :=
  m <-- rd_dev arm_enabled_irqs i ;;
  upd_devs (fun d => set_arm_enabled_irqs (updZ i (f m) (arm_enabled_irqs d)) d).

Definition bit (n : Z) : Z := u32 (Z.shiftl 1 n).

Definition enable_irq (irq_num : Z) : K unit :=
  if irq_num <? 32 then
    put32 Enable_IRQs_1 (bit irq_num) ;;;
    upd_enabled 0 (fun m => Z.lor m (bit irq_num))
  else if irq_num <? 64 then
    put32 Enable_IRQs_2 (bit (irq_num - 32)) ;;;
    upd_enabled 1 (fun m => Z.lor m (bit (irq_num - 32)))
  else
    put32 Enable_Basic_IRQs (bit (irq_num - 64)) ;;;
    upd_enabled 2 (fun m => Z.lor m (bit (irq_num - 64))).

Definition disable_irq (irq_num : Z) : K unit :=
  if irq_num <? 32 then
    put32 Disable_IRQs_1 (bit irq_num) ;;;
    upd_enabled 0 (fun m => Z.land m (u32 (Z.lnot (bit irq_num))))
  else if irq_num <? 64 then
    put32 Disable_IRQs_2 (bit (irq_num - 32)) ;;;
    upd_enabled 1 (fun m => Z.land m (u32 (Z.lnot (bit (irq_num - 32)))))
  else
    put32 Disable_Basic_IRQs (bit (irq_num - 64)) ;;;
    upd_enabled 2 (fun m => Z.land m (u32 (Z.lnot (bit (irq_num - 64))))).

(** *** Timers *)

Definition SYSTEM_TIMER_REGS_BASE : Z := 0x3F003000.
Definition BCM2835_SYSTEM_TIMER_MATCH_3 : Z := Z.shiftl 1 3.

Definition clkcount : K Z := rd_devs timer_clo.

(** timer_util.S: the count is 64 bits wide, in [r2:r1]; only the low word is
    added to. *)
Definition CLKUPDATE (cpu count : Z) : K unit :=
  c <-- rd_dev core_cnt cpu ;;
  let v := Z.lor (Z.shiftl (Z.shiftr c 32) 32) (u32 (u32 c + count)) in
  rd_dev core_cval cpu ;;;
  upd_devs (fun d => set_core_cval (updZ cpu v (core_cval d)) d).

(** timer_util.S: CNTP_CTL is read into [r0] and [r0] is written back; the bit
    is cleared in [r2], which nothing reads, so the register keeps its value. *)
Definition CLEAR_ISTATUS : K unit := ret tt.

(** Writing the match bit to [CS] clears the match, and with it the pending
    bit of the timer's interrupt line. *)
Definition clkupdate (cpu cycles : Z) : K unit :=
  if 0 =? cpu then
    put32 SYSTEM_TIMER_REGS_BASE BCM2835_SYSTEM_TIMER_MATCH_3 ;;;
    p <-- rd_dev irq_pending 0 ;;
    upd_devs (fun d => set_irq_pending (updZ 0 (Z.ldiff p (bit IRQ_TIMER)) (irq_pending d)) d) ;;;
    clo <-- rd_devs timer_clo ;;
    upd_devs (set_timer_c3 (u32 (clo + cycles)))
  else CLKUPDATE cpu cycles.

(** [udelay] reads the counter again and again: [rd i] is what the [i]th
    reading gives.  The loops below run from reading [i] on and return the
    number of readings made. *)
Fixpoint wait_while (fuel : nat) (stay : Z -> bool) (rd : nat -> Z) (i : nat) : outcome nat :=
  match fuel with
  | O => Fault OutOfFuel
  | S fuel' => if stay (rd i) then wait_while fuel' stay rd (S i) else Ret (S i)
  end.

Definition udelay (fuel : nat) (clkfreq us : Z) (rd : nat -> Z) : outcome nat :=
  let delay := u32 (clkfreq / 1000 * us) in
  let start := rd 0%nat in
  let target := u32 (start + delay) in
  if start <=? target then wait_while fuel (fun count => (count <? target) && (start <=? count)) rd 1
  else
    i <~ wait_while fuel (fun count => start <? count) rd 1 ;;
    wait_while fuel (fun count => count <? target) rd i.

(** *** The clock tick *)

(** [clkhandler] up to the test of [preempt]; the result is the test. *)
Definition clk_tick (cpu : Z) : K bool :=
  f <-- rd_devs clkfreq ;;
  clkupdate cpu (f / CLKTICKS_PER_SEC) ;;;
  t <-- rdv clkticks cpu ;;
  wrv clkticks set_clkticks cpu (u32 (t + 1)) ;;;
  t <-- rdv clkticks cpu ;;
  (if CLKTICKS_PER_SEC =? t then
     s <-- rdv clktime cpu ;;
     wrv clktime set_clktime cpu (u32 (s + 1)) ;;;
     wrv clkticks set_clkticks cpu 0
   else ret tt) ;;;
  p <-- rdv preempt cpu ;;
  wrv preempt set_preempt cpu (u32 (p - 1)) ;;;
  ret (u32 (p - 1) <=? 0).

Definition clkhandler `{Layout} (cpu : Z) : thread unit :=
  expired <== lift (clk_tick cpu) ;;
  if (expired : bool) then resched cpu ;;== tret tt else tret tt.

(** The loops of [clkinit] over the cores. *)
Fixpoint clkinit_loop (n : nat) (f : Z -> K unit) (i : Z) : K unit :=
  match n with O => ret tt | S n' => f i ;;; clkinit_loop n' f (i + 1) end.

Definition clkinit `{Layout} `{Uninit} (cpu : Z) : K unit :=
  clkinit_loop (Z.to_nat NCORES) (fun i => wrv preempt set_preempt i QUANTUM) 0 ;;;
  clkinit_loop (Z.to_nat NCORES) (fun i =>
    wrv promote_medium set_promote_medium i QUANTUM ;;;
    wrv promote_low set_promote_low i QUANTUM) 0 ;;;
  clkinit_loop (Z.to_nat NCORES) (fun i =>
    wrv clkticks set_clkticks i 0 ;;; wrv clktime set_clktime i 0) 0 ;;;
  f <-- rd_devs clkfreq ;;
  kprintf cpu (chars "Time base %dHz, Clock ticks at %dHz" ++ [13; 10; 0])
    [VInt f; VInt CLKTICKS_PER_SEC] ;;;
  rd_dev interruptVector IRQ_TIMER ;;;
  upd_devs (fun d => set_interruptVector (updZ IRQ_TIMER clkhandler_addr (interruptVector d)) d) ;;;
  enable_irq IRQ_TIMER ;;;
  clkupdate cpu (f / CLKTICKS_PER_SEC).

(** *** Dispatch *)

(** Index of the highest bit set: 31 - __builtin_clz(word). *)
Definition first_set_bit (word : Z) : Z := Z.log2 word.

Section Dispatch.
Context `{Layout} `{Uninit} (call : Z -> thread unit).

(** A missing handler is reported and the processor halts. *)
Definition handle_irq (cpu irq_num : Z) : thread unit :=
  handler <== lift (rd_dev interruptVector irq_num) ;;
  if handler =? NULL then
    lift (kprintf cpu (chars "ERROR: No handler registered for interrupt %u" ++ [13; 10; 0]) [VInt irq_num] ;;;
          failwith Deadlock)
  else call handler.

Definition check_irq_pending (cpu irq_num : Z) : thread unit :=
  handle <== lift (
    if 64 <=? irq_num then
      p <-- rd_dev irq_pending 2 ;; ret (negb (Z.land p (bit (irq_num - 64)) =? 0))
    else if 32 <=? irq_num then
      p <-- rd_dev irq_pending 1 ;; ret (negb (Z.land p (bit (irq_num - 32)) =? 0))
    else
      p <-- rd_dev irq_pending 0 ;; ret (negb (Z.land p (bit irq_num) =? 0))) ;;
  if (handle : bool) then handle_irq cpu irq_num else tret tt.

(** while (mask != 0) { ... } for the word of interrupts from [base]. *)
Fixpoint dispatch_word (fuel : nat) (cpu base mask : Z) : thread unit :=
  match fuel with
  | O => lift (failwith OutOfFuel)
  | S fuel' =>
      if mask =? 0 then tret tt
      else
        let b := first_set_bit mask in
        let mask := Z.lxor mask (Z.shiftl 1 b) in
        check_irq_pending cpu (u8 (b + base)) ;;==
        dispatch_word fuel' cpu base mask
  end.

Definition dispatch_irqs (cpu : Z) : thread unit :=
  m <== lift (rd_dev arm_enabled_irqs 0) ;;
  dispatch_word 33 cpu 0 m ;;==
  m <== lift (rd_dev arm_enabled_irqs 1) ;;
  dispatch_word 33 cpu 32 m ;;==
  m <== lift (rd_dev arm_enabled_irqs 2) ;;
  dispatch_word 33 cpu 64 m.

Definition dispatch (cpu : Z) : thread unit :=
  if negb (0 =? cpu) then
    status <== lift (rd_dev core_source cpu) ;;
    if negb (Z.land status 0x3 =? 0) then
      lift (CLEAR_ISTATUS ;;; put32 (0x40000060 + 4 * cpu) (Z.ldiff status 0x3)) ;;==
      clkhandler cpu
    else dispatch_irqs cpu
  else dispatch_irqs cpu.
End Dispatch.

(** ** The set of enabled interrupts *)

#[local] Arguments Z.lnot : simpl never.
#[local] Arguments bit : simpl never.

Definition irq_on (k : kernel) (n : Z) : bool :=
  match nthZ (arm_enabled_irqs (devs k)) (n / 32) with Some m => Z.testbit m (n mod 32) | None => false end.

Definition irqs_wf (k : kernel) : Prop :=
  lenZ (arm_enabled_irqs (devs k)) = 3 /\
  forall i m, nthZ (arm_enabled_irqs (devs k)) i = Some m -> 0 <= m < 2 ^ 32.

Lemma bit_pow n : 0 <= n < 32 -> bit n = 2 ^ n.
Proof.
  intros Hn. unfold bit. rewrite Z.shiftl_1_l. apply wrap_small.
  split; [apply Z.pow_nonneg; lia|apply Z.pow_lt_mono_r; lia].
Qed.

Lemma clear_bit m n : 0 <= m < 2 ^ 32 -> 0 <= n < 32 -> Z.land m (u32 (Z.lnot (bit n))) = Z.clearbit m n.
Proof.
  intros Hm Hn. rewrite bit_pow by done. apply Z.bits_inj'. intros j Hj.
  rewrite Z.land_spec, Z.clearbit_eqb by lia. unfold wrap.
  destruct (Z.ltb_spec j 32).
  - rewrite Z.mod_pow2_bits_low, Z.lnot_spec, Z.pow2_bits_eqb by lia.
    by destruct (Z.testbit m j), (Z.eqb_spec n j).
  - rewrite <- (Z.mod_small m (2 ^ 32)), Z.mod_pow2_bits_high by lia. done.
Qed.

Lemma setbit_range m n : 0 <= m < 2 ^ 32 -> 0 <= n < 32 -> 0 <= Z.lor m (2 ^ n) < 2 ^ 32.
Proof.
  intros Hm Hn. rewrite bits_bound in * by lia. destruct Hm as [Hm Hb].
  split; [apply Z.lor_nonneg; split; [done|apply Z.pow_nonneg; lia]|].
  intros j Hj. rewrite Z.lor_spec, Hb, Z.pow2_bits_false by lia. done.
Qed.

Lemma clearbit_range m n : 0 <= m < 2 ^ 32 -> 0 <= n < 32 -> 0 <= Z.clearbit m n < 2 ^ 32.
Proof.
  intros Hm Hn. rewrite bits_bound in * by lia. destruct Hm as [Hm Hb].
  split; [rewrite Z.clearbit_spec'; apply Z.ldiff_nonneg; lia|].
  intros j Hj. rewrite Z.clearbit_eqb, Hb by lia. done.
Qed.

(** What [enable_irq] and [disable_irq] do to the word of interrupt [n]. *)
Definition irq_devs (regs : list Z) (n v : Z) (d : devices) : devices :=
  set_arm_enabled_irqs (updZ (n / 32) v (arm_enabled_irqs d))
    (set_mmio (Wr (nth (Z.to_nat (n / 32)) regs 0) (2 ^ (n mod 32)) :: mmio d) d).

Definition enable_regs : list Z := [Enable_IRQs_1; Enable_IRQs_2; Enable_Basic_IRQs].
Definition disable_regs : list Z := [Disable_IRQs_1; Disable_IRQs_2; Disable_Basic_IRQs].

(** The three ranges of interrupt numbers. *)
Ltac irq_word n :=
  let E := fresh in let Hr := fresh in let E0 := fresh in
  pose proof (Z.div_mod n 32 ltac:(lia)) as E; pose proof (Z.mod_pos_bound n 32 ltac:(lia)) as Hr;
  assert (n / 32 = 0 \/ n / 32 = 1 \/ n / 32 = 2) as [E0|[E0|E0]]
    by (pose proof (Z.div_pos n 32); pose proof (Z.div_lt_upper_bound n 32 3); lia);
  rewrite E0 in *;
  [rewrite (proj2 (Z.ltb_lt n 32)) by lia; replace (n mod 32) with n in * by lia
  |rewrite (proj2 (Z.ltb_ge n 32)), (proj2 (Z.ltb_lt n 64)) by lia; replace (n - 32) with (n mod 32) by lia
  |rewrite (proj2 (Z.ltb_ge n 32)), (proj2 (Z.ltb_ge n 64)) by lia; replace (n - 64) with (n mod 32) by lia].

Lemma enable_irq_run k n m : irqs_wf k -> 0 <= n < 96 -> nthZ (arm_enabled_irqs (devs k)) (n / 32) = Some m ->
  enable_irq n k =
  Ret (tt, set_devs (irq_devs enable_regs n (Z.lor m (2 ^ (n mod 32))) (devs k)) k).
Proof.
  intros _ Hn Hm. unfold enable_irq, irq_devs. irq_word n; rewrite bit_pow by lia;
    unfold put32, upd_devs, upd_enabled, rd_dev; rewrite bind_modify; unfold bind; simpl; by rewrite Hm.
Qed.

Lemma disable_irq_run k n m : irqs_wf k -> 0 <= n < 96 -> nthZ (arm_enabled_irqs (devs k)) (n / 32) = Some m ->
  disable_irq n k =
  Ret (tt, set_devs (irq_devs disable_regs n (Z.clearbit m (n mod 32)) (devs k)) k).
Proof.
  intros [_ Hw] Hn Hm. pose proof (Hw _ _ Hm). unfold disable_irq, irq_devs. irq_word n;
    unfold put32, upd_devs, upd_enabled, rd_dev; rewrite bind_modify; unfold bind; simpl; rewrite Hm;
    cbn [must ret]; unfold ret; by rewrite clear_bit, bit_pow by lia.
Qed.

Lemma irq_on_upd k d n v m : irqs_wf k -> 0 <= n < 96 -> 0 <= m < 96 ->
  arm_enabled_irqs d = updZ (n / 32) v (arm_enabled_irqs (devs k)) ->
  irq_on (set_devs d k) m =
  if decide (n / 32 = m / 32) then Z.testbit v (m mod 32) else irq_on k m.
Proof.
  intros [Hlen _] Hn Hm E. unfold irq_on. simpl. rewrite E.
  assert (0 <= n / 32 < 3) as Hd by (split; [apply Z.div_pos|apply Z.div_lt_upper_bound]; lia).
  rewrite nthZ_updZ by lia. by case_decide.
Qed.

Lemma irqs_wf_upd k d i v : irqs_wf k -> 0 <= v < 2 ^ 32 -> 0 <= i < 3 ->
  arm_enabled_irqs d = updZ i v (arm_enabled_irqs (devs k)) -> irqs_wf (set_devs d k).
Proof.
  intros [Hlen Hw] Hv Hi E. split; simpl; rewrite E; [by rewrite lenZ_updZ|].
  intros j m. rewrite nthZ_updZ by lia. case_decide; [by intros [= <-]|apply Hw].
Qed.

(** [enable_irq] and [disable_irq] tell the interrupt controller and
    record the line in [arm_enabled_irqs]: the set of enabled lines gains, or
    loses, exactly the given one, for every line of the three registers. *)
Theorem irq_lines k n :
  irqs_wf k -> 0 <= n < 96 ->
  (exists k', enable_irq n k = Ret (tt, k') /\ irqs_wf k' /\
     mmio (devs k') = Wr (nth (Z.to_nat (n / 32)) enable_regs 0)
                        (2 ^ (n mod 32)) :: mmio (devs k) /\
     forall m, 0 <= m < 96 -> irq_on k' m = (m =? n) || irq_on k m) /\
  (exists k', disable_irq n k = Ret (tt, k') /\ irqs_wf k' /\
     mmio (devs k') = Wr (nth (Z.to_nat (n / 32)) disable_regs 0)
                        (2 ^ (n mod 32)) :: mmio (devs k) /\
     forall m, 0 <= m < 96 -> irq_on k' m = negb (m =? n) && irq_on k m).
Proof.
  intros Hwf Hn. pose proof Hwf as [_ Hw].
  assert (0 <= n / 32 < 3) as Hd by (split; [apply Z.div_pos|apply Z.div_lt_upper_bound]; lia).
  pose proof (Z.mod_pos_bound n 32 ltac:(lia)) as Hr.
  assert (forall m w, n / 32 = m / 32 -> nthZ (arm_enabled_irqs (devs k)) (n / 32) = Some w ->
    irq_on k m = Z.testbit w (m mod 32)) as Hsame by (intros m w E Hm; unfold irq_on; by rewrite <- E, Hm).
  assert (forall m, n / 32 = m / 32 -> (n mod 32 =? m mod 32) = (m =? n)) as Hmod.
  { intros m E. pose proof (Z.div_mod n 32). pose proof (Z.div_mod m 32).
    destruct (Z.eqb_spec (n mod 32) (m mod 32)), (Z.eqb_spec m n); lia || congruence. }
  assert (forall m, n / 32 <> m / 32 -> (m =? n) = false) as Hother
    by (intros m E; apply Z.eqb_neq; congruence).
  destruct (nthZ_lt_Some (arm_enabled_irqs (devs k)) (n / 32)) as [w Hword]; [destruct Hwf; lia|].
  split.
  - pose proof (enable_irq_run k n w Hwf Hn Hword) as Hrun. set (d := irq_devs _ _ _ _) in Hrun.
    assert (arm_enabled_irqs d = updZ (n / 32) (Z.lor w (2 ^ (n mod 32))) (arm_enabled_irqs (devs k))) as Ed by done.
    exists (set_devs d k). split; [done|]. split; [apply (irqs_wf_upd k d _ _ Hwf (setbit_range w (n mod 32) (Hw _ _ Hword) Hr) Hd Ed)|].
    split; [done|]. intros m Hm. rewrite (irq_on_upd k d n _ m Hwf Hn Hm Ed). case_decide as E.
    + rewrite (Hsame m w), Z.lor_spec, Z.pow2_bits_eqb, Hmod by (done || lia). apply orb_comm.
    + by rewrite Hother.
  - pose proof (disable_irq_run k n w Hwf Hn Hword) as Hrun. set (d := irq_devs _ _ _ _) in Hrun.
    assert (arm_enabled_irqs d = updZ (n / 32) (Z.clearbit w (n mod 32)) (arm_enabled_irqs (devs k))) as Ed by done.
    exists (set_devs d k). split; [done|]. split; [apply (irqs_wf_upd k d _ _ Hwf (clearbit_range w (n mod 32) (Hw _ _ Hword) Hr) Hd Ed)|].
    split; [done|]. intros m Hm. rewrite (irq_on_upd k d n _ m Hwf Hn Hm Ed). case_decide as E.
    + rewrite (Hsame m w), Z.clearbit_eqb, Hmod by (done || lia). apply andb_comm.
    + by rewrite Hother.
Qed.

(** ** Dispatch *)

(** The bits of a word below [n], highest first. *)
Fixpoint bits_desc (n : nat) (mask : Z) : list Z :=
  match n with
  | O => []
  | S n' => if Z.testbit mask (Z.of_nat n') then Z.of_nat n' :: bits_desc n' mask else bits_desc n' mask
  end.

Fixpoint foreach {A} (f : A -> thread unit) (l : list A) : thread unit :=
  match l with [] => tret tt | x :: l => f x ;;== foreach f l end.

Lemma bits_desc_ext n m m' : (forall j, 0 <= j < Z.of_nat n -> Z.testbit m j = Z.testbit m' j) ->
  bits_desc n m = bits_desc n m'.
Proof.
  induction n as [|n IH]; intros H; simpl; [done|].
  rewrite (H (Z.of_nat n)), IH by (intros; apply H; lia) || lia. done.
Qed.

Lemma log2_top n m : 0 <= n -> 0 <= m < 2 ^ (n + 1) -> Z.testbit m n = true -> Z.log2 m = n.
Proof.
  intros Hn Hm Hb. apply Z.log2_unique; [done|]. rewrite <- Z.add_1_r. split; [|lia].
  destruct (Z.ltb_spec m (2 ^ n)); [|lia].
  assert (0 <= m < 2 ^ n) as Hs by lia. rewrite bits_bound in Hs by done. destruct Hs as [_ Hs].
  by rewrite Hs in Hb by lia.
Qed.

Lemma lxor_top n m : 0 <= n -> 0 <= m < 2 ^ (n + 1) -> Z.testbit m n = true ->
  0 <= Z.lxor m (Z.shiftl 1 n) < 2 ^ n /\
  forall j, 0 <= j < n -> Z.testbit (Z.lxor m (Z.shiftl 1 n)) j = Z.testbit m j.
Proof.
  intros Hn Hm Hb. rewrite Z.shiftl_1_l.
  assert (forall j, 0 <= j -> Z.testbit (Z.lxor m (2 ^ n)) j = if j =? n then false else Z.testbit m j) as Hx.
  { intros j Hj. rewrite Z.lxor_spec, Z.pow2_bits_eqb, Z.eqb_sym by lia.
    destruct (Z.eqb_spec j n) as [->|]; [by rewrite Hb|by rewrite xorb_false_r]. }
  split.
  - rewrite bits_bound in * by lia. destruct Hm as [Hm Hz].
    split; [apply Z.lxor_nonneg; split; intros _; [apply Z.pow_nonneg; lia|done]|].
    intros j Hj. rewrite Hx by lia. destruct (Z.eqb_spec j n); [done|]. apply Hz. lia.
  - intros j Hj. rewrite Hx by lia. by rewrite (proj2 (Z.eqb_neq j n)) by lia.
Qed.

Lemma dispatch_word_foreach `{Layout} `{Uninit} call n fuel cpu base mask :
  0 <= mask < 2 ^ Z.of_nat n -> (n < fuel)%nat ->
  dispatch_word call fuel cpu base mask =
  foreach (fun b => check_irq_pending call cpu (u8 (b + base))) (bits_desc n mask).
Proof.
  revert fuel mask. induction n as [|n IH]; intros [|fuel] mask Hm Hf; try lia.
  - change (2 ^ Z.of_nat 0) with 1 in Hm. assert (mask = 0) as -> by lia. done.
  - rewrite Nat2Z.inj_succ, <- Z.add_1_r in Hm. cbn [bits_desc].
    destruct (Z.testbit mask (Z.of_nat n)) eqn:Hb.
    + destruct (lxor_top (Z.of_nat n) mask ltac:(lia) Hm Hb) as [Hr Hlow].
      pose proof (log2_top (Z.of_nat n) mask ltac:(lia) Hm Hb) as Hlog.
      cbn [dispatch_word foreach]. destruct (Z.eqb_spec mask 0) as [->|_]; [by rewrite Z.testbit_0_l in Hb|].
      unfold first_set_bit. rewrite Hlog, IH by (done || lia).
      by rewrite (bits_desc_ext n _ mask Hlow).
    + apply IH; [|lia]. rewrite bits_bound in * by lia. destruct Hm as [Hm Hz]. split; [done|].
      intros j Hj. destruct (decide (j = Z.of_nat n)) as [->|]; [done|apply Hz; lia].
Qed.

(** C23: The loop of [dispatch] over a word of enabled interrupts, which finds
    the highest bit set and clears it, checks exactly the lines whose bit is
    set, each once and from the highest to the lowest, and ends. *)
Theorem dispatch_word_order `{Layout} `{Uninit} call cpu base mask :
  0 <= mask < 2 ^ 32 ->
  dispatch_word call 33 cpu base mask =
  foreach (fun b => check_irq_pending call cpu (u8 (b + base))) (bits_desc 32 mask) /\
  (forall b, b ∈ bits_desc 32 mask <-> 0 <= b < 32 /\ Z.testbit mask b = true) /\
  StronglySorted (fun a b => b < a) (bits_desc 32 mask).
Proof.
  intros Hm. split; [by apply dispatch_word_foreach; [|lia]|].
  assert (forall n, (forall b, b ∈ bits_desc n mask <-> 0 <= b < Z.of_nat n /\ Z.testbit mask b = true) /\
    StronglySorted (fun a b => b < a) (bits_desc n mask)) as Hn; [|apply (Hn 32%nat)].
  induction n as [|n [IH1 IH2]]; simpl.
  - split; [|constructor]. intros b. rewrite elem_of_nil. lia.
  - destruct (Z.testbit mask (Z.of_nat n)) eqn:Hb; (split; [intros b|]).
    + rewrite elem_of_cons, IH1. split; [intros [->|[? ?]]; split; (done || lia)|].
      intros [Hb' Ht]. destruct (decide (b = Z.of_nat n)); [by left|right; split; [lia|done]].
    + constructor; [done|]. apply Forall_forall. intros b Hbn. apply IH1 in Hbn. lia.
    + rewrite IH1. split; [intros [? ?]; split; (done || lia)|].
      intros [Hb' Ht]. destruct (decide (b = Z.of_nat n)) as [->|]; [congruence|split; [lia|done]].
    + done.
Qed.

(** ** The clock *)

(** The tables of the clock and of the devices it uses. *)
Record clock_wf (k : kernel) : Prop := {
  cw_ticks : lenZ (clkticks k) = NCORES /\ lenZ (clktime k) = NCORES /\ lenZ (preempt k) = NCORES;
  cw_devs : 0 < lenZ (irq_pending (devs k)) /\ lenZ (core_cnt (devs k)) = NCORES /\
    lenZ (core_cval (devs k)) = NCORES;
  cw_range : forall c t, nthZ (clkticks k) c = Some t -> 0 <= t < CLKTICKS_PER_SEC;
  cw_quantum : forall c p, nthZ (preempt k) c = Some p -> 0 < p <= QUANTUM
}.

(** Ticks since boot on core [c]. *)
Definition uptime (k : kernel) (c : Z) : Z :=
  default 0 (nthZ (clktime k) c) * CLKTICKS_PER_SEC + default 0 (nthZ (clkticks k) c).

Lemma clkupdate_run cpu cycles k : clock_wf k -> core cpu -> exists d,
  clkupdate cpu cycles k = Ret (tt, set_devs d k) /\
  lenZ (irq_pending d) = lenZ (irq_pending (devs k)) /\ core_cnt d = core_cnt (devs k) /\
  lenZ (core_cval d) = lenZ (core_cval (devs k)) /\ serial_lock d = serial_lock (devs k) /\
  clkfreq d = clkfreq (devs k).
Proof.
  intros [_ (H1 & H2 & H3) _ _] Hc. unfold core in Hc. unfold clkupdate. case_if.
  - destruct (nthZ_lt_Some (irq_pending (devs k)) 0) as [p Hp]; [lia|].
    unfold put32, upd_devs, rd_dev, rd_devs, bind, gets, modify. simpl. rewrite Hp. simpl.
    eexists. split; [done|]. simpl. by rewrite lenZ_updZ.
  - destruct (nthZ_lt_Some (core_cnt (devs k)) cpu) as [c Hcn]; [lia|].
    destruct (nthZ_lt_Some (core_cval (devs k)) cpu) as [v Hv]; [lia|].
    unfold CLKUPDATE, upd_devs, rd_dev, bind, modify. rewrite Hcn. simpl. rewrite Hv. simpl.
    eexists. split; [done|]. simpl. by rewrite lenZ_updZ.
Qed.

(** The counters after a tick of core [c] that had the values [t], [s], [p]. *)
Definition ticked (c t s p : Z) (d : devices) (k : kernel) : kernel :=
  set_preempt (updZ c (p - 1) (preempt k))
    (if CLKTICKS_PER_SEC =? t + 1
     then set_clkticks (updZ c 0 (clkticks k)) (set_clktime (updZ c (u32 (s + 1)) (clktime k)) (set_devs d k))
     else set_clkticks (updZ c (t + 1) (clkticks k)) (set_devs d k)).

Lemma clk_tick_run cpu k : clock_wf k -> core cpu -> exists t s p d,
  nthZ (clkticks k) cpu = Some t /\ nthZ (clktime k) cpu = Some s /\ nthZ (preempt k) cpu = Some p /\
  clk_tick cpu k = Ret (p =? 1, ticked cpu t s p d k) /\
  clkupdate cpu (clkfreq (devs k) / CLKTICKS_PER_SEC) k = Ret (tt, set_devs d k) /\
  lenZ (irq_pending d) = lenZ (irq_pending (devs k)) /\ core_cnt d = core_cnt (devs k) /\
  lenZ (core_cval d) = lenZ (core_cval (devs k)).
Proof.
  intros Hwf Hc. pose proof Hwf as [(H1 & H2 & H3) _ Hr Hq]. unfold core in Hc.
  destruct (nthZ_lt_Some (clkticks k) cpu) as [t Ht]; [lia|].
  destruct (nthZ_lt_Some (clktime k) cpu) as [s Hs]; [lia|].
  destruct (nthZ_lt_Some (preempt k) cpu) as [p Hp]; [lia|].
  destruct (clkupdate_run cpu (clkfreq (devs k) / CLKTICKS_PER_SEC) k Hwf Hc) as (d & Hrun & D1 & D2 & D3 & _).
  exists t, s, p, d. repeat (split; [done|]). split; [|done].
  pose proof (Hr _ _ Ht) as Htr. pose proof (Hq _ _ Hp) as Hpr. unfold CLKTICKS_PER_SEC, QUANTUM in *.
  unfold clk_tick, rd_devs. rewrite bind_gets, (bind_Ret _ _ _ _ _ Hrun).
  rewrite (bind_rdv _ _ t), bind_wrv by (done || simpl; lia).
  rewrite (bind_rdv _ _ (t + 1)) by (simpl; rewrite wrap_small by lia; apply nthZ_updZ_eq; lia).
  unfold ticked, CLKTICKS_PER_SEC.
  assert ((p - 1 <=? 0) = (p =? 1)) as Eb by (destruct (Z.leb_spec (p - 1) 0), (Z.eqb_spec p 1); lia).
  destruct (Z.eqb_spec 1000 (t + 1)) as [E|E].
  - rewrite bind_assoc, (bind_rdv _ _ s), bind_assoc, bind_wrv by (done || simpl; lia).
    rewrite bind_wrv by (simpl; rewrite lenZ_updZ; lia).
    rewrite (bind_rdv _ _ p), bind_wrv by (done || simpl; lia).
    unfold ret. simpl. rewrite updZ_updZ, !wrap_small by lia. by rewrite Eb.
  - rewrite bind_ret_l. rewrite (bind_rdv _ _ p), bind_wrv by (done || simpl; lia).
    unfold ret. simpl. rewrite !wrap_small by lia. by rewrite Eb.
Qed.

(** The clock's own tables after a tick; the quantum apart. *)
Lemma ticked_wf c t s p d k v :
  clock_wf k -> core c -> nthZ (clkticks k) c = Some t ->
  lenZ (irq_pending d) = lenZ (irq_pending (devs k)) -> core_cnt d = core_cnt (devs k) ->
  lenZ (core_cval d) = lenZ (core_cval (devs k)) -> 0 < v <= QUANTUM ->
  clock_wf (set_preempt (updZ c v (preempt k)) (ticked c t s p d k)).
Proof.
  intros [(H1 & H2 & H3) (D1 & D2 & D3) Hr Hq] Hc Ht E1 E2 E3 Hv. unfold core in Hc.
  pose proof (Hr _ _ Ht) as Htr. unfold ticked, CLKTICKS_PER_SEC in *.
  destruct (Z.eqb_spec 1000 (t + 1)); constructor; simpl; rewrite ?lenZ_updZ, ?E1, ?E2, ?E3; try done.
  - intros c' t'. rewrite nthZ_updZ by lia. case_decide; [intros [= <-]; klia|apply Hr].
  - intros c' p'. rewrite nthZ_updZ by lia. case_decide; [by intros [= <-]|apply Hq].
  - intros c' t'. rewrite nthZ_updZ by lia. case_decide; [intros [= <-]; klia|apply Hr].
  - intros c' p'. rewrite nthZ_updZ by lia. case_decide; [by intros [= <-]|apply Hq].
Qed.

Lemma ticked_uptime c t s p d k :
  nthZ (clkticks k) c = Some t -> nthZ (clktime k) c = Some s -> 0 <= s < 2 ^ 32 - 1 ->
  uptime (ticked c t s p d k) c = uptime k c + 1.
Proof.
  intros Ht Hs Hr. pose proof (nthZ_Some_lt _ _ _ Ht). pose proof (nthZ_Some_lt _ _ _ Hs).
  unfold uptime, ticked, CLKTICKS_PER_SEC. rewrite Ht, Hs.
  destruct (Z.eqb_spec 1000 (t + 1)) as [E|E]; simpl; rewrite !nthZ_updZ_eq by done; simpl.
  - rewrite wrap_small by lia. lia.
  - rewrite Hs. simpl. lia.
Qed.

Section Tick.
Context (wf : kernel -> (Z -> list Z) -> Prop) `{!FifoQueues wf} (RQ : Z -> Z -> Z).
Local Abbreviation kinv := (sched_inv wf RQ).

(** C22: The clock interrupt advances the core's time by one tick, a second
    being 1000 ticks, and takes one tick of the running process's quantum.
    While the quantum lasts the process goes on; with its last tick the
    scheduler runs and the process that is current then has a full quantum.
    So a process is preempted after at most [QUANTUM] ticks, and the
    counters, the quanta and the scheduler stay well formed. *)
Theorem clock_preempts `{Layout} cpu k L :
  kinv settled k L -> clock_wf k -> core cpu -> exists s p,
    nthZ (clktime k) cpu = Some s /\ nthZ (preempt k) cpu = Some p /\ 0 < p <= QUANTUM /\
    exists r k' L', start (clkhandler cpu) k = Ret (r, k') /\ kinv settled k' L' /\ clock_wf k' /\
      (0 <= s < 2 ^ 32 - 1 -> uptime k' cpu = uptime k cpu + 1) /\
      if p =? 1 then
        (exists rest, r = inr rest) /\ nthZ (preempt k') cpu = Some QUANTUM
      else
        r = inl tt /\ nthZ (preempt k') cpu = Some (p - 1) /\ L' = L /\
        currpid k' = currpid k /\ proctab k' = proctab k.
Proof.
  intros Hi Hwf Hc. pose proof Hc as Hc'. unfold core in Hc'.
  destruct (clk_tick_run cpu k Hwf Hc) as (t & s & p & d & Ht & Hs & Hp & Hrun & _ & D1 & D2 & D3).
  pose proof (cw_quantum _ Hwf _ _ Hp) as Hpr. pose proof Hwf as [(C1 & C2 & C3) _ _ _].
  exists s, p. repeat (split; [done|]). set (k1 := ticked cpu t s p d k) in *.
  assert (kinv settled k1 L) as Hi1.
  { subst k1. unfold ticked. apply (kinv_frame wf RQ _ k); try done;
      destruct (CLKTICKS_PER_SEC =? t + 1); simpl; rewrite ?lenZ_updZ; done. }
  assert (preempt k1 = updZ cpu (p - 1) (preempt k)) as Epre by done.
  unfold clkhandler. rewrite (start_lift_Ret _ _ _ _ _ Hrun).
  destruct (Z.eqb_spec p 1) as [E|E].
  - destruct (si_cur _ _ _ _ _ Hi1 cpu Hc) as (x & q & Hx & Hq & _ & Hnr & _).
    destruct (resched_out_run wf RQ settled cpu k1 L x q Hi1 Hc Hx Hq Hnr)
      as (im & r & new & s' & tab & pt' & pn & Him & Hr & Hspec & Hpt & Hpn & Hout & Hwf').
    pose proof (resched_inv wf RQ settled cpu k1 L x q new s' Hi1 Hc (or_intror eq_refl) Hx Hq Hnr Hspec
      (updZ 0 (regs_addr x) (updZ 1 (regs_addr new) r)) im pn pt' tab Hpt Hwf') as Hinv.
    eexists _, _, _. split; [eapply start_bind_inr, resched_start, Hout|]. split; [done|]. split; [|split].
    + pose proof (ticked_wf cpu t s p d k QUANTUM Hwf Hc Ht D1 D2 D3 ltac:(klia)) as [W1 W2 W3 W4].
      constructor; simpl; try done; rewrite updZ_updZ; done.
    + intros Hsr. rewrite <- (ticked_uptime cpu t s p d k Ht Hs Hsr). done.
    + split; [by eexists|]. simpl. rewrite updZ_updZ. apply nthZ_updZ_eq. lia.
  - exists (inl tt), k1, L. split; [done|]. split; [done|]. split; [|split].
    + pose proof (ticked_wf cpu t s p d k (p - 1) Hwf Hc Ht D1 D2 D3 ltac:(klia)) as [W1 W2 W3 W4].
      by constructor.
    + apply ticked_uptime; done.
    + split; [done|]. split; [rewrite Epre; apply nthZ_updZ_eq; lia|]. split; [done|].
      subst k1. unfold ticked. by destruct (CLKTICKS_PER_SEC =? t + 1).
Qed.
End Tick.

(** ** Busy waiting *)

(** A loop that waits stops at the first reading it does not stay at. *)
Lemma wait_while_stops stay rd n fuel i :
  (i <= n)%nat -> (n < i + fuel)%nat -> stay (rd n) = false ->
  exists j, wait_while fuel stay rd i = Ret (S j) /\ (i <= j <= n)%nat /\ stay (rd j) = false /\
    forall m, (i <= m < j)%nat -> stay (rd m) = true.
Proof.
  revert i. induction fuel as [|fuel IH]; intros i Hi Hf Hn; [lia|]. simpl.
  destruct (stay (rd i)) eqn:E.
  - assert (i <> n) by congruence. destruct (IH (S i)) as (j & Hrun & Hj & Hs & Hst); [lia|lia|done|].
    exists j. split; [done|]. split; [lia|]. split; [done|]. intros m Hm.
    destruct (decide (m = i)) as [->|]; [done|apply Hst; lia].
  - exists i. split; [done|]. split; [lia|]. split; [done|]. lia.
Qed.

(** A free-running 32-bit counter: reading [i] is made [t i] cycles after
    the first. *)
Definition counter (start : Z) (t : nat -> Z) (i : nat) : Z := u32 (start + t i).

Lemma counter_value start t i : 0 <= start < 2 ^ 32 -> 0 <= t i < 2 ^ 32 ->
  counter start t i = if start + t i <? 2 ^ 32 then start + t i else start + t i - 2 ^ 32.
Proof.
  intros Hs Ht. unfold counter. case_if; [apply wrap_small; lia|].
  unfold wrap. symmetry. apply Z.mod_unique with 1; lia.
Qed.

(** The end of a delay lies beyond the wrap of the counter, the first reading
    of the loop finds the counter where it was, and the next finds it not
    wrapped yet. *)
Definition stalls (start delay : Z) (t : nat -> Z) : Prop :=
  2 ^ 32 <= start + delay /\ t 1%nat = 0 /\ start + t 2%nat < 2 ^ 32.

Lemma udelay_run fuel freq us start t n :
  let delay := u32 (freq / 1000 * us) in
  0 <= start < 2 ^ 32 -> t 0%nat = 0 -> (forall i j, (i <= j)%nat -> t i <= t j) ->
  (0 < n)%nat -> delay <= t n -> t (S n) < 2 ^ 32 -> (n + 1 < fuel)%nat ->
  exists i, udelay fuel freq us (counter start t) = Ret i /\ (i <= n + 2)%nat /\
    (delay <= t (i - 1)%nat <-> ~ stalls start delay t) /\ (stalls start delay t -> i = 3%nat).
Proof.
  intros delay Hs H0 Hmono Hn Hd Hlt Hf.
  assert (0 <= delay < 2 ^ 32) as Hdr by (apply wrap_range; lia).
  assert (forall i, (i <= S n)%nat -> 0 <= t i < 2 ^ 32) as Ht.
  { intros i Hi. pose proof (Hmono 0%nat i ltac:(lia)). pose proof (Hmono i (S n) Hi). lia. }
  assert (forall i, (i <= S n)%nat -> counter start t i =
    if start + t i <? 2 ^ 32 then start + t i else start + t i - 2 ^ 32) as Hc.
  { intros i Hi. apply counter_value; auto. }
  unfold udelay. fold delay.
  assert (counter start t 0%nat = start) as -> by (rewrite Hc, H0, Z.add_0_r by lia; case_if; lia).
  destruct (Z.ltb_spec (start + delay) (2 ^ 32)) as [Hw|Hw].
  - rewrite (wrap_small 32 (start + delay)) by lia. rewrite (proj2 (Z.leb_le _ _)) by lia.
    destruct (wait_while_stops (fun c => (c <? start + delay) && (start <=? c)) (counter start t) n fuel 1)
      as (j & -> & Hj & Hst & _); [lia|lia| |].
    + rewrite Hc by lia. pose proof (Ht n ltac:(lia)). apply andb_false_iff.
      destruct (Z.ltb_spec (start + t n) (2 ^ 32)); [left; apply Z.ltb_ge|right; apply Z.leb_gt]; lia.
    + exists (S j). split; [done|]. split; [lia|]. replace (S j - 1)%nat with j by lia.
      split; [|unfold stalls; lia]. split; [unfold stalls; lia|intros _].
      rewrite Hc in Hst by lia. apply andb_false_iff in Hst. pose proof (Ht j ltac:(lia)).
      destruct (Z.ltb_spec (start + t j) (2 ^ 32)); destruct Hst; btest; lia.
  - assert (u32 (start + delay) = start + delay - 2 ^ 32) as ->
      by (unfold wrap; symmetry; apply Z.mod_unique with 1; lia).
    rewrite (proj2 (Z.leb_gt _ _)) by lia.
    destruct (wait_while_stops (fun c => start <? c) (counter start t) n fuel 1)
      as (j & -> & Hj & Hst & Hfst); [lia|lia| |].
    + rewrite Hc by lia. pose proof (Ht n ltac:(lia)). apply Z.ltb_ge.
      destruct (Z.ltb_spec (start + t n) (2 ^ 32)); lia.
    + simpl. destruct (wait_while_stops (fun c => c <? start + delay - 2 ^ 32) (counter start t) (S n) fuel (S j))
        as (j' & -> & Hj' & Hst' & Hfst'); [lia|lia| |].
      * rewrite Hc by lia. apply Z.ltb_ge. pose proof (Hmono n (S n) ltac:(lia)).
        destruct (Z.ltb_spec (start + t (S n)) (2 ^ 32)); lia.
      * exists (S j'). split; [done|]. split; [lia|]. replace (S j' - 1)%nat with j' by lia.
        apply Z.ltb_ge in Hst, Hst'. rewrite Hc in Hst, Hst' by lia.
        pose proof (Hmono 1%nat j ltac:(lia)). pose proof (Hmono 2%nat j' ltac:(lia)).
        pose proof (Hmono j j' ltac:(lia)). pose proof (Ht 1%nat ltac:(lia)).
        pose proof (Ht 2%nat ltac:(lia)). pose proof (Ht j' ltac:(lia)).
        destruct (decide (stalls start delay t)) as [Hst1|Hst1].
        -- pose proof Hst1 as Hst2. unfold stalls in Hst2. assert (j = 1%nat) as ->.
           { destruct (decide (j = 1%nat)) as [|Hne]; [done|]. specialize (Hfst 1%nat ltac:(lia)).
             apply Z.ltb_lt in Hfst. rewrite Hc in Hfst by lia. destruct (Z.ltb_spec (start + t 1%nat) (2 ^ 32)); lia. }
           assert (j' = 2%nat) as ->.
           { destruct (decide (j' = 2%nat)) as [|Hne]; [done|]. specialize (Hfst' 2%nat ltac:(lia)).
             apply Z.ltb_lt in Hfst'. rewrite Hc in Hfst' by lia. destruct (Z.ltb_spec (start + t 2%nat) (2 ^ 32)); lia. }
           split; [split; [lia|by intros []]|done].
        -- split; [|tauto]. split; [done|intros _]. unfold stalls in Hst1.
           destruct (Z.ltb_spec (start + t j) (2 ^ 32)), (Z.ltb_spec (start + t j') (2 ^ 32)); lia.
Qed.

(** C24: [udelay] returns, with no more than one reading of the counter
    beyond the one that reaches the end of the delay; the reading it returns
    at is not before the end of the delay, whether or not the 32-bit counter
    wraps meanwhile, with exactly one exception.  It returns too early, after
    its third reading, just when the end of the delay lies beyond the wrap of
    the counter, the first reading of the loop finds the counter where it
    was, and the reading after that one comes before the wrap. *)
Theorem udelay_waits fuel freq us start t n :
  let delay := u32 (freq / 1000 * us) in
  0 <= start < 2 ^ 32 -> t 0%nat = 0 -> (forall i j, (i <= j)%nat -> t i <= t j) ->
  (0 < n)%nat -> delay <= t n -> t (S n) < 2 ^ 32 -> (n + 1 < fuel)%nat ->
  exists i, udelay fuel freq us (counter start t) = Ret i /\ (i <= n + 2)%nat /\
    (delay <= t (i - 1)%nat <-> ~ stalls start delay t) /\ (stalls start delay t -> i = 3%nat).
Proof. apply udelay_run. Qed.

(** A counter that does not move: when the end of the delay lies beyond its
    wrap, [udelay] returns after two more readings, no cycle having passed. *)
Theorem udelay_early fuel freq us start :
  (2 <= fuel)%nat -> 0 <= start < 2 ^ 32 -> 2 ^ 32 <= start + u32 (freq / 1000 * us) ->
  udelay fuel freq us (counter start (fun _ => 0)) = Ret 3%nat.
Proof.
  intros Hf Hs Hw. unfold udelay, counter. rewrite Z.add_0_r, (wrap_small 32 start) by lia.
  set (delay := u32 (freq / 1000 * us)) in *. assert (0 <= delay < 2 ^ 32) by (apply wrap_range; lia).
  assert (u32 (start + delay) = start + delay - 2 ^ 32) as ->
    by (unfold wrap; symmetry; apply Z.mod_unique with 1; lia).
  rewrite (proj2 (Z.leb_gt _ _)) by lia. destruct fuel as [|fuel]; [lia|].
  simpl. rewrite Z.ltb_irrefl. simpl. by rewrite (proj2 (Z.ltb_ge _ _)) by lia.
Qed.

(** On cores other than 0 the next timer interrupt is set by adding to
    the low word of the 64-bit count only: when that word overflows, the
    compare value lies in the past instead of [count] cycles ahead. *)
Theorem CLKUPDATE_loses_carry cpu count k c v :
  core cpu -> nthZ (core_cnt (devs k)) cpu = Some c -> nthZ (core_cval (devs k)) cpu = Some v ->
  0 <= c < 2 ^ 64 -> 0 <= count < 2 ^ 32 ->
  exists k' v', CLKUPDATE cpu count k = Ret (tt, k') /\ nthZ (core_cval (devs k')) cpu = Some v' /\
    (c mod 2 ^ 32 + count < 2 ^ 32 -> v' = c + count) /\
    (2 ^ 32 <= c mod 2 ^ 32 + count -> v' = c + count - 2 ^ 32 /\ v' < c).
Proof.
  intros Hcpu Hc Hv Hcr Hcount. unfold CLKUPDATE, upd_devs, rd_dev, bind, modify. rewrite Hc. simpl. rewrite Hv.
  simpl. eexists _, _. split; [done|]. simpl. split; [apply nthZ_updZ_eq; by eapply nthZ_Some_lt|].
  rewrite shiftl_lor_disjoint by (lia || by apply wrap_range). rewrite Z.shiftr_div_pow2 by lia.
  pose proof (Z.div_mod c (2 ^ 32) ltac:(lia)) as E. pose proof (Z.mod_pos_bound c (2 ^ 32) ltac:(lia)) as Hm.
  unfold wrap. split; intros Hsum.
  - rewrite (Z.mod_small (c mod 2 ^ 32 + count)) by lia. lia.
  - replace ((c mod 2 ^ 32 + count) mod 2 ^ 32) with (c mod 2 ^ 32 + count - 2 ^ 32)
      by (apply Z.mod_unique with 1; lia). lia.
Qed.
