(* ===== verification/Effects.v ===== *)
(** * What the operations leave alone

    The operations on processes and messages as steps of the whole system:
    besides what ProcOps.v and Message.v show of each of them, how the
    entries of all the other processes, the mailboxes, the heap and the
    clock come out of it, on every branch. *)

From stdpp Require Import base numbers functions list gmap.
From S2P Require Import Prelude Kernel Spinlock Queue Memory CString Thread Proc ProcOps Message Interrupt.

(** ** Process entries *)

Definition runnable (st : Z) : Prop := st = PRCURR \/ st = PRREADY.

(** The entry of a process an operation is not about: it can be chosen to
    run, or give way, but its stack, its message fields and its core stay. *)
Record carried (p q : pcb) : Prop := {
  ca_stack : p_stkbase q = p_stkbase p /\ p_stklen q = p_stklen p;
  ca_msg : p_msg q = p_msg p;
  ca_core : p_core_affinity q = p_core_affinity p;
  ca_state : p_state q = p_state p \/ (runnable (p_state p) /\ runnable (p_state q))
}.

#[export] Instance carried_preorder : PreOrder carried.
Proof.
  split; [intros p; split; [done|done|done|by left]|]. intros p q r [[A0 A1] A2 A3 A4] [[B0 B1] B2 B3 B4].
  split; [split; congruence|congruence|congruence|].
  destruct A4 as [A4|[A4 A5]], B4 as [B4|[B4 B5]]; rewrite ?A4, ?B4 in *; tauto.
Qed.

(** Every entry that satisfies [X] comes out of an operation with [R]. *)
Definition entries (X : Z -> Prop) (R : pcb -> pcb -> Prop) (k k' : kernel) : Prop :=
  forall y p, X y -> nthZ (proctab k) y = Some p -> exists q, nthZ (proctab k') y = Some q /\ R p q.

Lemma entries_trans X R `{!Transitive R} k k1 k' :
  entries X R k k1 -> entries X R k1 k' -> entries X R k k'.
Proof.
  intros H1 H2 y p Hy Hp. destruct (H1 y p Hy Hp) as (q & Hq & ?).
  destruct (H2 y q Hy Hq) as (r & Hr & ?). exists r. split; [done|by etrans].
Qed.

Lemma entries_weaken (X Y : Z -> Prop) (R R' : pcb -> pcb -> Prop) k k' :
  (forall y, Y y -> X y) -> (forall p q, R p q -> R' p q) -> entries X R k k' -> entries Y R' k k'.
Proof. intros HX HR H y p Hy Hp. destruct (H y p (HX y Hy) Hp) as (q & ? & ?). eauto. Qed.

Lemma entries_refl X R `{!Reflexive R} k k' : proctab k' = proctab k -> entries X R k k'.
Proof. intros E y p _ Hp. exists p. by rewrite E. Qed.

Lemma entries_upd (R : pcb -> pcb -> Prop) `{!Reflexive R} (X : Z -> Prop) k k' x p q :
  nthZ (proctab k) x = Some p -> proctab k' = updZ x q (proctab k) -> (X x -> R p q) -> entries X R k k'.
Proof.
  intros Hp E HR y p0 Hy H0. pose proof (nthZ_Some_lt _ _ _ Hp) as Hx. rewrite E, nthZ_updZ by done.
  case_decide as Ey; [subst; exists q; split; [done|]|by exists p0]. replace p0 with p by congruence. auto.
Qed.

(** ** The rest of the kernel *)

(** Names and register sets have their sizes. *)
Definition shaped (k : kernel) : Prop :=
  pcb_shape k /\ forall c r, nthZ (regfile k) c = Some r -> lenZ r = PREGS.

(** What messages, scheduling and [ready] do not touch: heap, clock and the
    shape of the tables. *)
Record frame (k k' : kernel) : Prop := {
  fr_heap : forall FL, heaps_wf k FL -> heaps_wf k' FL;
  fr_block : forall n b, block_of k n b -> block_of k' n b;
  fr_clock : clock_wf k -> clock_wf k';
  fr_shape : shaped k -> shaped k';
  fr_nextpid : nextpid k' = nextpid k
}.

#[export] Instance frame_preorder : PreOrder frame.
Proof.
  split; [by intros k|]. intros k k1 k' [A1 A2 A3 A4 A5] [B1 B2 B3 B4 B5]. constructor; auto. congruence.
Qed.

Lemma frame_same k k' :
  freelist k' = freelist k -> locktab k' = locktab k -> memheap k' = memheap k -> maxaddr k' = maxaddr k ->
  memory k' = memory k -> nextpid k' = nextpid k -> clkticks k' = clkticks k -> clktime k' = clktime k ->
  devs k' = devs k -> lenZ (preempt k') = lenZ (preempt k) ->
  (forall c p, nthZ (preempt k') c = Some p -> nthZ (preempt k) c = Some p \/ p = QUANTUM) ->
  (shaped k -> shaped k') -> frame k k'.
Proof.
  intros E1 E2 E3 E4 E5 E6 E7 E8 E9 E10 Hq Hs. constructor; try done.
  - intros FL. apply heaps_wf_frame; try done. intros x _. by rewrite E5.
  - intros n b (h & Hh & ?). exists h. by rewrite E1.
  - intros [W1 W2 W3 W4]. constructor; rewrite ?E7, ?E8, ?E9, ?E10; try done.
    intros c p [Hp| ->]%Hq; [by eapply W4|klia].
Qed.

Lemma shaped_upd x p q pt l : nthZ pt x = Some p -> lenZ (p_name q) = lenZ (p_name p) -> lenZ (p_regs q) = lenZ (p_regs p) ->
  (forall i p, nthZ pt i = Some p -> lenZ (p_name p) = PNMLEN /\ lenZ (p_regs p) = PREGS) ->
  l = updZ x q pt -> forall i p, nthZ l i = Some p -> lenZ (p_name p) = PNMLEN /\ lenZ (p_regs p) = PREGS.
Proof.
  intros Hp E1 E2 Hs -> i p0. rewrite nthZ_updZ by (by eapply nthZ_Some_lt). case_decide; [|apply Hs].
  intros [= <-]. rewrite E1, E2. by apply (Hs x).
Qed.

(** One entry and the queues are rewritten. *)
Lemma frame_entry k x p q tab :
  nthZ (proctab k) x = Some p -> p_name q = p_name p -> p_regs q = p_regs p ->
  frame k (set_queuetab tab (set_proctab (updZ x q (proctab k)) k)).
Proof.
  intros Hp E1 E2. apply frame_same; try done; [by left|]. intros [Hs Hr]. split; [|done].
  refine (shaped_upd x p q (proctab k) _ Hp _ _ Hs eq_refl); by rewrite ?E1, ?E2.
Qed.

Lemma frame_cpsr k ps : frame k (set_cpsr ps k).
Proof. apply frame_same; try done. by left. Qed.

Lemma nthZ_updZ_inv {A} i j (x y : A) l : nthZ (updZ i x l) j = Some y -> (j = i /\ y = x) \/ nthZ l j = Some y.
Proof.
  intros Hy. pose proof (nthZ_Some_lt _ _ _ Hy) as Hl. rewrite lenZ_updZ in Hl.
  destruct (decide (i = j)) as [->|]; [rewrite nthZ_updZ_eq in Hy by done; left; by simplify_eq|].
  rewrite nthZ_updZ_ne in Hy by done. by right.
Qed.

Lemma lenZ_saved r p : lenZ r = PREGS -> lenZ (saved_regs r p) = PREGS.
Proof. intros Hr. unfold saved_regs, lenZ, PREGS in *. rewrite length_app, length_take. cbn [length]. lia. Qed.
Lemma lenZ_loaded r ip : lenZ r = PREGS -> lenZ (loaded_regs r ip) = PREGS.
Proof. intros Hr. unfold loaded_regs, lenZ, PREGS in *. rewrite length_app, length_take. cbn [length]. lia. Qed.

Lemma frame_switch `{Layout} c im x new pn pt s tab k r back :
  nthZ (regfile k) c = Some r -> nthZ pt new = Some pn ->
  (forall y, nthZ pt y = switched (updZ 0 (regs_addr x) (updZ 1 (regs_addr new) r)) x new back y <$> nthZ (proctab k) y) ->
  frame k (after_switch c im new pn pt s tab k).
Proof.
  intros Hr Hpn Hpt. apply frame_same; try done; [apply lenZ_updZ| |].
  { intros c' p [[-> ->]|?]%nthZ_updZ_inv; auto. }
  intros [Hs Hrf]. assert (pcb_shape (after_switch c im new pn pt s tab k)) as Hs'.
  { intros i p. simpl. rewrite Hpt. destruct (nthZ (proctab k) i) as [p0|] eqn:E; [|done]. intros [= <-].
    destruct (Hs i p0 E) as [E1 E2]. unfold switched. destruct (i =? x); simpl; [|done]. split; [done|].
    apply lenZ_saved. rewrite !lenZ_updZ. by eapply Hrf. }
  split; [done|]. intros c' r' [[-> ->]|?]%nthZ_updZ_inv; [|by eapply Hrf]. apply lenZ_loaded. by apply (Hs' new).
Qed.

Section Effects.
Context (QL : Z -> Z) (RQ : Z -> Z -> Z) (MQ : Z -> Z) `{Layout}.
Local Abbreviation kinv := (sched_inv (queues_at QL) RQ).
Local Abbreviation mail_inv := (mail_inv QL RQ MQ).
Local Abbreviation sys_inv := (sys_inv QL RQ MQ).
Local Abbreviation mbox := (mbox MQ).

(** *** The ready lists *)

Definition look_at (k : kernel) (L : Z -> list Z) (c : Z) : look :=
  mkLook (nthZ (currpid k) c) (default 0 (nthZ (preempt k) c)) (abs RQ k L c).

(** Who is in [X] keeps its place on every core, or comes closer. *)
Definition stays (X : Z -> Prop) (k : kernel) (L : Z -> list Z) (k' : kernel) (L' : Z -> list Z) : Prop :=
  forall c y, core c -> X y -> look_cur (look_at k' L' c) = look_cur (look_at k L c) /\
    look_quantum (look_at k' L' c) = look_quantum (look_at k L c) /\ closer y (abs RQ k L c) (abs RQ k' L' c).

(** What a step with [t c] clock ticks on core [c] does to the processes of
    [X] that wait for a core. *)
Definition turns (t : Z -> Z) (X : Z -> Prop) (k : kernel) (L : Z -> list Z) (k' : kernel) (L' : Z -> list Z) : Prop :=
  forall c y, core c -> X y -> turned (t c) y (look_at k L c) (look_at k' L' c).

Definition no_ticks : Z -> Z := fun _ => 0.
Definition everyone : Z -> Prop := fun _ => True.

Lemma stays_turns X k L k' L' : stays X k L k' L' -> turns no_ticks X k L k' L'.
Proof using. intros Hst c y Hc Hy. destruct (Hst c y Hc Hy) as (E1 & E2 & E3). left. split; [done|]. split; [unfold no_ticks; lia|done]. Qed.

Lemma turns_after t X k L k1 L1 k' L' : stays X k L k1 L1 -> turns t X k1 L1 k' L' -> turns t X k L k' L'.
Proof using.
  intros H1 H2 c y Hc Hy. destruct (H1 c y Hc Hy) as (E1 & E2 & E3). change (t c) with (0 + t c).
  eapply turned_after; [exact E1| |exact E3|by apply H2]. rewrite E2. lia.
Qed.

Lemma stays_trans X k L k1 L1 k' L' : stays X k L k1 L1 -> stays X k1 L1 k' L' -> stays X k L k' L'.
Proof using.
  intros H1 H2 c y Hc Hy. destruct (H1 c y Hc Hy) as (A1 & A2 & A3). destruct (H2 c y Hc Hy) as (B1 & B2 & B3).
  split; [congruence|split; [congruence|by etrans]].
Qed.

Lemma turns_weaken t (X Y : Z -> Prop) k L k' L' : (forall y, Y y -> X y) -> turns t X k L k' L' -> turns t Y k L k' L'.
Proof using. intros HX Ht c y Hc Hy. apply Ht; auto. Qed.

(** The lists only change so that whoever was in one is no further back. *)
Lemma stays_lists X k L k' L' :
  currpid k' = currpid k -> preempt k' = preempt k -> promote_medium k' = promote_medium k -> promote_low k' = promote_low k ->
  (forall c q y (i : nat), core c -> prio q -> X y -> L (RQ c q) !! i = Some y ->
     exists j : nat, (j <= i)%nat /\ L' (RQ c q) !! j = Some y) ->
  stays X k L k' L'.
Proof using.
  intros E1 E2 E3 E4 HL c y Hc Hy. unfold look_at. rewrite E1, E2. split; [done|split; [done|]].
  apply closer_lists; unfold abs; rewrite ?E3, ?E4; try done; intros i Hi; by apply HL.
Qed.

Lemma stays_same X k L k' L' :
  currpid k' = currpid k -> preempt k' = preempt k -> promote_medium k' = promote_medium k -> promote_low k' = promote_low k ->
  (forall c q, core c -> prio q -> L' (RQ c q) = L (RQ c q)) -> stays X k L k' L'.
Proof using.
  intros E1 E2 E3 E4 HL. apply stays_lists; try done. intros c q y i Hc Hq _ Hi. exists i. by rewrite HL.
Qed.

(** A process joins a queue. *)
Lemma stays_joins X k L k' h x :
  currpid k' = currpid k -> preempt k' = preempt k -> promote_medium k' = promote_medium k -> promote_low k' = promote_low k ->
  stays X k L k' (<[h := L h ++ [x]]> L).
Proof using.
  intros E1 E2 E3 E4. apply stays_lists; try done. intros c q y i _ _ _ Hi. exists i. split; [done|].
  destruct (decide (h = RQ c q)) as [->|Hn]; [rewrite fn_lookup_insert; by apply lookup_app_l_Some|by rewrite fn_lookup_insert_ne].
Qed.

(** A process leaves a queue. *)
Lemma stays_leaves k L k' h l1 x l2 :
  currpid k' = currpid k -> preempt k' = preempt k -> promote_medium k' = promote_medium k -> promote_low k' = promote_low k ->
  L h = l1 ++ x :: l2 -> stays (fun y => y <> x) k L k' (<[h := l1 ++ l2]> L).
Proof using.
  intros E1 E2 E3 E4 El. apply stays_lists; try done. intros c q y i _ _ Hy Hi.
  destruct (decide (h = RQ c q)) as [->|Hn]; [rewrite fn_lookup_insert|exists i; by rewrite fn_lookup_insert_ne].
  rewrite El in Hi. destruct (decide (i < length l1)%nat).
  - exists i. split; [done|]. rewrite lookup_app_l in Hi by done. by rewrite lookup_app_l.
  - rewrite lookup_app_r in Hi by lia. destruct (i - length l1)%nat as [|j] eqn:Ej; [simpl in Hi; congruence|].
    exists (length l1 + j)%nat. split; [lia|]. rewrite lookup_app_r by lia. by replace (length l1 + j - length l1)%nat with j by lia.
Qed.

(** A decision of the scheduler. *)
Lemma turns_switch X c im new pn pt s tab x back k L :
  rq_ok RQ k -> core c -> lenZ (currpid k) = NCORES -> lenZ (promote_medium k) = NCORES -> lenZ (promote_low k) = NCORES ->
  spec_resched x back (abs RQ k L c) = Some (new, s) ->
  turns no_ticks X k L (after_switch c im new pn pt s tab k) (setq RQ c s L).
Proof using.
  intros Hr Hc Hl H1 H2 Hs c' y Hc' _. unfold turned, look_at. cbn [look_cur look_quantum look_core].
  rewrite abs_after by done. case_decide as E.
  - subst c'. right. exists x, back, (abs RQ k L c), new. split; [done|]. split; [done|].
    simpl. apply nthZ_updZ_eq. unfold core in Hc. lia.
  - left. simpl. rewrite !nthZ_updZ_ne by congruence. split; [done|]. split; [unfold no_ticks; lia|done].
Qed.

(** The mailboxes, and who waits in them, are as before. *)
Record same_mail (k : kernel) (L : Z -> list Z) (k' : kernel) (L' : Z -> list Z) : Prop := {
  sm_box : forall i, 0 <= i < NPROC -> mbox k' L' i = mbox k L i;
  sm_queue : forall i, 0 <= i < NPROC -> L' (MQ i) = L (MQ i)
}.

Lemma same_mail_trans k L k1 L1 k' L' :
  same_mail k L k1 L1 -> same_mail k1 L1 k' L' -> same_mail k L k' L'.
Proof. intros [A1 A2] [B1 B2]. constructor; intros i Hi; rewrite ?B1, ?B2 by done; auto. Qed.

(** A thread that only restores the interrupt mask and returns [OK]. *)
Definition quiet (t : thread Z) : Prop :=
  forall k, lenZ (cpsr k) = NCORES ->
    exists ps, lenZ ps = NCORES /\ start t k = Ret (inl OK, set_cpsr ps k).

Lemma resched_rest_quiet c im : core c -> quiet (resched_rest c im).
Proof.
  intros Hc k Hk. unfold core in Hc. unfold resched_rest. simpl. rewrite restore_run by lia.
  eexists. split; [|done]. by rewrite lenZ_updZ.
Qed.

Lemma quiet_bind_ret t : quiet t -> quiet (t ;;== tret OK).
Proof.
  intros Ht k Hk. destruct (Ht k Hk) as (ps & Hps & Hr). exists ps. split; [done|].
  by rewrite (start_bind_inl _ _ _ _ _ Hr).
Qed.

Lemma quiet_restore t c im : core c -> quiet t -> quiet (t ;;== lift (restore c im ;;; ret OK)).
Proof.
  intros Hc Ht k Hk. destruct (Ht k Hk) as (ps & Hps & Hr). unfold core in Hc.
  rewrite (start_bind_inl _ _ _ _ _ Hr), start_lift, restore_run by (simpl; lia).
  eexists. split; [|done]. simpl. by rewrite lenZ_updZ.
Qed.

(** A decision of the scheduler seen from the entries. *)
Lemma switched_carried t c k L x p new s' r y p0 :
  kinv t k L -> core c -> nthZ (currpid k) c = Some x -> nthZ (proctab k) x = Some p ->
  spec_resched x (if PRCURR =? p_state p then Some (p_priority p) else None) (abs RQ k L c) = Some (new, s') ->
  nthZ (proctab k) y = Some p0 -> carried p0 (switched r x new (PRCURR =? p_state p) y p0).
Proof.
  intros Hi Hc Hcur Hp Hspec H0. set (back := PRCURR =? p_state p) in *.
  destruct (switched_fields r x new back y p0) as (Ea & _ & Es). split; [| |done|].
  - unfold switched. by destruct (y =? x).
  - apply switched_msg.
  - rewrite Es. destruct (Z.eqb_spec y new) as [->|Hne].
    + right. split; [|by left].
      destruct (chosen (queues_at QL) RQ t c k L x p new s' Hi Hc Hcur Hp Hspec) as (q & Hq & _ & [[-> Hb]|Hr]);
        replace q with p0 in * by congruence; [|by right].
      left. replace p0 with p by congruence. unfold back in Hb. btest. congruence.
    + destruct (Z.eqb_spec y x) as [->|]; [|by left]. destruct back eqn:Eb; [|by left]. right.
      replace p0 with p by congruence. split; [left; unfold back in Eb; btest; congruence|by right].
Qed.

(** [resched] of a core whose current process waits, died or stays eligible. *)
Lemma switch_effect t c k L x p :
  kinv t k L -> mail_inv k L -> core c -> t = c \/ t = settled ->
  nthZ (currpid k) c = Some x -> nthZ (proctab k) x = Some p -> p_state p <> PRREADY ->
  exists im k' L', start (resched c) k = Ret (inr (resched_rest c im), k') /\ sys_inv k' L' /\
    turns no_ticks everyone k L k' L' /\
    (exists new pn s tab pt, k' = after_switch c im new pn pt s tab k) /\
    frame k k' /\ same_mail k L k' L' /\ entries (fun _ => True) carried k k' /\
    (p_state p <> PRCURR -> exists q, nthZ (proctab k') x = Some q /\ p_state q = p_state p).
Proof.
  intros Hi Hm Hc Ht Hcur Hp Hnr.
  destruct (resched_out_run (queues_at QL) RQ t c k L x p Hi Hc Hcur Hp Hnr)
    as (im & r & new & s' & tab & pt & pn & Him & Hr & Hspec & Hpt & Hpn & Hout & Hwf).
  destruct (mail_switch QL RQ MQ t c k L x p new s' _ im pn pt tab Hi Hm Hc Ht Hcur Hp Hspec Hpt Hnr) as [Hmail Hmb].
  exists im, (after_switch c im new pn pt s' tab k), (setq RQ c s' L).
  split; [by apply resched_start|]. split; [split; [|done]|]. 2: split;
    [|split; [by eexists _, _, _, _, _|split; [by eapply frame_switch|split; [split|split]]]].
  - exact (resched_inv (queues_at QL) RQ t c k L x p new s' Hi Hc Ht Hcur Hp Hnr Hspec _ im pn pt tab Hpt Hwf).
  - eapply turns_switch; [apply Hi|done|apply Hi|apply Hi|apply Hi|exact Hspec].
  - done.
  - intros i Hir. rewrite setq_other; [done|..]; intros; apply (mi_apart _ _ _ _ _ Hm); unfold prio; done || klia.
  - intros y p0 _ H0. simpl. rewrite Hpt, H0. eexists. split; [done|].
    exact (switched_carried t c k L x p new s' _ y p0 Hi Hc Hcur Hp Hspec H0).
  - intros Hnc. simpl. rewrite Hpt, Hp. simpl. eexists. split; [done|].
    match goal with |- p_state (switched ?r ?x ?n ?b ?y ?p) = _ => destruct (switched_fields r x n b y p) as (_ & _ & ->) end.
    destruct (Z.eqb_spec x new) as [<-|Hne];
      [exfalso|by rewrite (proj2 (Z.eqb_neq PRCURR _)), andb_false_r by congruence].
    destruct (chosen (queues_at QL) RQ t c k L x p x s' Hi Hc Hcur Hp Hspec)
      as (q & Hq & _ & [[_ Hbk]|Hrd]); [by apply (isback_iff p) in Hbk|congruence].
Qed.

(** [ready], with or without the reschedule. *)
Lemma ready_effect cpu k L x p resch cr :
  sys_inv k L -> core cpu -> nthZ (proctab k) x = Some p -> p_state p <> PRFREE -> p_state p <> PRCURR ->
  unqueued k L x -> core (home p cr) ->
  exists r k' L', start (ready cpu x resch cr) k = Ret (r, k') /\ sys_inv k' L' /\ turns no_ticks everyone k L k' L' /\
    (r = inl OK \/ exists t, r = inr t /\ quiet t) /\ (resch = false -> r = inl OK) /\
    frame k k' /\ same_mail k L k' L' /\ entries (fun y => y <> x) carried k k' /\
    exists q, nthZ (proctab k') x = Some q /\ runnable (p_state q) /\ p_core_affinity q = home p cr /\
      p_msg q = p_msg p /\ p_stkbase q = p_stkbase p /\ p_stklen q = p_stklen p.
Proof.
  intros Hk Hc Hp Hs1 Hs2 Hu Ha. pose proof Hk as [Hi Hm]. pose proof (nthZ_Some_lt _ _ _ Hp) as Hx.
  destruct (nthZ_lt_Some (cpsr k) cpu) as [im Him]; [by rewrite (si_cpsr _ _ _ _ _ Hi)|].
  set (a := home p cr) in *. destruct (resch && (cpu =? u32 a)) eqn:Er.
  - destruct (ready_prefix (queues_at QL) RQ cpu k L x p resch cr im Hi Him Hp Hs1 Hs2 Hu Ha) as (tab & Hrun & Hi1).
    fold a in Hrun, Hi1. rewrite Er in Hrun. set (k1 := set_cpsr _ _) in *. set (L1 := <[_ := _]> L) in *.
    destruct (mail_readied QL RQ MQ k L k1 x p a Hk Hp Hs1 Hu Ha eq_refl eq_refl eq_refl) as [Hm1 Hb1].
    destruct (si_cur _ _ _ _ _ Hi1 cpu Hc) as (z & pz & Hz & Hpz & _ & Hnz & _).
    destruct (switch_effect settled cpu k1 L1 z pz Hi1 Hm1 Hc (or_intror eq_refl) Hz Hpz Hnz)
      as (im1 & k' & L' & Hsw & Hk' & Htu & _ & Hf & Hsm & He & _).
    eexists _, k', L'. split; [rewrite Hrun; by eapply start_bind_inr|]. split; [done|].
    split; [by eapply turns_after; [by apply stays_joins|]|].
    split; [right; eexists; split; [done|by apply quiet_restore, resched_rest_quiet]|].
    split; [intros ->; by rewrite andb_false_l in Er|].
    split; [|split; [|split]].
    + etrans; [|exact Hf]. etrans; [by apply (frame_entry k x p (readied a p) tab)|apply frame_cpsr].
    + eapply same_mail_trans; [|exact Hsm]. split; intros i Hir; by apply Hb1.
    + eapply (entries_trans _ _ k k1); [by apply (entries_upd carried _ k k1 x p (readied a p))|].
      by eapply entries_weaken; [..|exact He].
    + destruct (He x (readied a p)) as (q & Hq & [[C1 C2] C3 C4 C5]); [done|by apply nthZ_updZ_eq|].
      exists q. simpl in *. split; [done|]. split; [|by rewrite C1, C2].
      destruct C5 as [->|[_ ?]]; [by right|done].
  - destruct (ready_noresched (queues_at QL) RQ cpu k L x p resch cr im Hi Him Hp Hs1 Hs2 Hu Ha Er) as (tab & Hrun & Hi1).
    cbv zeta in Hrun, Hi1. fold a in Hrun, Hi1. set (k1 := set_queuetab _ _) in *. set (L1 := <[_ := _]> L) in *.
    destruct (mail_readied QL RQ MQ k L k1 x p a Hk Hp Hs1 Hu Ha eq_refl eq_refl eq_refl) as [Hm1 Hb1].
    exists (inl OK), k1, L1. split; [done|]. split; [done|]. split; [by apply stays_turns, stays_joins|].
    split; [by left|]. split; [done|]. split; [by apply (frame_entry k x p (readied a p) tab)|].
    split; [split; intros i Hir; by apply Hb1|]. split; [by apply (entries_upd carried _ k k1 x p (readied a p))|].
    exists (readied a p). split; [by apply nthZ_updZ_eq|]. split; [by right|done].
Qed.

(** ** Sending *)

(** The entry of a process that has got a message: it can run if it waited
    for one. *)
Record delivered (p q : pcb) : Prop := {
  de_stack : p_stkbase q = p_stkbase p /\ p_stklen q = p_stklen p;
  de_core : p_core_affinity q = p_core_affinity p;
  de_flag : hasMessage (p_msg q) = TRUE;
  de_state : p_state p <> PRRECV /\ p_state q = p_state p \/
    runnable (p_state q) /\ (runnable (p_state p) \/ p_state p = PRRECV)
}.

(** The entry of a process that waits to send. *)
Record parking (p q : pcb) : Prop := {
  pk_stack : p_stkbase q = p_stkbase p /\ p_stklen q = p_stklen p;
  pk_core : p_core_affinity q = p_core_affinity p;
  pk_state : p_state q = PRSEND
}.

Definition resumes_ok (r : Z + thread Z) : Prop := r = inl OK \/ exists t, r = inr t /\ quiet t.

(** The message is the last of the receiver's mailbox. *)
Definition appended (pid msg : Z) (k : kernel) (L : Z -> list Z) (k' : kernel) (L' : Z -> list Z) : Prop :=
  mbox k' L' pid = mbox k L pid ++ [msg] /\
  (forall i, 0 <= i < NPROC -> i <> pid -> mbox k' L' i = mbox k L i /\ L' (MQ i) = L (MQ i)) /\
  forall y, y ∈ L (MQ pid) -> y ∈ L' (MQ pid).

(** [cur] has delivered a message to [pid], or waits in its queue. *)
Definition delivery (cur pid msg : Z) (k : kernel) (L : Z -> list Z) (r : Z + thread Z) (k' : kernel)
    (L' : Z -> list Z) : Prop :=
  resumes_ok r /\ live k pid /\ appended pid msg k L k' L' /\
  entries (fun y => y <> pid /\ y <> cur) carried k k' /\
  ((entries (fun y => y = pid) delivered k k' /\ entries (fun y => y = cur /\ cur <> pid) carried k k') \/
   (cur <> pid /\ (exists t, r = inr t) /\ entries (fun y => y = pid) carried k k' /\
    entries (fun y => y = cur) parking k k' /\ cur ∈ L' (MQ pid))).

(** A process waiting for a message belongs to a core and has none. *)
Definition receivers_ok (k : kernel) : Prop :=
  forall y p, nthZ (proctab k) y = Some p -> p_state p = PRRECV -> core (p_core_affinity p) /\
    hasMessage (p_msg p) = FALSE.

Lemma appended_mail pid msg k L k1 L1 k' L' :
  0 <= pid < NPROC -> appended pid msg k L k1 L1 -> same_mail k1 L1 k' L' -> appended pid msg k L k' L'.
Proof.
  intros Hp (A1 & A2 & A3) [B1 B2]. split; [by rewrite B1|].
  split; [intros i Hi Hn; rewrite B1, B2 by done; auto|]. intros y Hy. rewrite B2 by done. auto.
Qed.

(** Depositing a message in an empty mailbox, and waking the receiver. *)
Lemma deposit_effect cpu k L cur pid p msg resch :
  sys_inv k L -> receivers_ok k -> core cpu -> nthZ (proctab k) pid = Some p -> p_state p <> PRFREE ->
  mbox k L pid = [] ->
  let k1 := set_proctab (updZ pid (deposit msg p) (proctab k)) k in
  exists r k' L',
    start (if PRRECV =? p_state p then ready cpu pid resch (p_core_affinity p) ;;== tret OK else tret OK) k1 = Ret (r, k') /\
    sys_inv k' L' /\ turns no_ticks everyone k L k' L' /\ frame k k' /\ (resch = false -> r = inl OK) /\
    delivery cur pid msg k L r k' L'.
Proof.
  intros Hk Hrec Hc Hp Hs Hb k1. pose proof Hk as [Hi Hm]. pose proof (nthZ_Some_lt _ _ _ Hp) as Hx.
  pose proof (si_proctab _ _ _ _ _ Hi) as Hlen. assert (0 <= pid < NPROC) as Hxr by lia.
  destruct (deposit_inv QL RQ MQ k L pid p msg Hk Hp Hb) as (Hk1 & Hb1 & Ho1). fold k1 in Hk1, Hb1, Ho1.
  assert (frame k k1) as Hf1.
  { apply (frame_entry k pid p (deposit msg p) (queuetab k) Hp); done. }
  assert (appended pid msg k L k1 L) as Happ by (split; [by rewrite Hb1, Hb|split; auto]).
  assert (live k pid) as Hlive by (split; [done|by exists p]).
  assert (entries (fun y => y <> pid) carried k k1) as He1 by (by apply (entries_upd carried _ k k1 pid p (deposit msg p))).
  assert (nthZ (proctab k1) pid = Some (deposit msg p)) as Hp1 by (by apply nthZ_updZ_eq).
  destruct (Z.eqb_spec PRRECV (p_state p)) as [Er|Er].
  - symmetry in Er. destruct (Hrec pid p Hp Er) as [Hac _].
    assert (home (deposit msg p) (p_core_affinity p) = p_core_affinity p) as Eh.
    { unfold home. simpl. rewrite (proj2 (Z.eqb_neq (-1) _)); [done|]. unfold core in Hac. lia. }
    assert (unqueued k1 L pid) as Hu.
    { apply (not_queued (queues_at QL) RQ settled k1 L pid _ (proj1 Hk1) Hp1); simpl; klia. }
    destruct (ready_effect cpu k1 L pid (deposit msg p) resch (p_core_affinity p) Hk1 Hc Hp1)
      as (r & k' & L' & Hrun & Hk' & Htu & Hr & Hno & Hf & Hsm & He & (q & Hq & Hqs & Hqc & Hqm & Hq1 & Hq2));
      [done|simpl; klia|done|by rewrite Eh|].
    assert (exists r', start (ready cpu pid resch (p_core_affinity p) ;;== tret OK) k1 = Ret (r', k') /\
      resumes_ok r' /\ (resch = false -> r' = inl OK)) as (r' & Hrun' & Hr' & Hno').
    { destruct Hr as [->|(t & -> & Ht)].
      - exists (inl OK). split; [by rewrite (start_bind_inl _ _ _ _ _ Hrun)|]. split; [by left|done].
      - exists (inr (t ;;== tret OK)). split; [by apply start_bind_inr|].
        split; [right; eexists; split; [done|by apply quiet_bind_ret]|]. intros E. by apply Hno in E. }
    exists r', k', L'. split; [done|]. split; [done|]. split; [by eapply turns_after; [by apply stays_same|]|].
    split; [by etrans|]. split; [done|].
    split; [done|]. split; [done|]. split; [by eapply appended_mail|]. split; [|left; split].
    + eapply (entries_trans _ _ k k1); (eapply entries_weaken; [| |done]); [by intros ? []|done|by intros ? []|done].
    + intros y p0 -> H0. exists q. split; [done|]. replace p0 with p by congruence.
      constructor; [done|by rewrite Hqc, Eh|by rewrite Hqm|]. right. split; [done|by right].
    + eapply (entries_trans _ _ k k1); (eapply entries_weaken; [| |done]); try done; by intros ? [-> ?].
  - exists (inl OK), k1, L. split; [done|]. split; [done|]. split; [by apply stays_turns, stays_same|].
    split; [done|]. split; [done|]. split; [by left|]. split; [done|]. split; [done|]. split; [|left; split].
    + eapply entries_weaken; [| |exact He1]; [by intros ? []|done].
    + intros y p0 -> H0. exists (deposit msg p). split; [done|]. replace p0 with p by congruence.
      constructor; try done. left. split; [congruence|done].
    + eapply entries_weaken; [| |exact He1]; [by intros ? [-> ?]|done].
Qed.

Lemma isbadpid_cases k pid : lenZ (proctab k) = NPROC ->
  (isbadpid pid k = Ret (false, k) /\ 0 <= pid < NPROC /\
     exists p, nthZ (proctab k) pid = Some p /\ p_state p <> PRFREE) \/
  (isbadpid pid k = Ret (true, k) /\ forall p, nthZ (proctab k) pid = Some p -> p_state p = PRFREE).
Proof.
  intros Hl. destruct (decide (0 <= pid < NPROC)) as [Hr|Hr].
  - destruct (nthZ_lt_Some (proctab k) pid) as [p Hp]; [lia|].
    destruct (decide (p_state p = PRFREE)) as [Hs|Hs].
    + right. split; [|intros q; congruence]. unfold isbadpid.
      rewrite (proj2 (Z.ltb_ge pid 0)), (proj2 (Z.leb_gt NPROC pid)) by lia. cbn [orb].
      by rewrite (bind_rd_proc _ _ _ _ Hp), Hs.
    + left. split; [|by eauto]. apply isbadpid_live. split; eauto.
  - right. split; [|intros p Hp; apply nthZ_Some_lt in Hp; lia]. unfold isbadpid.
    destruct (Z.ltb_spec pid 0), (Z.leb_spec NPROC pid); try done. lia.
Qed.

(** [send], on every branch. *)
Lemma send_effect cpu k L cur pid msg :
  sys_inv k L -> receivers_ok k -> core cpu -> nthZ (currpid k) cpu = Some cur -> ~ core cur ->
  (pid = cur -> mbox k L pid = []) ->
  exists r k' L', start (send cpu pid msg) k = Ret (r, k') /\ sys_inv k' L' /\
    turns no_ticks everyone k L k' L' /\ frame k k' /\
    ((r = inl SYSERR /\ k' = k /\ L' = L) \/ delivery cur pid msg k L r k' L').
Proof.
  intros Hk Hrec Hc Hcur Hnull Hself. pose proof Hk as [Hi Hm]. pose proof (si_proctab _ _ _ _ _ Hi) as Hlen.
  unfold send. destruct (isbadpid_cases k pid Hlen) as [(Hbad & Hx & p & Hp & Hs)|[Hbad _]].
  2: { exists (inl SYSERR), k, L. split; [by rewrite (start_lift_Ret _ _ _ _ _ Hbad)|]. split; [done|].
       split; [by apply stays_turns, stays_same|]. split; [done|by left]. }
  rewrite (start_lift_Ret _ _ _ _ _ Hbad). cbv beta iota.
  destruct (mi_flag _ _ _ _ _ Hm pid p Hp) as [Hf|[Hf _]].
  - assert (cur <> pid) as Hne.
    { intros <-. pose proof (Hself eq_refl) as Hb. apply (mbox_nil _ _ _ _ _ _ _ Hm Hp) in Hb. rewrite Hf in Hb. done. }
    destruct (si_cur _ _ _ _ _ Hi cpu Hc) as (z & pc & Hz & Hpc & _). assert (z = cur) as -> by congruence. clear Hz.
    destruct (current_entry QL RQ k L cpu cur pc Hi Hc Hcur Hpc) as (Hst & Haff & Hu).
    pose proof (nthZ_Some_lt _ _ _ Hpc) as Hcx.
    assert (forall i, 0 <= i < NPROC -> cur ∉ L (MQ i)) as Hu'.
    { intros i Hir. apply Hu. destruct (nthZ_lt_Some (proctab k) i) as [q Hq]; [lia|]. by apply (mi_queue _ _ _ _ _ Hm i q). }
    destruct (send_locked_block QL RQ MQ cpu k L pid p cur pc msg Hi Hm Hcur Hpc Hp Hne Hc Hs Hf) as (tab & Hrun & Hwf).
    destruct (sender_parked QL RQ MQ cpu k L pid p cur pc msg tab Hk Hc Hcur Hpc Hp Hf Hne Hnull Hwf) as [Hi1 Hm1].
    destruct (parked_boxes QL RQ MQ k L pid p cur pc msg tab Hm Hpc Hp Hf Hne Hu' Hx) as [Hb1 Hb2].
    set (k1 := set_queuetab tab _) in *. set (L1 := <[MQ pid := _]> L) in *.
    assert (nthZ (proctab k1) cur = Some (parked msg pc)) as Hc1 by (by apply nthZ_updZ_eq).
    destruct (switch_effect cpu cpu k1 L1 cur (parked msg pc) Hi1 Hm1 Hc (or_introl eq_refl) Hcur Hc1)
      as (im & k' & L' & Hr & Hk' & Htu & _ & Hf1 & Hsm & He & Hown); [done|].
    destruct (Hown ltac:(done)) as (qc & Hqc & Hsc).
    eexists _, k', L'. split; [rewrite (start_lift_Ret _ _ _ _ _ Hrun); by apply start_bind_inr|]. split; [done|].
    split; [by eapply turns_after; [by apply stays_joins|]|].
    split; [etrans; [by apply (frame_entry k cur pc (parked msg pc) tab)|done]|]. right.
    assert (forall y, y <> cur -> entries (fun z => z = y) carried k k') as He'.
    { intros y Hy. eapply (entries_trans _ _ k k1); [|by eapply entries_weaken; [..|exact He]].
      apply (entries_upd carried _ k k1 cur pc (parked msg pc)); done. }
    split; [right; eexists; split; [done|by apply quiet_bind_ret, resched_rest_quiet]|]. split; [split; [done|by exists p]|].
    split; [eapply (appended_mail pid msg k L k1 L1); [done| |done]|].
    { split; [done|]. split.
      - intros i Hir Hn. split; [by apply Hb2|]. unfold L1. rewrite fn_lookup_insert_ne; [done|].
        intros E. by apply Hn, (mi_inj _ _ _ _ _ Hm).
      - intros y Hy. unfold L1. rewrite fn_lookup_insert. apply elem_of_app. by left. }
    split; [intros y p0 [_ Hy] H0; by apply (He' y Hy y)|]. right.
    split; [done|]. split; [by eexists|]. split; [by apply He'|]. split.
    + intros y p0 -> H0. exists qc. split; [done|]. replace p0 with pc by congruence.
      destruct (He cur (parked msg pc) I Hc1) as (q & Hq & [[E1 E2] _ E3 _]). replace q with qc in * by congruence. done.
    + rewrite (sm_queue _ _ _ _ Hsm) by done. unfold L1. rewrite fn_lookup_insert. apply elem_of_app. right. left.
  - assert (mbox k L pid = []) as Hb by (by apply (mbox_nil _ _ _ _ _ _ _ Hm Hp)).
    destruct (deposit_effect cpu k L cur pid p msg true Hk Hrec Hc Hp Hs Hb)
      as (r & k' & L' & Hrun & Hk' & Htu & Hfr & _ & Hd).
    exists r, k', L'. split; [|by eauto 6]. rewrite <- Hrun.
    rewrite (start_lift_Ret _ _ _ _ _ (send_locked_deposit QL RQ MQ cpu k L pid p cur msg Hm Hcur Hp Hs Hf)).
    by destruct (PRRECV =? p_state p).
Qed.

(** The critical section of [sendnow]. *)
Lemma sendnow_locked_run cpu k L pid p msg :
  mail_inv k L -> lenZ (proctab k) = NPROC -> nthZ (proctab k) pid = Some p ->
  sendnow_locked cpu pid msg k =
  Ret (if (PRFREE =? p_state p) || negb (hasMessage (p_msg p) =? 0) then (SendReturn SYSERR, k)
       else (if PRRECV =? p_state p then SendWake (p_core_affinity p) else SendReturn OK,
             set_proctab (updZ pid (deposit msg p) (proctab k)) k)).
Proof.
  intros Hm Hlen Hp. destruct (mi_lock _ _ _ _ _ Hm pid p Hp) as (Hl & Hrest & _).
  pose proof (nthZ_Some_lt _ _ _ Hp) as Hx. pose proof (nthZ_Some_lt _ _ _ Hrest) as Hlr.
  unfold sendnow_locked. rewrite (bind_rd_proc _ _ _ _ Hp), bind_acquire by done.
  set (kl := set_locktab _ k).
  assert (forall A (v : A), com_release pid v kl = Ret (v, k)) as Hrel.
  { intros A v. rewrite (com_release_run cpu kl pid p v); [|done|done|simpl; by apply nthZ_updZ_eq].
    simpl. rewrite release_acquire_tab by done. by destruct k. }
  destruct (isbadpid_cases kl pid Hlen) as [(Hbad & _ & p' & Hp' & Hs)|[Hbad Hs]]; rewrite (bind_Ret _ _ _ _ _ Hbad).
  2: { rewrite (Hs p Hp). by rewrite Hrel. }
  rewrite (bind_rd_proc _ p) by exact Hp.
  destruct ((PRFREE =? p_state p) || negb (hasMessage (p_msg p) =? 0)); [apply Hrel|].
  rewrite (bind_upd_msg _ p) by exact Hp.
  rewrite (bind_upd_msg _ (upd_p_msg (set_msgin msg) p)) by (simpl; by apply nthZ_updZ_eq).
  rewrite (bind_rd_proc _ (deposit msg p)) by (simpl; rewrite updZ_updZ; by apply nthZ_updZ_eq).
  cbn [p_state deposit upd_p_msg p_core_affinity]. simpl. rewrite updZ_updZ.
  destruct (PRRECV =? p_state p); erewrite (com_release_run cpu);
    try (simpl; apply nthZ_updZ_eq; done); try done; simpl; rewrite release_acquire_tab by done; by destruct k.
Qed.

(** [sendnow] never waits. *)
Lemma sendnow_effect cpu k L cur pid msg :
  sys_inv k L -> receivers_ok k -> core cpu -> 0 <= pid < NPROC ->
  exists r k' L', start (sendnow cpu pid msg) k = Ret (inl r, k') /\ sys_inv k' L' /\
    turns no_ticks everyone k L k' L' /\ frame k k' /\
    ((r = SYSERR /\ k' = k /\ L' = L) \/ (r = OK /\ delivery cur pid msg k L (inl OK) k' L')).
Proof.
  intros Hk Hrec Hc Hx. pose proof Hk as [Hi Hm]. pose proof (si_proctab _ _ _ _ _ Hi) as Hlen.
  destruct (nthZ_lt_Some (proctab k) pid) as [p Hp]; [lia|]. unfold sendnow.
  pose proof (sendnow_locked_run cpu k L pid p msg Hm Hlen Hp) as Hrun.
  destruct ((PRFREE =? p_state p) || negb (hasMessage (p_msg p) =? 0)) eqn:E.
  { exists SYSERR, k, L. split; [by rewrite (start_lift_Ret _ _ _ _ _ Hrun)|]. split; [done|].
    split; [by apply stays_turns, stays_same|]. split; [done|by left]. }
  btest. assert (p_state p <> PRFREE) as Hs by congruence.
  assert (mbox k L pid = []) as Hb.
  { apply (mbox_nil _ _ _ _ _ _ _ Hm Hp). destruct (mi_flag _ _ _ _ _ Hm pid p Hp) as [Hf|[Hf _]]; [|done]. klia. }
  destruct (deposit_effect cpu k L cur pid p msg false Hk Hrec Hc Hp Hs Hb) as (r & k' & L' & Hst & Hk' & Htu & Hfr & Hno & Hd).
  rewrite (Hno eq_refl) in *. exists OK, k', L'. split; [|by eauto 6].
  rewrite (start_lift_Ret _ _ _ _ _ Hrun), <- Hst. by destruct (PRRECV =? p_state p).
Qed.

(** ** Receiving *)

(** The entry of a process that waited to send and need not any more. *)
Record eased (p q : pcb) : Prop := {
  ea_stack : p_stkbase q = p_stkbase p /\ p_stklen q = p_stklen p;
  ea_core : p_core_affinity q = p_core_affinity p;
  ea_flag : hasMessage (p_msg q) = hasMessage (p_msg p);
  ea_state : p_state q = p_state p \/ (runnable (p_state q) /\ (runnable (p_state p) \/ p_state p = PRSEND))
}.

Lemma carried_eased p q : carried p q -> eased p q.
Proof. intros [H1 H2 H3 [H4|[H4 H5]]]; constructor; rewrite ?H2; auto. Qed.

(** The entry of a process that has collected a message. *)
Record collector (p q : pcb) : Prop := {
  co_stack : p_stkbase q = p_stkbase p /\ p_stklen q = p_stklen p;
  co_core : p_core_affinity q = p_core_affinity p;
  co_state : p_state q = p_state p \/ (runnable (p_state p) /\ runnable (p_state q))
}.

(** [cur] has taken a message and left [ms]. *)
Definition collected (cur : Z) (ms : list Z) (k : kernel) (L : Z -> list Z) (k' : kernel) (L' : Z -> list Z) : Prop :=
  mbox k' L' cur = ms /\
  (forall i, 0 <= i < NPROC -> i <> cur -> mbox k' L' i = mbox k L i /\ L' (MQ i) = L (MQ i)) /\
  entries (fun y => y <> cur) eased k k' /\ entries (fun y => y = cur) collector k k' /\
  forall i y q, 0 <= i < NPROC -> y ∈ L (MQ i) -> nthZ (proctab k') y = Some q -> p_state q = PRSEND -> y ∈ L' (MQ i).

Lemma took_effect k L cur pc m ms :
  sys_inv k L -> nthZ (proctab k) cur = Some pc -> L (MQ cur) = [] -> mbox k L cur = m :: ms ->
  let k' := set_proctab (updZ cur (took pc) (proctab k)) k in
  sys_inv k' L /\ turns no_ticks everyone k L k' L /\ frame k k' /\ collected cur ms k L k' L /\ msgin (p_msg pc) = m.
Proof.
  intros Hk Hpc HL Hb k'. destruct (took_inv QL RQ MQ k L cur pc Hk Hpc HL) as (Hk' & Hb' & Ho).
  assert (m = msgin (p_msg pc) /\ ms = []) as [-> ->].
  { unfold Message.mbox in Hb. rewrite Hpc, HL in Hb. destruct (_ =? TRUE) in Hb; [|done]. by simplify_eq/=. }
  split; [done|]. split; [by apply stays_turns, stays_same|].
  split; [by apply (frame_entry k cur pc (took pc) (queuetab k))|]. split; [|done].
  split; [done|]. split; [auto|]. split; [|split; [|done]].
  - eapply (entries_weaken (fun y => y <> cur) _ carried); [done|apply carried_eased|].
    by apply (entries_upd carried _ k k' cur pc (took pc)).
  - intros y p -> Hp. replace p with pc by congruence. exists (took pc). split; [|split; [done|done|by left]].
    apply nthZ_updZ_eq. by eapply nthZ_Some_lt.
Qed.

Lemma refilled_effect cpu k L cur pc y ys py tab m ms :
  sys_inv k L -> core cpu -> nthZ (currpid k) cpu = Some cur -> nthZ (proctab k) cur = Some pc ->
  L (MQ cur) = y :: ys -> nthZ (proctab k) y = Some py -> p_state py = PRSEND -> core (p_core_affinity py) ->
  queues_at QL (set_queuetab tab k) (<[MQ cur := ys]> L) -> mbox k L cur = m :: ms ->
  let k1 := set_queuetab tab (set_proctab (updZ y (unsent py)
    (updZ cur (refilled (msgout (p_msg py)) pc) (proctab k))) k) in
  exists k' L', start (ready cpu y false (p_core_affinity py)) k1 = Ret (inl OK, k') /\
    sys_inv k' L' /\ turns no_ticks everyone k L k' L' /\ frame k k' /\ collected cur ms k L k' L' /\
    msgin (p_msg pc) = m.
Proof.
  intros Hk Hc Hcur Hpc EL Hpy Hsy Hay Hwf Hb k1. pose proof Hk as [Hi Hm].
  pose proof (si_proctab _ _ _ _ _ Hi) as Hlen. pose proof (nthZ_Some_lt _ _ _ Hpc) as Hxr.
  pose proof (nthZ_Some_lt _ _ _ Hpy) as Hyr.
  destruct (current_entry QL RQ k L cpu cur pc Hi Hc Hcur Hpc) as (Hst & _ & Hu).
  assert (y <> cur) as Hyc by (intros ->; replace py with pc in Hsy by congruence; klia).
  assert (hasMessage (p_msg pc) = TRUE) as Hf.
  { destruct (mi_flag _ _ _ _ _ Hm cur pc Hpc) as [?|[_ E]]; [done|congruence]. }
  destruct (refilled_inv QL RQ MQ k L cur pc y ys py tab Hk Hpc Hu Hf EL Hpy Hwf) as (Hk1 & Huy & Hb1 & Ho1).
  fold k1 in Hk1, Huy, Hb1, Ho1. set (L1 := <[MQ cur := ys]> L) in *.
  assert (m = msgin (p_msg pc) /\ ms = msgout (p_msg py) :: (msgout_of k <$> ys)) as [-> ->].
  { unfold Message.mbox in Hb. rewrite Hpc, EL, Hf in Hb. change (TRUE =? TRUE) with true in Hb. simpl in Hb.
    injection Hb as <- <-. split; [done|]. f_equal. unfold msgout_of. by rewrite Hpy. }
  assert (nthZ (proctab k1) y = Some (unsent py)) as Hy1 by (simpl; apply nthZ_updZ_eq; by rewrite lenZ_updZ).
  assert (home (unsent py) (p_core_affinity py) = p_core_affinity py) as Eh.
  { unfold home. simpl. rewrite (proj2 (Z.eqb_neq (-1) _)); [done|]. unfold core in Hay. lia. }
  destruct (ready_effect cpu k1 L1 y (unsent py) false (p_core_affinity py) Hk1 Hc Hy1)
    as (r & k' & L' & Hrun & Hk' & Htu & _ & Hno & Hfr & [Hsm1 Hsm2] & He & (q & Hq & Hqs & Hqc & Hqm & Hq12));
    [simpl; klia|simpl; klia|done|by rewrite Eh|]. rewrite (Hno eq_refl) in Hrun.
  set (k0 := set_proctab (updZ cur (refilled (msgout (p_msg py)) pc) (proctab k)) k).
  assert (entries (fun z => z <> y /\ z <> cur) carried k k') as Hrest.
  { eapply (entries_trans _ _ k k1); [|eapply entries_weaken; [| |exact He]; [by intros ? []|done]].
    eapply (entries_trans _ _ k k0); [by apply (entries_upd carried _ k k0 cur pc (refilled (msgout (p_msg py)) pc)); [..|intros []]|].
    eapply (entries_upd carried _ k0 k1 y py (unsent py)); [simpl; by rewrite nthZ_updZ_ne by congruence|done|by intros []]. }
  exists k', L'. split; [done|]. split; [done|]. split; [|split; [|split; [|done]]].
  { eapply turns_after; [|exact Htu]. apply stays_same; try done. intros c0 q0 Hc0 Hq0. unfold L1.
    rewrite fn_lookup_insert_ne; [done|]. apply (mi_apart _ _ _ _ _ Hm); done || lia. }
  { etrans; [|exact Hfr]. etrans; [by apply (frame_entry k cur pc (refilled (msgout (p_msg py)) pc) (queuetab k))|].
    apply (frame_entry k0 y py (unsent py) tab); [simpl; by rewrite nthZ_updZ_ne by congruence|done|done]. }
  split; [by rewrite Hsm1, Hb1 by lia|]. split; [|split; [|split]].
  { intros i Hir Hn. rewrite Hsm1, Hsm2 by done. split; [by apply Ho1|]. unfold L1.
    rewrite fn_lookup_insert_ne; [done|]. intros E. apply Hn. symmetry. apply (mi_inj _ _ _ _ _ Hm); [lia|done|done]. }
  - intros z p Hz Hp. destruct (decide (z = y)) as [->|Hzy].
    + replace p with py by congruence. exists q. split; [done|]. constructor; [done|by rewrite Hqc, Eh|by rewrite Hqm|].
      right. split; [done|by right].
    + destruct (Hrest z p (conj Hzy Hz) Hp) as (q' & ? & ?). exists q'. split; [done|by apply carried_eased].
  - intros z p -> Hp. replace p with pc by congruence.
    destruct (He cur (refilled (msgout (p_msg py)) pc)) as (q' & Hq' & [C1 C2 C3 C4]); [done| |].
    { simpl. rewrite nthZ_updZ_ne by congruence. by apply nthZ_updZ_eq. }
    exists q'. done.
  - intros i z p Hir Hz Hp Hs. rewrite Hsm2 by done. unfold L1.
    destruct (decide (MQ cur = MQ i)) as [E|E]; [rewrite <- E in *|by rewrite fn_lookup_insert_ne].
    rewrite fn_lookup_insert. rewrite EL in Hz. apply elem_of_cons in Hz as [->|?]; [|done].
    exfalso. replace p with q in Hs by congruence. destruct Hqs; klia.
Qed.

Lemma recv_message_effect cpu k L cur m ms :
  sys_inv k L -> core cpu -> nthZ (currpid k) cpu = Some cur -> mbox k L cur = m :: ms ->
  exists k' L', start (recv cpu) k = Ret (inl m, k') /\ sys_inv k' L' /\ turns no_ticks everyone k L k' L' /\
    frame k k' /\ collected cur ms k L k' L'.
Proof.
  intros Hk Hc Hcur Hb. pose proof Hk as [Hi Hm]. pose proof (si_proctab _ _ _ _ _ Hi) as Hlen.
  destruct (si_cur _ _ _ _ _ Hi cpu Hc) as (x & pc & Hx & Hpc & _). assert (x = cur) as -> by congruence.
  assert (hasMessage (p_msg pc) = TRUE) as Hf.
  { destruct (mi_flag _ _ _ _ _ Hm cur pc Hpc) as [?|[Hf _]]; [done|].
    apply (mbox_nil _ _ _ _ _ _ _ Hm Hpc) in Hf. congruence. }
  rewrite (recv_has_message QL RQ MQ cpu k L cur pc Hm Hcur Hpc Hf). unfold recv_finish.
  destruct (L (MQ cur)) as [|y ys] eqn:EL.
  - rewrite (start_lift_Ret _ _ _ _ _ (recv_take_last QL RQ MQ k L cpu cur pc Hi Hm Hcur Hpc EL)). simpl.
    destruct (took_effect k L cur pc m ms Hk Hpc EL Hb) as (Hk' & Htu & Hf' & Hcol & <-). by do 2 eexists.
  - pose proof (nthZ_Some_lt _ _ _ Hpc).
    destruct (mi_send _ _ _ _ _ Hm cur y) as (py & Hpy & Hsy & Hay); [lia|rewrite EL; left|].
    destruct (recv_take_next QL RQ MQ k L cpu cur pc Hi Hm Hc Hcur Hpc y ys py EL Hpy) as (tab & Hrun & Hwf).
    rewrite (start_lift_Ret _ _ _ _ _ Hrun). cbn [fst snd].
    destruct (refilled_effect cpu k L cur pc y ys py tab m ms Hk Hc Hcur Hpc EL Hpy Hsy Hay Hwf Hb)
      as (k' & L' & Hready & Hk' & Htu & Hfr & Hcol & <-).
    exists k', L'. by rewrite (start_bind_inl _ _ _ _ _ Hready).
Qed.

(** The entry of a process that waits for a message. *)
Record listening (p q : pcb) : Prop := {
  li_stack : p_stkbase q = p_stkbase p /\ p_stklen q = p_stklen p;
  li_core : p_core_affinity q = p_core_affinity p;
  li_flag : hasMessage (p_msg q) = FALSE;
  li_state : p_state q = PRRECV
}.

Lemma recv_wait_effect cpu k L cur :
  sys_inv k L -> core cpu -> nthZ (currpid k) cpu = Some cur -> ~ core cur -> mbox k L cur = [] ->
  exists im k' L', start (recv cpu) k = Ret (inr (recv_rest cpu cur im), k') /\ sys_inv k' L' /\
    turns no_ticks everyone k L k' L' /\ frame k k' /\
    same_mail k L k' L' /\ entries (fun y => y <> cur) carried k k' /\ entries (fun y => y = cur) listening k k'.
Proof.
  intros Hk Hc Hcur Hnull Hb. pose proof Hk as [Hi Hm].
  destruct (si_cur _ _ _ _ _ Hi cpu Hc) as (x & pc & Hx & Hpc & _). assert (x = cur) as -> by congruence. clear Hx.
  destruct (recv_wait_blocks QL RQ MQ cpu k L cur pc Hk Hc Hcur Hpc Hnull Hb) as (Hwait & Hi1 & Hm1 & Hb1).
  set (k1 := set_proctab _ k) in *.
  assert (nthZ (proctab k1) cur = Some (set_p_state PRRECV pc)) as Hc1 by (apply nthZ_updZ_eq; by eapply nthZ_Some_lt).
  destruct (switch_effect cpu cpu k1 L cur (set_p_state PRRECV pc) Hi1 Hm1 Hc (or_introl eq_refl) Hcur Hc1)
    as (im & k' & L' & Hr & Hk' & Htu & _ & Hf1 & [S1 S2] & He & Hown); [done|].
  destruct (Hown ltac:(done)) as (qc & Hqc & Hsc).
  exists im, k', L'. split; [|split; [done|split; [by eapply turns_after; [by apply stays_same|]|split; [|split; [|split]]]]].
  - unfold recv. rewrite (start_lift_Ret _ _ _ cur k) by (unfold rd_currpid; by rewrite Hcur).
    rewrite (start_lift_Ret _ _ _ _ _ Hwait). eapply start_bind_inr, start_bind_inr. exact Hr.
  - etrans; [by apply (frame_entry k cur pc (set_p_state PRRECV pc) (queuetab k))|done].
  - split; [intros i Hir; by rewrite S1, Hb1|done].
  - eapply (entries_trans _ _ k k1); [by apply (entries_upd carried _ k k1 cur pc (set_p_state PRRECV pc))|].
    by eapply entries_weaken; [..|exact He].
  - intros y p -> Hp. replace p with pc by congruence. exists qc. split; [done|].
    destruct (He cur (set_p_state PRRECV pc) I Hc1) as (q & Hq & [[E1 E2] E3 E4 _]).
    replace q with qc in * by congruence. constructor; try done. rewrite E3. simpl.
    by apply (mbox_nil _ _ _ _ _ _ _ Hm Hpc).
Qed.

Lemma recvnow_effect cpu k L cur :
  sys_inv k L -> core cpu -> nthZ (currpid k) cpu = Some cur -> L (MQ cur) = [] ->
  match mbox k L cur with
  | [] => recvnow cpu k = Ret (SYSERR, k)
  | m :: ms => exists k', recvnow cpu k = Ret (m, k') /\ sys_inv k' L /\ turns no_ticks everyone k L k' L /\
      frame k k' /\ collected cur ms k L k' L
  end.
Proof.
  intros Hk Hc Hcur HL. pose proof Hk as [Hi Hm].
  destruct (si_cur _ _ _ _ _ Hi cpu Hc) as (x & pc & Hx & Hpc & _). assert (x = cur) as -> by congruence. clear Hx.
  rewrite (recvnow_run QL RQ MQ cpu k L cur pc Hm Hcur Hpc). destruct (mbox k L cur) as [|m ms] eqn:Hb.
  - apply (mbox_nil _ _ _ _ _ _ _ Hm Hpc) in Hb. by rewrite Hb.
  - destruct (took_effect k L cur pc m ms Hk Hpc HL Hb) as (Hk' & Htu & Hf' & Hcol & <-).
    destruct (mi_flag _ _ _ _ _ Hm cur pc Hpc) as [->|[Hf _]]; [by eexists|].
    apply (mbox_nil _ _ _ _ _ _ _ Hm Hpc) in Hf. congruence.
Qed.
End Effects.
