(* ===== verification/Lifecycle.v ===== *)
(** * Creation, death and the clock as steps of the system

    [create], [kill] and the clock interrupt: what they do to stacks and
    heap, to the entries of the other processes and to the mailboxes, on
    every branch. *)

From stdpp Require Import base numbers functions list gmap.
From S2P Require Import Prelude Kernel Spinlock Queue Memory CString Thread Proc ProcOps Message Interrupt.
From S2P Require Import Effects.

(** ** Stacks *)

Definition stack_byte (p : pcb) (x : Z) : Prop := inb (p_stkbase p, roundmb (u32 (p_stklen p))) x.

(** Every live process but the null processes owns its stack, and no two
    stacks overlap. *)
Record stacks_ok (k : kernel) (FL : Z -> list block) : Prop := {
  st_owned : forall y p, 4 <= y -> nthZ (proctab k) y = Some p -> p_state p <> PRFREE -> exists n, owns_stack k FL p n;
  st_apart : forall y z p q x, 4 <= y -> 4 <= z -> y <> z ->
    nthZ (proctab k) y = Some p -> p_state p <> PRFREE -> nthZ (proctab k) z = Some q -> p_state q <> PRFREE ->
    stack_byte p x -> stack_byte q x -> False
}.

(** Nobody's heap has a byte of an owned stack. *)
Lemma stack_not_free k FL p n x : heaps_wf k FL -> owns_stack k FL p n -> stack_byte p x -> ~ free_byte FL x.
Proof.
  intros Hhs (_ & Hn & Hb & Hno) Hx (i & Hi & Hc). destruct (decide (i = n)) as [->|Hne]; [by apply (Hno x)|].
  exact (block_of_other k FL n i _ x Hhs Hb Hx Hi Hne Hc).
Qed.

Lemma owns_stack_move k k' FL FL' p q n :
  owns_stack k FL p n -> p_stkbase q = p_stkbase p -> p_stklen q = p_stklen p ->
  (forall n b, block_of k n b -> block_of k' n b) ->
  (forall x, stack_byte p x -> ~ covers (FL' n) x) -> owns_stack k' FL' q n.
Proof. intros (H1 & H2 & H3 & _) E1 E2 Hb Hno. unfold owns_stack. rewrite E1, E2. auto. Qed.

(** Operations that move no stack and take no memory. *)
Lemma stacks_ok_carried k k' FL (R : pcb -> pcb -> Prop) :
  (forall p q, R p q -> p_stkbase q = p_stkbase p /\ p_stklen q = p_stklen p /\ (p_state p = PRFREE -> p_state q = PRFREE)) ->
  entries (fun _ => True) R k k' -> lenZ (proctab k') = lenZ (proctab k) ->
  (forall n b, block_of k n b -> block_of k' n b) -> stacks_ok k FL -> stacks_ok k' FL.
Proof.
  intros HR He Hlen Hb [S1 S2].
  assert (forall y q, nthZ (proctab k') y = Some q -> p_state q <> PRFREE -> exists p, nthZ (proctab k) y = Some p /\
    p_state p <> PRFREE /\ p_stkbase q = p_stkbase p /\ p_stklen q = p_stklen p) as Hinv.
  { intros y q Hq Hs. destruct (nthZ_lt_Some (proctab k) y) as [p Hp]; [rewrite <- Hlen; by eapply nthZ_Some_lt|].
    destruct (He y p I Hp) as (q' & Hq' & HR'). replace q' with q in HR' by congruence.
    destruct (HR p q HR') as (E1 & E2 & E3). exists p. split; [done|]. split; [auto|done]. }
  constructor.
  - intros y q Hy Hq Hs. destruct (Hinv y q Hq Hs) as (p & Hp & Hsp & E1 & E2).
    destruct (S1 y p Hy Hp Hsp) as [n Hn]. exists n. eapply owns_stack_move; [done..|]. apply Hn.
  - intros y z p q x Hy Hz Hyz Hp Hsp Hq Hsq. destruct (Hinv y p Hp Hsp) as (p' & Hp' & Hsp' & E1 & E2).
    destruct (Hinv z q Hq Hsq) as (q' & Hq' & Hsq' & E3 & E4). unfold stack_byte. rewrite E1, E2, E3, E4.
    by apply (S2 y z p' q' x).
Qed.

(** The well-formedness of clock and tables, apart from the heap. *)
Record steady (k k' : kernel) : Prop := {
  sd_clock : clock_wf k -> clock_wf k';
  sd_shape : shaped k -> shaped k';
  sd_nextpid : 0 <= nextpid k < NPROC -> 0 <= nextpid k' < NPROC
}.

#[export] Instance steady_preorder : PreOrder steady.
Proof. split; [by intros k|]. intros k k1 k' [A1 A2 A3] [B1 B2 B3]. constructor; auto. Qed.

Lemma frame_steady k k' : frame k k' -> steady k k'.
Proof. intros [_ _ ? ? E]. constructor; [done|done|by rewrite E]. Qed.

Lemma steady_heap k m f n : steady k (set_numproc n (set_memory m (set_freelist f k))).
Proof. constructor; [intros [W1 W2 W3 W4]; by constructor|done|done]. Qed.

Section Lifecycle.
Context (QL : Z -> Z) (RQ : Z -> Z -> Z) (MQ : Z -> Z) `{Layout}.
Local Abbreviation kinv := (sched_inv (queues_at QL) RQ).
Local Abbreviation mail_inv := (mail_inv QL RQ MQ).
Local Abbreviation sys_inv := (sys_inv QL RQ MQ).
Local Abbreviation mbox := (mbox MQ).

(** A process that is in no queue dies. *)
Lemma mail_freed k L k' L' x p :
  mail_inv k L -> lenZ (proctab k) = NPROC -> nthZ (proctab k) x = Some p ->
  proctab k' = updZ x (set_p_state PRFREE p) (proctab k) -> locktab k' = locktab k -> nextqueue k' = nextqueue k ->
  (forall i, 0 <= i < NPROC -> L' (MQ i) = L (MQ i)) -> (forall i, 0 <= i < NPROC -> x ∉ L (MQ i)) ->
  mail_inv k' L' /\ same_mail MQ k L k' L'.
Proof.
  intros Hm Hlen Hp E1 E2 E3 HL Hx. split; [|split; [|done]].
  - apply (mail_upd QL RQ MQ k L k' L' x p (set_p_state PRFREE p)); try done; [|apply (mi_flag _ _ _ _ _ Hm x p Hp)].
    intros i Hir Hin. by destruct (Hx i Hir).
  - intros i Hir. rewrite (mbox_upd MQ k L k' L' x p (set_p_state PRFREE p) Hp E1 eq_refl HL Hlen i Hir).
    case_decide; [subst|done]. unfold Message.mbox. by rewrite Hp.
Qed.

(** ** [kill] *)

(** [pid] dies in a kernel whose heap has its stack back: it is no longer
    in any queue, and nobody else notices. *)
Definition died (pid : Z) (k : kernel) (L : Z -> list Z) (k' : kernel) (L' : Z -> list Z) : Prop :=
  sys_inv k' L' /\ turns RQ no_ticks (fun y => y <> pid) k L k' L' /\ frame k k' /\ same_mail MQ k L k' L' /\
  entries (fun y => y <> pid) carried k k' /\ entries (fun y => y = pid) (fun _ q => p_state q = PRFREE) k k'.

Lemma kill_running cpu k L pid p :
  sys_inv k L -> core cpu -> nthZ (currpid k) cpu = Some pid -> nthZ (proctab k) pid = Some p -> ~ core pid ->
  exists t k' L', start (lift (upd_proc pid (set_p_state PRFREE)) ;;== resched cpu) k = Ret (inr t, k') /\ died pid k L k' L'.
Proof.
  intros [Hi Hm] Hc Hcur Hp Hnull. pose proof (si_proctab _ _ _ _ _ Hi) as Hlen.
  destruct (current_entry QL RQ k L cpu pid p Hi Hc Hcur Hp) as (Hst & Haff & Hu).
  set (k2 := set_proctab (updZ pid (set_p_state PRFREE p) (proctab k)) k).
  pose proof (kinv_leave (queues_at QL) RQ k L cpu pid p PRFREE Hi Hc Hcur Hp Hnull ltac:(done) ltac:(done)) as Hi2.
  fold k2 in Hi2. pose proof (nthZ_Some_lt _ _ _ Hp) as Hx.
  destruct (mail_freed k L k2 L pid p Hm Hlen Hp) as [Hm2 Hsm2]; try done.
  { intros i Hir. apply Hu. destruct (nthZ_lt_Some (proctab k) i) as [q Hq]; [lia|]. by apply (mi_queue _ _ _ _ _ Hm i q). }
  assert (nthZ (proctab k2) pid = Some (set_p_state PRFREE p)) as Hp2 by (by apply nthZ_updZ_eq).
  destruct (switch_effect QL RQ MQ cpu cpu k2 L pid (set_p_state PRFREE p) Hi2 Hm2 Hc (or_introl eq_refl) Hcur Hp2)
    as (im & k' & L' & Hr & Hk' & Htu & _ & Hf & Hsm & He & Hown); [done|].
  destruct (Hown ltac:(done)) as (q & Hq & Hsq).
  exists (resched_rest cpu im), k', L'. split; [|split; [done|split; [|split; [|split; [|split]]]]].
  - rewrite (start_lift_Ret _ _ _ tt k2); [done|]. unfold upd_proc. by rewrite (bind_rd_proc _ p) by exact Hp.
  - eapply turns_after; [by apply (stays_same RQ _ k L k2 L)|]. by eapply turns_weaken, Htu.
  - etrans; [by apply (frame_entry k pid p (set_p_state PRFREE p) (queuetab k))|done].
  - by eapply same_mail_trans.
  - eapply (entries_trans _ _ k k2); [by apply (entries_upd carried _ k k2 pid p (set_p_state PRFREE p))|].
    by eapply entries_weaken; [..|exact He].
  - intros y p0 -> _. exists q. by rewrite Hsq.
Qed.

Lemma kill_queued cpu k L pid p :
  sys_inv k L -> core cpu -> nthZ (proctab k) pid = Some p -> p_state p = PRREADY -> ~ core pid ->
  exists k' L', start (lift (remove cpu pid ;;; ret tt) ;;== lift (upd_proc pid (set_p_state PRFREE) ;;; ret OK)) k =
    Ret (inl OK, k') /\ died pid k L k' L'.
Proof.
  intros [Hi Hm] Hc Hp Hst Hnull. pose proof (si_proctab _ _ _ _ _ Hi) as Hlen. pose proof (nthZ_Some_lt _ _ _ Hp) as Hx.
  destruct (si_ready _ _ _ _ _ Hi pid p Hp Hst) as [Hca (pr & Hpr & Hin)]. set (h := RQ (p_core_affinity p) pr) in *.
  assert (is_qhead k h) as Hh by (apply (rq_head RQ k (si_rq _ _ _ _ _ Hi)); done).
  apply list_elem_of_split in Hin as (l1 & l2 & El).
  destruct (fq_remove (wf := queues_at QL) cpu k L h l1 pid l2) as (tab & Hrem & Hwf).
  { apply Hi. } { done. } { split; [lia|]. exists p. split; [done|klia]. } { done. }
  set (k' := set_proctab (updZ pid (set_p_state PRFREE p) (proctab k)) (set_queuetab tab k)).
  pose proof (kinv_unready (queues_at QL) RQ k L pid p h l1 l2 tab Hi Hp Hst Hnull Hh El Hwf) as Hi'.
  destruct (mail_freed k L k' (<[h := l1 ++ l2]> L) pid p Hm Hlen Hp) as [Hm' Hsm]; try done.
  { by apply (mail_lists QL RQ MQ k L). }
  { intros i Hir Hin. destruct (nthZ_lt_Some (proctab k) i) as [q Hq]; [lia|].
    destruct (mi_queue _ _ _ _ _ Hm i q Hq) as [_ Hqi]. apply (mi_apart _ _ _ _ _ Hm i (p_core_affinity p) pr Hir Hca Hpr).
    eapply (fq_disj (wf := queues_at QL) k); [apply Hi|done|done|done|]. fold h. rewrite El. set_solver. }
  exists k', (<[h := l1 ++ l2]> L). split; [|split; [done|split; [by apply stays_turns, (stays_leaves RQ k L k' h l1 pid l2)|split; [|split; [done|split]]]]].
  - erewrite start_lift_Ret by (by rewrite (bind_Ret _ _ _ _ _ Hrem)).
    rewrite start_lift, (bind_upd_proc _ p) by exact Hp. done.
  - by apply (frame_entry k pid p (set_p_state PRFREE p) tab).
  - by apply (entries_upd carried _ k k' pid p (set_p_state PRFREE p)).
  - intros y p0 -> _. exists (set_p_state PRFREE p). split; [by apply nthZ_updZ_eq|done].
Qed.

(** A process that waits for a message is in no queue. *)
Lemma kill_listening k L pid p :
  sys_inv k L -> nthZ (proctab k) pid = Some p -> p_state p = PRRECV ->
  exists k', start (tret tt ;;== lift (upd_proc pid (set_p_state PRFREE) ;;; ret OK)) k = Ret (inl OK, k') /\ died pid k L k' L.
Proof.
  intros [Hi Hm] Hp Hst. pose proof (si_proctab _ _ _ _ _ Hi) as Hlen. pose proof (nthZ_Some_lt _ _ _ Hp) as Hx.
  assert (unqueued k L pid) as Hu by (eapply (not_queued (queues_at QL) RQ settled); [done|exact Hp|klia|klia]).
  set (k' := set_proctab (updZ pid (set_p_state PRFREE p) (proctab k)) k).
  destruct (mail_freed k L k' L pid p Hm Hlen Hp) as [Hm' Hsm]; try done.
  { intros i Hir. apply Hu. destruct (nthZ_lt_Some (proctab k) i) as [q Hq]; [lia|]. by apply (mi_queue _ _ _ _ _ Hm i q). }
  exists k'. split; [|split; [split; [|done]|split; [by apply stays_turns, stays_same|split; [|split; [done|split]]]]].
  - simpl. by rewrite (bind_upd_proc _ p) by exact Hp.
  - apply (kinv_entry (queues_at QL) RQ k L pid p (set_p_state PRFREE p)); try done; simpl; klia.
  - by apply (frame_entry k pid p (set_p_state PRFREE p) (queuetab k)).
  - by apply (entries_upd carried _ k k' pid p (set_p_state PRFREE p)).
  - intros y p0 -> _. exists (set_p_state PRFREE p). split; [by apply nthZ_updZ_eq|done].
Qed.

(** Giving the stack back leaves the stacks of the others owned. *)
Lemma stacks_ok_freed k FL k1 k' n l' pid p :
  stacks_ok k FL -> nthZ (proctab k) pid = Some p -> p_state p <> PRFREE -> 4 <= pid -> lenZ (proctab k') = lenZ (proctab k) ->
  (forall x, covers l' x <-> covers (FL n) x \/ stack_byte p x) -> proctab k1 = proctab k ->
  (forall n b, block_of k n b -> block_of k' n b) ->
  entries (fun y => y <> pid) carried k1 k' -> entries (fun y => y = pid) (fun _ q => p_state q = PRFREE) k1 k' ->
  stacks_ok k' (<[n := l']> FL).
Proof.
  intros [S1 S2] Hp Hsp Hpid Hlen Hl E1 Hb He Hd. unfold entries in He, Hd. rewrite E1 in He, Hd.
  assert (forall y q, nthZ (proctab k') y = Some q -> p_state q <> PRFREE -> y <> pid /\ exists p0,
    nthZ (proctab k) y = Some p0 /\ p_state p0 <> PRFREE /\ p_stkbase q = p_stkbase p0 /\ p_stklen q = p_stklen p0) as Hinv.
  { intros y q Hq Hs. destruct (nthZ_lt_Some (proctab k) y) as [p0 Hp0]; [rewrite <- Hlen; by eapply nthZ_Some_lt|].
    destruct (decide (y = pid)) as [->|Hne].
    - destruct (Hd pid p eq_refl Hp) as (q' & ? & ?). congruence.
    - split; [done|]. destruct (He y p0 Hne Hp0) as (q' & Hq' & [[C1 C2] _ _ C3]). replace q with q' by congruence.
      exists p0. split; [done|]. split; [|done]. intros E. destruct C3 as [C3|[[C3|C3] _]]; [|klia|klia]. congruence. }
  constructor.
  - intros y q Hy Hq Hs. destruct (Hinv y q Hq Hs) as (Hne & p0 & Hp0 & Hsp0 & E2 & E3).
    destruct (S1 y p0 Hy Hp0 Hsp0) as [j Hj]. exists j. eapply owns_stack_move; [done..|].
    intros x Hx. destruct (decide (j = n)) as [->|]; [|by rewrite fn_lookup_insert_ne by done; apply Hj].
    rewrite fn_lookup_insert, Hl. intros [Hc|Hc]; [by apply (proj2 (proj2 (proj2 Hj)) x)|].
    by apply (S2 y pid p0 p x).
  - intros y z p0 q0 x Hy Hz Hyz Hp0 Hsp0 Hq0 Hsq0.
    destruct (Hinv y p0 Hp0 Hsp0) as (_ & p' & Hp' & Hsp' & E2 & E3).
    destruct (Hinv z q0 Hq0 Hsq0) as (_ & q' & Hq' & Hsq' & E4 & E5). unfold stack_byte. rewrite E2, E3, E4, E5.
    by apply (S2 y z p' q' x).
Qed.

(** Everything about a step that is not about scheduling or messages. *)
Definition heap_kept (k : kernel) (FL : Z -> list block) (k' : kernel) (FL' : Z -> list block) : Prop :=
  heaps_wf k' FL' /\ stacks_ok k' FL' /\ steady k k'.

Lemma kill_guard cpu k pid : lenZ (proctab k) = NPROC ->
  (pid < 4 \/ NPROC <= pid \/ exists p, nthZ (proctab k) pid = Some p /\
    (p_state p = PRFREE \/ u32 (p_core_affinity p) <> cpu)) \/
  (4 <= pid < NPROC /\ exists p, nthZ (proctab k) pid = Some p /\ p_state p <> PRFREE /\ u32 (p_core_affinity p) = cpu).
Proof.
  intros Hlen. destruct (decide (4 <= pid < NPROC)) as [Hr|]; [|left; lia].
  destruct (nthZ_lt_Some (proctab k) pid) as [p Hp]; [lia|].
  destruct (decide (p_state p = PRFREE)) as [|Hs]; [left; right; right; eauto|].
  destruct (decide (u32 (p_core_affinity p) = cpu)); [right; eauto|left; right; right; eauto].
Qed.

(** [kill], on every branch but the one that leaves a waiting sender in its
    queue. *)
Lemma kill_effect cpu k L FL cur pid :
  sys_inv k L -> heaps_wf k FL -> stacks_ok k FL -> receivers_ok k -> core cpu -> nthZ (currpid k) cpu = Some cur ->
  (forall p, nthZ (proctab k) pid = Some p -> 4 <= pid -> u32 (p_core_affinity p) = cpu -> p_state p <> PRFREE ->
     runnable (p_state p) \/ p_state p = PRRECV) ->
  exists r k' L' FL', start (kill cpu pid) k = Ret (r, k') /\
    ((r = inl SYSERR /\ k' = k /\ L' = L /\ FL' = FL) \/
     (4 <= pid /\ (r = inl OK \/ pid = cur) /\ sys_inv k' L' /\
      turns RQ no_ticks (fun y => y <> pid) k L k' L' /\ heap_kept k FL k' FL' /\ same_mail MQ k L k' L' /\
      entries (fun y => y <> pid) carried k k' /\ entries (fun y => y = pid) (fun _ q => p_state q = PRFREE) k k')).
Proof.
  intros Hk Hhs Hst Hrec Hc Hcur Hkind. pose proof Hk as [Hi Hm]. pose proof (si_proctab _ _ _ _ _ Hi) as Hlen.
  destruct (kill_guard cpu k pid Hlen) as [Href|(Hpid & p & Hp & Hs & Ha)].
  { exists (inl SYSERR), k, L, FL. split; [by apply kill_refused_run|by left]. }
  pose proof (Hkind p Hp ltac:(lia) Ha Hs) as Hcase.
  assert (core (p_core_affinity p)) as Hcp.
  { destruct Hcase as [[E|E]|E]; [by apply (si_only _ _ _ _ _ Hi pid p)|by apply (si_ready _ _ _ _ _ Hi pid p)|by apply (Hrec pid p)]. }
  rewrite wrap_small in Ha by (unfold core in Hcp; klia).
  destruct (nthZ_lt_Some (cpsr k) cpu) as [im Him]; [by rewrite (si_cpsr _ _ _ _ _ Hi)|].
  destruct (st_owned _ _ Hst pid p) as [n Hown]; [lia|done|done|].
  destruct (kill_release_run cpu k FL pid p n im Hhs Him Hp Hown) as (m & f & l' & Hrel & Hhs1 & Hfr & Hx).
  set (k1 := set_numproc _ _) in *. assert (~ core pid) as Hnull by (unfold core; klia).
  assert (sys_inv k1 L) as Hk1.
  { split; [by apply (kinv_frame (queues_at QL) RQ settled k)|by apply (mail_frame QL RQ MQ k)]. }
  assert (forall k' L', died pid k1 L k' L' ->
    sys_inv k' L' /\ turns RQ no_ticks (fun y => y <> pid) k L k' L' /\ heap_kept k FL k' (<[n := l']> FL) /\ same_mail MQ k L k' L' /\
    entries (fun y => y <> pid) carried k k' /\ entries (fun y => y = pid) (fun _ q => p_state q = PRFREE) k k') as Hdied.
  { intros k' L' (Hk' & Htu & Hf & Hsm & He & Hd). split; [done|].
    split; [eapply turns_after; [|exact Htu]; by apply stays_same|].
    split; [|split; [by destruct Hsm|split; [exact He|exact Hd]]]. split; [by apply (fr_heap _ _ Hf)|]. split; [|transitivity k1; [apply steady_heap|by apply frame_steady]].
    apply (stacks_ok_freed k FL k1 k' n l' pid p); try done; [lia|rewrite Hlen; apply (proj1 Hk')|].
    intros j b Hb. apply (fr_block _ _ Hf). by apply (block_of_frame _ _ _ _ Hfr) in Hb. }
  unfold kill. rewrite (start_lift_Ret _ _ _ _ _ (kill_accepts cpu k pid p Hlen Hp Hs ltac:(lia) Ha Hc)).
  cbv beta iota. rewrite (start_lift_Ret _ _ _ _ _ Hrel).
  destruct Hcase as [[E|E]|E]; rewrite E.
  - change (PRCURR =? PRCURR) with true. cbv iota.
    destruct (si_only _ _ _ _ _ Hi pid p Hp E) as [_ Hcp']. rewrite Ha in Hcp'.
    destruct (kill_running cpu k1 L pid p Hk1 Hc Hcp' Hp Hnull) as (t & k' & L' & Hrun & Hd).
    eexists _, k', L', (<[n := l']> FL). split; [|right; split; [lia|split; [right; congruence|by apply Hdied]]].
    assert (upd_proc pid (set_p_state PRFREE) k1 = Ret (tt, set_proctab (updZ pid (set_p_state PRFREE p) (proctab k1)) k1))
      as Hupd by (unfold upd_proc; by rewrite (bind_rd_proc _ p) by exact Hp).
    rewrite (start_lift_Ret _ _ _ _ _ Hupd) in Hrun. apply start_bind_inr.
    rewrite (start_lift_Ret _ _ _ _ _ Hupd). by apply start_bind_inr.
  - change (PRREADY =? PRCURR) with false. change (PRREADY =? PRREADY) with true. cbv iota.
    destruct (kill_queued cpu k1 L pid p Hk1 Hc Hp E Hnull) as (k' & L' & Hrun & Hd).
    exists (inl OK), k', L', (<[n := l']> FL). split; [exact Hrun|]. right. split; [lia|]. split; [by left|by apply Hdied].
  - change (PRRECV =? PRCURR) with false. change (PRRECV =? PRREADY) with false. cbv iota.
    destruct (kill_listening k1 L pid p Hk1 Hp E) as (k' & Hrun & Hd).
    exists (inl OK), k', L, (<[n := l']> FL). split; [exact Hrun|]. right. split; [lia|]. split; [by left|by apply Hdied].
Qed.

(** ** [create] *)

(** Taking a block from a heap leaves the stacks owned; [pid] may own the
    block now. *)
Lemma stacks_ok_taken k FL k' cpu l' pid :
  heaps_wf k FL -> stacks_ok k FL -> lenZ (proctab k') = lenZ (proctab k) ->
  (forall n b, block_of k n b -> block_of k' n b) ->
  (forall x, covers l' x -> covers (FL cpu) x) -> core cpu ->
  entries (fun y => y <> pid) carried k k' ->
  (forall q, nthZ (proctab k') pid = Some q -> owns_stack k' (<[cpu := l']> FL) q cpu /\
     forall x, stack_byte q x -> free_byte FL x) ->
  stacks_ok k' (<[cpu := l']> FL).
Proof.
  intros Hhs [S1 S2] Hlen Hb Hl Hc He Hpid.
  assert (forall y q, 4 <= y -> y <> pid -> nthZ (proctab k') y = Some q -> p_state q <> PRFREE -> exists p n,
    nthZ (proctab k) y = Some p /\ p_state p <> PRFREE /\ p_stkbase q = p_stkbase p /\ p_stklen q = p_stklen p /\
    owns_stack k FL p n) as Hinv.
  { intros y q Hy Hne Hq Hs. destruct (nthZ_lt_Some (proctab k) y) as [p Hp]; [rewrite <- Hlen; by eapply nthZ_Some_lt|].
    destruct (He y p Hne Hp) as (q' & Hq' & [[E1 E2] _ _ E3]). replace q' with q in * by congruence.
    assert (p_state p <> PRFREE) as Hsp by (intros E; destruct E3 as [E3|[[E3|E3] _]]; [congruence|klia|klia]).
    destruct (S1 y p Hy Hp Hsp) as [n Hn]. by exists p, n. }
  assert (forall y q x, 4 <= y -> y <> pid -> nthZ (proctab k') y = Some q -> p_state q <> PRFREE ->
    stack_byte q x -> ~ free_byte FL x) as Hno.
  { intros y q x Hy Hne Hq Hs Hx. destruct (Hinv y q Hy Hne Hq Hs) as (p & n & Hp & Hsp & E1 & E2 & Hn).
    eapply stack_not_free; [done|exact Hn|]. unfold stack_byte in *. by rewrite E1, E2 in Hx. }
  constructor.
  - intros y q Hy Hq Hs. destruct (decide (y = pid)) as [->|Hne]; [exists cpu; by apply Hpid|].
    destruct (Hinv y q Hy Hne Hq Hs) as (p & n & Hp & Hsp & E1 & E2 & Hn). exists n.
    eapply owns_stack_move; [exact Hn|done..|]. intros x Hx. destruct (decide (n = cpu)) as [->|];
      [rewrite fn_lookup_insert|rewrite fn_lookup_insert_ne by done; by apply Hn].
    intros Hcv. apply (proj2 (proj2 (proj2 Hn)) x Hx). by apply Hl.
  - intros y z p0 q0 x Hy Hz Hyz Hp0 Hsp0 Hq0 Hsq0 Hx1 Hx2.
    destruct (decide (y = pid)) as [->|Hyp]; [|destruct (decide (z = pid)) as [->|Hzp]].
    + apply (Hno z q0 x); [done|congruence|done..|]. by apply (proj2 (Hpid p0 Hp0)).
    + apply (Hno y p0 x); [done..|]. by apply (proj2 (Hpid q0 Hq0)).
    + destruct (Hinv y p0 Hy Hyp Hp0 Hsp0) as (p & n & Hp & Hsp & E1 & E2 & _).
      destruct (Hinv z q0 Hz Hzp Hq0 Hsq0) as (q & n' & Hq & Hsq & E3 & E4 & _).
      unfold stack_byte in *. rewrite E1, E2 in Hx1. rewrite E3, E4 in Hx2. by apply (S2 y z p q x).
Qed.

(** What the search for a process id comes to, found or not. *)
Lemma newpid_any k : lenZ (proctab k) = NPROC -> 0 <= nextpid k < NPROC ->
  exists r s, 0 <= s < NPROC /\ newpid k = Ret (r, set_nextpid s k) /\ (r = SYSERR \/ exists i, slot_free k i).
Proof.
  intros Hl Hn. destruct (decide (Exists (fun p => p_state p = PRFREE) (proctab k))) as [He|He].
  - apply Exists_exists in He as (p & [i Hi]%list_elem_of_lookup & Hs).
    assert (slot_free k (Z.of_nat i)) as Hf.
    { exists p. split; [|done]. unfold nthZ. rewrite (proj2 (Z.leb_le 0 (Z.of_nat i))) by lia. by rewrite Nat2Z.id. }
    destruct (newpid_found k _ Hl Hn Hf) as (s & Hs' & _ & Hrun). exists s, s. eauto.
  - destruct (newpid_full (Z.to_nat NPROC) k Hl Hn) as (s & Hs & Hrun); [|exists SYSERR, s; auto].
    intros i (p & Hp & Hs). apply He, Exists_exists. exists p. split; [|done].
    unfold nthZ in Hp. destruct (0 <=? i); [|done]. by eapply list_elem_of_lookup_2.
Qed.

Definition made (pid : Z) (k : kernel) (L : Z -> list Z) (k' : kernel) : Prop :=
  0 <= pid < NPROC /\ slot_free k pid /\ mbox k' L pid = [] /\
  (forall i, 0 <= i < NPROC -> i <> pid -> mbox k' L i = mbox k L i) /\
  entries (fun y => y <> pid) carried k k' /\
  exists q, nthZ (proctab k') pid = Some q /\ p_state q = PRSUSP /\ p_core_affinity q = -1.

Lemma create_mail k L k' pid p p' :
  sys_inv k L -> nthZ (proctab k) pid = Some p -> p_state p = PRFREE -> L (MQ pid) = [] ->
  proctab k' = updZ pid p' (proctab k) -> locktab k' = locktab k -> nextqueue k' = nextqueue k ->
  msgqueue (p_msg p') = msgqueue (p_msg p) -> core_com_lock (p_msg p') = core_com_lock (p_msg p) ->
  hasMessage (p_msg p') = FALSE ->
  mail_inv k' L /\ mbox k' L pid = [] /\ forall i, 0 <= i < NPROC -> i <> pid -> mbox k' L i = mbox k L i.
Proof.
  intros [Hi Hm] Hp Hs HL E1 E2 E3 E4 E5 Hf. pose proof (si_proctab _ _ _ _ _ Hi) as Hlen.
  assert (forall i, 0 <= i < NPROC -> pid ∉ L (MQ i)) as Hu.
  { intros i Hir. eapply (not_queued (queues_at QL) RQ settled); [done|exact Hp|klia|klia|].
    destruct (nthZ_lt_Some (proctab k) i) as [q Hq]; [lia|]. by apply (mi_queue _ _ _ _ _ Hm i q). }
  pose proof (nthZ_Some_lt _ _ _ Hp) as Hx. split; [|split].
  - apply (mail_upd QL RQ MQ k L k' L pid p p'); try done; [|by right]. intros i Hir Hin. by destruct (Hu i Hir).
  - unfold Message.mbox. by rewrite E1, nthZ_updZ_eq, Hf by done.
  - intros i Hir Hne. apply mbox_queue_frame; [by rewrite E1, nthZ_updZ_ne by congruence|done|].
    intros y Hy. unfold msgout_of. rewrite E1, nthZ_updZ_ne; [done|]. intros <-. by destruct (Hu i Hir).
Qed.

Lemma create_effect cpu k L FL funcaddr ssize priority name w args :
  sys_inv k L -> heaps_wf k FL -> stacks_ok k FL -> shaped k -> core cpu -> 0 <= nextpid k < NPROC ->
  (forall y p, nthZ (proctab k) y = Some p -> p_state p = PRFREE -> L (MQ y) = []) ->
  cstr name w -> 0 <= ssize <= 2 ^ 32 - 8 -> prio priority -> lenZ args <= 1000 ->
  exists r k' FL', create cpu funcaddr ssize priority name args k = Ret (r, k') /\
    sys_inv k' L /\ turns RQ no_ticks everyone k L k' L /\ heap_kept k FL k' FL' /\
    ((r = SYSERR /\ proctab k' = proctab k) \/ made r k L k').
Proof.
  intros Hk Hhs Hst Hsh Hc Hnp Hfq Hname Hsz Hprio Hargs. pose proof Hk as [Hi Hm].
  pose proof (si_proctab _ _ _ _ _ Hi) as Hlen. destruct (stack_size_spec ssize Hsz) as (Hz1 & _ & _).
  destruct (nthZ_lt_Some (cpsr k) cpu) as [im Him]; [by rewrite (si_cpsr _ _ _ _ _ Hi)|].
  assert (forall k', proctab k' = proctab k -> queuetab k' = queuetab k -> nextqueue k' = nextqueue k ->
    locktab k' = locktab k -> readylist k' = readylist k -> currpid k' = currpid k -> cpsr k' = cpsr k ->
    regfile k' = regfile k -> promote_medium k' = promote_medium k -> promote_low k' = promote_low k ->
    preempt k' = preempt k -> sys_inv k' L) as Hsame.
  { intros k' E1 E2 E3 E4 E5 E6 E7 E8 E9 E10 E11. split; [apply (kinv_frame (queues_at QL) RQ settled k); by rewrite ?E7, ?E9, ?E10, ?E11|].
    by apply (mail_frame QL RQ MQ k). }
  destruct (getmem_heaps cpu k FL im (stack_size ssize) Hhs Hc Him) as
    [[Hg _]|(saddr & k1 & l' & Hg & Hhs1 & [(m & f & ->) Hfr] & Hb & Hx)]; [klia| |].
  - destruct (newpid_any k Hlen Hnp) as (r & s & Hs & Hn & _). exists SYSERR, (set_nextpid s k), FL.
    split; [eapply create_no_slot; [exact Hg|exact Hn|by left]|]. split; [by apply Hsame|].
    split; [by apply stays_turns, stays_same|]. split; [|by left].
    split; [by apply (heaps_wf_frame k)|]. split; [by destruct Hst|]. by constructor; [intros [] |..].
  - set (k1 := set_memory m (set_freelist f k)) in *.
    assert (forall x, covers l' x -> covers (FL cpu) x) as Hl by (intros x Hcv; apply (proj1 (Hx x)); by right).
    assert (forall n b, block_of k n b -> block_of k1 n b) as Hbk.
    { intros n b. apply block_of_frame. split; [by exists m, f|done]. }
    destruct (newpid_any k1 Hlen Hnp) as (r & s & Hs & Hn & [->|Hfree]).
    + exists SYSERR, (set_nextpid s k1), (<[cpu := l']> FL).
      split; [eapply create_no_slot; [exact Hg|exact Hn|by right]|]. split; [by apply Hsame|].
      split; [by apply stays_turns, stays_same|]. split; [|by left].
      split; [by apply (heaps_wf_frame k1)|]. split; [|by constructor; [intros []|..]].
      apply (stacks_ok_taken k FL _ cpu l' (-1)); try done. by apply (entries_refl _ carried).
    + destruct (create_succeeds (queues_at QL) RQ cpu k L FL funcaddr ssize priority name w args saddr m f l')
        as (pid & p & Hrun & Hpid & Hp & Hpf & Hi' & Hhs'); try done; try apply Hsh.
      set (name' := take 16 w ++ replicate (16 - length w) 0) in *.
      set (k' := created_kernel saddr ssize priority funcaddr pid name' args p m f k) in *.
      pose proof (nthZ_Some_lt _ _ _ Hp) as Hlt.
      set (sp := saddr + stack_size ssize - 16 - 4 * pads (lenZ args)).
      set (p' := created_pcb saddr (stack_size ssize) priority funcaddr sp name' args p).
      assert (proctab k' = updZ pid p' (proctab k)) as Ept by done.
      assert (nthZ (proctab k') pid = Some p') as Hp' by (rewrite Ept; by apply nthZ_updZ_eq).
      assert (entries (fun y => y <> pid) carried k k') as He by (by apply (entries_upd carried _ k k' pid p p')).
      destruct (create_mail k L k' pid p p' Hk Hp Hpf (Hfq pid p Hp Hpf) Ept) as (Hm' & Hb1 & Hb2); try done.
      exists pid, k', (<[cpu := l']> FL). split; [done|]. split; [done|].
      split; [by apply stays_turns, stays_same|]. split; [split; [done|split]|right].
      * apply (stacks_ok_taken k FL k' cpu l' pid); try done; [by rewrite Ept, lenZ_updZ|].
        intros q Hq. replace q with p' by congruence. unfold stack_byte. 
        assert (u32 (p_stklen p') = stack_size ssize) as Es by (simpl; rewrite wrap_swrap, wrap_small; [done|klia|lia]).
        unfold owns_stack. rewrite Es. split; [split; [klia|split; [done|split; [by apply Hbk|]]]|].
        -- intros x Hix. rewrite fn_lookup_insert. intros Hcv. by apply (proj2 (Hx x)).
        -- intros x Hix. exists cpu. split; [done|]. apply (proj1 (Hx x)). by left.
      * constructor; [intros []; by constructor| |intros _; exact Hpid]. intros [Hs1 Hs2]. split; [|done].
        refine (shaped_upd pid p p' (proctab k) _ Hp _ _ Hs1 Ept).
        -- rewrite (proj1 (Hs1 pid p Hp)). change (p_name p') with name'. unfold name', lenZ, PNMLEN.
           rewrite length_app, length_take, length_replicate. lia.
        -- simpl. rewrite !lenZ_updZ. by rewrite args_regs_len.
      * split; [done|]. split; [by exists p|]. split; [done|]. split; [done|]. split; [done|]. by exists p'.
Qed.

(** ** The clock *)

Definition tick_of (cpu c : Z) : Z := if decide (c = cpu) then 1 else 0.

(** A tick, with the reschedule when it was the last of the quantum. *)
Lemma tick_effect cpu k L :
  sys_inv k L -> clock_wf k -> core cpu ->
  exists r k' L', start (clkhandler cpu ;;== tret OK) k = Ret (r, k') /\ sys_inv k' L' /\
    turns RQ (tick_of cpu) everyone k L k' L' /\ resumes_ok r /\
    frame k k' /\ same_mail MQ k L k' L' /\ entries (fun _ => True) carried k k'.
Proof.
  intros [Hi Hm] Hwf Hc. destruct (clk_tick_run cpu k Hwf Hc) as (t & s & p & d & Ht & Hs & Hp & Hrun & _ & D1 & D2 & D3).
  pose proof (cw_quantum _ Hwf _ _ Hp) as Hpr. set (k1 := ticked cpu t s p d k) in *.
  assert (proctab k1 = proctab k /\ locktab k1 = locktab k /\ nextqueue k1 = nextqueue k /\ freelist k1 = freelist k /\
    memory k1 = memory k /\ memheap k1 = memheap k /\ maxaddr k1 = maxaddr k /\ regfile k1 = regfile k /\
    nextpid k1 = nextpid k) as (E1 & E2 & E3 & E4 & E5 & E6 & E7 & E8 & E9).
  { subst k1. unfold ticked. by destruct (CLKTICKS_PER_SEC =? t + 1). }
  assert (sys_inv k1 L) as Hk1.
  { split; [|by apply (mail_frame QL RQ MQ k)]. subst k1. unfold ticked.
    apply (kinv_frame (queues_at QL) RQ _ k); try done; destruct (CLKTICKS_PER_SEC =? t + 1); simpl; rewrite ?lenZ_updZ; done. }
  assert (same_mail MQ k L k1 L) as Hsm1 by (split; [|done]; intros i _; unfold Message.mbox, msgout_of; by rewrite E1).
  assert (forall k' L', turns RQ no_ticks everyone k1 L k' L' -> turns RQ (tick_of cpu) everyone k L k' L') as Hturns.
  { intros k' L' Htu c y Hcc Hy. rewrite <- (Z.add_0_r (tick_of cpu c)).
    eapply turned_after; [..|by apply Htu]; unfold look_at, k1, ticked; destruct (CLKTICKS_PER_SEC =? t + 1); try done;
      simpl; unfold tick_of; rewrite nthZ_updZ by (by eapply nthZ_Some_lt); repeat case_decide; subst; rewrite ?Hp; simpl; done || lia. }
  assert (forall k', frame k1 k' -> clock_wf k' -> frame k k') as Hframe.
  { intros k' [F1 F2 _ F4 F5] Hcw. constructor; [| |done| |congruence].
    - intros FL Hhs. apply F1. eapply heaps_wf_frame; [..|exact Hhs]; try done. intros x _. by rewrite E5.
    - intros n b (h & Hh & ?). apply F2. exists h. by rewrite E4.
    - intros [Hs1 Hs2]. apply F4. split; [intros i q; rewrite E1; apply Hs1|intros c r; rewrite E8; apply Hs2]. }
  unfold clkhandler. destruct (Z.eqb_spec p 1) as [E|E].
  - destruct (si_cur _ _ _ _ _ (proj1 Hk1) cpu Hc) as (x & q & Hx & Hq & _ & Hnr & _).
    destruct (switch_effect QL RQ MQ settled cpu k1 L x q (proj1 Hk1) (proj2 Hk1) Hc (or_intror eq_refl) Hx Hq Hnr)
      as (im & k' & L' & Hsw & Hk' & Htu & (new & pn & s' & tab & pt & Ek) & Hf & Hsm & He & _).
    eexists _, k', L'. split; [|split; [done|split; [by apply Hturns|split; [right; eexists; split; [done|]|split; [|split; [by eapply same_mail_trans|]]]]]].
    + apply start_bind_inr. rewrite (start_lift_Ret _ _ _ _ _ Hrun). by apply start_bind_inr.
    + intros k2 Hk2. destruct (resched_rest_quiet cpu im Hc k2 Hk2) as (ps & Hps & Hr). exists ps. split; [done|].
      rewrite (start_bind_inl _ _ _ tt (set_cpsr ps k2)); [done|]. by rewrite (start_bind_inl _ _ _ _ _ Hr).
    + apply Hframe; [done|]. pose proof (ticked_wf cpu t s p d k QUANTUM Hwf Hc Ht D1 D2 D3 ltac:(klia)) as [W1 W2 W3 W4].
      rewrite Ek. constructor; simpl; try done; rewrite updZ_updZ; done.
    + eapply (entries_trans _ _ k k1); [by apply (entries_refl _ carried)|done].
  - exists (inl OK), k1, L. split; [|split; [done|split; [by apply Hturns, stays_turns, stays_same|split; [by left|split; [|split; [done|]]]]]].
    + rewrite (start_bind_inl _ _ _ tt k1); [done|]. by rewrite (start_lift_Ret _ _ _ _ _ Hrun).
    + apply Hframe; [done|]. pose proof (ticked_wf cpu t s p d k (p - 1) Hwf Hc Ht D1 D2 D3 ltac:(klia)) as [W1 W2 W3 W4].
      by constructor.
    + by apply (entries_refl _ carried).
Qed.
End Lifecycle.
