(* ===== verification/Mmu.v ===== *)
(** * The translation table (system/mmu.c)

    [mmu_init] fills the 4096 section entries of the first-level table at
    [MMUTABLEBASE], each covering a megabyte of addresses. *)

From stdpp Require Import base numbers list gmap.
From S2P Require Import Prelude Kernel.

(** ** Definitions *)

Definition MMUTABLEBASE : Z := 0x4000.

Definition mmu_section (vadd padd flags : Z) : K Z :=
  let ra := Z.shiftr vadd 20 in
  let rb := Z.lor MMUTABLEBASE (u32 (Z.shiftl ra 2)) in
  let rc := Z.lor (Z.lor (Z.lor (Z.land padd 0xFFF00000) 0xC00) flags) 2 in
  store rb rc ;;; ret 0.

(** The sections up to the peripherals; the result is [ra] at the break. *)
Fixpoint mmu_memory (fuel : nat) (ra : Z) : K Z :=
  match fuel with
  | O => failwith OutOfFuel
  | S fuel' =>
      mmu_section ra ra 0x15C06 ;;;
      if 0x3F000000 <=? ra then ret ra else mmu_memory fuel' (u32 (ra + 0x00100000))
  end.

(** The sections of the peripherals. *)
Fixpoint mmu_peripherals (fuel : nat) (ra : Z) : K unit :=
  match fuel with
  | O => failwith OutOfFuel
  | S fuel' =>
      mmu_section ra ra 0x0000 ;;;
      if ra =? 0xFFF00000 then ret tt else mmu_peripherals fuel' (u32 (ra + 0x00100000))
  end.

(** Then start_mmu(MMUTABLEBASE) turns translation on. *)
Definition mmu_init : K unit :=
  ra <-- mmu_memory 4096 0 ;;
  mmu_peripherals 4096 ra.

(** ** The table *)

(** The entry of section [s]. *)
Definition section_entry (s flags : Z) : Z := s * 2 ^ 20 + Z.lor (Z.lor 0xC00 flags) 2.
Definition entry_addr (s : Z) : Z := MMUTABLEBASE + 4 * s.

Lemma mmu_section_run s flags k : 0 <= s < 4096 -> 0 <= flags < 2 ^ 20 ->
  mmu_section (s * 2 ^ 20) (s * 2 ^ 20) flags k =
  Ret (0, set_memory (<[entry_addr s := section_entry s flags]> (memory k)) k).
Proof.
  intros Hs Hf. unfold mmu_section.
  rewrite Z.shiftr_div_pow2, Z.div_mul by lia.
  assert (u32 (Z.shiftl s 2) = 4 * s) as ->.
  { rewrite Z.shiftl_mul_pow2 by lia. rewrite wrap_small; lia. }
  assert (Z.lor MMUTABLEBASE (4 * s) = entry_addr s) as ->.
  { unfold MMUTABLEBASE, entry_addr. change 0x4000 with (Z.shiftl 1 14).
    rewrite shiftl_lor_disjoint by lia. done. }
  assert (Z.land (s * 2 ^ 20) 0xFFF00000 = Z.shiftl s 20) as ->.
  { rewrite <- Z.shiftl_mul_pow2 by lia. change 0xFFF00000 with (Z.shiftl (Z.ones 12) 20).
    rewrite <- Z.shiftl_land, Z.land_ones, Z.mod_small by lia. done. }
  rewrite <- !Z.lor_assoc, (Z.lor_assoc 0xC00 flags 2).
  assert (0 <= Z.lor (Z.lor 0xC00 flags) 2 < 2 ^ 20) as Hr.
  { assert (0 <= Z.lor (Z.lor 3072 flags) 2) by (rewrite !Z.lor_nonneg; lia).
    rewrite bits_bound in * by lia. split; [done|]. destruct Hf as [_ Hf]. intros j Hj.
    rewrite !Z.lor_spec, Hf by lia.
    assert (forall x, 0 <= x < 2 ^ 20 -> Z.testbit x j = false) as Hz
      by (intros x Hx; rewrite bits_bound in Hx by lia; by apply Hx).
    by rewrite !Hz by lia. }
  rewrite shiftl_lor_disjoint by (done || lia). done.
Qed.

(** What the loops leave in the table: sections [lo] to [hi] are set. *)
Definition sections_set (lo hi flags : Z) (m m' : gmap Z Z) : Prop :=
  (forall s, lo <= s <= hi -> mload m' (entry_addr s) = section_entry s flags) /\
  (forall a, (forall s, lo <= s <= hi -> a <> entry_addr s) -> mload m' a = mload m a).

Lemma sections_set_one s flags m : sections_set s s flags m (<[entry_addr s := section_entry s flags]> m).
Proof.
  split.
  - intros s' Hs. replace s' with s by lia. apply mload_insert_eq.
  - intros a Ha. apply mload_insert_ne. intros E. by apply (Ha s); [lia|].
Qed.

Lemma sections_set_app lo mid hi flags m m1 m2 : lo <= mid + 1 -> mid < hi ->
  sections_set lo mid flags m m1 -> sections_set (mid + 1) hi flags m1 m2 -> sections_set lo hi flags m m2.
Proof.
  intros Hlo Hhi [A1 A2] [B1 B2]. split.
  - intros s Hs. destruct (decide (s <= mid)); [|apply B1; lia].
    rewrite B2; [apply A1; lia|]. intros s' Hs'. unfold entry_addr. lia.
  - intros a Ha. rewrite B2, A2; [done|..]; intros s Hs; apply Ha; lia.
Qed.

Lemma section_next s : 0 <= s < 4095 -> u32 (s * 2 ^ 20 + 0x00100000) = (s + 1) * 2 ^ 20.
Proof. intros Hs. change 0x00100000 with (2 ^ 20). rewrite wrap_small; lia. Qed.

Lemma mmu_memory_run fuel s k : 0 <= s <= 0x3F0 -> 0x3F0 - s < Z.of_nat fuel ->
  exists m', mmu_memory fuel (s * 2 ^ 20) k = Ret (0x3F000000, set_memory m' k) /\
    sections_set s 0x3F0 0x15C06 (memory k) m'.
Proof.
  revert s k. induction fuel as [|fuel IH]; intros s k Hs Hf; [lia|]. cbn [mmu_memory].
  rewrite (bind_Ret _ _ _ _ _ (mmu_section_run s 0x15C06 k ltac:(lia) ltac:(lia))).
  destruct (Z.leb_spec 0x3F000000 (s * 2 ^ 20)).
  - assert (s = 0x3F0) as -> by lia. eexists. split; [done|]. apply sections_set_one.
  - rewrite section_next by lia.
    edestruct (IH (s + 1)) as (m' & -> & Hset); [lia|lia|]. exists m'. split; [by destruct k|].
    eapply sections_set_app; [| |apply sections_set_one|exact Hset]; lia.
Qed.

Lemma mmu_peripherals_run fuel s k : 0 <= s <= 0xFFF -> 0xFFF - s < Z.of_nat fuel ->
  exists m', mmu_peripherals fuel (s * 2 ^ 20) k = Ret (tt, set_memory m' k) /\
    sections_set s 0xFFF 0 (memory k) m'.
Proof.
  revert s k. induction fuel as [|fuel IH]; intros s k Hs Hf; [lia|]. cbn [mmu_peripherals].
  rewrite (bind_Ret _ _ _ _ _ (mmu_section_run s 0 k ltac:(lia) ltac:(lia))).
  destruct (Z.eqb_spec (s * 2 ^ 20) 0xFFF00000).
  - assert (s = 0xFFF) as -> by lia. eexists. split; [done|]. apply sections_set_one.
  - rewrite section_next by lia.
    edestruct (IH (s + 1)) as (m' & -> & Hset); [lia|lia|]. exists m'. split; [by destruct k|].
    eapply sections_set_app; [| |apply sections_set_one|exact Hset]; lia.
Qed.

(** The address a section entry translates [va] to. *)
Definition translate (m : gmap Z Z) (va : Z) : option Z :=
  let e := mload m (entry_addr (Z.shiftr va 20)) in
  if Z.land e 3 =? 2 then Some (Z.lor (Z.land e 0xFFF00000) (Z.land va 0xFFFFF)) else None.

Lemma mmu_init_run k : exists m', mmu_init k = Ret (tt, set_memory m' k) /\
  (forall s, 0 <= s < 4096 ->
     mload m' (entry_addr s) = section_entry s (if s <? 0x3F0 then 0x15C06 else 0)) /\
  (forall a, (forall s, 0 <= s < 4096 -> a <> entry_addr s) -> mload m' a = mload (memory k) a).
Proof.
  unfold mmu_init.
  destruct (mmu_memory_run 4096 0 k) as (m1 & H1 & A1 & A2); [lia|lia|].
  rewrite (bind_Ret _ _ _ _ _ H1).
  destruct (mmu_peripherals_run 4096 0x3F0 (set_memory m1 k)) as (m2 & H2 & B1 & B2); [lia|lia|].
  change (0x3F0 * 2 ^ 20) with 0x3F000000 in H2. exists m2. split; [rewrite H2; by destruct k|].
  simpl in B2. split.
  - intros s Hs. destruct (Z.ltb_spec s 0x3F0).
    + rewrite B2; [apply A1; lia|]. intros s' Hs'. unfold entry_addr. lia.
    + apply B1. lia.
  - intros a Ha. rewrite B2, A2; [done|..]; intros s Hs; apply Ha; lia.
Qed.

(** C25: After [mmu_init] every 32-bit address translates to itself; memory
    below the peripherals has the cacheable attributes 0x15C06 and the
    peripherals have none; nothing outside the 16 KB table is written. *)
Theorem mmu_identity k : exists k',
  mmu_init k = Ret (tt, k') /\
  (forall va, 0 <= va < 2 ^ 32 -> translate (memory k') va = Some va /\
     mload (memory k') (entry_addr (Z.shiftr va 20)) =
     section_entry (Z.shiftr va 20) (if va <? 0x3F000000 then 0x15C06 else 0)) /\
  (forall a, ~ (MMUTABLEBASE <= a < MMUTABLEBASE + 0x4000) -> mload (memory k') a = mload (memory k) a).
Proof.
  destruct (mmu_init_run k) as (m' & Hrun & Hset & Hout). exists (set_memory m' k). split; [done|].
  simpl. split.
  - intros va Hva. rewrite Z.shiftr_div_pow2 by lia.
    set (s := va / 2 ^ 20). assert (0 <= s < 4096) as Hs.
    { subst s. split; [apply Z.div_pos; lia|apply Z.div_lt_upper_bound; lia]. }
    pose proof (Z.div_mod va (2 ^ 20) ltac:(lia)) as E. fold s in E.
    pose proof (Z.mod_pos_bound va (2 ^ 20) ltac:(lia)) as Hm.
    assert ((va <? 0x3F000000) = (s <? 0x3F0)) as ->.
    { destruct (Z.ltb_spec va 0x3F000000), (Z.ltb_spec s 0x3F0); lia. }
    split; [|by apply Hset]. unfold translate. rewrite Z.shiftr_div_pow2 by lia. fold s. rewrite Hset by done.
    set (fl := if s <? 0x3F0 then 0x15C06 else 0).
    assert (exists c, section_entry s fl = s * 2 ^ 20 + c /\ 0 <= c < 2 ^ 20 /\ c mod 4 = 2) as (c & -> & Hc & Hc4).
    { exists (Z.lor (Z.lor 0xC00 fl) 2). split; [reflexivity|]. subst fl. clear.
      destruct (s <? 0x3F0); vm_compute; intuition discriminate. }
    change 3 with (Z.ones 2). rewrite Z.land_ones by lia.
    assert ((s * 2 ^ 20 + c) mod 2 ^ 2 = 2) as ->.
    { change (2 ^ 20) with (2 ^ 18 * 4). rewrite Z.mul_assoc, Z.add_comm, Z.mod_add by lia. done. }
    simpl. f_equal.
    change 0xFFFFF with (Z.ones 20). rewrite Z.land_ones by lia.
    assert (Z.land (s * 2 ^ 20 + c) 0xFFF00000 = Z.shiftl s 20) as ->.
    { rewrite <- (shiftl_lor_disjoint s c 20) by lia. rewrite Z.land_lor_distr_l.
      change 0xFFF00000 with (Z.shiftl (Z.ones 12) 20). rewrite <- Z.shiftl_land, Z.land_ones, Z.mod_small by lia.
      assert (Z.land c (Z.shiftl (Z.ones 12) 20) = 0) as ->; [|apply Z.lor_0_r].
      apply Z.bits_inj'. intros j Hj. rewrite Z.land_spec, Z.testbit_0_l.
      rewrite bits_bound in Hc by lia. destruct Hc as [_ Hc].
      destruct (Z.ltb_spec j 20); [rewrite Z.shiftl_spec_low by lia; apply andb_false_r|by rewrite Hc]. }
    rewrite shiftl_lor_disjoint by lia. lia.
  - intros a Ha. apply Hout. intros s Hs ->. apply Ha. unfold entry_addr, MMUTABLEBASE. lia.
Qed.
