(* ===== verification/Checks.v ===== *)
(** * Deciding the invariants on a given kernel

    The invariants of the queues, the scheduler, the mailboxes and the heaps
    quantify over table entries.  Here they follow from finite conditions
    that can be evaluated: the queues are read off the table, and every
    condition ranges over the entries of a list. *)

From stdpp Require Import base numbers functions list gmap.
From S2P Require Import Prelude Kernel Spinlock Queue Memory CString Thread Proc ProcOps Message.

(** ** Conditions over tables *)

(** [P] holds of every entry of a table with its index. *)
Definition Idx {A} (P : Z -> A -> Prop) (l : list A) : Prop :=
  Forall (fun x => P x.1 x.2) (imap (fun i x => (Z.of_nat i, x)) l).

#[export] Instance Idx_dec {A} (P : Z -> A -> Prop) `{!forall i x, Decision (P i x)} l : Decision (Idx P l).
Proof. unfold Idx. apply _. Defined.

Lemma Idx_nthZ {A} (P : Z -> A -> Prop) l i x : Idx P l -> nthZ l i = Some x -> P i x.
Proof.
  unfold Idx, nthZ. intros HF. case_if; [|done]. intros Hx. rewrite Forall_lookup in HF.
  specialize (HF (Z.to_nat i) (i, x)). apply HF. rewrite list_lookup_imap, Hx. simpl. do 2 f_equal. lia.
Qed.

(** The optional value is there and satisfies [P]. *)
Definition holds {A} (o : option A) (P : A -> Prop) : Prop :=
  match o with Some a => P a | None => False end.

#[export] Instance holds_dec {A} (o : option A) (P : A -> Prop) `{!forall a, Decision (P a)} : Decision (holds o P).
Proof. destruct o; simpl; apply _. Defined.

Lemma holds_ex {A} (o : option A) (P : A -> Prop) : holds o P -> exists a, o = Some a /\ P a.
Proof. destruct o; simpl; [eauto|done]. Qed.

Definition cores : list Z := [0; 1; 2; 3].
Definition prios : list Z := [0; 1; 2].

Lemma cores_elem c : core c <-> c ∈ cores.
Proof. unfold core, cores, NCORES. rewrite !elem_of_cons, elem_of_nil. lia. Qed.
Lemma prios_elem p : prio p <-> p ∈ prios.
Proof. unfold prio, prios. rewrite !elem_of_cons, elem_of_nil. lia. Qed.

Lemma cores_all P : Forall P cores -> forall c, core c -> P c.
Proof. intros HF c Hc%cores_elem. rewrite Forall_forall in HF. auto. Qed.
Lemma prios_all P : Forall P prios -> forall p, prio p -> P p.
Proof. intros HF p Hp%prios_elem. rewrite Forall_forall in HF. auto. Qed.

(** ** Reading the queues *)

Definition heads (k : kernel) : list Z :=
  (fun n => NPROC + 2 * Z.of_nat n) <$> seq 0 (Z.to_nat ((nextqueue k - NPROC) / 2)).

Lemma is_qhead_heads k h : is_qhead k h -> h ∈ heads k.
Proof.
  intros (H1 & H2 & [a ->]). unfold heads. apply list_elem_of_fmap. exists (Z.to_nat (a - 25)).
  unfold NPROC in *. split; [lia|]. apply elem_of_seq. split; [lia|].
  assert (a - 25 < (nextqueue k - 50) / 2); [|lia].
  assert (a - 25 + 1 <= (nextqueue k - 50) / 2); [apply Z.div_le_lower_bound; lia|lia].
Qed.

Lemma heads_all k P : Forall P (heads k) -> forall h, is_qhead k h -> P h.
Proof. intros HF h Hh%is_qhead_heads. rewrite Forall_forall in HF. auto. Qed.

(** Follow [next] from [x] until the tail [t]. *)
Fixpoint walk (fuel : nat) (tab : list qentry) (x t : Z) : list Z :=
  match fuel with
  | O => []
  | S fuel' => match nx tab x with
               | Some y => if y =? t then [] else y :: walk fuel' tab y t
               | None => []
               end
  end.

Definition lists_of (k : kernel) (h : Z) : list Z := walk (Z.to_nat NQENT) (queuetab k) h (h + 1).
Definition qlock_of (k : kernel) (h : Z) : Z := default 0 (lk (queuetab k) h).
Definition ready_of (k : kernel) (c p : Z) : Z :=
  default 0 (queuehead <$> (row ← nthZ (readylist k) c; nthZ row p)).
Definition mail_of (k : kernel) (i : Z) : Z :=
  default 0 ((fun p => queuehead (msgqueue (p_msg p))) <$> nthZ (proctab k) i).

#[export] Instance linked_dec tab a b : Decision (linked tab a b).
Proof. unfold linked. apply _. Defined.
#[export] Instance chain_dec tab a l b : Decision (chain tab a l b).
Proof. revert a. induction l; intros x; simpl; apply _. Defined.
#[export] Instance at_rest_dec k l : Decision (at_rest k l).
Proof. unfold at_rest. apply _. Defined.
#[export] Instance core_dec c : Decision (core c).
Proof. unfold core. apply _. Defined.
#[export] Instance prio_dec c : Decision (prio c).
Proof. unfold prio. apply _. Defined.

(** ** The queues *)

Definition qrep_ok (tab : list qentry) (h : Z) (l : list Z) : Prop :=
  chain tab h l (h + 1) /\ pv tab h = Some EMPTY /\ nx tab (h + 1) = Some EMPTY /\
  Forall (fun x => 0 <= x < NPROC) l /\ NoDup l.

Definition queues_ok (k : kernel) : Prop :=
  lenZ (queuetab k) = NQENT /\ NPROC <= nextqueue k <= NQENT /\
  Forall (fun h => qrep_ok (queuetab k) h (lists_of k h)) (heads k) /\
  Forall (fun h1 => Forall (fun h2 => h1 = h2 \/ Forall (fun x => x ∉ lists_of k h2) (lists_of k h1)) (heads k)) (heads k) /\
  Forall (fun h => holds (lk (queuetab k) h) (fun l => 0 <= l < NLOCK /\ at_rest k l)) (heads k).

#[export] Instance queues_ok_dec k : Decision (queues_ok k).
Proof. unfold queues_ok, qrep_ok. apply _. Defined.

Lemma queues_ok_at k : queues_ok k -> queues_at (qlock_of k) k (lists_of k).
Proof.
  intros (H1 & H2 & H3 & H4 & H5). split; [constructor; [done|done|..]|].
  - intros h Hh. destruct (heads_all _ _ H3 h Hh) as (R1 & R2 & R3 & R4 & R5). constructor; try done.
    intros x Hx. rewrite Forall_forall in R4. auto.
  - intros h1 h2 x Hq1 Hq2 Hx1 Hx2. destruct (heads_all _ _ (heads_all _ _ H4 h1 Hq1) h2 Hq2) as [?|Hd]; [done|].
    rewrite Forall_forall in Hd. by destruct (Hd x Hx1).
  - intros h Hh. destruct (holds_ex _ _ (heads_all _ _ H5 h Hh)) as (l & ? & ? & ?). eauto.
  - intros h Hh. unfold qlock_of. by destruct (holds_ex _ _ (heads_all _ _ H5 h Hh)) as (l & -> & _).
Qed.

(** Conversely, the lists of the invariant are those read off the table. *)
Lemma walk_chain tab t l : forall fuel h, chain tab h l t -> (forall x, x ∈ l -> x <> t) -> (length l < fuel)%nat ->
  walk fuel tab h t = l.
Proof.
  induction l as [|y l IH]; intros [|fuel] h Hc Ht Hf; simpl in *; try lia.
  - destruct Hc as [-> _]. by rewrite Z.eqb_refl.
  - destruct Hc as [[-> _] Hc]. rewrite (proj2 (Z.eqb_neq y t)) by (apply Ht; left).
    f_equal. apply IH; [done| |lia]. intros x Hx. apply Ht. by right.
Qed.

Lemma lists_of_eq k L h : queues_wf k L -> is_qhead k h -> lists_of k h = L h.
Proof.
  intros Hwf Hh. destruct (qw_rep _ _ Hwf h Hh) as [Hc _ _ Hm Hn]. apply walk_chain; [done| |].
  - intros x Hx%Hm. destruct Hh as (? & _). lia.
  - assert (length (L h) <= length (seqZ 0 NPROC))%nat as Hl.
    { apply submseteq_length, NoDup_submseteq; [done|]. intros x Hx%Hm. apply elem_of_seqZ. lia. }
    rewrite length_seqZ in Hl. klia.
Qed.

(** ** The scheduler *)

#[export] Instance even_dec h : Decision (2 | h).
Proof. refine (cast_if (decide (h mod 2 = 0))); by rewrite <- Z.mod_divide by lia. Defined.
#[export] Instance is_qhead_dec k h : Decision (is_qhead k h).
Proof. unfold is_qhead. apply _. Defined.

Definition rq_check (k : kernel) : Prop :=
  Forall (fun c => Forall (fun p =>
    holds (nthZ (readylist k) c) (fun row => nthZ row p = Some (qid (ready_of k c p))) /\
    is_qhead k (ready_of k c p)) prios) cores /\
  NoDup (c ← cores; ready_of k c <$> prios).

Definition sched_ok (k : kernel) : Prop :=
  queues_ok k /\ rq_check k /\ lenZ (proctab k) = NPROC /\ lenZ (currpid k) = NCORES /\
  lenZ (cpsr k) = NCORES /\ lenZ (regfile k) = NCORES /\ lenZ (promote_medium k) = NCORES /\
  lenZ (promote_low k) = NCORES /\ lenZ (preempt k) = NCORES /\
  Forall (fun h => Forall (fun x => holds (nthZ (proctab k) x) (fun p =>
    p_state p = PRREADY \/ p_state p = PRSEND)) (lists_of k h)) (heads k) /\
  Forall (fun c => Forall (fun q => Forall (fun x => holds (nthZ (proctab k) x) (fun p =>
    p_state p = PRREADY /\ p_core_affinity p = c)) (lists_of k (ready_of k c q))) prios) cores /\
  Idx (fun x p => p_state p <> PRREADY \/ (core (p_core_affinity p) /\
    Exists (fun q => x ∈ lists_of k (ready_of k (p_core_affinity p) q)) prios)) (proctab k) /\
  Idx (fun x p => p_state p = PRFREE \/ prio (p_priority p)) (proctab k) /\
  Forall (fun c => holds (nthZ (currpid k) c) (fun x => holds (nthZ (proctab k) x) (fun p =>
    p_core_affinity p = c /\ p_state p = PRCURR))) cores /\
  Idx (fun x p => p_state p <> PRCURR \/ (core (p_core_affinity p) /\
    nthZ (currpid k) (p_core_affinity p) = Some x)) (proctab k) /\
  Forall (fun c => holds (nthZ (proctab k) c) (fun p =>
    p_core_affinity p = c /\ (p_state p = PRCURR \/ p_state p = PRREADY))) cores.

#[export] Instance rq_check_dec k : Decision (rq_check k).
Proof. unfold rq_check. apply _. Defined.
#[export] Instance sched_ok_dec k : Decision (sched_ok k).
Proof. unfold sched_ok. apply _. Defined.

Lemma NoDup_fmap_inj_on {A B} (f : A -> B) l x y :
  NoDup (f <$> l) -> x ∈ l -> y ∈ l -> f x = f y -> x = y.
Proof.
  induction l as [|a l IH]; intros Hnd Hx Hy E; [by apply elem_of_nil in Hx|].
  rewrite fmap_cons in Hnd. apply NoDup_cons in Hnd as [Hni Hnd].
  apply elem_of_cons in Hx as [->|Hx], Hy as [->|Hy]; [done|..|by apply IH].
  - exfalso. apply Hni. rewrite E. by apply list_elem_of_fmap_2.
  - exfalso. apply Hni. rewrite <- E. by apply list_elem_of_fmap_2.
Qed.

Lemma NoDup_bind_inj {A B C} (f : A -> B -> C) la lb a b a' b' :
  NoDup (x ← la; f x <$> lb) -> a ∈ la -> a' ∈ la -> b ∈ lb -> b' ∈ lb -> f a b = f a' b' -> a = a' /\ b = b'.
Proof.
  revert a a'. induction la as [|x la IH]; intros a a' Hnd Ha Ha' Hb Hb' E; [by apply elem_of_nil in Ha|].
  simpl in Hnd. apply NoDup_app in Hnd as (Hnd1 & Hdis & Hnd2).
  assert (forall y z, y ∈ la -> z ∈ lb -> f y z ∈ (x ← la; f x <$> lb)) as Hin.
  { intros y z Hy Hz. apply list_elem_of_bind. exists y. split; [|done]. by apply list_elem_of_fmap_2. }
  assert (forall z, z ∈ lb -> f x z ∈ f x <$> lb) as Hin0 by (intros z Hz; by apply list_elem_of_fmap_2).
  apply elem_of_cons in Ha as [->|Ha], Ha' as [->|Ha'].
  - split; [done|]. by eapply NoDup_fmap_inj_on.
  - exfalso. apply (Hdis (f x b)); [auto|]. rewrite E. auto.
  - exfalso. apply (Hdis (f x b')); [auto|]. rewrite <- E. auto.
  - by apply IH.
Qed.

Lemma sched_ok_inv k : sched_ok k -> sched_inv (queues_at (qlock_of k)) (ready_of k) settled k (lists_of k).
Proof.
  intros (Q & [R1 R2] & H3 & H4 & H5 & H6 & H7 & H8 & H9 & H10 & H11 & H12 & H13 & H14 & H15 & H16).
  pose proof (fun c p Hc Hp => prios_all _ (cores_all _ R1 c Hc) p Hp) as R.
  constructor; try done.
  - by apply queues_ok_at.
  - constructor.
    + intros c p Hc Hp. destruct (R c p Hc Hp) as [(row & ? & ?)%holds_ex _]. eauto.
    + intros c p Hc Hp. by apply R.
    + intros c p c' p' Hc Hp Hc' Hp'. apply (NoDup_bind_inj _ cores prios); by rewrite <- ?cores_elem, <- ?prios_elem.
  - intros h x Hh Hx. pose proof (heads_all _ _ H10 h Hh) as HF. rewrite Forall_forall in HF.
    by apply holds_ex, HF.
  - intros c q x Hc Hq Hx. pose proof (prios_all _ (cores_all _ H11 c Hc) q Hq) as HF.
    rewrite Forall_forall in HF. by apply holds_ex, HF.
  - intros x p Hp Hs. destruct (Idx_nthZ _ _ _ _ H12 Hp) as [?|[Hc He]]; [done|]. split; [done|].
    apply Exists_exists in He as (q & Hq & Hx). exists q. split; [by apply prios_elem|done].
  - intros x p Hp Hs. by destruct (Idx_nthZ _ _ _ _ H13 Hp).
  - intros c Hc. destruct (holds_ex _ _ (cores_all _ H14 c Hc)) as (x & Hx & (p & Hp & Ha & Hs)%holds_ex).
    exists x, p. repeat (split; [done|]). split; [rewrite Hs; klia|done].
  - intros x p Hp Hs. by destruct (Idx_nthZ _ _ _ _ H15 Hp).
  - intros c Hc. by destruct (holds_ex _ _ (cores_all _ H16 c Hc)) as (p & Hp & ?); eauto.
Qed.

(** ** The mailboxes *)

Definition mail_ok (k : kernel) : Prop :=
  Idx (fun i p => msgqueue (p_msg p) = qid (mail_of k i) /\ is_qhead k (mail_of k i)) (proctab k) /\
  NoDup (mail_of k <$> seqZ 0 NPROC) /\
  Forall (fun i => Forall (fun c => Forall (fun q => mail_of k i <> ready_of k c q) prios) cores) (seqZ 0 NPROC) /\
  Idx (fun i p => 0 <= core_com_lock (p_msg p) < NLOCK /\ at_rest k (core_com_lock (p_msg p)) /\
    Forall (fun h => qlock_of k h <> core_com_lock (p_msg p)) (heads k)) (proctab k) /\
  Idx (fun i p => hasMessage (p_msg p) = TRUE \/
    (hasMessage (p_msg p) = FALSE /\ lists_of k (mail_of k i) = [])) (proctab k) /\
  Forall (fun i => Forall (fun x => holds (nthZ (proctab k) x) (fun p =>
    p_state p = PRSEND /\ core (p_core_affinity p))) (lists_of k (mail_of k i))) (seqZ 0 NPROC).

#[export] Instance mail_ok_dec k : Decision (mail_ok k).
Proof. unfold mail_ok. apply _. Defined.

Lemma seqZ_all (P : Z -> Prop) n : Forall P (seqZ 0 n) -> forall i, 0 <= i < n -> P i.
Proof. intros HF i Hi. rewrite Forall_forall in HF. apply HF, elem_of_seqZ. lia. Qed.

Lemma mail_ok_inv k : mail_ok k -> mail_inv (qlock_of k) (ready_of k) (mail_of k) k (lists_of k).
Proof.
  intros (H1 & H2 & H3 & H4 & H5 & H6). constructor.
  - intros i p Hp. by apply (Idx_nthZ _ _ _ _ H1 Hp).
  - intros i j Hi Hj E. eapply (NoDup_fmap_inj_on (mail_of k)); [exact H2|..|done]; apply elem_of_seqZ; lia.
  - intros i c q Hi Hc Hq. apply (prios_all _ (cores_all _ (seqZ_all _ _ H3 i Hi) c Hc) q Hq).
  - intros i p Hp. destruct (Idx_nthZ _ _ _ _ H4 Hp) as (? & ? & Hn). split; [done|]. split; [done|].
    by apply heads_all.
  - intros i p Hp. by apply (Idx_nthZ _ _ _ _ H5 Hp).
  - intros i x Hi Hx. pose proof (seqZ_all _ _ H6 i Hi) as HF. rewrite Forall_forall in HF. by apply holds_ex, HF.
Qed.

Lemma sys_ok_inv k : sched_ok k -> mail_ok k -> sys_inv (qlock_of k) (ready_of k) (mail_of k) k (lists_of k).
Proof. intros H1 H2. split; [by apply sched_ok_inv|by apply mail_ok_inv]. Qed.

(** ** The heaps *)

(** Follow the block headers from [p]. *)
Fixpoint blocks (fuel : nat) (m : gmap Z Z) (p : Z) : list block :=
  match fuel with
  | O => []
  | S fuel' => if p =? NULL then []
               else (p, mload m (p + mb_length)) :: blocks fuel' m (mload m (p + mb_next))
  end.

Definition free_of (k : kernel) (n : Z) : list block :=
  match nthZ (freelist k) n with
  | Some h => blocks (size (memory k)) (memory k) (mh_head h)
  | None => []
  end.

#[export] Instance mult8_dec h : Decision (8 | h).
Proof. refine (cast_if (decide (h mod 8 = 0))); by rewrite <- Z.mod_divide by lia. Defined.
#[export] Instance lseg_dec m p l q : Decision (lseg m p l q).
Proof. revert p. induction l; intros x; simpl; apply _. Defined.
#[export] Instance fl_ok_dec lo l hi : Decision (fl_ok lo l hi).
Proof. revert lo. induction l; intros x; simpl; apply _. Defined.

Definition heap_ok (k : kernel) (n : Z) (h : memhead) (l : list block) : Prop :=
  lseg (memory k) (mh_head h) l NULL /\ fl_ok (mh_base h) l (mh_base h + mh_bound h) /\
  mh_length h = total l /\ 0 < mh_base h /\ 0 <= mh_bound h /\ mh_base h + mh_bound h < 2 ^ 32 /\
  0 <= mh_memlock h < NLOCK /\ at_rest k (mh_memlock h).

#[export] Instance heap_ok_dec k n h l : Decision (heap_ok k n h l).
Proof. unfold heap_ok. apply _. Defined.

Lemma heap_ok_wf k n h l : nthZ (freelist k) n = Some h -> heap_ok k n h l -> heap_wf k n h l.
Proof. intros Hn (H1 & H2 & H3 & H4 & H5 & H6 & H7 & H8). by constructor. Qed.

Definition heaps_ok (k : kernel) : Prop :=
  lenZ (freelist k) = NCORES /\
  Idx (fun n h => heap_ok k n h (free_of k n) /\ memheap k <= mh_base h /\
    mh_base h + mh_bound h <= maxaddr k + 1) (freelist k) /\
  Idx (fun i hi => Idx (fun j hj => i = j \/ mh_base hi + mh_bound hi <= mh_base hj \/
    mh_base hj + mh_bound hj <= mh_base hi) (freelist k)) (freelist k).

#[export] Instance heaps_ok_dec k : Decision (heaps_ok k).
Proof. unfold heaps_ok. apply _. Defined.

Lemma heaps_ok_wf k : heaps_ok k -> heaps_wf k (free_of k).
Proof.
  intros (H1 & H2 & H3). constructor; [done|..].
  - intros n h Hh. destruct (Idx_nthZ _ _ _ _ H2 Hh) as (Hok & ? & ?). split; [by apply heap_ok_wf|done].
  - intros i j hi hj p Hi Hj Hne [? ?] [? ?].
    destruct (Idx_nthZ _ _ _ _ (Idx_nthZ _ _ _ _ H3 Hi) Hj) as [?|[?|?]]; [done|lia|lia].
Qed.
