(* ===== verification/System.v ===== *)
(** * The kernel as a system of processes

    Processes call the kernel one after the other on the four cores, in any
    order.  A call that gives up the processor leaves the rest of itself
    behind; it goes on when its process is chosen again, whatever the other
    processes have done to the kernel in the meantime.  Here the operations
    of the other files are the steps of that system, and its invariant is
    carried along every run. *)

From stdpp Require Import base numbers functions list gmap.
From S2P Require Import Prelude Kernel Spinlock Queue Memory CString Thread Proc ProcOps Message Interrupt.
From S2P Require Import Effects Lifecycle Checks.

(** ** Calls and runs *)

Inductive call :=
  | Yield
  | Tick
  | Send (pid msg : Z)
  | SendNow (pid msg : Z)
  | Recv
  | RecvNow
  | Ready (pid : Z) (resch : bool) (cr : Z)
  | Create (funcaddr ssize priority : Z) (name args : list Z)
  | Kill (pid : Z).

#[export] Instance call_eq_dec : EqDecision call.
Proof. solve_decision. Defined.

(** The call made on core [c]; [Tick] is the clock interrupt, taken while
    the current process runs its own code. *)
Definition perform `{Layout} (c : Z) (cl : call) : thread Z :=
  match cl with
  | Yield => resched c
  | Tick => clkhandler c ;;== tret OK
  | Send pid msg => send c pid msg
  | SendNow pid msg => sendnow c pid msg
  | Recv => recv c
  | RecvNow => lift (recvnow c)
  | Ready pid resch cr => ready c pid resch cr
  | Create funcaddr ssize priority name args => lift (create c funcaddr ssize priority name args)
  | Kill pid => kill c pid
  end.

(** A call that was cut short, and what is left of it. *)
Record job := mkJob { j_call : call; j_rest : thread Z }.

Record sys := mkSys { ker : kernel; jobs : Z -> option job }.

(** The current process of core [c] makes a call, or goes on with the one
    it was in. *)
Inductive cmd :=
  | Do (c : Z) (cl : call)
  | Resume (c : Z).

Definition cmd_core (cm : cmd) : Z := match cm with Do c _ => c | Resume c => c end.

(** [pid], current on its core, was in call [ev_call]; it got the result, or
    gave up the processor. *)
Record event := mkEvent { ev_pid : Z; ev_call : call; ev_new : bool; ev_result : option Z }.

Definition result (r : Z + thread Z) : option Z := match r with inl v => Some v | inr _ => None end.

(** The jobs after a step of [x]; a new process has none. *)
Definition jobs_after (x : Z) (cl : call) (r : Z + thread Z) (J : Z -> option job) : Z -> option job :=
  match r with
  | inr t => <[x := Some (mkJob cl t)]> J
  | inl v => match cl with
             | Create _ _ _ _ _ => <[v := None]> (<[x := None]> J)
             | _ => <[x := None]> J
             end
  end.

Definition advance (x : Z) (cl : call) (new : bool) (t : thread Z) (s : sys) : outcome (event * sys) :=
  '(r, k') <~ start t (ker s) ;;
  Ret (mkEvent x cl new (result r), mkSys k' (jobs_after x cl r (jobs s))).

Definition exec `{Layout} (cm : cmd) (s : sys) : outcome (event * sys) :=
  '(x, _) <~ rd_currpid (cmd_core cm) (ker s) ;;
  match cm with
  | Do c cl => advance x cl true (perform c cl) s
  | Resume _ => match jobs s x with
                | Some j => advance x (j_call j) false (j_rest j) s
                | None => Fault Deadlock
                end
  end.

Fixpoint run `{Layout} (cms : list cmd) (s : sys) : outcome (list event * sys) :=
  match cms with
  | [] => Ret ([], s)
  | cm :: cms' =>
      '(e, s1) <~ exec cm s ;;
      '(es, s') <~ run cms' s1 ;;
      Ret (e :: es, s')
  end.

(** ** What the callers must observe *)

Definition entry (k : kernel) (y : Z) (P : pcb -> Prop) : Prop := holds (nthZ (proctab k) y) P.

(** No process waits to send to [y]. *)
Definition nobody_waits (k : kernel) (y : Z) : Prop :=
  nx (queuetab k) (mail_of k y) = Some (mail_of k y + 1).

(** Null processes do not wait; a process does not send to itself while it
    has a message, as it would wait for itself; [SYSERR] is not a message;
    [sendnow] is given an identifier in range; senders are not left behind
    by [recvnow] or [kill]; only suspended processes are made ready. *)
Definition polite (k : kernel) (x : Z) (cl : call) : Prop :=
  match cl with
  | Yield | Tick => True
  | Send pid msg => NCORES <= x /\ msg <> SYSERR /\
      (pid = x -> entry k x (fun p => hasMessage (p_msg p) = FALSE))
  | SendNow pid msg => 0 <= pid < NPROC /\ msg <> SYSERR
  | Recv => NCORES <= x
  | RecvNow => nobody_waits k x
  | Ready pid _ cr => core cr /\ entry k pid (fun p => p_state p = PRSUSP)
  | Create _ ssize priority name args => 0 <= ssize <= 2 ^ 32 - 8 /\ prio priority /\ 0 ∈ name /\ lenZ args <= 1000
  | Kill pid => pid < NCORES \/ NPROC <= pid \/
      (nobody_waits k pid /\ entry k pid (fun p => p_state p <> PRSEND))
  end.

#[local] Instance entry_dec k y P `{!forall p, Decision (P p)} : Decision (entry k y P).
Proof. unfold entry. apply _. Defined.
#[local] Instance nobody_waits_dec k y : Decision (nobody_waits k y).
Proof. unfold nobody_waits. apply _. Defined.
#[local] Instance polite_dec k x cl : Decision (polite k x cl).
Proof. destruct cl; simpl; apply _. Defined.

Definition has_job (s : sys) (x : Z) : bool := match jobs s x with Some _ => true | None => false end.

(** A process makes a call when it is not inside one. *)
Definition legal (cm : cmd) (s : sys) : Prop :=
  core (cmd_core cm) /\
  holds (nthZ (currpid (ker s)) (cmd_core cm)) (fun x =>
    match cm with
    | Do _ cl => has_job s x = false /\ polite (ker s) x cl
    | Resume _ => has_job s x = true
    end).

#[local] Instance legal_dec cm s : Decision (legal cm s).
Proof. destruct cm; unfold legal; simpl; apply _. Defined.

Fixpoint legal_run `{Layout} (cms : list cmd) (s : sys) : bool :=
  match cms with
  | [] => true
  | cm :: cms' => bool_decide (legal cm s) &&
      match exec cm s with Ret (_, s') => legal_run cms' s' | Fault _ => true end
  end.

(** ** The messages of a run *)

(** What was sent to each process and what it has received, since it was
    created. *)
Record mails := mkMails { sent : Z -> list Z; received : Z -> list Z }.

Definition no_mail : mails := mkMails (fun _ => []) (fun _ => []).

Definition note_sent (pid msg : Z) (m : mails) : mails :=
  mkMails (<[pid := sent m pid ++ [msg]]> (sent m)) (received m).
Definition note_received (pid : Z) (r : option Z) (m : mails) : mails :=
  match r with
  | Some msg => if msg =? SYSERR then m else mkMails (sent m) (<[pid := received m pid ++ [msg]]> (received m))
  | None => m
  end.

(** A [send] that has not failed when it returns or gives up the processor
    has sent its message. *)
Definition note (e : event) (m : mails) : mails :=
  match ev_call e with
  | Send pid msg | SendNow pid msg =>
      if ev_new e && negb (bool_decide (ev_result e = Some SYSERR)) then note_sent pid msg m else m
  | Recv | RecvNow => note_received (ev_pid e) (ev_result e) m
  | Create _ _ _ _ _ =>
      match ev_result e with
      | Some pid => mkMails (<[pid := []]> (sent m)) (<[pid := []]> (received m))
      | None => m
      end
  | _ => m
  end.

Definition mails_of (es : list event) : mails := foldl (fun m e => note e m) no_mail es.

(** ** The invariant of the system *)

Section System.
Context (QL : Z -> Z) (RQ : Z -> Z -> Z) (MQ : Z -> Z) `{Layout}.
Local Abbreviation mail_inv := (mail_inv QL RQ MQ).
Local Abbreviation sys_inv := (sys_inv QL RQ MQ).
Local Abbreviation mbox := (mbox MQ).

(** The calls that give up the processor when all is done. *)
Definition settles (cl : call) : bool :=
  match cl with Recv | RecvNow | Create _ _ _ _ _ => false | _ => true end.

(** Only the interrupt mask is left to restore. *)
Definition finishing (j : job) : Prop := settles (j_call j) = true /\ quiet (j_rest j).
(** Process [y] of core [c] was in [recv]. *)
Definition collecting (c y : Z) (j : job) : Prop := j_call j = Recv /\ exists im, j_rest j = recv_rest c y im.

(** A process by its state: what it has left to do fits why it does not
    run. *)
Inductive proc_ok (L : Z -> list Z) (J : option job) (y : Z) (p : pcb) : Prop :=
  | ok_free : p_state p = PRFREE -> L (MQ y) = [] -> proc_ok L J y p
  | ok_susp : p_state p = PRSUSP -> p_core_affinity p = -1 -> J = None -> proc_ok L J y p
  | ok_recv j : p_state p = PRRECV -> core (p_core_affinity p) -> hasMessage (p_msg p) = FALSE ->
      J = Some j -> collecting (p_core_affinity p) y j -> proc_ok L J y p
  | ok_send j i : p_state p = PRSEND -> core (p_core_affinity p) -> 0 <= i < NPROC -> y ∈ L (MQ i) ->
      J = Some j -> finishing j -> proc_ok L J y p
  | ok_idle : runnable (p_state p) -> core (p_core_affinity p) -> J = None -> proc_ok L J y p
  | ok_finishing j : runnable (p_state p) -> core (p_core_affinity p) -> J = Some j -> finishing j -> proc_ok L J y p
  | ok_collecting j : runnable (p_state p) -> core (p_core_affinity p) -> hasMessage (p_msg p) = TRUE ->
      J = Some j -> collecting (p_core_affinity p) y j -> proc_ok L J y p.

Record sound (s : sys) (L : Z -> list Z) (FL : Z -> list block) : Prop := {
  so_sys : sys_inv (ker s) L;
  so_heaps : heaps_wf (ker s) FL;
  so_stacks : stacks_ok (ker s) FL;
  so_clock : clock_wf (ker s);
  so_shape : shaped (ker s);
  so_nextpid : 0 <= nextpid (ker s) < NPROC;
  so_proc : forall y p, nthZ (proctab (ker s)) y = Some p -> proc_ok L (jobs s y) y p
}.

(** What an operation does to the entry of a process other than its caller. *)
Inductive moved (p q : pcb) : Prop :=
  | mv_stays : p_state q = p_state p -> p_core_affinity q = p_core_affinity p ->
      hasMessage (p_msg q) = hasMessage (p_msg p) \/ (hasMessage (p_msg q) = TRUE /\ p_state p <> PRRECV) -> moved p q
  | mv_runs : runnable (p_state q) -> p_core_affinity q = p_core_affinity p -> runnable (p_state p) \/ p_state p = PRSEND ->
      hasMessage (p_msg q) = hasMessage (p_msg p) \/ hasMessage (p_msg q) = TRUE -> moved p q
  | mv_wakes : runnable (p_state q) -> p_core_affinity q = p_core_affinity p -> p_state p = PRRECV ->
      hasMessage (p_msg q) = TRUE -> moved p q
  | mv_begins : runnable (p_state q) -> core (p_core_affinity q) -> p_state p = PRSUSP -> moved p q.

Lemma carried_moved p q : carried p q -> moved p q.
Proof.
  intros [_ E1 E2 [E3|[E3 E4]]]; [apply mv_stays|apply mv_runs]; rewrite ?E1; try done; by left.
Qed.
Lemma eased_moved p q : eased p q -> moved p q.
Proof. intros [_ E1 E2 [E3|[E3 E4]]]; [apply mv_stays|apply mv_runs]; try done; by left. Qed.
Lemma delivered_moved p q : delivered p q -> moved p q.
Proof.
  intros [_ E1 E2 [[E3 E4]|[E3 [E4|E4]]]]; [apply mv_stays|apply mv_runs|apply mv_wakes]; try done; auto.
Qed.

Lemma runnable_states st : runnable st -> st <> PRFREE /\ st <> PRSUSP /\ st <> PRRECV /\ st <> PRSEND.
Proof. intros [->| ->]; repeat split; done. Qed.

Lemma proc_ok_moved L L' J y p q :
  proc_ok L J y p -> moved p q -> (L (MQ y) = [] -> p_state p = PRFREE -> L' (MQ y) = []) ->
  (p_state q = PRSEND -> forall i, 0 <= i < NPROC -> y ∈ L (MQ i) -> y ∈ L' (MQ i)) -> proc_ok L' J y q.
Proof.
  intros Hok Hmv Hfree Hsend.
  destruct Hok as [H1 H2|H1 H2 H3|j H1 H2 H3 H4 H5|j i H1 H2 H3 H4 H5 H6|H1 H2 H3|j H1 H2 H3 H4|j H1 H2 H3 H4 H5].
  - apply ok_free; [|by apply Hfree]. destruct Hmv as [E1 E2 E3|E1 E2 E3 E4|E1 E2 E3 E4|E1 E2 E3]; unfold runnable in *; klia.
  - destruct Hmv as [E1 E2 E3|E1 E2 E3 E4|E1 E2 E3 E4|E1 E2 E3]; [|exfalso; unfold runnable in *; klia..|].
    + apply ok_susp; congruence.
    + by apply ok_idle.
  - destruct Hmv as [E1 E2 [E3|[E3 ?]]|E1 E2 E3 E4|E1 E2 E3 E4|E1 E2 E3]; try (exfalso; unfold runnable in *; klia).
    + apply (ok_recv _ _ _ _ j); rewrite ?E1, ?E2; congruence.
    + apply (ok_collecting _ _ _ _ j); by rewrite ?E2.
  - destruct Hmv as [E1 E2 E3|E1 E2 E3 E4|E1 E2 E3 E4|E1 E2 E3]; [..|exfalso; unfold runnable in *; klia|exfalso; unfold runnable in *; klia].
    + apply (ok_send _ _ _ _ j i); rewrite ?E1, ?E2; try done. apply Hsend; [congruence|done|done].
    + apply (ok_finishing _ _ _ _ j); by rewrite ?E2.
  - destruct Hmv as [E1 E2 E3|E1 E2 E3 E4|E1 E2 E3 E4|E1 E2 E3]; try (exfalso; unfold runnable in *; klia).
    + apply ok_idle; by rewrite ?E1, ?E2.
    + apply ok_idle; by rewrite ?E2.
  - destruct Hmv as [E1 E2 E3|E1 E2 E3 E4|E1 E2 E3 E4|E1 E2 E3]; try (exfalso; unfold runnable in *; klia).
    + apply (ok_finishing _ _ _ _ j); by rewrite ?E1, ?E2.
    + apply (ok_finishing _ _ _ _ j); by rewrite ?E2.
  - destruct Hmv as [E1 E2 E3|E1 E2 E3 E4|E1 E2 E3 E4|E1 E2 E3]; try (exfalso; unfold runnable in *; klia).
    + apply (ok_collecting _ _ _ _ j); rewrite ?E1, ?E2; try done. destruct E3 as [E3|[E3 _]]; congruence.
    + apply (ok_collecting _ _ _ _ j); rewrite ?E2; try done. destruct E4; congruence.
Qed.

(** Stacks stay where they are, and free slots stay free. *)
Definition still (p q : pcb) : Prop :=
  p_stkbase q = p_stkbase p /\ p_stklen q = p_stklen p /\ (p_state p = PRFREE -> p_state q = PRFREE).

Lemma frame_kept k FL k' :
  frame k k' -> heaps_wf k FL -> stacks_ok k FL -> lenZ (proctab k') = lenZ (proctab k) ->
  entries (fun _ => True) still k k' -> heap_kept k FL k' FL.
Proof.
  intros Hf Hhs Hst Hlen He. split; [by apply (fr_heap _ _ Hf)|]. split; [|by apply frame_steady].
  by apply (stacks_ok_carried k k' FL still); [|done..|apply (fr_block _ _ Hf)|done].
Qed.

Lemma sys_inv_len k L k' L' : sys_inv k L -> sys_inv k' L' -> lenZ (proctab k') = lenZ (proctab k).
Proof. intros [Hi _] [Hi' _]. by rewrite (si_proctab _ _ _ _ _ Hi), (si_proctab _ _ _ _ _ Hi'). Qed.

(** The queues of the free slots stay empty, and who waits to send stays in
    a queue. *)
Definition queues_kept (k' : kernel) (L L' : Z -> list Z) : Prop :=
  (forall i, 0 <= i < NPROC -> L (MQ i) = [] -> entry k' i (fun q => p_state q = PRFREE) -> L' (MQ i) = []) /\
  (forall i y q, 0 <= i < NPROC -> y ∈ L (MQ i) -> nthZ (proctab k') y = Some q -> p_state q = PRSEND -> y ∈ L' (MQ i)).

Lemma queues_kept_same k k' L L' : same_mail MQ k L k' L' -> queues_kept k' L L'.
Proof.
  intros [_ E]. split; [intros i Hi HL _; by rewrite E|]. intros i y q Hi Hy _ _. by rewrite E.
Qed.

Lemma queues_kept_appended k k' L L' pid msg : appended MQ pid msg k L k' L' ->
  entry k' pid (fun q => p_state q <> PRFREE) -> queues_kept k' L L'.
Proof.
  intros (_ & Ho & Hp) He. split.
  - intros i Hi HL Hf. destruct (decide (i = pid)) as [->|Hn]; [exfalso|by rewrite (proj2 (Ho i Hi Hn))].
    unfold entry in *. by destruct (nthZ (proctab k') pid).
  - intros i y q Hi Hy _ _. destruct (decide (i = pid)) as [->|Hn]; [by apply Hp|by rewrite (proj2 (Ho i Hi Hn))].
Qed.

Lemma queues_kept_collected k k' L L' cur ms : collected MQ cur ms k L k' L' ->
  entry k' cur (fun q => p_state q <> PRFREE) -> queues_kept k' L L'.
Proof.
  intros (_ & Ho & _ & _ & Hs) He. split; [|done].
  intros i Hi HL Hf. destruct (decide (i = cur)) as [->|Hn]; [exfalso|by rewrite (proj2 (Ho i Hi Hn))].
  unfold entry in *. by destruct (nthZ (proctab k') cur).
Qed.

(** A step of process [x], perhaps about [z]: the others moved, and their own
    entries fit what they have left to do. *)
Lemma step_sound s L FL x z k' L' FL' J :
  sound s L FL -> sys_inv k' L' -> heap_kept (ker s) FL k' FL' ->
  (forall y, y <> x -> y <> z -> 0 <= y < NPROC -> J y = jobs s y) ->
  entries (fun y => y <> x /\ y <> z) (fun p q => moved p q /\ (p_state p = PRFREE -> p_state q = PRFREE)) (ker s) k' ->
  queues_kept k' L L' -> entry k' x (proc_ok L' (J x) x) -> entry k' z (proc_ok L' (J z) z) -> sound (mkSys k' J) L' FL'.
Proof.
  intros [S1 S2 S3 S4 S5 S6 S7] Hk' (Hhs & Hst & [D1 D2 D3]) HJ He [Hq1 Hq2] Hx Hz.
  constructor; auto. cbn [ker jobs]. intros y q Hq. pose proof (nthZ_Some_lt _ _ _ Hq) as Hy.
  destruct (decide (y = x)) as [->|Hne]; [unfold entry in Hx; by rewrite Hq in Hx|].
  destruct (decide (y = z)) as [->|Hnz]; [unfold entry in Hz; by rewrite Hq in Hz|].
  rewrite (sys_inv_len _ _ _ _ S1 Hk') in Hy. destruct (nthZ_lt_Some _ _ Hy) as [p Hp].
  rewrite (si_proctab _ _ _ _ _ (proj1 S1)) in Hy.
  destruct (He y p (conj Hne Hnz) Hp) as (q' & Hq' & Hmv & Hfree). replace q' with q in * by congruence.
  rewrite (HJ y Hne Hnz Hy). apply (proc_ok_moved L L' _ y p q); [by apply S7|done| |].
  - intros HL Hs. apply Hq1; [done..|]. unfold entry. rewrite Hq. by apply Hfree.
  - intros Hs i Hi Hin. by eapply Hq2.
Qed.

(** ** The messages *)

(** What was sent to a process is what it received and what is still in its
    mailbox, in order. *)
Definition posted (k : kernel) (L : Z -> list Z) (m : mails) : Prop :=
  forall i, 0 <= i < NPROC -> sent m i = received m i ++ mbox k L i /\ SYSERR ∉ sent m i.

Lemma posted_same k L k' L' m : same_mail MQ k L k' L' -> posted k L m -> posted k' L' m.
Proof. intros [E _] Hp i Hi. rewrite E by done. by apply Hp. Qed.

Lemma posted_sent k L k' L' m pid msg : appended MQ pid msg k L k' L' -> msg <> SYSERR ->
  posted k L m -> posted k' L' (note_sent pid msg m).
Proof.
  intros (E & Ho & _) Hmsg Hp i Hi. destruct (Hp i Hi) as [E1 E2]. simpl. destruct (decide (pid = i)) as [->|Hn].
  - rewrite fn_lookup_insert, E, E1, app_assoc. split; [done|]. rewrite <- E1. set_solver.
  - rewrite fn_lookup_insert_ne by done. by rewrite (proj1 (Ho i Hi (not_eq_sym Hn))).
Qed.

Lemma posted_received k L k' L' m cur msg ms : collected MQ cur ms k L k' L' -> 0 <= cur < NPROC ->
  mbox k L cur = msg :: ms -> posted k L m -> msg <> SYSERR /\ posted k' L' (note_received cur (Some msg) m).
Proof.
  intros (E & Ho & _) Hc Hb Hp. assert (msg <> SYSERR) as Hmsg.
  { destruct (Hp cur Hc) as [E1 E2]. intros ->. apply E2. rewrite E1, Hb. set_solver. }
  split; [done|]. simpl. rewrite (proj2 (Z.eqb_neq msg SYSERR)) by done.
  intros i Hi. destruct (Hp i Hi) as [E1 E2]. simpl. destruct (decide (cur = i)) as [->|Hn].
  - split; [|done]. by rewrite fn_lookup_insert, E, E1, Hb, <- app_assoc.
  - rewrite fn_lookup_insert_ne by done. by rewrite (proj1 (Ho i Hi (not_eq_sym Hn))).
Qed.

Lemma posted_made k L k' m pid : made MQ pid k L k' -> posted k L m ->
  posted k' L (mkMails (<[pid := []]> (sent m)) (<[pid := []]> (received m))).
Proof.
  intros (_ & _ & E & Ho & _) Hp i Hi. destruct (Hp i Hi) as [E1 E2]. simpl. destruct (decide (pid = i)) as [->|Hn].
  - rewrite !fn_lookup_insert, E. split; [done|]. apply not_elem_of_nil.
  - rewrite !fn_lookup_insert_ne by done. by rewrite (Ho i Hi (not_eq_sym Hn)).
Qed.

(** ** The steps *)

(** A step that succeeds, keeps the invariant and accounts for the messages;
    with [tk c] clock ticks on core [c], it lets nobody in [X] fall back. *)
Definition step_ok (tk : Z -> Z) (X : Z -> Prop) (s : sys) (L : Z -> list Z) (o : outcome (event * sys)) : Prop :=
  exists e s' L' FL', o = Ret (e, s') /\ sound s' L' FL' /\ turns RQ tk X (ker s) L (ker s') L' /\
    forall m, posted (ker s) L m -> posted (ker s') L' (note e m).

Definition creates (cl : call) : bool := match cl with Create _ _ _ _ _ => true | _ => false end.

Lemma settles_creates cl : settles cl = true -> creates cl = false.
Proof. by destruct cl. Qed.

Lemma advance_run x cl new t s r k' : start t (ker s) = Ret (r, k') ->
  advance x cl new t s = Ret (mkEvent x cl new (result r), mkSys k' (jobs_after x cl r (jobs s))).
Proof. unfold advance. by intros ->. Qed.

Lemma jobs_after_other x cl r J y : creates cl = false -> y <> x -> jobs_after x cl r J y = J y.
Proof. intros Hc Hy. destruct r; [destruct cl; try done|]; simpl; by rewrite fn_lookup_insert_ne. Qed.

Lemma jobs_after_self x cl r J : creates cl = false ->
  jobs_after x cl r J x = match r with inl _ => None | inr t => Some (mkJob cl t) end.
Proof. intros Hc. destruct r; [destruct cl; try done|]; simpl; by rewrite fn_lookup_insert. Qed.

Lemma entry_of k y p P : nthZ (proctab k) y = Some p -> P p -> entry k y P.
Proof. intros Hp HP. unfold entry. by rewrite Hp. Qed.

(** A step in which nobody is born and nobody dies. *)
Lemma step_frame tk X s L FL c x cl new t r k' L' :
  sound s L FL -> nthZ (currpid (ker s)) c = Some x -> core c -> start t (ker s) = Ret (r, k') -> sys_inv k' L' ->
  turns RQ tk X (ker s) L k' L' ->
  frame (ker s) k' -> creates cl = false ->
  entries (fun y => y <> x) (fun p q => moved p q /\ still p q) (ker s) k' ->
  entries (fun y => y = x) (fun p q => still p q /\ proc_ok L' (jobs_after x cl r (jobs s) x) x q) (ker s) k' ->
  queues_kept k' L L' ->
  (forall m, posted (ker s) L m -> posted k' L' (note (mkEvent x cl new (result r)) m)) ->
  step_ok tk X s L (advance x cl new t s).
Proof.
  intros Hs Hcur Hc Hrun Hk' Htu Hf Hcr He Hx Hq Hm.
  do 4 eexists. split; [by apply advance_run|]. split; [|done].
  assert (entry k' x (proc_ok L' (jobs_after x cl r (jobs s) x) x)) as Hown.
  { destruct (si_cur _ _ _ _ _ (proj1 (so_sys _ _ _ Hs)) c Hc) as (y & p & Hy & Hp & _).
    assert (y = x) as -> by congruence. destruct (Hx x p eq_refl Hp) as (q & Hq' & _ & ?). by apply (entry_of _ _ q). }
  apply (step_sound s L FL x x k' L' FL); try done.
  - apply frame_kept; [done|apply Hs|apply Hs|by eapply sys_inv_len, Hk'; apply Hs|].
    intros y p _ Hp. destruct (decide (y = x)) as [->|Hne].
    + destruct (Hx x p eq_refl Hp) as (q & ? & ? & _). eauto.
    + destruct (He y p Hne Hp) as (q & ? & _ & ?). eauto.
  - intros y Hne _ _. by apply jobs_after_other.
  - eapply entries_weaken; [| |exact He]; [by intros y []|]. by intros p q [? (_ & _ & ?)].
Qed.

Lemma runnable_not_free st : runnable st -> st <> PRFREE.
Proof. unfold runnable. klia. Qed.

Lemma carried_still p q : carried p q -> still p q.
Proof.
  intros [[? ?] _ _ [E|[Hr _]]]; (split; [done|split; [done|]]); [by rewrite E|]. intros E. by apply runnable_not_free in Hr.
Qed.
Lemma eased_still p q : eased p q -> still p q.
Proof.
  intros [[? ?] _ _ [E|[_ Hr]]]; (split; [done|split; [done|]]); [by rewrite E|]. unfold runnable in *. klia.
Qed.
Lemma delivered_still p q : delivered p q -> still p q.
Proof.
  intros [[? ?] _ _ [[_ E]|[_ Hr]]]; (split; [done|split; [done|]]); [by rewrite E|]. unfold runnable in *. klia.
Qed.

Lemma carried_both p q : carried p q -> moved p q /\ still p q.
Proof. split; [by apply carried_moved|by apply carried_still]. Qed.
Lemma eased_both p q : eased p q -> moved p q /\ still p q.
Proof. split; [by apply eased_moved|by apply eased_still]. Qed.
Lemma delivered_both p q : delivered p q -> moved p q /\ still p q.
Proof. split; [by apply delivered_moved|by apply delivered_still]. Qed.

(** A caller that can still run, back from its call or about to finish it. *)
Lemma fits_after L' J x cl r q :
  resumes_ok r -> settles cl = true -> runnable (p_state q) -> core (p_core_affinity q) ->
  proc_ok L' (jobs_after x cl r J x) x q.
Proof.
  intros [->|(t & -> & Ht)] Hcl Hr Hc; rewrite jobs_after_self by (by apply settles_creates); [by apply ok_idle|].
  by eapply ok_finishing.
Qed.

(** The current process is runnable after it was [carried]. *)
Lemma caller_carried k k' L c x L' J cl r : sys_inv k L -> core c -> nthZ (currpid k) c = Some x ->
  resumes_ok r -> settles cl = true -> entries (fun y => y = x) carried k k' ->
  entries (fun y => y = x) (fun p q => still p q /\ proc_ok L' (jobs_after x cl r J x) x q) k k'.
Proof.
  intros [Hi _] Hc Hcur Hr Hcl He y p -> Hp. destruct (He x p eq_refl Hp) as (q & Hq & Hca).
  exists q. split; [done|]. split; [by apply carried_still|].
  destruct (current_entry QL RQ k L c x p Hi Hc Hcur Hp) as (Hst & Haff & _). destruct Hca as [_ _ E3 E4].
  apply fits_after; [done..| |by rewrite E3, Haff].
  destruct E4 as [->|[_ ?]]; [by left|done].
Qed.

(** A step that sends and receives nothing. *)
Lemma step_plain tk X s L FL c x cl new t r k' L' :
  sound s L FL -> nthZ (currpid (ker s)) c = Some x -> core c -> start t (ker s) = Ret (r, k') -> sys_inv k' L' ->
  turns RQ tk X (ker s) L k' L' ->
  frame (ker s) k' -> settles cl = true -> resumes_ok r -> same_mail MQ (ker s) L k' L' ->
  entries (fun y => y <> x) (fun p q => moved p q /\ still p q) (ker s) k' ->
  entries (fun y => y = x) carried (ker s) k' ->
  (forall m, note (mkEvent x cl new (result r)) m = m) ->
  step_ok tk X s L (advance x cl new t s).
Proof.
  intros Hs Hcur Hc Hrun Hk' Htu Hf Hcl Hr Hsm He Hx Hm.
  eapply step_frame; try done; [by apply settles_creates|eapply caller_carried; try done; apply Hs|by eapply queues_kept_same|].
  intros m Hp. rewrite Hm. by eapply posted_same.
Qed.

(** Nothing at all happened. *)
Lemma step_same X s L FL c x cl new t :
  sound s L FL -> nthZ (currpid (ker s)) c = Some x -> core c -> start t (ker s) = Ret (inl SYSERR, ker s) ->
  creates cl = false ->
  (forall m, note (mkEvent x cl new (Some SYSERR)) m = m) ->
  step_ok no_ticks X s L (advance x cl new t s).
Proof.
  intros Hs Hcur Hc Hrun Hcr Hm. pose proof (so_sys _ _ _ Hs) as Hk.
  eapply (step_frame _ _ s L FL c x cl new t _ (ker s) L); try done.
  - by apply stays_turns, stays_same.
  - intros y p _ Hp. exists p. split; [done|]. by apply carried_both.
  - intros y p -> Hp. exists p. split; [done|]. split; [by apply carried_still|].
    rewrite jobs_after_self by done.
    destruct (current_entry QL RQ (ker s) L c x p (proj1 Hk) Hc Hcur Hp) as (Hst & Haff & _).
    apply ok_idle; [by left|by rewrite Haff|done].
  - intros m Hp. by rewrite Hm.
Qed.

Lemma entries_carried X k k' : entries (fun _ => True) carried k k' -> entries X (fun p q => moved p q /\ still p q) k k'.
Proof. apply entries_weaken; [done|apply carried_both]. Qed.

Lemma step_yield s L FL c x : sound s L FL -> nthZ (currpid (ker s)) c = Some x -> core c ->
  step_ok no_ticks everyone s L (advance x Yield true (perform c Yield) s).
Proof.
  intros Hs Hcur Hc. pose proof (so_sys _ _ _ Hs) as [Hi Hm].
  destruct (si_cur _ _ _ _ _ Hi c Hc) as (y & p & Hy & Hp & _ & Hnr & _). assert (y = x) as -> by congruence.
  destruct (switch_effect QL RQ MQ settled c (ker s) L x p Hi Hm Hc (or_intror eq_refl) Hcur Hp Hnr)
    as (im & k' & L' & Hrun & Hk' & Htu & _ & Hf & Hsm & He & _).
  eapply (step_plain _ _ s L FL c x Yield true (perform c Yield)); try done.
  - right. eexists. split; [done|by apply resched_rest_quiet].
  - by apply entries_carried.
  - by eapply entries_weaken; [..|exact He].
Qed.

Lemma step_tick s L FL c x : sound s L FL -> nthZ (currpid (ker s)) c = Some x -> core c ->
  step_ok (tick_of c) everyone s L (advance x Tick true (perform c Tick) s).
Proof.
  intros Hs Hcur Hc.
  destruct (tick_effect QL RQ MQ c (ker s) L (so_sys _ _ _ Hs) (so_clock _ _ _ Hs) Hc)
    as (r & k' & L' & Hrun & Hk' & Htu & Hr & Hf & Hsm & He).
  eapply (step_plain _ _ s L FL c x Tick true (perform c Tick)); try done.
  - by apply entries_carried.
  - by eapply entries_weaken; [..|exact He].
Qed.

Lemma entry_iff k y P : entry k y P <-> exists p, nthZ (proctab k) y = Some p /\ P p.
Proof. unfold entry, holds. destruct (nthZ _ _) as [p|]; split; [eauto|by intros (? & [= ->] & ?)|done|by intros (? & ? & _)]. Qed.

Lemma step_ready s L FL c x pid resch cr : sound s L FL -> nthZ (currpid (ker s)) c = Some x -> core c ->
  polite (ker s) x (Ready pid resch cr) ->
  step_ok no_ticks everyone s L (advance x (Ready pid resch cr) true (perform c (Ready pid resch cr)) s).
Proof.
  intros Hs Hcur Hc [Hcr (p & Hp & Hst)%entry_iff]. pose proof (so_sys _ _ _ Hs) as [Hi Hm].
  assert (p_core_affinity p = -1) as Haff.
  { destruct (so_proc _ _ _ Hs pid p Hp); unfold runnable in *; congruence || klia. }
  assert (home p cr = cr) as Eh.
  { unfold home. rewrite Haff. simpl. apply swrap_small; unfold core in Hcr; klia. }
  destruct (ready_effect QL RQ MQ c (ker s) L pid p resch cr (so_sys _ _ _ Hs) Hc Hp)
    as (r & k' & L' & Hrun & Hk' & Htu & Hr & _ & Hf & Hsm & He & (q & Hq & Hqs & Hqc & _ & Hq1 & Hq2));
    [klia|klia|eapply (not_queued (queues_at QL) RQ settled); [done|exact Hp|klia|klia]|by rewrite Eh|].
  assert (pid <> x) as Hne.
  { intros ->. destruct (current_entry QL RQ (ker s) L c x p Hi Hc Hcur Hp) as (? & _). klia. }
  eapply (step_plain _ _ s L FL c x (Ready pid resch cr) true (perform c (Ready pid resch cr))); try done.
  - intros y p0 Hy Hp0. destruct (decide (y = pid)) as [->|Hyp].
    + replace p0 with p by congruence. exists q. split; [done|]. split; [|split; [done|split; [done|klia]]].
      apply mv_begins; [done|by rewrite Hqc, Eh|done].
    + destruct (He y p0 Hyp Hp0) as (q0 & ? & ?%carried_both). eauto.
  - eapply entries_weaken; [| |exact He]; [|done]. by intros y ->.
Qed.

(** ** Messages *)

Lemma delivery_entries x pid msg k L r k' L' J :
  delivery MQ x pid msg k L r k' L' -> sys_inv k L -> entry k x (fun p => runnable (p_state p) /\ core (p_core_affinity p)) ->
  (forall cl, settles cl = true ->
    entries (fun y => y = x) (fun p q => still p q /\ proc_ok L' (jobs_after x cl r J x) x q) k k') /\
  entries (fun y => y <> x) (fun p q => moved p q /\ still p q) k k' /\ queues_kept k' L L'.
Proof.
  intros (Hr & (Hpr & pp & Hpp & Hpl) & Happ & He & Hcase) [Hi _] (px & Hpx & Hrx & Hcx)%entry_iff.
  assert (entries (fun y => y = pid) (fun p q => moved p q /\ still p q /\ (p_state p <> PRFREE -> p_state q <> PRFREE)) k k') as Hpid.
  { destruct Hcase as [[Hd _]|(_ & _ & Hca & _)]; [eapply entries_weaken; [| |exact Hd]|eapply entries_weaken; [| |exact Hca]]; try done.
    - intros p q Hd'. destruct (delivered_both p q Hd') as [? ?]. split; [done|split; [done|]].
      destruct Hd' as [_ _ _ [[_ ->]|[?%runnable_not_free _]]]; done.
    - intros p q Hd'. destruct (carried_both p q Hd') as [? ?]. split; [done|split; [done|]].
      destruct Hd' as [_ _ _ [->|[_ ?%runnable_not_free]]]; done. }
  split; [|split].
  - intros cl Hcl y p -> Hp. replace p with px in * by congruence.
    destruct Hcase as [[Hd Hca]|(Hne & [t ->] & _ & Hpk & Hin)].
    + assert (exists q, nthZ (proctab k') x = Some q /\ still px q /\ runnable (p_state q) /\
        p_core_affinity q = p_core_affinity px) as (q & Hq & Hsq & Hrq & Haq).
      { destruct (decide (x = pid)) as [->|Hn].
        - destruct (Hd pid px eq_refl Hpx) as (q & Hq & Hdq). exists q. split; [done|]. split; [by apply delivered_still|].
          destruct Hdq as [_ E _ [[_ ->]|[? _]]]; done.
        - destruct (Hca x px (conj eq_refl Hn) Hpx) as (q & Hq & Hdq). exists q. split; [done|].
          split; [by apply carried_still|]. destruct Hdq as [_ _ E [->|[_ ?]]]; done. }
      exists q. split; [done|]. split; [done|]. apply fits_after; [done..|]. by rewrite Haq.
    + destruct (Hpk x px eq_refl Hpx) as (q & Hq & [Es1 Es2 Es3]). exists q. split; [done|].
      split; [split; [apply Es1|split; [apply Es1|]]|]. { intros E. by apply runnable_not_free in Hrx. }
      rewrite jobs_after_self by (by apply settles_creates). destruct Hr as [?|(t' & [= <-] & Ht)]; [done|].
      eapply (ok_send _ _ _ _ _ pid); [done|by rewrite Es2|done|done|done|]. by split.
  - intros y p Hy Hp. destruct (decide (y = pid)) as [->|Hn].
    + destruct (Hpid pid p eq_refl Hp) as (q & ? & ? & ? & _). eauto.
    + destruct (He y p (conj Hn Hy) Hp) as (q & ? & ?%carried_both). eauto.
  - eapply queues_kept_appended; [done|]. destruct (Hpid pid pp eq_refl Hpp) as (q & Hq & _ & _ & Hl).
    apply (entry_of _ _ q); auto.
Qed.

(** The caller's entry. *)
Lemma caller_entry k L c x : sys_inv k L -> core c -> nthZ (currpid k) c = Some x ->
  0 <= x < NPROC /\ exists p, nthZ (proctab k) x = Some p /\ p_state p = PRCURR /\ p_core_affinity p = c.
Proof.
  intros [Hi _] Hc Hcur. destruct (si_cur _ _ _ _ _ Hi c Hc) as (y & p & Hy & Hp & _).
  assert (y = x) as -> by congruence. destruct (current_entry QL RQ k L c x p Hi Hc Hcur Hp) as (? & ? & _).
  split; [|by exists p]. rewrite <- (si_proctab _ _ _ _ _ Hi). by eapply nthZ_Some_lt.
Qed.

(** Who waits for a message has none. *)
Lemma sound_receivers s L FL : sound s L FL -> receivers_ok (ker s).
Proof.
  intros Hs y p Hp Hst. destruct (so_proc _ _ _ Hs y p Hp); unfold runnable in *; try (exfalso; klia). done.
Qed.

(** A send that delivered, or left the sender waiting. *)
Lemma step_delivery tk X s L FL c x cl pid msg t r k' L' :
  sound s L FL -> nthZ (currpid (ker s)) c = Some x -> core c -> start t (ker s) = Ret (r, k') -> sys_inv k' L' ->
  turns RQ tk X (ker s) L k' L' -> frame (ker s) k' -> cl = Send pid msg \/ cl = SendNow pid msg -> msg <> SYSERR ->
  delivery MQ x pid msg (ker s) L r k' L' -> step_ok tk X s L (advance x cl true t s).
Proof.
  intros Hs Hcur Hc Hrun Hk' Htu Hf Hcl Hmsg Hd. pose proof (so_sys _ _ _ Hs) as Hk.
  destruct (caller_entry _ _ _ _ Hk Hc Hcur) as (Hx & p & Hp & Hst & Haff).
  destruct (delivery_entries x pid msg _ L r k' L' (jobs s) Hd Hk) as (Hown & Hoth & Hq).
  { apply (entry_of _ _ p); [done|]. split; [by left|by rewrite Haff]. }
  assert (settles cl = true) as Hcl1 by (by destruct Hcl as [-> | ->]).
  destruct Hd as (Hr & _ & Happ & _).
  eapply (step_frame _ _ s L FL c x cl true t); try done; [by apply settles_creates|by apply Hown|].
  intros m Hm. pose proof (posted_sent _ _ _ _ m pid msg Happ Hmsg Hm) as Hm'.
  assert (result r <> Some SYSERR) as Hne by (by destruct Hr as [->|(? & -> & _)]).
  destruct Hcl as [-> | ->]; unfold note; simpl; by rewrite bool_decide_eq_false_2.
Qed.

Lemma step_send s L FL c x pid msg : sound s L FL -> nthZ (currpid (ker s)) c = Some x -> core c ->
  polite (ker s) x (Send pid msg) -> step_ok no_ticks everyone s L (advance x (Send pid msg) true (perform c (Send pid msg)) s).
Proof.
  intros Hs Hcur Hc (Hnull & Hmsg & Hself). pose proof (so_sys _ _ _ Hs) as Hk.
  destruct (send_effect QL RQ MQ c (ker s) L x pid msg Hk (sound_receivers _ _ _ Hs) Hc Hcur)
    as (r & k' & L' & Hrun & Hk' & Htu & Hf & [(-> & -> & ->)|Hd]).
  - unfold core. klia.
  - intros E. destruct (proj1 (entry_iff _ _ _) (Hself E)) as (p & Hp & Hfl). rewrite E.
    by apply (mbox_nil _ _ _ _ _ _ _ (proj2 Hk) Hp).
  - by apply (step_same _ s L FL c).
  - eapply (step_delivery _ _ s L FL c); try done. by left.
Qed.

Lemma step_sendnow s L FL c x pid msg : sound s L FL -> nthZ (currpid (ker s)) c = Some x -> core c ->
  polite (ker s) x (SendNow pid msg) -> step_ok no_ticks everyone s L (advance x (SendNow pid msg) true (perform c (SendNow pid msg)) s).
Proof.
  intros Hs Hcur Hc (Hpid & Hmsg). pose proof (so_sys _ _ _ Hs) as Hk.
  destruct (sendnow_effect QL RQ MQ c (ker s) L x pid msg Hk (sound_receivers _ _ _ Hs) Hc Hpid)
    as (r & k' & L' & Hrun & Hk' & Htu & Hf & [(-> & -> & ->)|[-> Hd]]).
  - by apply (step_same _ s L FL c).
  - eapply (step_delivery _ _ s L FL c); try done. by right.
Qed.

(** The caller took a message. *)
Lemma step_collected tk X s L FL c x cl new t k' L' msg ms :
  sound s L FL -> nthZ (currpid (ker s)) c = Some x -> core c -> start t (ker s) = Ret (inl msg, k') -> sys_inv k' L' ->
  turns RQ tk X (ker s) L k' L' -> frame (ker s) k' -> cl = Recv \/ cl = RecvNow -> mbox (ker s) L x = msg :: ms ->
  collected MQ x ms (ker s) L k' L' -> step_ok tk X s L (advance x cl new t s).
Proof.
  intros Hs Hcur Hc Hrun Hk' Htu Hf Hcl Hb Hcol. pose proof (so_sys _ _ _ Hs) as Hk.
  destruct (caller_entry _ _ _ _ Hk Hc Hcur) as (Hx & p & Hp & Hst & Haff).
  assert (creates cl = false) as Hcr by (by destruct Hcl as [-> | ->]).
  pose proof Hcol as (_ & _ & Hoth & Hown & _).
  destruct (Hown x p eq_refl Hp) as (q & Hq & [Eq1 Eq2 Eq3]).
  assert (runnable (p_state q)) as Hrq by (destruct Eq3 as [->|[_ ?]]; [by left|done]).
  eapply (step_frame _ _ s L FL c x cl new t); try done.
  - eapply entries_weaken; [| |exact Hoth]; [done|apply eased_both].
  - intros y p0 -> Hp0. replace p0 with p by congruence. exists q. split; [done|].
    split; [split; [apply Eq1|split; [apply Eq1|klia]]|]. rewrite jobs_after_self by done.
    apply ok_idle; [done|by rewrite Eq2, Haff|done].
  - eapply queues_kept_collected; [done|]. apply (entry_of _ _ q); [done|by apply runnable_not_free].
  - intros m Hm. destruct (posted_received _ _ _ _ m x msg ms Hcol Hx Hb Hm) as [_ ?].
    by destruct Hcl as [-> | ->].
Qed.

Lemma nobody_waits_nil k L i : sys_inv k L -> 0 <= i < NPROC -> nobody_waits k i -> L (MQ i) = [].
Proof.
  intros [Hi Hm] Hir Hno. destruct (nthZ_lt_Some (proctab k) i) as [p Hp]; [by rewrite (si_proctab _ _ _ _ _ Hi)|].
  destruct (mi_queue _ _ _ _ _ Hm i p Hp) as [Eq Hh]. destruct (si_wf _ _ _ _ _ Hi) as [Hwf _].
  pose proof (qw_next _ _ Hwf). assert (NPROC <= MQ i < NQENT) as Hmq by (destruct Hh as (? & ? & ?); klia).
  assert (mail_of k i = MQ i) as E by (unfold mail_of; rewrite Hp; simpl; rewrite Eq; apply queuehead_qid; klia).
  unfold nobody_waits in Hno. rewrite E in Hno. destruct (qw_rep _ _ Hwf (MQ i) Hh) as [Hch _ _ Hmem _].
  destruct (L (MQ i)) as [|y ys]; [done|]. destruct Hch as [[Hn _] _].
  pose proof (Hmem y ltac:(left)). assert (y = MQ i + 1) by congruence. klia.
Qed.

Lemma step_recv s L FL c x : sound s L FL -> nthZ (currpid (ker s)) c = Some x -> core c ->
  polite (ker s) x Recv -> step_ok no_ticks everyone s L (advance x Recv true (perform c Recv) s).
Proof.
  intros Hs Hcur Hc Hnull. simpl in Hnull. pose proof (so_sys _ _ _ Hs) as Hk.
  destruct (mbox (ker s) L x) as [|msg ms] eqn:Hb.
  - destruct (recv_wait_effect QL RQ MQ c (ker s) L x Hk Hc Hcur) as
      (im & k' & L' & Hrun & Hk' & Htu & Hf & Hsm & He & Hown); [unfold core; klia|done|].
    destruct (caller_entry _ _ _ _ Hk Hc Hcur) as (Hx & p & Hp & Hst & Haff).
    eapply (step_frame _ _ s L FL c x Recv true (perform c Recv)); try done.
    + eapply entries_weaken; [| |exact He]; [done|apply carried_both].
    + intros y p0 -> Hp0. replace p0 with p by congruence. destruct (Hown x p eq_refl Hp) as (q & Hq & [E1 E2 E3 E4]).
      exists q. split; [done|]. split; [split; [apply E1|split; [apply E1|klia]]|].
      rewrite jobs_after_self by done. eapply (ok_recv _ _ _ _ (mkJob Recv (recv_rest c x im)));
        [done|by rewrite E2, Haff|done|done|]. split; [done|]. exists im. by rewrite E2, Haff.
    + by eapply queues_kept_same.
    + intros m Hm. by eapply posted_same.
  - destruct (recv_message_effect QL RQ MQ c (ker s) L x msg ms Hk Hc Hcur Hb) as (k' & L' & Hrun & Hk' & Htu & Hf & Hcol).
    eapply (step_collected _ _ s L FL c); try done. by left.
Qed.

Lemma step_recvnow s L FL c x : sound s L FL -> nthZ (currpid (ker s)) c = Some x -> core c ->
  polite (ker s) x RecvNow -> step_ok no_ticks everyone s L (advance x RecvNow true (perform c RecvNow) s).
Proof.
  intros Hs Hcur Hc Hno. simpl in Hno. pose proof (so_sys _ _ _ Hs) as Hk.
  destruct (caller_entry _ _ _ _ Hk Hc Hcur) as (Hx & _).
  pose proof (recvnow_effect QL RQ MQ c (ker s) L x Hk Hc Hcur (nobody_waits_nil _ _ _ Hk Hx Hno)) as Hr.
  destruct (mbox (ker s) L x) as [|msg ms] eqn:Hb.
  - apply (step_same _ s L FL c); try done. simpl. by rewrite Hr.
  - destruct Hr as (k' & Hr & Hk' & Htu & Hf & Hcol).
    eapply (step_collected _ _ s L FL c x RecvNow true _ k' L msg); try done; [simpl; by rewrite Hr|by right].
Qed.

(** ** Going on *)

Lemma restored_sys c im k L : core c -> sys_inv k L -> sys_inv (restored c im k) L.
Proof.
  intros Hc [Hi Hm]. split; [|by apply (mail_frame QL RQ MQ k)].
  apply (kinv_frame (queues_at QL) RQ settled k); try done. simpl. by rewrite lenZ_updZ.
Qed.

(** [frame] and the entries do not see the mask. *)
Lemma step_masked s L FL c x cl ps t :
  sound s L FL -> nthZ (currpid (ker s)) c = Some x -> core c -> lenZ ps = NCORES ->
  start t (ker s) = Ret (inl OK, set_cpsr ps (ker s)) -> settles cl = true ->
  step_ok no_ticks everyone s L (advance x cl false t s).
Proof.
  intros Hs Hcur Hc Hps Hrun Hcl. pose proof (so_sys _ _ _ Hs) as [Hi Hm].
  eapply (step_plain _ _ s L FL c x cl false t); try done.
  - split; [|by apply (mail_frame QL RQ MQ (ker s))].
    apply (kinv_frame (queues_at QL) RQ settled (ker s)); try done. simpl. by rewrite Hps, (si_cpsr _ _ _ _ _ Hi).
  - by apply stays_turns, stays_same.
  - apply frame_cpsr.
  - by left.
  - intros y p _ Hp. exists p. split; [done|]. by apply carried_both.
  - by apply (entries_refl _ carried).
  - intros m. unfold note. simpl. by destruct cl.
Qed.

(** What is left of a call: nothing but to restore the mask, or a message
    to collect. *)
Lemma current_job s L FL c x j : sound s L FL -> nthZ (currpid (ker s)) c = Some x -> core c ->
  jobs s x = Some j -> finishing j \/
  (j_call j = Recv /\ exists im msg ms, j_rest j = recv_rest c x im /\ mbox (ker s) L x = msg :: ms).
Proof.
  intros Hs Hcur Hc Hj. pose proof (so_sys _ _ _ Hs) as Hk.
  destruct (caller_entry _ _ _ _ Hk Hc Hcur) as (Hx & p & Hp & Hst & Haff).
  destruct (so_proc _ _ _ Hs x p Hp) as [H1 H2|H1 H2 H3|j' H1 H2 H3 H4 H5|j' i H1 H2 H3 H4 H5 H6|H1 H2 H3|j' H1 H2 H3 H4|j' H1 H2 H3 H4 H5];
    [klia|klia|klia|klia|congruence| |]; assert (j' = j) as -> by congruence; [by left|right].
  destruct H5 as [E [im Hrest]]. split; [done|]. rewrite Haff in Hrest.
  destruct (mbox (ker s) L x) as [|msg ms] eqn:Hb; [|by exists im, msg, ms].
  apply (mbox_nil _ _ _ _ _ _ _ (proj2 Hk) Hp) in Hb. by rewrite H3 in Hb.
Qed.

(** A [recv] that goes on with a message there collects it. *)
Lemma recv_rest_effect s L c x im msg ms : sys_inv (ker s) L -> nthZ (currpid (ker s)) c = Some x -> core c ->
  mbox (ker s) L x = msg :: ms ->
  exists k' L', start (recv_rest c x im) (ker s) = Ret (inl msg, k') /\ sys_inv k' L' /\
    turns RQ no_ticks everyone (ker s) L k' L' /\ frame (ker s) k' /\
    collected MQ x ms (ker s) L k' L'.
Proof.
  intros Hk Hcur Hc Hb.
  destruct (recv_message_effect QL RQ MQ c (restored c im (ker s)) L x msg ms) as (k' & L' & Hrun & Hk' & Htu & Hf & Hcol);
    [by apply restored_sys|done|done|done|].
  exists k', L'. split; [|split; [done|split; [|split; [|done]]]].
  - rewrite (recv_resumes QL RQ MQ c im (ker s) L x Hk Hc Hcur); [exact Hrun|]. by rewrite Hb.
  - eapply turns_after; [by apply stays_same|exact Htu].
  - etrans; [apply frame_cpsr|exact Hf].
Qed.

Lemma step_resume s L FL c x j : sound s L FL -> nthZ (currpid (ker s)) c = Some x -> core c ->
  jobs s x = Some j -> step_ok no_ticks everyone s L (advance x (j_call j) false (j_rest j) s).
Proof.
  intros Hs Hcur Hc Hj. pose proof (so_sys _ _ _ Hs) as Hk.
  destruct (current_job s L FL c x j Hs Hcur Hc Hj) as [[Hset Hq]|[-> (im & msg & ms & -> & Hb)]].
  - destruct (Hq (ker s) (si_cpsr _ _ _ _ _ (proj1 Hk))) as (ps & Hps & Hrun). by eapply (step_masked s L FL c x _ ps).
  - destruct (recv_rest_effect s L c x im msg ms Hk Hcur Hc Hb) as (k' & L' & Hrun & Hk' & Htu & Hf & Hcol).
    eapply (step_collected _ _ s L FL c x Recv false _ k' L' msg ms); try done. by left.
Qed.

(** A call that gets the processor back returns at once. *)
Lemma resume_run s L FL c x j : sound s L FL -> nthZ (currpid (ker s)) c = Some x -> core c ->
  jobs s x = Some j -> exists v k', start (j_rest j) (ker s) = Ret (inl v, k') /\ creates (j_call j) = false /\
    (j_call j <> Recv -> v = OK) /\ (j_call j = Recv -> exists ms, mbox (ker s) L x = v :: ms).
Proof.
  intros Hs Hcur Hc Hj. pose proof (so_sys _ _ _ Hs) as Hk.
  destruct (current_job s L FL c x j Hs Hcur Hc Hj) as [[Hset Hq]|[-> (im & msg & ms & -> & Hb)]].
  - destruct (Hq (ker s) (si_cpsr _ _ _ _ _ (proj1 Hk))) as (ps & Hps & Hrun). exists OK. eexists. split; [done|].
    split; [by apply settles_creates|]. split; [done|]. intros E. by rewrite E in Hset.
  - destruct (recv_rest_effect s L c x im msg ms Hk Hcur Hc Hb) as (k' & L' & Hrun & _).
    exists msg, k'. split; [done|]. split; [done|]. split; [done|]. intros _. by exists ms.
Qed.

(** ** Birth and death *)

Lemma cstr_exists name : 0 ∈ name -> exists w, cstr name w.
Proof.
  intros Hin. induction name as [|a name IH]; [by apply elem_of_nil in Hin|].
  destruct (decide (a = 0)) as [->|Ha]; [exists []; split; [by exists name|constructor]|].
  apply elem_of_cons in Hin as [?|Hin]; [congruence|]. destruct (IH Hin) as (w & [rest ->] & Hw).
  exists (a :: w). split; [by exists rest|by constructor].
Qed.

Lemma queues_kept_refl k' L : queues_kept k' L L.
Proof. by split. Qed.

Lemma posted_frame k k' L m m' : (forall i, 0 <= i < NPROC -> sent m' i = sent m i /\ received m' i = received m i) ->
  proctab k' = proctab k -> posted k L m -> posted k' L m'.
Proof.
  intros Hm E Hp i Hi. destruct (Hm i Hi) as [-> ->]. unfold Message.mbox, msgout_of. rewrite E. by apply Hp.
Qed.

Lemma step_create s L FL c x funcaddr ssize priority name args :
  sound s L FL -> nthZ (currpid (ker s)) c = Some x -> core c ->
  let cl := Create funcaddr ssize priority name args in
  polite (ker s) x cl -> step_ok no_ticks everyone s L (advance x cl true (perform c cl) s).
Proof.
  intros Hs Hcur Hc cl (Hsz & Hprio & Hname & Hargs). pose proof (so_sys _ _ _ Hs) as Hk.
  destruct (cstr_exists name Hname) as [w Hw].
  destruct (caller_entry _ _ _ _ Hk Hc Hcur) as (Hx & p & Hp & Hst & Haff).
  destruct (create_effect QL RQ MQ c (ker s) L FL funcaddr ssize priority name w args) as
    (r & k' & FL' & Hrun & Hk' & Htu & Hkept & Hcase); try done; try apply Hs.
  { intros y q Hq E. destruct (so_proc _ _ _ Hs y q Hq); unfold runnable in *; try (exfalso; klia). done. }
  assert (start (perform c cl) (ker s) = Ret (inl r, k')) as Hst' by (simpl; by rewrite Hrun).
  do 4 eexists. split; [by apply advance_run|]. destruct Hcase as [[-> E]|Hmade].
  - split.
    + apply (step_sound s L FL x x k' L FL'); try done.
      * intros y Hy _ Hr. simpl. rewrite fn_lookup_insert_ne by klia. by rewrite fn_lookup_insert_ne.
      * intros y q _ Hq. rewrite E. exists q. split; [done|]. split; [by apply carried_both|done].
      * by apply (entry_of _ _ p); [rewrite E|apply ok_idle; [by left|by rewrite Haff|simpl; rewrite fn_lookup_insert_ne by klia; by rewrite fn_lookup_insert]].
      * by apply (entry_of _ _ p); [rewrite E|apply ok_idle; [by left|by rewrite Haff|simpl; rewrite fn_lookup_insert_ne by klia; by rewrite fn_lookup_insert]].
    + split; [done|]. intros m. apply posted_frame; [|done]. intros i Hi. simpl. by rewrite !fn_lookup_insert_ne by klia.
  - pose proof Hmade as (Hpr & (p0 & Hp0 & Hs0) & _ & _ & He & (q & Hq & Hsq & Haq)).
    assert (r <> x) as Hrx by (intros ->; klia || (replace p0 with p in Hs0 by congruence; klia)).
    split; [|split; [done|intros m; by apply posted_made]].
    apply (step_sound s L FL x r k' L FL'); try done.
    + intros y Hy Hr _. simpl. by rewrite !fn_lookup_insert_ne by congruence.
    + intros y p1 [_ Hy] Hp1. destruct (He y p1 Hy Hp1) as (q1 & Hq1 & Hca). exists q1. split; [done|].
      destruct (carried_both _ _ Hca) as [? (_ & _ & ?)]. done.
    + destruct (He x p (not_eq_sym Hrx) Hp) as (q1 & Hq1 & [_ _ E3 E4]). apply (entry_of _ _ q1); [done|].
      apply ok_idle; [destruct E4 as [->|[_ ?]]; [by left|done]|by rewrite E3, Haff|].
      simpl. rewrite fn_lookup_insert_ne by done. by rewrite fn_lookup_insert.
    + apply (entry_of _ _ q); [done|]. apply ok_susp; [done..|]. simpl. by rewrite fn_lookup_insert.
Qed.

Lemma step_kill s L FL c x pid : sound s L FL -> nthZ (currpid (ker s)) c = Some x -> core c ->
  polite (ker s) x (Kill pid) -> step_ok no_ticks (fun y => y <> pid) s L (advance x (Kill pid) true (perform c (Kill pid)) s).
Proof.
  intros Hs Hcur Hc Hpol. pose proof (so_sys _ _ _ Hs) as Hk. pose proof (si_proctab _ _ _ _ _ (proj1 Hk)) as Hlen.
  destruct (caller_entry _ _ _ _ Hk Hc Hcur) as (Hx & p & Hp & Hst & Haff).
  destruct (decide (pid < NCORES \/ NPROC <= pid)) as [Hout|Hin].
  { apply (step_same _ s L FL c); try done. apply kill_refused_run; [done|done|klia]. }
  destruct Hpol as [?|[?|[Hno (pk & Hpk & Hns)%entry_iff]]]; [klia|klia|].
  assert (L (MQ pid) = []) as HLp by (apply (nobody_waits_nil (ker s)); [done|klia|done]).
  destruct (kill_effect QL RQ MQ c (ker s) L FL x pid Hk (so_heaps _ _ _ Hs) (so_stacks _ _ _ Hs)
    (sound_receivers _ _ _ Hs) Hc Hcur) as (r & k' & L' & FL' & Hrun & [(-> & -> & -> & ->)|Hdead]).
  { intros q Hq _ Ha Hnf. replace q with pk in * by congruence.
    destruct (so_proc _ _ _ Hs pid pk Hpk) as [|? Ea| | | | |]; try done; try (by left); try (by right).
    rewrite Ea in Ha. unfold core in Hc. change (u32 (-1)) with 4294967295 in Ha. klia. }
  { by apply (step_same _ s L FL c). }
  destruct Hdead as (_ & Hr & Hk' & Htu & Hkept & Hsm & He & Hd).
  do 4 eexists. split; [by apply advance_run|]. split; [|split; [done|intros m Hm; by eapply posted_same]].
  destruct (Hd pid pk eq_refl Hpk) as (qk & Hqk & Hsk).
  assert (entry k' pid (proc_ok L' (jobs_after x (Kill pid) r (jobs s) pid) pid)) as Hgone.
  { apply (entry_of _ _ qk); [done|]. apply ok_free; [done|]. rewrite (sm_queue _ _ _ _ _ Hsm) by klia. done. }
  apply (step_sound s L FL x pid k' L' FL'); try done.
  - intros y Hy _ _. by apply jobs_after_other.
  - intros y p1 [_ Hy] Hp1. destruct (He y p1 Hy Hp1) as (q1 & Hq1 & Hca). exists q1. split; [done|].
    destruct (carried_both _ _ Hca) as [? (_ & _ & ?)]. done.
  - by eapply queues_kept_same.
  - destruct (decide (x = pid)) as [->|Hne]; [done|]. destruct Hr as [->|?]; [|congruence].
    destruct (He x p Hne Hp) as (q & Hq & [_ _ E3 E4]). apply (entry_of _ _ q); [done|].
    apply fits_after; [by left|done|destruct E4 as [->|[_ ?]]; [by left|done]|by rewrite E3, Haff].
Qed.

(** ** Every step, every run *)

(** The clock ticks of a step, and whom it leaves alone. *)
Definition ticks_of (cm : cmd) : Z -> Z := match cm with Do c Tick => tick_of c | _ => no_ticks end.
Definition spared (cm : cmd) (y : Z) : Prop := match cm with Do _ (Kill pid) => y <> pid | _ => True end.

Lemma step_legal s L FL cm : sound s L FL -> legal cm s -> step_ok (ticks_of cm) (spared cm) s L (exec cm s).
Proof.
  intros Hs [Hc (x & Hcur & Hx)%holds_ex]. unfold exec, rd_currpid. rewrite Hcur. destruct cm as [c cl|c].
  - destruct Hx as [_ Hpol]. destruct cl.
    + by apply (step_yield s L FL c).
    + by apply (step_tick s L FL c).
    + by apply (step_send s L FL c).
    + by apply (step_sendnow s L FL c).
    + by apply (step_recv s L FL c).
    + by apply (step_recvnow s L FL c).
    + by apply (step_ready s L FL c).
    + by apply (step_create s L FL c).
    + by apply (step_kill s L FL c).
  - unfold has_job in Hx. destruct (jobs s x) as [j|] eqn:Hj; [|done]. simpl. rewrite Hj.
    by apply (step_resume s L FL c).
Qed.

Lemma run_legal cms s L FL : sound s L FL -> legal_run cms s = true ->
  exists es s' L' FL', run cms s = Ret (es, s') /\ sound s' L' FL' /\
    forall m, posted (ker s) L m -> posted (ker s') L' (foldl (fun m e => note e m) m es).
Proof.
  revert s L FL. induction cms as [|cm cms IH]; intros s L FL Hs Hl; [by exists [], s, L, FL|].
  simpl in Hl. apply andb_prop in Hl as [Hcm%bool_decide_eq_true Hl].
  destruct (step_legal s L FL cm Hs Hcm) as (e & s1 & L1 & FL1 & He & Hs1 & _ & Hm1). rewrite He in Hl.
  destruct (IH s1 L1 FL1 Hs1 Hl) as (es & s' & L' & FL' & Hr & Hs' & Hm').
  exists (e :: es), s', L', FL'. split; [simpl; rewrite He; simpl; by rewrite Hr|]. split; [done|].
  intros m Hm. simpl. by apply Hm', Hm1.
Qed.
End System.
