(* ===== verification/Init.v ===== *)
(** * System start (system/initialize.c, platforminit.c, unparkcore.c)

    [nulluser] from its entry to its idle loop: the platform and the lock
    table, the free lists, the process table, the queues, the interrupt lines
    and the clock, the other cores, and the first process. *)

From Stdlib Require Import Ascii String.
From stdpp Require Import base numbers functions list gmap.
From S2P Require Import Prelude Kernel Spinlock Queue Memory CString Doprnt Kio Thread Proc ProcOps.
From S2P Require Import Message Interrupt Mmu Checks.

(** ** Definitions *)

Definition PLT_STRMAX : Z := 18.
Definition UART_LCRH : Z := 0x3F20102C.
Definition PL011_LCRH_FEN : Z := Z.shiftl 1 4.

(** The loop over the lock table. *)
Fixpoint init_locks (n : nat) (i : Z) : K unit :=
  match n with
  | O => ret tt
  | S n' =>
      upd_lock i (fun _ => mkLockent SPINLOCK_FREE SPINLOCK_UNLOCKED (-1)) ;;;
      init_locks n' (i + 1)
  end.

Definition platforminit : K Z :=
  f <-- rd_devs family ;;
  '(_, f) <-- pure (strlcpy f (lit "BCM2837") PLT_STRMAX) ;;
  upd_devs (set_family f) ;;;
  n <-- rd_devs plt_name ;;
  '(_, n) <-- pure (strlcpy n (lit "Raspberry Pi 3") PLT_STRMAX) ;;
  upd_devs (set_plt_name n) ;;;
  modify (set_maxaddr 0x3EFFFFFC) ;;;
  upd_devs (set_clkfreq 1000000) ;;;
  l <-- rd_devs uart_lcrh ;;
  put32 UART_LCRH (Z.lor l PL011_LCRH_FEN) ;;;
  upd_devs (set_uart_lcrh (Z.lor l PL011_LCRH_FEN)) ;;;
  mmu_init ;;;
  init_locks (Z.to_nat NLOCK) 0 ;;;
  ret OK.

(** The free list of core [i]. *)
Definition init_heap (i : Z) : K unit :=
  l <-- lock_create ;;
  mh <-- gets memheap ;;
  mx <-- gets maxaddr ;;
  let len := truncmb (u32 (Z.quot (s32 (mx - mh)) NCORES)) in
  let head := roundmb (u32 (mh + u32 (len * i))) in
  upd_free i (fun _ => mkMemhead head len head len l) ;;;
  store (head + mb_next) NULL ;;;
  store (head + mb_length) len.

Fixpoint init_heaps (n : nat) (i : Z) : K unit :=
  match n with O => ret tt | S n' => init_heap i ;;; init_heaps n' (i + 1) end.

(** The loop over the process table. *)
Fixpoint init_procs (n : nat) (i : Z) : K unit :=
  match n with
  | O => ret tt
  | S n' =>
      upd_proc i (fun p => set_p_core_affinity (-1) (set_p_state PRFREE p)) ;;;
      q <-- newqueue ;;
      upd_proc i (upd_p_msg (set_msgqueue q)) ;;;
      l <-- lock_create ;;
      upd_proc i (upd_p_msg (set_core_com_lock l)) ;;;
      init_procs n' (i + 1)
  end.

(** The entry of a null process. *)
Definition init_null (i : Z) (name : list Z) (stkbase : Z) : K unit :=
  p <-- rd_proc i ;;
  p <-- strncpy_name name (set_p_state PRCURR p) ;;
  upd_proc i (fun _ =>
    upd_p_msg (fun m => set_msgout NULL (set_msgin NULL (set_hasMessage FALSE m)))
      (set_p_priority PRIORITY_LOW (set_p_core_affinity i (set_p_stklen 8192
        (set_p_regs (updZ PREG_SP NULL (p_regs p)) (set_p_stkbase stkbase p)))))) ;;;
  wrv currpid set_currpid i i.

(** The ready lists. *)
Fixpoint init_ready_row (n : nat) (i j : Z) : K unit :=
  match n with
  | O => ret tt
  | S n' =>
      q <-- newqueue ;;
      row <-- (fun k => must (nthZ (readylist k) i) k) ;;
      modify (fun k => set_readylist (updZ i (updZ j q row) (readylist k)) k) ;;;
      init_ready_row n' i (j + 1)
  end.
Fixpoint init_ready (n : nat) (i : Z) : K unit :=
  match n with O => ret tt | S n' => init_ready_row 3 i 0 ;;; init_ready n' (i + 1) end.

(** The tables of processes and queues; the arguments are the stacks of the
    null processes. *)
Definition init_tables (s0 s1 s2 s3 : Z) : K unit :=
  modify (set_numproc 4) ;;;
  init_procs (Z.to_nat NPROC) 0 ;;;
  init_null NULLPROC (lit "prnull") s0 ;;;
  init_null NULLPROC1 (lit "prnull01") s1 ;;;
  init_null NULLPROC2 (lit "prnull02") s2 ;;;
  init_null NULLPROC3 (lit "prnull03") s3 ;;;
  init_ready (Z.to_nat NCORES) 0.

(** [&_end + 8192] counts in pointers, [_end] being declared as one. *)
Definition sysinit `{Layout} `{Uninit} (cpu : Z) : K Z :=
  l <-- lock_create ;;
  upd_devs (set_serial_lock l) ;;;
  modify (fun k => set_memheap (roundmb (memheap k)) k) ;;;
  modify (fun k => set_maxaddr (truncmb (maxaddr k)) k) ;;;
  init_heaps (Z.to_nat NCORES) 0 ;;;
  init_tables (u32 end_addr) (u32 (end_addr + 4 * 8192)) (u32 (end_addr + 4 * 16384)) (u32 (end_addr + 4 * 24576)) ;;;
  disable_irq IRQ_USB ;;;
  disable_irq IRQ_PL011 ;;;
  disable_irq IRQ_PCM ;;;
  disable_irq IRQ_SD ;;;
  clkinit cpu ;;;
  ret OK.

Definition CORE_MBOX_BASE : Z := 0x4000008C.
Definition CORE_MBOX_OFFSET : Z := 0x10.

Definition unparkcore `{Layout} (num procaddr args : Z) : K unit :=
  if (0 <? num) && (num <? 4) then
    rd_dev corestart num ;;;
    upd_devs (fun d => set_corestart (updZ num procaddr (corestart d)) d) ;;;
    rd_dev init_args num ;;;
    upd_devs (fun d => set_init_args (updZ num args (init_args d)) d) ;;;
    put32 (CORE_MBOX_BASE + CORE_MBOX_OFFSET * num) setupCore_addr
  else ret tt.

(** The memory map on the console; [version] is the generated VERSION
    string, [minaddr] is 0. *)
Definition print_os_info `{Layout} `{Uninit} (version : list Z) (cpu : Z) : K unit :=
  kprintf cpu version [] ;;;
  kprintf cpu [13; 10; 13; 10; 0] [] ;;;
  f <-- rd_devs family ;;
  n <-- rd_devs plt_name ;;
  kprintf cpu (chars "Detected platform as: %s, %s" ++ [13; 10; 13; 10; 0]) [VStr f; VStr n] ;;;
  mx <-- gets maxaddr ;;
  mh <-- gets memheap ;;
  kprintf cpu (chars "%10d bytes physical memory." ++ [13; 10; 0]) [VInt mx] ;;;
  kprintf cpu (chars "           [0x%08X to 0x%08X]" ++ [13; 10; 0]) [VInt 0; VInt (u32 (mx - 1))] ;;;
  kprintf cpu (chars "%10d bytes reserved system area." ++ [13; 10; 0]) [VInt start_addr] ;;;
  kprintf cpu (chars "           [0x%08X to 0x%08X]" ++ [13; 10; 0]) [VInt 0; VInt (u32 (start_addr - 1))] ;;;
  kprintf cpu (chars "%10d bytes Xinu code." ++ [13; 10; 0]) [VInt (u32 (end_addr - start_addr))] ;;;
  kprintf cpu (chars "           [0x%08X to 0x%08X]" ++ [13; 10; 0])
    [VInt start_addr; VInt (u32 (end_addr - 1))] ;;;
  kprintf cpu (chars "%10d bytes stack space." ++ [13; 10; 0]) [VInt (u32 (mh - end_addr))] ;;;
  kprintf cpu (chars "           [0x%08X to 0x%08X]" ++ [13; 10; 0])
    [VInt end_addr; VInt (u32 (mh - 1))] ;;;
  kprintf cpu (chars "%10d bytes heap space." ++ [13; 10; 0]) [VInt (u32 (mx - mh))] ;;;
  kprintf cpu (chars "           [0x%08X to 0x%08X]" ++ [13; 10; 13; 10; 0])
    [VInt mh; VInt (u32 (mx - 1))] ;;;
  kprintf cpu [13; 10; 0] [] ;;;
  ret tt.

(** [nulluser] up to its idle loop. *)
Definition nulluser `{Layout} `{Uninit} (version : list Z) (cpu : Z) : thread unit :=
  pid <== lift (
    platforminit ;;;
    sysinit cpu ;;;
    unparkcore 1 core_nulluser_addr NULL ;;;
    unparkcore 2 core_nulluser_addr NULL ;;;
    unparkcore 3 core_nulluser_addr NULL ;;;
    print_os_info version cpu ;;;
    enable cpu ;;;
    create cpu main_addr INITSTK PRIORITY_LOW (lit "MAIN") [0; NULL]) ;;
  ready cpu pid false 0 ;;==
  tret tt.

(** The other cores: [core_nulluser] up to its loop, and one turn of that. *)
Definition core_nulluser_start (cpu : Z) : K unit :=
  f <-- rd_devs clkfreq ;;
  clkupdate cpu (f / CLKTICKS_PER_SEC) ;;;
  enable cpu.

Definition core_nulluser_turn `{Layout} (cpu : Z) : thread unit :=
  n <== lift (gets numproc) ;;
  if 4 <? n then resched cpu ;;== tret tt else tret tt.

(** ** The state at the entry of nulluser *)

Definition zero_pcb : pcb := mkPcb 0 0 0 0 0 (replicate 16 0) (replicate 16 0) (mkPmessage 0 0 0 0 0).

(** Tables as the loader leaves them: zero but for [nextqueue]; [mh] is the
    end of the stacks, which start.S stores in [memheap]. *)
Definition bss (mh : Z) (m : gmap Z Z) (ps : list Z) (rf : list (list Z)) (d : devices) : kernel :=
  mkKernel (replicate 50 zero_pcb) (replicate 174 (mkQentry 0 0 0)) NPROC
    (replicate 150 (mkLockent 0 0 0)) 0 (replicate 4 [0; 0; 0]) (replicate 4 (mkMemhead 0 0 0 0 0))
    0 [0; 0; 0; 0] 0 mh 0 m ps rf [0; 0; 0; 0] [0; 0; 0; 0] [0; 0; 0; 0] [0; 0; 0; 0] [0; 0; 0; 0] d.

Record devices_ok (d : devices) : Prop := {
  do_family : lenZ (family d) = PLT_STRMAX;
  do_name : lenZ (plt_name d) = PLT_STRMAX;
  do_vector : lenZ (interruptVector d) = BCM2835_NUM_IRQS;
  do_enabled : arm_enabled_irqs d = [0; 0; 0];
  do_pending : 0 < lenZ (irq_pending d);
  do_timers : lenZ (core_cnt d) = NCORES /\ lenZ (core_cval d) = NCORES
}.

(** What the start leaves alone: the input side of the console, and the
    tables through which the other cores are started. *)
Record untouched (d d' : devices) : Prop := {
  ut_unget : ungetArray d' = ungetArray d;
  ut_bufp : bufp d' = bufp d;
  ut_rx : uart_rx d' = uart_rx d;
  ut_start : corestart d' = corestart d;
  ut_args : init_args d' = init_args d
}.

#[export] Instance untouched_preorder : PreOrder untouched.
Proof. split; [by intros d|]. intros d d1 d2 [] []. constructor; congruence. Qed.

(** ** The tables *)

(** The lock table with locks 1 to [n] allocated. *)
Definition lock_table (n : Z) : list lockent :=
  (fun i => if (1 <=? i) && (i <=? n) then unheld else mkLockent SPINLOCK_FREE SPINLOCK_UNLOCKED (-1))
    <$> seqZ 0 NLOCK.

(** The state before [init_tables], the four status words and register files
    written out. *)
Definition before_tables (lt : list lockent) (nl : Z) (fl : list memhead) (mh mx : Z) (m : gmap Z Z)
    (ps : list Z) (rf : list (list Z)) (d : devices) : kernel :=
  mkKernel (replicate 50 zero_pcb) (replicate 174 (mkQentry 0 0 0)) NPROC lt nl (replicate 4 [0; 0; 0]) fl
    0 [0; 0; 0; 0] 0 mh mx m ps rf [0; 0; 0; 0] [0; 0; 0; 0] [0; 0; 0; 0] [0; 0; 0; 0] [0; 0; 0; 0] d.

Definition after_tables (s0 s1 s2 s3 : Z) (k : kernel) : kernel :=
  match init_tables s0 s1 s2 s3 k with Ret (_, k') => k' | Fault _ => k end.

(** The process table of a booted system: a null process runs on each core,
    all other slots are free, and nobody has a message. *)
Definition boot_entry (i : Z) (p : pcb) : Prop :=
  lenZ (p_name p) = PNMLEN /\ lenZ (p_regs p) = PREGS /\ hasMessage (p_msg p) = FALSE /\
  (p_state p = PRFREE \/
   (i < NCORES /\ p_state p = PRCURR /\ core (p_core_affinity p) /\ p_priority p = PRIORITY_LOW)).

#[local] Instance boot_entry_dec i p : Decision (boot_entry i p).
Proof. unfold boot_entry. apply _. Defined.

Section Tables.
Context (s0 s1 s2 s3 : Z) (fl : list memhead) (mh mx : Z) (m : gmap Z Z) (p0 p1 p2 p3 : Z) (r0 r1 r2 r3 : list Z)
  (d : devices).
Let K0 := before_tables (lock_table 5) 5 fl mh mx m [p0; p1; p2; p3] [r0; r1; r2; r3] d.

Lemma init_tables_run : init_tables s0 s1 s2 s3 K0 = Ret (tt, after_tables s0 s1 s2 s3 K0).
Proof. vm_compute. reflexivity. Qed.

Lemma after_tables_frame :
  freelist (after_tables s0 s1 s2 s3 K0) = fl /\ memheap (after_tables s0 s1 s2 s3 K0) = mh /\ maxaddr (after_tables s0 s1 s2 s3 K0) = mx /\
  memory (after_tables s0 s1 s2 s3 K0) = m /\ devs (after_tables s0 s1 s2 s3 K0) = d /\
  locktab (after_tables s0 s1 s2 s3 K0) = lock_table 117 /\ nextlock (after_tables s0 s1 s2 s3 K0) = 117 /\
  nextqueue (after_tables s0 s1 s2 s3 K0) = NQENT /\ numproc (after_tables s0 s1 s2 s3 K0) = 4 /\ nextpid (after_tables s0 s1 s2 s3 K0) = 0 /\
  cpsr (after_tables s0 s1 s2 s3 K0) = [p0; p1; p2; p3] /\ currpid (after_tables s0 s1 s2 s3 K0) = [0; 1; 2; 3] /\
  preempt (after_tables s0 s1 s2 s3 K0) = [0; 0; 0; 0] /\
  promote_medium (after_tables s0 s1 s2 s3 K0) = [0; 0; 0; 0] /\
  promote_low (after_tables s0 s1 s2 s3 K0) = [0; 0; 0; 0] /\
  clkticks (after_tables s0 s1 s2 s3 K0) = [0; 0; 0; 0] /\ clktime (after_tables s0 s1 s2 s3 K0) = [0; 0; 0; 0].
Proof. vm_compute. repeat split. Qed.

Lemma after_tables_sched : sched_ok (after_tables s0 s1 s2 s3 K0).
Proof. apply (bool_decide_unpack _). vm_compute. exact I. Qed.

Lemma after_tables_mail : mail_ok (after_tables s0 s1 s2 s3 K0).
Proof. apply (bool_decide_unpack _). vm_compute. exact I. Qed.

Lemma after_tables_empty : Forall (fun h => lists_of (after_tables s0 s1 s2 s3 K0) h = []) (heads (after_tables s0 s1 s2 s3 K0)).
Proof. apply (bool_decide_unpack _). vm_compute. exact I. Qed.

Lemma after_tables_procs : Idx (fun i p => boot_entry i p) (proctab (after_tables s0 s1 s2 s3 K0)) /\
  regfile (after_tables s0 s1 s2 s3 K0) = [r0; r1; r2; r3].
Proof. split; [apply (bool_decide_unpack _); vm_compute; exact I|vm_compute; reflexivity]. Qed.
End Tables.

(** ** The steps of the start *)

Lemma init_locks_run mh mx m ps rf d :
  init_locks (Z.to_nat NLOCK) 0 (set_memory m (set_maxaddr mx (bss mh ∅ ps rf d))) =
  Ret (tt, before_tables (lock_table 0) 0 (replicate 4 (mkMemhead 0 0 0 0 0)) mh mx m ps rf d).
Proof. vm_compute. reflexivity. Qed.

(** The names fit the fields of the platform record. *)
Lemma strlcpy_fits dest src w : cstr src w -> lenZ dest = PLT_STRMAX -> lenZ w < PLT_STRMAX ->
  exists d, strlcpy dest src PLT_STRMAX = Ret (lenZ w, d) /\ lenZ d = PLT_STRMAX /\ cstr d w.
Proof.
  intros Hs Hd Hw. unfold PLT_STRMAX in *.
  destruct (strlcpy_cstr dest src w 18 Hs) as (d & Hr & Hl & Hc); [lia|].
  exists d. split; [done|]. split; [unfold lenZ in *; lia|]. specialize (Hc ltac:(lia)).
  rewrite take_ge in Hc by (unfold lenZ in Hw; lia). done.
Qed.

Definition platform_family : list Z := chars "BCM2837".
Definition platform_name : list Z := chars "Raspberry Pi 3".

Lemma platforminit_run mh m ps rf d : devices_ok d -> exists m' d',
  platforminit (bss mh m ps rf d) =
    Ret (OK, before_tables (lock_table 0) 0 (replicate 4 (mkMemhead 0 0 0 0 0)) mh 0x3EFFFFFC m' ps rf d') /\
  devices_ok d' /\ clkfreq d' = 1000000 /\ cstr (family d') platform_family /\
  cstr (plt_name d') platform_name /\ untouched d d'.
Proof.
  intros Hd. unfold platforminit, rd_devs. rewrite bind_gets.
  destruct (strlcpy_fits (family d) (lit "BCM2837") platform_family) as (f & Hf & Hfl & Hfc).
  { split; [by exists []|]. by repeat constructor. } { apply Hd. } { done. }
  cbn [devs bss]. rewrite (bind_pure _ _ _ _ Hf). unfold upd_devs at 1. rewrite bind_modify, bind_gets.
  destruct (strlcpy_fits (plt_name d) (lit "Raspberry Pi 3") platform_name) as (n & Hn & Hnl & Hnc).
  { split; [by exists []|]. by repeat constructor. } { apply Hd. } { done. }
  cbn [devs bss set_devs plt_name set_family]. rewrite (bind_pure _ _ _ _ Hn). unfold upd_devs, put32.
  unfold upd_devs. rewrite !bind_modify, bind_gets, !bind_modify.
  match goal with |- context [bind mmu_init _ ?s] => destruct (mmu_init_run s) as (m' & Hmmu & _ & _) end.
  rewrite (bind_Ret _ _ _ _ _ Hmmu). eexists m', _. 
  match goal with |- context [set_memory m' ?s] =>
    pose proof (init_locks_run mh 0x3EFFFFFC m' ps rf (devs s)) as Hl end.
  erewrite bind_Ret; [|exact Hl]. split; [reflexivity|]. destruct Hd as [D1 D2 D3 D4 D5 D6].
  split; [|split; [reflexivity|split; [exact Hfc|split; [exact Hnc|by constructor]]]].
  constructor; [exact Hfl|exact Hnl|exact D3|exact D4|exact D5|exact D6].
Qed.

Lemma lock_create_boot n fl mh mx m ps rf d :
  n ∈ [0; 1; 2; 3; 4] ->
  lock_create (before_tables (lock_table n) n fl mh mx m ps rf d) =
  Ret (n + 1, before_tables (lock_table (n + 1)) (n + 1) fl mh mx m ps rf d).
Proof.
  intros Hn. repeat (apply elem_of_cons in Hn as [->|Hn]; [vm_compute; reflexivity|]).
  by apply elem_of_nil in Hn.
Qed.

(** The bounds of the regions: [heap_len] bytes for each core from [mh]. *)
Definition heap_len (mh mx : Z) : Z := truncmb (u32 (Z.quot (s32 (mx - mh)) NCORES)).
Definition heap_base (mh mx i : Z) : Z := roundmb (u32 (mh + u32 (heap_len mh mx * i))).
Definition heap_head (mh mx i : Z) : memhead :=
  mkMemhead (heap_base mh mx i) (heap_len mh mx) (heap_base mh mx i) (heap_len mh mx) (i + 2).
Definition heap_store (mh mx : Z) (m : gmap Z Z) (i : Z) : gmap Z Z :=
  <[heap_base mh mx i + mb_length := heap_len mh mx]> (<[heap_base mh mx i + mb_next := NULL]> m).

Lemma init_heap_run i fl mh mx m ps rf d :
  i ∈ [0; 1; 2; 3] -> lenZ fl = NCORES ->
  init_heap i (before_tables (lock_table (i + 1)) (i + 1) fl mh mx m ps rf d) =
  Ret (tt, before_tables (lock_table (i + 2)) (i + 2) (updZ i (heap_head mh mx i) fl) mh mx
    (heap_store mh mx m i) ps rf d).
Proof.
  intros Hi Hfl. unfold init_heap.
  assert (i + 1 ∈ [0; 1; 2; 3; 4] /\ 0 <= i < 4) as [Hi1 Hr].
  { rewrite !elem_of_cons, elem_of_nil in *. lia. }
  rewrite (bind_Ret _ _ _ _ _ (lock_create_boot (i + 1) fl mh mx m ps rf d Hi1)).
  replace (i + 1 + 1) with (i + 2) by lia. rewrite !bind_gets.
  destruct (nthZ_lt_Some fl i) as [h Hh]; [klia|].
  rewrite (bind_upd_free _ h) by exact Hh. done.
Qed.

Lemma init_heaps_run mh mx m ps rf d :
  init_heaps (Z.to_nat NCORES) 0
    (before_tables (lock_table 1) 1 (replicate 4 (mkMemhead 0 0 0 0 0)) mh mx m ps rf d) =
  Ret (tt, before_tables (lock_table 5) 5 (heap_head mh mx <$> cores) mh mx
    (foldl (heap_store mh mx) m cores) ps rf d).
Proof.
  change (Z.to_nat NCORES) with 4%nat. cbn [init_heaps].
  repeat match goal with |- context [bind (init_heap ?i) _ _] =>
    let v := eval vm_compute in i in change i with v;
    rewrite (bind_Ret _ _ _ _ _ (init_heap_run v _ mh mx _ ps rf d
      ltac:(rewrite !elem_of_cons; lia) ltac:(reflexivity)));
    change (v + 2) with (v + 1 + 1)
  end.
  reflexivity.
Qed.

(** ** The heaps at the start *)

Section Heaps.
Context (mh mx : Z) (Hmh : 0 < mh) (H8 : (8 | mh)) (Hmx : mh + 32 <= mx) (Hmx31 : mx < 2 ^ 31).

Lemma heap_len_spec : 8 <= heap_len mh mx /\ (8 | heap_len mh mx) /\ 4 * heap_len mh mx <= mx - mh.
Proof.
  unfold heap_len, truncmb. rewrite swrap_small by (change (2 ^ (32 - 1)) with (2 ^ 31); lia).
  unfold NCORES. rewrite Z.quot_div_nonneg by lia.
  assert (8 <= (mx - mh) / 4) by (apply Z.div_le_lower_bound; lia).
  assert ((mx - mh) / 4 <= mx - mh) by (apply Z.div_le_upper_bound; lia).
  rewrite wrap_small by lia. rewrite land_mask8 by lia.
  pose proof (Z.div_mod ((mx - mh) / 4) 8 ltac:(lia)) as E.
  pose proof (Z.mod_pos_bound ((mx - mh) / 4) 8 ltac:(lia)).
  assert (4 * ((mx - mh) / 4) <= mx - mh) by (apply Z.mul_div_le; lia).
  split; [|split; [exists ((mx - mh) / 4 / 8); lia|lia]].
  assert (1 <= (mx - mh) / 4 / 8) by (apply Z.div_le_lower_bound; lia). lia.
Qed.

Lemma heap_base_spec i : 0 <= i < 4 -> heap_base mh mx i = mh + heap_len mh mx * i.
Proof.
  intros Hi. destruct heap_len_spec as (L1 & [q Hq] & L3). unfold heap_base.
  assert (0 <= heap_len mh mx * i <= mx - mh) by nia.
  rewrite (wrap_small 32 (heap_len mh mx * i)), wrap_small by lia.
  apply roundmb_id; [lia|]. apply Z.divide_add_r; [done|]. rewrite Hq.
  exists (q * i). lia.
Qed.

(** Core [i]'s free list: its whole region. *)
Definition heap_free (i : Z) : list block := [(heap_base mh mx i, heap_len mh mx)].

Lemma heap_stored m i : 0 <= i < 4 ->
  mload (foldl (heap_store mh mx) m cores) (heap_base mh mx i + mb_next) = NULL /\
  mload (foldl (heap_store mh mx) m cores) (heap_base mh mx i + mb_length) = heap_len mh mx.
Proof.
  intros Hi. destruct heap_len_spec as (L1 & _ & _). cbn [foldl cores]. unfold heap_store.
  rewrite !(heap_base_spec 0), !(heap_base_spec 1), !(heap_base_spec 2), !(heap_base_spec 3), (heap_base_spec i) by lia.
  unfold mb_next, mb_length.
  assert (i = 0 \/ i = 1 \/ i = 2 \/ i = 3) as [-> | [-> | [-> | ->]]] by lia; split;
    repeat first [rewrite mload_insert_eq; reflexivity|rewrite mload_insert_ne by nia].
Qed.

Lemma boot_heaps k m :
  freelist k = heap_head mh mx <$> cores -> memory k = foldl (heap_store mh mx) m cores ->
  memheap k = mh -> maxaddr k = mx -> locktab k = lock_table 117 -> heaps_wf k heap_free.
Proof.
  intros E1 E2 E3 E4 E5. destruct heap_len_spec as (L1 & L2 & L3).
  assert (forall n h, nthZ (freelist k) n = Some h -> 0 <= n < 4 /\ h = heap_head mh mx n) as Hin.
  { intros n h Hn. pose proof (nthZ_Some_lt _ _ _ Hn) as Hr. rewrite E1 in Hr, Hn.
    change (lenZ (heap_head mh mx <$> cores)) with 4 in Hr. split; [done|].
    assert (n = 0 \/ n = 1 \/ n = 2 \/ n = 3) as [-> | [-> | [-> | ->]]] by lia; by injection Hn. }
  constructor.
  - by rewrite E1.
  - intros n h Hh. pose proof Hh as Hh'. apply Hin in Hh' as [Hn ->].
    pose proof (heap_base_spec n Hn) as Eb. assert (0 <= heap_len mh mx * n <= mx - mh - heap_len mh mx) by nia.
    destruct (heap_stored m n Hn) as [S1 S2]. cbn [mh_base mh_bound heap_head].
    split; [|rewrite E3, E4; lia].
    constructor; cbn [mh_head mh_base mh_bound mh_length mh_memlock heap_head]; rewrite ?E2; try (done || lia).
    + unfold heap_free. cbn [fl_ok fst snd]. rewrite Eb. split; [lia|].
      split; [apply Z.divide_add_r; [done|by apply Z.divide_mul_l]|]. repeat (split; [done || lia|]). done.
    + unfold heap_free. cbn [total snd]. lia.
    + klia.
    + unfold at_rest. rewrite E5. assert (n = 0 \/ n = 1 \/ n = 2 \/ n = 3) as [-> | [-> | [-> | ->]]] by lia; reflexivity.
  - intros i j hi hj p [Hi ->]%Hin [Hj ->]%Hin Hne [A1 A2] [B1 B2].
    cbn [mh_base mh_bound heap_head] in *. rewrite heap_base_spec in * by done. nia.
Qed.
End Heaps.

(** ** Interrupt lines and clock at the start *)

Definition wrote (l : list access) (k : kernel) : kernel :=
  set_devs (set_mmio (l ++ mmio (devs k)) (devs k)) k.

Lemma disable_irq_off n k :
  arm_enabled_irqs (devs k) = [0; 0; 0] -> 0 <= n < 96 ->
  exists w, disable_irq n k = Ret (tt, wrote [w] k).
Proof.
  intros E Hn. assert (irqs_wf k) as Hwf.
  { split; rewrite E; [done|]. intros i m Hm. pose proof (nthZ_Some_lt _ _ _ Hm) as Hr.
    change (lenZ [0; 0; 0]) with 3 in Hr.
    assert (i = 0 \/ i = 1 \/ i = 2) as [-> | [-> | ->]] by lia; injection Hm as <-; lia. }
  assert (0 <= n / 32 < 3) as Hd by (split; [apply Z.div_pos|apply Z.div_lt_upper_bound]; lia).
  assert (nthZ (arm_enabled_irqs (devs k)) (n / 32) = Some 0) as H0.
  { rewrite E. assert (n / 32 = 0 \/ n / 32 = 1 \/ n / 32 = 2) as [-> | [-> | ->]] by lia; done. }
  eexists. rewrite (disable_irq_run k n 0 Hwf Hn H0). unfold irq_devs, wrote. do 3 f_equal. rewrite Z.clearbit_spec', Z.ldiff_0_l, updZ_id by (done || lia). by destruct (devs k).
Qed.

Definition time_base_items : list item :=
  (Lit <$> chars "Time base ") ++ [Dir (mkDirective [] WNone PNone REGULAR_SIZE (CSigned 1000000))] ++
  (Lit <$> chars "Hz, Clock ticks at ") ++
  [Dir (mkDirective [] WNone PNone REGULAR_SIZE (CSigned CLKTICKS_PER_SEC))] ++ (Lit <$> chars "Hz") ++
  [Lit 13; Lit 10].

Lemma time_base_formats :
  formats (chars "Time base %dHz, Clock ticks at %dHz" ++ [13; 10; 0])
    [VInt 1000000; VInt CLKTICKS_PER_SEC] (concat (item_out <$> time_base_items)).
Proof.
  exists time_base_items, [], []. split; [|by vm_compute].
  unfold time_base_items. cbn. repeat (apply Forall_cons; split; [vm_compute; intuition discriminate|]). constructor.
Qed.

Lemma clkinit_quanta k : preempt k = [0; 0; 0; 0] ->
  clkinit_loop (Z.to_nat NCORES) (fun i => wrv preempt set_preempt i QUANTUM) 0 k =
  Ret (tt, set_preempt (replicate 4 QUANTUM) k).
Proof. destruct k. cbn. by intros ->. Qed.

Lemma clkinit_aging k : promote_medium k = [0; 0; 0; 0] -> promote_low k = [0; 0; 0; 0] ->
  clkinit_loop (Z.to_nat NCORES) (fun i =>
    wrv promote_medium set_promote_medium i QUANTUM ;;; wrv promote_low set_promote_low i QUANTUM) 0 k =
  Ret (tt, set_promote_low (replicate 4 QUANTUM) (set_promote_medium (replicate 4 QUANTUM) k)).
Proof. destruct k. cbn. by intros -> ->. Qed.

Lemma clkinit_time k : clkticks k = [0; 0; 0; 0] -> clktime k = [0; 0; 0; 0] ->
  clkinit_loop (Z.to_nat NCORES) (fun i => wrv clkticks set_clkticks i 0 ;;; wrv clktime set_clktime i 0) 0 k =
  Ret (tt, k).
Proof. destruct k. cbn. by intros -> ->. Qed.

(** The counters [clkinit] resets. *)
Definition quanta_reset (k : kernel) : kernel :=
  set_promote_low (replicate 4 QUANTUM) (set_promote_medium (replicate 4 QUANTUM)
    (set_preempt (replicate 4 QUANTUM) k)).

(** The devices a booted system relies on. *)
Record devices_up (a : Z) (k : kernel) : Prop := {
  du_serial : 0 <= serial_lock (devs k) < NLOCK /\ at_rest k (serial_lock (devs k));
  du_enabled : arm_enabled_irqs (devs k) = [2 ^ IRQ_TIMER; 0; 0];
  du_vector : nthZ (interruptVector (devs k)) IRQ_TIMER = Some a;
  du_pending : 0 < lenZ (irq_pending (devs k));
  du_timers : lenZ (core_cnt (devs k)) = NCORES /\ lenZ (core_cval (devs k)) = NCORES;
  du_names : cstr (family (devs k)) platform_family /\ cstr (plt_name (devs k)) platform_name
}.

(** [clkinit] on the boot core. *)
Lemma clkinit_run `{Layout} `{Uninit} k :
  clkfreq (devs k) = 1000000 -> 0 <= serial_lock (devs k) < NLOCK -> at_rest k (serial_lock (devs k)) ->
  preempt k = [0; 0; 0; 0] -> promote_medium k = [0; 0; 0; 0] -> promote_low k = [0; 0; 0; 0] ->
  clkticks k = [0; 0; 0; 0] -> clktime k = [0; 0; 0; 0] ->
  devices_ok (devs k) -> cstr (family (devs k)) platform_family -> cstr (plt_name (devs k)) platform_name ->
  exists d, clkinit 0 k = Ret (tt, set_devs d (quanta_reset k)) /\
    devices_up clkhandler_addr (set_devs d (quanta_reset k)) /\ untouched (devs k) d.
Proof.
  intros Hf Hs Hrest E1 E2 E3 E4 E5 [D1 D2 D3 D4 D5 [D6 D7]] N1 N2. unfold clkinit.
  rewrite (bind_Ret _ _ _ _ _ (clkinit_quanta k E1)).
  rewrite (bind_Ret _ _ _ _ _ (clkinit_aging (set_preempt (replicate 4 QUANTUM) k) E2 E3)).
  rewrite (bind_Ret _ _ _ _ _ (clkinit_time (quanta_reset k) E4 E5)).
  unfold rd_devs. rewrite bind_gets. cbn [devs quanta_reset set_promote_low set_promote_medium set_preempt].
  rewrite Hf. fold (quanta_reset k).
  rewrite (bind_Ret _ _ _ _ _ (kprintf_run 0 (quanta_reset k) _ _ _ Hs Hrest time_base_formats)).
  destruct (nthZ_lt_Some (interruptVector (devs k)) IRQ_TIMER) as [v Hv];
    [unfold IRQ_TIMER, BCM2835_NUM_IRQS in *; lia|].
  rewrite (bind_Ret (rd_dev interruptVector IRQ_TIMER) _ _ v (console_out (concat (item_out <$> time_base_items)) (quanta_reset k)))
    by (unfold rd_dev; cbn [devs console_out set_devs quanta_reset set_promote_low set_promote_medium set_preempt interruptVector set_mmio]; by rewrite Hv).
  unfold upd_devs at 1. rewrite bind_modify.
  set (k2 := set_devs _ (console_out _ _)).
  assert (devs k2 = set_interruptVector (updZ IRQ_TIMER clkhandler_addr (interruptVector (devs k)))
    (devs (console_out (concat (item_out <$> time_base_items)) k))) as Ek2 by done.
  assert (arm_enabled_irqs (devs k2) = [0; 0; 0]) as Ea by (rewrite Ek2; exact D4).
  assert (irqs_wf k2) as Hwf.
  { split; rewrite Ea; [done|]. intros i m Hm. pose proof (nthZ_Some_lt _ _ _ Hm) as Hr.
    change (lenZ [0; 0; 0]) with 3 in Hr.
    assert (i = 0 \/ i = 1 \/ i = 2) as [-> | [-> | ->]] by lia; injection Hm as <-; lia. }
  rewrite (bind_Ret _ _ _ _ _ (enable_irq_run k2 IRQ_TIMER 0 Hwf ltac:(unfold IRQ_TIMER; lia) ltac:(by rewrite Ea))).
  set (d3 := irq_devs _ _ _ _).
  destruct (nthZ_lt_Some (irq_pending (devs k)) 0) as [p Hp]; [lia|].
  unfold clkupdate. change (0 =? 0) with true. cbv iota. unfold put32, upd_devs, rd_devs. rewrite bind_modify.
  erewrite (bind_Ret (rd_dev irq_pending 0)) by (unfold rd_dev; cbn; by rewrite Hp).
  rewrite bind_modify, bind_gets. eexists. split; [reflexivity|]. split; [|by constructor].
  constructor; cbn; try done.
  - by rewrite D4.
  - apply nthZ_updZ_eq. unfold IRQ_TIMER, BCM2835_NUM_IRQS in *. lia.
  - by rewrite lenZ_updZ.
Qed.

(** ** The claim *)

Lemma lock_table_wf k : locktab k = lock_table 117 -> 0 <= nextlock k < NLOCK -> locks_wf k.
Proof.
  intros E Hn. constructor; [by rewrite E|done|]. rewrite E. intros i e.
  assert (Idx (fun _ e => l_state e <> SPINLOCK_FREE \/ (l_lock e = SPINLOCK_UNLOCKED /\ l_core e = -1))
    (lock_table 117)) as HF by (apply (bool_decide_unpack _); vm_compute; exact I).
  intros Hi Hf. by destruct (Idx_nthZ _ _ _ _ HF Hi).
Qed.

Lemma nthZ_replicate {A} n (x y : A) i : nthZ (replicate n x) i = Some y -> y = x.
Proof. unfold nthZ. case_if; [|done]. intros Hy. by apply lookup_replicate in Hy as [-> _]. Qed.

(** The devices are brought up on a state whose tables are set. *)
Lemma sysinit_devices `{Layout} `{Uninit} k1 d' :
  devices_ok d' -> clkfreq d' = 1000000 -> cstr (family d') platform_family -> cstr (plt_name d') platform_name ->
  devs k1 = set_serial_lock 1 d' -> locktab k1 = lock_table 117 ->
  preempt k1 = [0; 0; 0; 0] -> promote_medium k1 = [0; 0; 0; 0] -> promote_low k1 = [0; 0; 0; 0] ->
  clkticks k1 = [0; 0; 0; 0] -> clktime k1 = [0; 0; 0; 0] ->
  exists l dk,
    (disable_irq IRQ_USB ;;; disable_irq IRQ_PL011 ;;; disable_irq IRQ_PCM ;;; disable_irq IRQ_SD ;;;
     clkinit 0 ;;; ret OK) k1 = Ret (OK, set_devs dk (quanta_reset (wrote l k1))) /\
    devices_up clkhandler_addr (set_devs dk (quanta_reset (wrote l k1))) /\ untouched d' dk.
Proof.
  intros Hd Hf N1 N2 F5 F6 G1 G2 G3 G4 G5.
  assert (arm_enabled_irqs (devs k1) = [0; 0; 0]) as Ea by (rewrite F5; apply Hd).
  destruct (disable_irq_off IRQ_USB k1) as [w1 E1]; [done|unfold IRQ_USB; lia|].
  rewrite (bind_Ret _ _ _ _ _ E1).
  destruct (disable_irq_off IRQ_PL011 (wrote [w1] k1)) as [w2 E2]; [done|unfold IRQ_PL011; lia|].
  rewrite (bind_Ret _ _ _ _ _ E2).
  destruct (disable_irq_off IRQ_PCM (wrote [w2] (wrote [w1] k1))) as [w3 E3]; [done|unfold IRQ_PCM; lia|].
  rewrite (bind_Ret _ _ _ _ _ E3).
  destruct (disable_irq_off IRQ_SD (wrote [w3] (wrote [w2] (wrote [w1] k1)))) as [w4 E4];
    [done|unfold IRQ_SD; lia|].
  rewrite (bind_Ret _ _ _ _ _ E4).
  change (wrote [w4] (wrote [w3] (wrote [w2] (wrote [w1] k1)))) with (wrote [w4; w3; w2; w1] k1).
  set (l := [w4; w3; w2; w1]). clearbody l.
  destruct (clkinit_run (wrote l k1)) as (dk & Hrun & Hup & Hkept); try done;
    try (unfold wrote; cbn; rewrite F5; cbn; done || klia).
  - unfold at_rest, wrote. cbn [locktab devs set_devs serial_lock set_mmio]. by rewrite F5, F6.
  - unfold wrote. cbn [devs set_devs]. rewrite F5. destruct Hd. by constructor.
  - exists l, dk. split; [by rewrite (bind_Ret _ _ _ _ _ Hrun)|split; [done|]].
    destruct Hkept as [U1 U2 U3 U4 U5]. unfold wrote in *. cbn in *. rewrite F5 in *. by constructor.
Qed.

#[local] Opaque after_tables before_tables.

(** The tables of a booted system, [B] and [X] bounding its heaps. *)
Definition boot_tables `{Layout} (B X : Z) (m : gmap Z Z) (p0 p1 p2 p3 : Z) (r0 r1 r2 r3 : list Z) (d : devices) : kernel :=
  after_tables (u32 end_addr) (u32 (end_addr + 4 * 8192)) (u32 (end_addr + 4 * 16384)) (u32 (end_addr + 4 * 24576))
    (before_tables (lock_table 5) 5 (heap_head B X <$> cores) B X (foldl (heap_store B X) m cores)
       [p0; p1; p2; p3] [r0; r1; r2; r3] d).

(** The part of [sysinit] before the devices. *)
Lemma sysinit_tables `{Layout} `{Uninit} mh m p0 p1 p2 p3 r0 r1 r2 r3 d :
  let ps := [p0; p1; p2; p3] in let rf := [r0; r1; r2; r3] in
  let B := roundmb mh in let X := 0x3EFFFFF8 in
  sysinit 0 (before_tables (lock_table 0) 0 (replicate 4 (mkMemhead 0 0 0 0 0)) mh 0x3EFFFFFC m ps rf d) =
  (disable_irq IRQ_USB ;;; disable_irq IRQ_PL011 ;;; disable_irq IRQ_PCM ;;; disable_irq IRQ_SD ;;;
     clkinit 0 ;;; ret OK) (boot_tables B X m p0 p1 p2 p3 r0 r1 r2 r3 (set_serial_lock 1 d)).
Proof.
  cbv zeta. unfold sysinit.
  rewrite (bind_Ret _ _ _ _ _ (lock_create_boot 0 _ mh 0x3EFFFFFC m _ _ d ltac:(left))).
  unfold upd_devs at 1. rewrite !bind_modify.
  match goal with |- bind _ _ ?s = _ =>
    change s with (before_tables (lock_table 1) 1 (replicate 4 (mkMemhead 0 0 0 0 0)) (roundmb mh)
      0x3EFFFFF8 m [p0; p1; p2; p3] [r0; r1; r2; r3] (set_serial_lock 1 d)) end.
  rewrite (bind_Ret _ _ _ _ _ (init_heaps_run (roundmb mh) 0x3EFFFFF8 m _ _ (set_serial_lock 1 d))).
  rewrite (bind_Ret _ _ _ _ _ (init_tables_run _ _ _ _ _ _ _ _ p0 p1 p2 p3 r0 r1 r2 r3 _)).
  cbv beta. unfold boot_tables. reflexivity.
Qed.

Section Booted.
Context `{Layout} (B X : Z) (m : gmap Z Z) (p0 p1 p2 p3 : Z) (r0 r1 r2 r3 : list Z) (d : devices).
Let k1 := boot_tables B X m p0 p1 p2 p3 r0 r1 r2 r3 d.

Lemma boot_tables_frame :
  freelist k1 = heap_head B X <$> cores /\ memheap k1 = B /\ maxaddr k1 = X /\
  memory k1 = foldl (heap_store B X) m cores /\ devs k1 = d /\
  locktab k1 = lock_table 117 /\ nextlock k1 = 117 /\
  nextqueue k1 = NQENT /\ numproc k1 = 4 /\ nextpid k1 = 0 /\
  cpsr k1 = [p0; p1; p2; p3] /\ currpid k1 = [0; 1; 2; 3] /\
  preempt k1 = [0; 0; 0; 0] /\ promote_medium k1 = [0; 0; 0; 0] /\
  promote_low k1 = [0; 0; 0; 0] /\ clkticks k1 = [0; 0; 0; 0] /\ clktime k1 = [0; 0; 0; 0].
Proof. apply after_tables_frame. Qed.

Lemma boot_tables_inv : sys_inv (qlock_of k1) (ready_of k1) (mail_of k1) k1 (lists_of k1).
Proof. apply sys_ok_inv; [apply after_tables_sched|apply after_tables_mail]. Qed.

Lemma boot_tables_procs : Idx (fun i p => boot_entry i p) (proctab k1) /\ regfile k1 = [r0; r1; r2; r3].
Proof. apply after_tables_procs. Qed.

Lemma boot_tables_empty h : is_qhead k1 h -> lists_of k1 h = [].
Proof. apply (heads_all k1 (fun h => lists_of k1 h = [])), after_tables_empty. Qed.
End Booted.

(** What the start establishes, from the tables on. *)
Lemma boot_tables_up `{Layout} `{Uninit} mh m' d' p0 p1 p2 p3 QL RQ MQ L k1 :
  0 < mh <= 0x3EFFFFF8 - 40 ->
  devices_ok d' -> clkfreq d' = 1000000 -> cstr (family d') platform_family -> cstr (plt_name d') platform_name ->
  freelist k1 = heap_head (roundmb mh) 0x3EFFFFF8 <$> cores /\ memheap k1 = roundmb mh /\
    maxaddr k1 = 0x3EFFFFF8 /\ memory k1 = foldl (heap_store (roundmb mh) 0x3EFFFFF8) m' cores /\
    devs k1 = set_serial_lock 1 d' /\ locktab k1 = lock_table 117 /\ nextlock k1 = 117 /\
    nextqueue k1 = NQENT /\ numproc k1 = 4 /\ nextpid k1 = 0 /\
    cpsr k1 = [p0; p1; p2; p3] /\ currpid k1 = [0; 1; 2; 3] /\
    preempt k1 = [0; 0; 0; 0] /\ promote_medium k1 = [0; 0; 0; 0] /\
    promote_low k1 = [0; 0; 0; 0] /\ clkticks k1 = [0; 0; 0; 0] /\ clktime k1 = [0; 0; 0; 0] ->
  sys_inv QL RQ MQ k1 L -> (forall h, is_qhead k1 h -> L h = []) ->
  exists k,
    (disable_irq IRQ_USB ;;; disable_irq IRQ_PL011 ;;; disable_irq IRQ_PCM ;;; disable_irq IRQ_SD ;;;
     clkinit 0 ;;; ret OK) k1 = Ret (OK, k) /\
    sys_inv QL RQ MQ k L /\ (forall h, is_qhead k h -> L h = []) /\
    heaps_wf k (heap_free (roundmb mh) 0x3EFFFFF8) /\ locks_wf k /\ clock_wf k /\
    devices_up clkhandler_addr k /\
    nextqueue k = NQENT /\ numproc k = 4 /\ nextpid k = 0 /\ currpid k = [0; 1; 2; 3] /\ cpsr k = [p0; p1; p2; p3] /\
    promote_medium k = replicate 4 QUANTUM /\ promote_low k = replicate 4 QUANTUM /\
    proctab k = proctab k1 /\ regfile k = regfile k1 /\ untouched d' (devs k) /\
    memheap k = roundmb mh /\ maxaddr k = 0x3EFFFFF8.
Proof.
  intros Hmh Hd' Hf N1 N2
    (F1 & F2 & F3 & F4 & F5 & F6 & F7 & F8 & F9 & F10 & F11 & F12 & G1 & G2 & G3 & G4 & G5) [Hk Hm] He.
  destruct (sysinit_devices k1 d' Hd' Hf N1 N2 F5 F6 G1 G2 G3 G4 G5) as (l & dk & Hrun & Hup & Hkept).
  eexists. split; [exact Hrun|]. destruct (roundmb_spec mh) as (R1 & R2 & R3); [lia|].
  split; [split|].
  { apply (kinv_frame (queues_at QL) _ _ k1); try done; cbn; by rewrite ?G1, ?G2, ?G3. }
  { by eapply mail_frame; [..|exact Hm]. }
  split; [exact He|].
  split; [eapply (boot_heaps (roundmb mh) 0x3EFFFFF8); try done; lia|].
  split; [apply lock_table_wf; cbn; [done|rewrite F7; klia]|]. split; [|repeat (split; [done|]); done].
  destruct Hup as [_ _ _ U4 [U5 U6] _]. constructor; cbn in *; try done.
  - by rewrite G4, G5.
  - rewrite G4. intros c t Ht. apply (nthZ_replicate 4) in Ht. subst. klia.
  - intros c q Hq. apply (nthZ_replicate 4) in Hq. subst. klia.
Qed.

(** The start, from [platforminit] on. *)
Lemma boot_kernel `{Layout} `{Uninit} mh m ps rf d :
  devices_ok d -> lenZ ps = NCORES -> lenZ rf = NCORES -> 0 < mh <= 0x3EFFFFF8 - 40 ->
  exists k QL RQ MQ L,
    (platforminit ;;; sysinit 0) (bss mh m ps rf d) = Ret (OK, k) /\
    sys_inv QL RQ MQ k L /\ (forall h, is_qhead k h -> L h = []) /\
    heaps_wf k (heap_free (roundmb mh) 0x3EFFFFF8) /\ locks_wf k /\ clock_wf k /\
    devices_up clkhandler_addr k /\
    nextqueue k = NQENT /\ numproc k = 4 /\ nextpid k = 0 /\ currpid k = [0; 1; 2; 3] /\ cpsr k = ps /\
    promote_medium k = replicate 4 QUANTUM /\ promote_low k = replicate 4 QUANTUM /\
    Idx (fun i p => boot_entry i p) (proctab k) /\ regfile k = rf /\ untouched d (devs k) /\
    memheap k = roundmb mh /\ maxaddr k = 0x3EFFFFF8.
Proof.
  intros Hd Hps Hrf Hmh.
  destruct ps as [|p0 [|p1 [|p2 [|p3 [|]]]]]; try (unfold lenZ, NCORES in Hps; simpl in Hps; lia).
  destruct rf as [|r0 [|r1 [|r2 [|r3 [|]]]]]; try (unfold lenZ, NCORES in Hrf; simpl in Hrf; lia).
  destruct (platforminit_run mh m [p0; p1; p2; p3] [r0; r1; r2; r3] d Hd)
    as (m' & d' & Hp & Hd' & Hf & N1 & N2 & Hu).
  destruct (boot_tables_up mh m' d' p0 p1 p2 p3 _ _ _ _ _ Hmh Hd' Hf N1 N2
    (boot_tables_frame (roundmb mh) 0x3EFFFFF8 m' p0 p1 p2 p3 r0 r1 r2 r3 (set_serial_lock 1 d'))
    (boot_tables_inv _ _ _ _ _ _ _ _ _ _ _ _) (boot_tables_empty _ _ _ _ _ _ _ _ _ _ _ _)) as (k & Hrun & Hk).
  destruct (boot_tables_procs (roundmb mh) 0x3EFFFFF8 m' p0 p1 p2 p3 r0 r1 r2 r3 (set_serial_lock 1 d')) as [Hb1 Hb2].
  destruct Hk as (H1 & H2 & H3 & H4 & H5 & H6 & H7 & H8 & H9 & H10 & H11 & H12 & H13 & E1 & E2 & E3 & E4 & E5).
  exists k. do 4 eexists. split; [|rewrite E1, E2; do 15 (split; [eassumption|]); split; [exact (transitivity Hu E3)|exact (conj E4 E5)]].
  rewrite (bind_Ret _ _ _ _ _ Hp), sysinit_tables. exact Hrun.
Qed.

(** C8: From the state the loader leaves, [platforminit] and [sysinit]
    succeed, for any place of the heap with room for a block per core.  Then
    every queue is empty, each core runs its null process, the process
    table, the 62 queues and the mailboxes satisfy the invariant of the
    scheduler and of message passing, the heap of each core is one free
    block, disjoint from the others, the clock is ready with full quanta,
    only the timer's interrupt is enabled and its handler installed.  The
    queues take exactly the [NQENT] entries of their table, and 33 of the
    150 locks stay free. *)
Theorem boot_establishes `{Layout} `{Uninit} mh m ps rf d :
  devices_ok d -> lenZ ps = NCORES -> lenZ rf = NCORES -> 0 < mh <= 0x3EFFFFF8 - 40 ->
  exists k QL RQ MQ L,
    (platforminit ;;; sysinit 0) (bss mh m ps rf d) = Ret (OK, k) /\
    sys_inv QL RQ MQ k L /\ (forall h, is_qhead k h -> L h = []) /\
    heaps_wf k (heap_free (roundmb mh) 0x3EFFFFF8) /\ locks_wf k /\ clock_wf k /\
    devices_up clkhandler_addr k /\
    nextqueue k = NQENT /\ numproc k = 4 /\ nextpid k = 0 /\ currpid k = [0; 1; 2; 3] /\ cpsr k = ps /\
    promote_medium k = replicate 4 QUANTUM /\ promote_low k = replicate 4 QUANTUM.
Proof.
  intros Hd Hps Hrf Hmh.
  destruct (boot_kernel mh m ps rf d Hd Hps Hrf Hmh) as (k & QL & RQ & MQ & L & Hrun & H1 & H2 & H3 & H4 & H5 & H6 & H7 & H8 & H9 & H10 & H11 & H12 & H13 & _).
  exists k, QL, RQ, MQ, L. repeat (split; [assumption|]). assumption.
Qed.
