(* ===== verification/Programs.v ===== *)
(** * The programs of the repository (system/main.c, system/testcases.c)

    [main], the first process, runs the interactive tests: a menu, a
    character from the console, and what it stands for.  The processes the
    tests create run [printpid].  Here the operations of the other files are
    used together: the console, process creation, the ready lists and the
    scheduler. *)

From Stdlib Require Import Ascii String.
From stdpp Require Import base numbers functions list gmap.
From S2P Require Import Prelude Kernel Spinlock Queue Memory CString Doprnt Kio Thread Proc ProcOps Message Interrupt.
From S2P Require Import Effects.

(** ** Definitions *)

(** A string literal that ends in a carriage return and a line feed. *)
Definition crlf (s : string) : list Z := chars s ++ [13; 10; 0].

Section Programs.
Context `{Layout} `{Uninit}.

(** One turn of the loop of [printpid]; [rd] are the readings of the counter
    during its delay, at most [fuel] of which are made. *)
Definition printpid_turn (fuel : nat) (rd : nat -> Z) (cpuid : Z) : K unit :=
  p <-- rd_currpid cpuid ;;
  kprintf cpuid (crlf "This is process %d") [VInt p] ;;;
  f <-- rd_devs clkfreq ;;
  (fun k => '_ <~ udelay fuel f 1 rd ;; Ret (tt, k)).

Fixpoint printpid_loop (n : nat) (fuel : nat) (rds : Z -> nat -> Z) (cpuid i : Z) : K unit :=
  match n with
  | O => ret tt
  | S n' => printpid_turn fuel (rds i) cpuid ;;; printpid_loop n' fuel rds cpuid (i + 1)
  end.

Definition printpid (fuel : nat) (rds : Z -> nat -> Z) (cpuid times : Z) : K unit :=
  enable cpuid ;;;
  printpid_loop (Z.to_nat times) fuel rds cpuid 0.

(** ready(create(func, INITSTK, priority, name, args), resch, 0) *)
Definition spawn (cpu func priority : Z) (name args : list Z) (resch : bool) : thread Z :=
  pid <== lift (create cpu func INITSTK priority name args) ;;
  ready cpu pid resch 0.

(** The address of [printpid]. *)
Context (printpid_addr : Z).

Definition testcases (cpu : Z) : thread unit :=
  c <== lift (
    kprintf cpu (crlf "===TEST BEGIN===") [] ;;;
    kprintf cpu (crlf "0) Test priority scheduling") [] ;;;
    kprintf cpu (crlf "'A') Aging / Starvation testcase") [] ;;;
    kprintf cpu (crlf "'P') Preemption testcase") [] ;;;
    kgetc) ;;
  (let c := u8 c in
   if c =? chr "0" then
     spawn cpu printpid_addr PRIORITY_HIGH (lit "PRINTER-A") [5] false ;;==
     spawn cpu printpid_addr PRIORITY_MED (lit "PRINTER-B") [5] false ;;==
     spawn cpu printpid_addr PRIORITY_LOW (lit "PRINTER-C") [5] true ;;==
     tret tt
   else if (c =? chr "a") || (c =? chr "A") then
     lift (kprintf cpu (crlf "AGING is enabled.") [] ;;; ret tt)
   else if (c =? chr "p") || (c =? chr "P") then
     lift (kprintf cpu (13 :: 10 :: crlf "Preemption is enabled.") [] ;;; ret tt)
   else tret tt) ;;==
  lift (kprintf cpu (13 :: 10 :: crlf "===TEST END===") [] ;;; ret tt).

(** The main process. *)
Definition main (cpu : Z) : thread Z :=
  lift (enable cpu) ;;==
  testcases cpu ;;==
  tret 0.
End Programs.

(** ** What the console shows *)

(** Text without conversions is printed as it is. *)
Definition plain (s : list Z) : Prop := Forall (fun c => c <> 0 /\ c <> chr "%") s.

#[local] Instance plain_dec s : Decision (plain s).
Proof. unfold plain. apply _. Defined.

Ltac plainly := refine (bool_decide_unpack _ _); vm_compute; exact I.

Lemma lits_text s : concat (item_text <$> (Lit <$> s)) = s /\ concat (item_args <$> (Lit <$> s)) = [] /\
  concat (item_out <$> (Lit <$> s)) = s.
Proof. induction s as [|c s (IH1 & IH2 & IH3)]; [done|]. cbn. by rewrite IH1, IH2, IH3. Qed.

Lemma formats_plain s ap : plain s -> formats (s ++ [0]) ap s.
Proof.
  intros Hs. exists (Lit <$> s), [], ap. split; [by apply Forall_fmap|].
  destruct (lits_text s) as (-> & -> & ->). done.
Qed.

(** The console can be written to: its lock is one of the table, and free. *)
Definition serial_free (k : kernel) : Prop :=
  0 <= serial_lock (devs k) < NLOCK /\ at_rest k (serial_lock (devs k)).

Definition line (s : string) : list Z := chars s ++ [13; 10].

Lemma crlf_line s : crlf s = line s ++ [0].
Proof. unfold crlf, line. by rewrite <- app_assoc. Qed.

Lemma bind_kprintf_plain `{Uninit} {B} cpu s (c : Z -> K B) k :
  serial_free k -> plain s -> exists n, bind (kprintf cpu (s ++ [0]) []) c k = c n (console_out s k).
Proof.
  intros [Hl Hr] Hs. eexists. by rewrite (bind_Ret _ _ _ _ _ (kprintf_run cpu k _ _ _ Hl Hr (formats_plain s [] Hs))).
Qed.

Lemma console_out_app s1 s2 k : console_out s2 (console_out s1 k) = console_out (s1 ++ s2) k.
Proof. unfold console_out. simpl. by rewrite fmap_app, reverse_app, <- app_assoc. Qed.

Lemma serial_free_out s k : serial_free k -> serial_free (console_out s k).
Proof. done. Qed.

(** Reading one character. *)
Definition taken (k : kernel) : kernel :=
  set_devs (if 0 <? bufp (devs k) then set_bufp (bufp (devs k) - 1) (devs k)
            else match uart_rx (devs k) with
                 | [] => devs k
                 | x :: l => set_mmio (Rd UART_DR x :: mmio (devs k)) (set_uart_rx l (devs k))
                 end) k.

Lemma kgetc_run k : unget_ok k ->
  match pending_in k with
  | [] => kgetc k = Fault Deadlock
  | x :: l => kgetc k = Ret (x, taken k) /\ pending_in (taken k) = l /\ unget_ok (taken k)
  end.
Proof.
  intros Hu. destruct (console_stream k 0 Hu) as [Hg _]. destruct (pending_in k) as [|x l]; [done|].
  destruct Hg as (k' & Hr & Hp & Hu'). assert (k' = taken k) as ->; [|done].
  revert Hr. destruct Hu as [_ Hb]. unfold UNGETMAX in Hb. unfold kgetc, rd_devs, taken. rewrite bind_gets.
  destruct (Z.ltb_spec 0 (bufp (devs k))).
  - rewrite wrap_small by lia. unfold upd_devs. rewrite bind_modify, bind_gets. unfold pure. simpl.
    destruct (rdi _ _); [|done]. by intros [= _ <-].
  - rewrite bind_gets. destruct (uart_rx (devs k)); [done|]. by intros [= _ <-].
Qed.

(** The lines of the menu. *)
Definition menu : list Z :=
  line "===TEST BEGIN===" ++ line "0) Test priority scheduling" ++
  line "'A') Aging / Starvation testcase" ++ line "'P') Preemption testcase".
Definition farewell : list Z := 13 :: 10 :: line "===TEST END===".

(** What is printed for a choice that starts no process. *)
Definition answer (c : Z) : list Z :=
  if (c =? chr "a") || (c =? chr "A") then line "AGING is enabled."
  else if (c =? chr "p") || (c =? chr "P") then 13 :: 10 :: line "Preemption is enabled."
  else [].

Ltac say := rewrite ?crlf_line, ?app_comm_cons; match goal with
  |- context [bind (kprintf ?cpu (?s ++ [0]) []) ?c ?k] =>
    let n := fresh "n" in let E := fresh "E" in
    destruct (bind_kprintf_plain cpu s c k) as [n E];
      [by repeat apply serial_free_out|plainly|rewrite E; clear E]
  end.

Section Menu.
Context `{Layout} `{Uninit} (printpid_addr : Z).

(** The part of [testcases] before the choice. *)
Lemma testcases_asks {B} cpu k x l (f : Z -> thread B) :
  unget_ok k -> serial_free k -> pending_in k = x :: l ->
  start (c <== lift (
    kprintf cpu (crlf "===TEST BEGIN===") [] ;;;
    kprintf cpu (crlf "0) Test priority scheduling") [] ;;;
    kprintf cpu (crlf "'A') Aging / Starvation testcase") [] ;;;
    kprintf cpu (crlf "'P') Preemption testcase") [] ;;;
    kgetc) ;; f c) k = start (f x) (taken (console_out menu k)).
Proof.
  intros Hu Hs Hp. rewrite start_lift_bind. do 4 say. rewrite !console_out_app.
  pose proof (kgetc_run (console_out menu k) Hu) as Hg. change (pending_in (console_out menu k)) with (pending_in k) in Hg.
  rewrite Hp in Hg. destruct Hg as [Hg _]. fold menu. change (kgetc (console_out _ k)) with (kgetc (console_out menu k)).
  by rewrite Hg.
Qed.

Lemma serial_free_taken k : serial_free k -> serial_free (taken k).
Proof. unfold taken, serial_free, at_rest. by destruct (0 <? bufp (devs k)), (uart_rx (devs k)). Qed.

(** The accesses that send characters, latest first. *)
Definition sent_out (cs : list Z) : list access := reverse ((fun c => Wr UART_DR (u8 c)) <$> cs).

(** C37: [testcases] prints its menu, then takes exactly one character from
    the console (one put back first), and then prints what belongs to it: a
    line for the aging test or the preemption test in either case of the
    letter, nothing for any other character but [0].  It ends with the
    farewell and changes nothing else.  The data register of the UART sees
    the menu written, the character read, and the answer written, in this
    order.  As long as no character has come it does not return. *)
Theorem testcases_menu cpu k :
  unget_ok k -> serial_free k ->
  match pending_in k with
  | [] => start (testcases printpid_addr cpu) k = Fault Deadlock
  | x :: l => u8 x <> chr "0" ->
      let k1 := taken (console_out menu k) in
      let k' := console_out (answer (u8 x) ++ farewell) k1 in
      start (testcases printpid_addr cpu) k = Ret (inl tt, k') /\ pending_in k1 = l /\
      (bufp (devs k) = 0 ->
       mmio (devs k') = sent_out (answer (u8 x) ++ farewell) ++ Rd UART_DR x :: sent_out menu ++ mmio (devs k))
  end.
Proof.
  intros Hu Hs. destruct (pending_in k) as [|x l] eqn:Hp.
  - unfold testcases. rewrite start_lift_bind. do 4 say.
    match goal with |- context [kgetc ?k'] => pose proof (kgetc_run k' Hu) as Hg; change (pending_in k') with (pending_in k) in Hg end.
    rewrite Hp in Hg. by rewrite Hg.
  - intros Hx. pose proof (kgetc_run (console_out menu k) Hu) as Hg.
    change (pending_in (console_out menu k)) with (pending_in k) in Hg. rewrite Hp in Hg. destruct Hg as (_ & Hl & _).
    cbv zeta. split; [|split; [done|]].
    2: { intros Hb. unfold pending_in in Hp. rewrite Hb in Hp. simpl in Hp. unfold taken, sent_out.
         cbn [devs console_out set_devs bufp uart_rx set_mmio]. by rewrite Hb, Hp. }
    unfold testcases. rewrite (testcases_asks cpu k x l _ Hu Hs Hp).
    pose proof (serial_free_taken (console_out menu k) Hs) as Hf.
    set (k1 := taken (console_out menu k)) in *. clearbody k1. cbv zeta.
    rewrite (proj2 (Z.eqb_neq _ _) Hx). unfold answer.
    destruct ((u8 x =? chr "a") || (u8 x =? chr "A")); [|destruct ((u8 x =? chr "p") || (u8 x =? chr "P"))].
    1, 2: rewrite start_lift_lift, start_lift, bind_assoc; say; cbv beta; rewrite bind_ret_l; say; by rewrite console_out_app.
    rewrite (start_bind_inl _ _ _ tt k1) by done. rewrite start_lift. by say.
Qed.
End Menu.

(** ** [printpid] *)

(** The readings of a delay are those of a free-running counter, and [fuel]
    of them are enough for it to pass. *)
Definition delay_passes (fuel : nat) (freq us : Z) (rd : nat -> Z) : Prop :=
  exists start t n, rd = counter start t /\
    let delay := u32 (freq / 1000 * us) in
    0 <= start < 2 ^ 32 /\ t 0%nat = 0 /\ (forall i j, (i <= j)%nat -> t i <= t j) /\
    (0 < n)%nat /\ delay <= t n /\ t (S n) < 2 ^ 32 /\ (n + 1 < fuel)%nat.

Lemma delay_returns fuel freq us rd : delay_passes fuel freq us rd -> exists i, udelay fuel freq us rd = Ret i.
Proof.
  intros (start & t & n & -> & H1 & H2 & H3 & H4 & H5 & H6 & H7).
  destruct (udelay_run fuel freq us start t n H1 H2 H3 H4 H5 H6 H7) as (i & Hi & _). by exists i.
Qed.

(** The line of process [pid]. *)
Definition process_line (pid : Z) : list Z :=
  chars "This is process " ++ cnv_sign (CSigned pid) ++ cnv_text (CSigned pid) ++ [13; 10].

Lemma process_line_formats pid : - 2 ^ 31 <= pid < 2 ^ 31 ->
  formats (crlf "This is process %d") [VInt pid] (process_line pid).
Proof.
  intros Hp. exists ((Lit <$> chars "This is process ") ++ [Dir (plain_dir (CSigned pid)); Lit 13; Lit 10]), [], [].
  destruct (lits_text (chars "This is process ")) as (E1 & E2 & E3).
  rewrite !fmap_app, !concat_app, E1, E2, E3. split; [|split; [done|split; [done|]]].
  - apply Forall_app. split; [apply Forall_fmap; change (plain (chars "This is process ")); plainly|].
    repeat apply Forall_cons_2; [..|constructor]; (split; [|try split]); done || lia.
  - unfold process_line. f_equal. cbn [fmap list_fmap concat item_out]. by rewrite render_plain, <- app_assoc.
Qed.

Section Printpid.
Context `{Uninit} (fuel : nat) (cpu pid : Z).

Lemma printpid_turn_run rd k :
  serial_free k -> nthZ (currpid k) cpu = Some pid -> - 2 ^ 31 <= pid < 2 ^ 31 ->
  delay_passes fuel (clkfreq (devs k)) 1 rd ->
  printpid_turn fuel rd cpu k = Ret (tt, console_out (process_line pid) k).
Proof.
  intros [Hl Hr] Hc Hp [i Hd]%delay_returns. unfold printpid_turn. rewrite (bind_rd_currpid _ _ _ _ Hc).
  rewrite (bind_Ret _ _ _ _ _ (kprintf_run cpu k _ _ _ Hl Hr (process_line_formats pid Hp))).
  unfold rd_devs. rewrite bind_gets. simpl. by rewrite Hd.
Qed.

Lemma printpid_loop_run rds n i k :
  serial_free k -> nthZ (currpid k) cpu = Some pid -> - 2 ^ 31 <= pid < 2 ^ 31 ->
  (forall j, i <= j < i + Z.of_nat n -> delay_passes fuel (clkfreq (devs k)) 1 (rds j)) ->
  printpid_loop n fuel rds cpu i k = Ret (tt, console_out (concat (replicate n (process_line pid))) k).
Proof.
  revert i k. induction n as [|n IH]; intros i k Hs Hc Hp Hd.
  - simpl. unfold console_out. simpl. by destruct k as [? ? ? ? ? ? ? ? ? ? ? ? ? ? ? ? ? ? ? ? []].
  - cbn [printpid_loop]. rewrite (bind_Ret _ _ _ _ _ (printpid_turn_run (rds i) k Hs Hc Hp (Hd i ltac:(lia)))).
    rewrite IH; [by rewrite console_out_app|by apply serial_free_out|done|done|]. intros j Hj. apply Hd. lia.
Qed.

(** C38: [printpid] returns, having printed the line of the current process as
    often as it was told, with interrupts on; a count that is not positive
    prints nothing.  The delays end as long as the counter goes on. *)
Theorem printpid_prints rds times k v :
  serial_free k -> nthZ (currpid k) cpu = Some pid -> - 2 ^ 31 <= pid < 2 ^ 31 -> nthZ (cpsr k) cpu = Some v ->
  (forall j, 0 <= j < times -> delay_passes fuel (clkfreq (devs k)) 1 (rds j)) ->
  printpid fuel rds cpu times k =
    Ret (tt, console_out (concat (replicate (Z.to_nat times) (process_line pid)))
      (set_cpsr (updZ cpu (Z.ldiff v ARM_I_BIT) (cpsr k)) k)).
Proof.
  intros Hs Hc Hp Hv Hd. unfold printpid, enable. rewrite bind_assoc.
  rewrite (bind_Ret _ _ _ v k) by (by rewrite Hv). rewrite bind_modify.
  apply printpid_loop_run; [done|done|done|]. intros j Hj. apply Hd. lia.
Qed.
End Printpid.

(** ** Starting processes *)

(** Text in a name field of 16 bytes. *)
Definition name_field (w : list Z) : list Z := take 16 w ++ replicate (16 - length w) 0.

(** The heap has a first block for [n] more stacks. *)
Definition room_for (n : nat) (l : list block) : Prop :=
  n = O \/ exists b l', l = b :: l' /\ Z.of_nat n * roundmb (stack_size INITSTK) <= snd b.

Section Starting.
Context (wf : kernel -> (Z -> list Z) -> Prop) `{!FifoQueues wf} (RQ : Z -> Z -> Z).
Context `{Layout} `{Uninit}.
Local Abbreviation kinv := (sched_inv wf RQ).

(** The kernel can take [n] more processes on core 0. *)
Record can_start (n : nat) (k : kernel) (L : Z -> list Z) (FL : Z -> list block) : Prop := {
  cs_sched : kinv settled k L;
  cs_heaps : heaps_wf k FL;
  cs_shape : shaped k;
  cs_next : 0 <= nextpid k < NPROC;
  cs_slots : exists l, length l = n /\ NoDup l /\ Forall (slot_free k) l;
  cs_room : room_for n (FL 0)
}.

(** What a new process is to run, in front of [userret]: [func] on [arg], with
    this priority and name. *)
Record task := mkTask { t_func : Z; t_arg : Z; t_priority : Z; t_name : list Z }.

Definition runs (t : task) (q : pcb) : Prop :=
  p_priority q = t_priority t /\ p_name q = name_field (t_name t) /\ nthZ (p_regs q) 0 = Some (t_arg t) /\
  nthZ (p_regs q) PREG_PC = Some (s32 (t_func t)) /\ nthZ (p_regs q) PREG_LR = Some (s32 userret_addr).

(** Slots that stay free when one is taken. *)
Lemma slots_left n k k' pid p : 
  (exists l, length l = S n /\ NoDup l /\ Forall (slot_free k) l) ->
  (forall i, i <> pid -> nthZ (proctab k') i = nthZ (proctab k) i) -> nthZ (proctab k) pid = Some p ->
  exists l, length l = n /\ NoDup l /\ Forall (slot_free k') l.
Proof.
  intros (l & Hl & Hn & Hf) He Hp.
  assert (exists l2, length l2 = n /\ NoDup l2 /\ pid ∉ l2 /\ forall i, i ∈ l2 -> i ∈ l) as (l2 & H1 & H2 & H3 & H4).
  { destruct (decide (pid ∈ l)) as [(l1 & l2 & ->)%list_elem_of_split|Hnot].
    - exists (l1 ++ l2). rewrite length_app in *. simpl in Hl.
      apply NoDup_app in Hn as (N1 & N2 & N3). apply NoDup_cons in N3 as [N4 N5].
      split; [lia|]. split; [apply NoDup_app; set_solver|]. set_solver.
    - destruct l as [|y l]; [done|]. apply NoDup_cons in Hn as [_ Hn]. exists l. simpl in Hl. set_solver by lia. }
  exists l2. split; [done|]. split; [done|]. rewrite Forall_forall in *. intros i Hi.
  destruct (Hf i (H4 i Hi)) as (q & Hq & Hs). exists q. split; [|done]. rewrite He; [done|]. by intros ->.
Qed.

Lemma created_runs saddr ssz sp t args p : prio (t_priority t) -> lenZ (p_regs p) = PREGS ->
  runs t (created_pcb saddr ssz (t_priority t) (t_func t) sp (name_field (t_name t)) (t_arg t :: args) p).
Proof.
  intros Hpr Hrl. set (as_ := t_arg t :: args). split; [|split; [done|]].
  - simpl. unfold prio in Hpr. apply swrap_small; [lia|]. change (2 ^ (32 - 1)) with 2147483648. lia.
  - assert (nthZ (args_regs 0 as_ (p_regs p)) 0 = Some (t_arg t)) as E0.
    { by apply (args_regs_at 0 as_ _ 0 (t_arg t)); [|rewrite Hrl|..]. }
    assert (lenZ (args_regs 0 as_ (p_regs p)) = PREGS) as Hr by (by rewrite args_regs_len).
    change (p_regs (created_pcb _ _ _ _ _ _ _ _)) with (updZ PREG_SP (s32 sp)
      (updZ PREG_LR (s32 userret_addr) (updZ PREG_PC (s32 (t_func t)) (args_regs 0 as_ (p_regs p))))).
    revert Hr E0. generalize (args_regs 0 as_ (p_regs p)). unfold PREGS, PREG_SP, PREG_LR, PREG_PC. intros r Hr E0.
    repeat split; repeat (rewrite ?nthZ_updZ_eq by (rewrite ?lenZ_updZ; lia); rewrite ?nthZ_updZ_ne by lia); done.
Qed.

(** [create] of a task; the arguments after the first do not matter here. *)
Lemma create_task n k L FL t name args :
  can_start (S n) k L FL -> prio (t_priority t) -> cstr name (t_name t) -> lenZ args <= 3 ->
  exists pid k' FL' q p,
    create 0 (t_func t) INITSTK (t_priority t) name (t_arg t :: args) k = Ret (pid, k') /\ can_start n k' L FL' /\
    nthZ (proctab k) pid = Some p /\ p_state p = PRFREE /\ proctab k' = updZ pid q (proctab k) /\
    runs t q /\ p_state q = PRSUSP /\ p_core_affinity q = -1 /\
    currpid k' = currpid k /\ cpsr k' = cpsr k /\ devs k' = devs k /\ locktab k' = locktab k.
Proof.
  intros [Hi Hhs [Hsh Hrf] Hnp Hsl Hrm] Hpr Hname Hargs. set (as_ := t_arg t :: args).
  assert (lenZ as_ <= 4) as Has by (unfold as_, lenZ in *; simpl; lia).
  destruct (nthZ_lt_Some (cpsr k) 0) as [im Him]; [by rewrite (si_cpsr _ _ _ _ _ Hi)|].
  destruct Hrm as [?|(b & l & El & Hb)]; [done|]. set (R := roundmb (stack_size INITSTK)) in *.
  assert (R = 65536) as HR by done.
  assert (first_fit R (FL 0) = Some ([], b, l)) as Hff.
  { rewrite El. simpl. rewrite (proj2 (Z.leb_le _ _)); [done|lia]. }
  destruct (getmem_taken 0 k FL im (stack_size INITSTK) [] b l Hhs ltac:(done) Him ltac:(done) Hff)
    as (k1 & Hg & Hhs1 & [(m & f & ->) _] & Hbk & Hx).
  destruct (create_succeeds wf RQ 0 k L FL (t_func t) INITSTK (t_priority t) name (t_name t) as_ (fst b) m f
    (leftover R b ++ l) Hi Hhs Hsh ltac:(done) Hnp) as (pid & p & Hrun & Hpid & Hp & Hpf & Hi' & Hhs'); try done.
  { destruct Hsl as ([|i ?] & ? & _ & Hf); [done|]. apply Forall_cons in Hf as [? _]. by exists i. }
  { lia. }
  fold (name_field (t_name t)) in *. set (k' := created_kernel _ _ _ _ _ _ _ _ _ _ _) in *.
  set (q := created_pcb (fst b) (stack_size INITSTK) (t_priority t) (t_func t)
    (fst b + stack_size INITSTK - 16 - 4 * pads (lenZ as_)) (name_field (t_name t)) as_ p).
  assert (proctab k' = updZ pid q (proctab k)) as Ept by done.
  pose proof (nthZ_Some_lt _ _ _ Hp) as Hlt. destruct (Hsh pid p Hp) as [Hnl Hrl].
  assert (lenZ (args_regs 0 as_ (p_regs p)) = PREGS) as Hal by (by rewrite args_regs_len).
  exists pid, k', (<[0 := leftover R b ++ l]> FL), q, p. split; [done|]. split.
  - constructor; [done|done| |exact Hpid| |].
    + split; [|exact Hrf]. intros i p0. rewrite Ept. intros [[-> ->]|Hp0]%nthZ_updZ_inv; [|by apply (Hsh i)]. split.
      * change (p_name q) with (name_field (t_name t)). unfold name_field, lenZ, PNMLEN.
        rewrite length_app, length_take, length_replicate. lia.
      * simpl. by rewrite !lenZ_updZ.
    + apply (slots_left n k k' pid p Hsl); [|done]. intros i Hne. by rewrite Ept, nthZ_updZ_ne by congruence.
    + rewrite fn_lookup_insert. unfold leftover, room_for. fold R. rewrite HR in *. destruct n as [|n]; [by left|].
      right. rewrite (proj2 (Z.eqb_neq _ _)) by lia. do 2 eexists. split; [done|]. simpl. lia.
  - do 3 (split; [done|]). split; [by apply created_runs|done].
Qed.

Lemma can_start_frame n k k' L FL :
  can_start n k L FL -> proctab k' = proctab k -> queuetab k' = queuetab k -> nextqueue k' = nextqueue k ->
  locktab k' = locktab k -> readylist k' = readylist k -> currpid k' = currpid k -> lenZ (cpsr k') = lenZ (cpsr k) ->
  regfile k' = regfile k -> promote_medium k' = promote_medium k -> promote_low k' = promote_low k ->
  preempt k' = preempt k -> freelist k' = freelist k -> memheap k' = memheap k -> maxaddr k' = maxaddr k ->
  memory k' = memory k -> nextpid k' = nextpid k -> can_start n k' L FL.
Proof.
  intros [Hi Hhs Hsh Hnp Hsl Hrm] E1 E2 E3 E4 E5 E6 E7 E8 E9 E10 E11 E12 E13 E14 E15 E16.
  constructor; try done; rewrite ?E16; try done.
  - apply (kinv_frame wf RQ settled k); by rewrite ?E9, ?E10, ?E11.
  - apply (heaps_wf_frame k); try done. intros x _. by rewrite E15.
  - destruct Hsh as [Hsh Hrf]. split; [intros i p; rewrite E1; apply Hsh|rewrite E8; exact Hrf].
  - destruct Hsl as (l & ? & ? & Hf). exists l. split; [done|]. split; [done|]. eapply Forall_impl; [exact Hf|].
    intros i. unfold slot_free. by rewrite E1.
Qed.

(** A task in a ready list of core 0. *)
Definition ready_task (k : kernel) (pid : Z) (t : task) : Prop :=
  exists q, nthZ (proctab k) pid = Some q /\ runs t q /\ p_state q = PRREADY /\ p_core_affinity q = 0.

(** What has happened to the tables when [pid] has been started for [t]. *)
Record joined (pid : Z) (t : task) (k k' : kernel) : Prop := {
  jn_fresh : slot_free k pid;
  jn_entry : ready_task k' pid t;
  jn_others : forall y, y <> pid -> nthZ (proctab k') y = nthZ (proctab k) y;
  jn_current : currpid k' = currpid k;
  jn_devs : devs k' = devs k;
  jn_locks : locktab k' = locktab k
}.

(** The end of the list of [priority] on core 0. *)
Definition push (pid priority : Z) (L : Z -> list Z) : Z -> list Z :=
  <[RQ 0 priority := L (RQ 0 priority) ++ [pid]]> L.

(** [spawn] of a task up to the point where it may reschedule. *)
Lemma spawn_prefix n k L FL t name args resch im :
  can_start (S n) k L FL -> prio (t_priority t) -> cstr name (t_name t) -> lenZ args <= 3 -> nthZ (cpsr k) 0 = Some im ->
  exists pid k' FL',
    start (spawn 0 (t_func t) (t_priority t) name (t_arg t :: args) resch) k =
      start ((if resch then resched 0 else tret OK) ;;== lift (restore 0 im ;;; ret OK)) k' /\
    can_start n k' (push pid (t_priority t) L) FL' /\ joined pid t k k' /\
    cpsr k' = updZ 0 (Z.lor im ARM_I_BIT) (cpsr k).
Proof.
  intros Hcs Hpr Hname Hargs Him.
  destruct (create_task n k L FL t name args Hcs Hpr Hname Hargs) as
    (pid & k1 & FL' & q & p & Hrun & Hcs1 & Hp & Hpf & Ept & Hq & Hqs & Hqa & E2 & E3 & E4 & E5).
  pose proof Hcs1 as [Hi Hhs [Hsh Hrf] Hnp Hsl Hrm]. pose proof (nthZ_Some_lt _ _ _ Hp) as Hlt.
  assert (nthZ (proctab k1) pid = Some q) as Hq1 by (by rewrite Ept, nthZ_updZ_eq).
  assert (home q 0 = 0) as Hh by (unfold home; by rewrite Hqa).
  destruct (ready_prefix wf RQ 0 k1 L pid q resch 0 im Hi) as (tab & Hready & Hi'); try done;
    [by rewrite E3|rewrite Hqs; klia..|by eapply (not_queued wf RQ settled); [done|exact Hq1|klia|klia]|by rewrite Hh|].
  rewrite Hh in Hready, Hi'. destruct Hq as (Hq & Hqr). rewrite Hq in Hi'.
  set (k' := set_cpsr _ _) in *. exists pid, k', FL'. split; [|split; [|split]].
  - unfold spawn. rewrite (start_lift_Ret _ _ _ _ _ Hrun), Hready. by destruct resch.
  - destruct Hsl as (l & Hl & Hn & Hf). constructor; try done.
    + eapply heaps_wf_frame; [..|exact Hhs]; done.
    + split; [|exact Hrf]. intros i p0 [[-> ->]|Hp0]%nthZ_updZ_inv; [by apply (Hsh pid q)|by apply (Hsh i)].
    + exists l. split; [done|]. split; [done|]. eapply Forall_impl; [exact Hf|]. intros i (p0 & Hp0 & Hs).
      exists p0. split; [|done]. simpl. rewrite nthZ_updZ_ne; [done|]. intros <-. replace p0 with q in Hs by congruence. klia.
  - constructor; try done; [by exists p| |].
    + exists (readied 0 q). split; [|done]. simpl. apply nthZ_updZ_eq. by rewrite Ept, lenZ_updZ.
    + intros y Hy. simpl. rewrite nthZ_updZ_ne, Ept, nthZ_updZ_ne by congruence. done.
  - simpl. by rewrite E3.
Qed.

Lemma spawn_run n k L FL t name args :
  can_start (S n) k L FL -> prio (t_priority t) -> cstr name (t_name t) -> lenZ args <= 3 ->
  exists pid k' FL', start (spawn 0 (t_func t) (t_priority t) name (t_arg t :: args) false) k = Ret (inl OK, k') /\
    can_start n k' (push pid (t_priority t) L) FL' /\ joined pid t k k' /\ cpsr k' = cpsr k.
Proof.
  intros Hcs Hpr Hname Hargs. pose proof (cs_sched _ _ _ _ Hcs) as Hi.
  destruct (nthZ_lt_Some (cpsr k) 0) as [im Him]; [by rewrite (si_cpsr _ _ _ _ _ Hi)|].
  destruct (spawn_prefix n k L FL t name args false im Hcs Hpr Hname Hargs Him) as
    (pid & k' & FL' & Hrun & Hcs' & Hj & Ec). pose proof (nthZ_Some_lt _ _ _ Him) as Hlt.
  exists pid, (set_cpsr (cpsr k) k'), FL'. split; [|split; [|split; [|done]]].
  - rewrite Hrun. rewrite (start_bind_inl _ _ _ OK k') by done. rewrite start_lift, restore_run by (by rewrite Ec, lenZ_updZ).
    rewrite restored_masked by (rewrite Ec; by apply nthZ_updZ_eq). by rewrite Ec, updZ_updZ, (updZ_id 0 im) by done.
  - apply (can_start_frame n k'); try done. simpl. by rewrite Ec, lenZ_updZ.
  - by destruct Hj.
Qed.

Lemma spec_high cur back s y h new s' :
  a_high s = y :: h -> spec_resched cur back s = Some (new, s') -> new = y.
Proof.
  intros E. assert (exists h', a_high (age s) = y :: h') as [h' E'].
  { unfold age, promote_lo, promote_med, with_counters. destruct (u32 (a_pm s - 1) <=? 0), (u32 (a_pl s - 1) <=? 0),
      (a_med s); cbn; try destruct (a_low s); try destruct l; cbn; rewrite E; by eexists. }
  unfold spec_resched, select. destruct back as [q|].
  - unfold requeue. destruct (q =? PRIORITY_HIGH); [|destruct (q =? PRIORITY_MED)]; cbn; rewrite E'; cbn; congruence.
  - rewrite E'. congruence.
Qed.

Lemma spec_low cur back s y l new s' :
  a_high s = [] -> a_med s = [] -> a_low s = y :: l -> back = None \/ back = Some PRIORITY_LOW ->
  spec_resched cur back s = Some (new, s') -> new = y /\ a_high s' = [].
Proof.
  destruct s as [h m lo pm pl]. cbn. intros -> -> -> Hb. unfold spec_resched, age, promote_lo, promote_med, with_counters. cbn.
  destruct Hb as [-> | ->]; destruct (u32 (pm - 1) <=? 0), (u32 (pl - 1) <=? 0); unfold requeue, select; cbn;
    intros [= <- <-]; done.
Qed.

Lemma loaded_task t q ip : runs t q -> lenZ (p_regs q) = PREGS ->
  nthZ (loaded_regs (p_regs q) ip) 0 = Some (t_arg t) /\
  nthZ (loaded_regs (p_regs q) ip) PREG_PC = Some (s32 (t_func t)) /\
  nthZ (loaded_regs (p_regs q) ip) PREG_LR = Some (s32 userret_addr).
Proof.
  intros (_ & _ & H1 & H2 & H3) Hl. unfold loaded_regs. rewrite H2, H3.
  destruct (p_regs q) as [|r0 [|r1 [|r2 [|r3 [|r4 [|r5 [|r6 [|r7 [|r8 [|r9 [|r10 [|r11 l]]]]]]]]]]]]; try done.
Qed.

(** Process [pid] has got core 0 and is about to run the task. *)
Definition running_task (k : kernel) (pid : Z) (t : task) : Prop :=
  nthZ (currpid k) 0 = Some pid /\
  (exists q, nthZ (proctab k) pid = Some q /\ runs t q /\ p_state q = PRCURR) /\
  exists r, nthZ (regfile k) 0 = Some r /\ nthZ r 0 = Some (t_arg t) /\ nthZ r PREG_PC = Some (s32 (t_func t)) /\
    nthZ r PREG_LR = Some (s32 userret_addr).

(** The scheduler's decision on core 0. *)
Definition decides (k : kernel) (L : Z -> list Z) (new : Z) (s' : acore) : Prop :=
  exists x p, nthZ (currpid k) 0 = Some x /\ nthZ (proctab k) x = Some p /\
    spec_resched x (if PRCURR =? p_state p then Some (p_priority p) else None) (abs RQ k L 0) = Some (new, s').

(** A task that is chosen gets the core; the others stay ready. *)
Lemma task_runs n k L FL y t :
  can_start n k L FL -> ready_task k y t -> (forall new s', decides k L new s' -> new = y) ->
  exists im k' s', start (resched 0) k = Ret (inr (resched_rest 0 im), k') /\
    can_start n k' (setq RQ 0 s' L) FL /\ decides k L y s' /\
    running_task k' y t /\ devs k' = devs k /\ locktab k' = locktab k /\
    (forall z u, z <> y -> ready_task k z u -> ready_task k' z u).
Proof.
  intros [Hi Hhs Hsh Hnp Hsl Hrm] (q & Hq & Hpq & Hqs & Hqa) Hdec. assert (core 0) as Hc by done.
  destruct (si_cur _ _ _ _ _ Hi 0 Hc) as (x & p & Hx & Hp & _ & Hnr & _).
  destruct (resched_out_run wf RQ settled 0 k L x p Hi Hc Hx Hp Hnr)
    as (im & r & new & s' & tab & pt & pn & Him & Hr & Hspec & Hpt & Hpn & Hout & Hwf).
  assert (decides k L new s') as Hd by (by exists x, p). pose proof (Hdec new s' Hd) as ->.
  pose proof (resched_inv wf RQ settled 0 k L x p y s' Hi Hc (or_intror eq_refl) Hx Hp Hnr Hspec _ im pn pt tab Hpt Hwf) as Hi'.
  assert (forall z pz, nthZ (proctab k) z = Some pz -> z <> x ->
    nthZ pt z = Some (set_p_state (if z =? y then PRCURR else p_state pz) pz)) as Hent.
  { intros z pz Hz Hne. rewrite Hpt, Hz. simpl. unfold switched. by rewrite (proj2 (Z.eqb_neq z x) Hne). }
  assert (y <> x) as Hyx by (intros ->; congruence).
  pose proof (Hent y q Hq Hyx) as Hy. rewrite Z.eqb_refl in Hy.
  destruct (frame_switch 0 im x y pn pt s' tab k r _ Hr Hpn Hpt) as [Hf1 _ _ Hf2 _].
  exists im, (after_switch 0 im y pn pt s' tab k), s'.
  split; [by apply resched_start|]. split; [|split; [done|split; [|split; [done|split; [done|]]]]].
  - constructor; [done|by apply Hf1|by apply Hf2|done| |done].
    destruct Hsl as (l & Hl & Hn & Hf). exists l. split; [done|]. split; [done|]. eapply Forall_impl; [exact Hf|].
    intros z (pz & Hz & Hzf). assert (z <> x) as Hzx.
    { intros ->. destruct (si_cur _ _ _ _ _ Hi 0 Hc) as (x' & p' & Hx' & Hp' & _ & _ & Hcur).
      assert (x' = x) as -> by congruence. replace p' with pz in Hcur by congruence.
      unfold core, settled in *. specialize (Hcur ltac:(lia)). klia. }
    exists (set_p_state (p_state pz) pz). split; [|done]. simpl. rewrite (Hent z pz Hz Hzx).
    by rewrite (proj2 (Z.eqb_neq z y)) by (intros ->; replace pz with q in Hzf by congruence; klia).
  - assert (pn = set_p_state PRCURR q) as -> by congruence. split; [|split].
    + simpl. apply nthZ_updZ_eq. by rewrite (si_currpid _ _ _ _ _ Hi).
    + exists (set_p_state PRCURR q). done.
    + eexists. split; [simpl; apply nthZ_updZ_eq; by rewrite (si_regfile _ _ _ _ _ Hi)|].
      apply (loaded_task t q _ Hpq), (proj1 Hsh y q Hq).
  - intros z u Hzy (qz & Hz & Hpz & Hzs & Hza). exists (set_p_state PRREADY qz). split; [|done].
    assert (z <> x) as Hzx by (intros ->; congruence).
    pose proof (Hent z qz Hz Hzx) as He. by rewrite (proj2 (Z.eqb_neq z y) Hzy), Hzs in He.
Qed.

Lemma joined_keeps pid t k k' z u : joined pid t k k' -> z <> pid -> ready_task k z u -> ready_task k' z u.
Proof. intros Hj Hz (q & Hq & Hr). exists q. split; [|done]. by rewrite (jn_others _ _ _ _ Hj z Hz). Qed.

(** The slot of a started task is not free. *)
Lemma joined_new pid t k k' z u : joined pid t k k' -> ready_task k z u -> z <> pid.
Proof.
  intros Hj (q & Hq & _ & Hs & _) ->. destruct (jn_fresh _ _ _ _ Hj) as (p & Hp & Hf).
  replace p with q in Hf by congruence. klia.
Qed.

Lemma joined_slots pid t k k' z : joined pid t k k' -> slot_free k' z -> slot_free k z.
Proof.
  intros Hj (p & Hp & Hs). destruct (decide (z = pid)) as [->|Hne]; [apply Hj|].
  exists p. split; [|done]. by rewrite <- (jn_others _ _ _ _ Hj z Hne).
Qed.

Lemma push_other k L pid q q' : rq_ok RQ k -> prio q -> prio q' -> q <> q' -> push pid q L (RQ 0 q') = L (RQ 0 q').
Proof. intros Hr H1 H2 Hne. unfold push. rewrite fn_lookup_insert_ne; [done|]. by apply (rq_ne RQ k). Qed.
End Starting.

(** ** The priority test *)

Lemma cstr_lit s : Forall (fun c => c <> 0) (chars s) -> cstr (lit s) (chars s).
Proof. intros Hs. split; [by exists []|done]. Qed.

Lemma nodup3 (a b c : Z) : a <> b -> a <> c -> b <> c -> NoDup [a; b; c].
Proof. intros H1 H2 H3. repeat apply NoDup_cons_2; try apply NoDup_nil_2; set_solver. Qed.

Section PriorityTest.
Context (wf : kernel -> (Z -> list Z) -> Prop) `{!FifoQueues wf} (RQ : Z -> Z -> Z).
Context `{Layout} `{Uninit} (printpid_addr : Z).
Local Abbreviation kinv := (sched_inv wf RQ).

(** A process that is to run [printpid(5)]. *)
Definition printer (priority : Z) (name : list Z) : task := mkTask printpid_addr 5 priority name.

(** Three printers are started, the last call reschedules, and the one of
    high priority runs. *)
Lemma printers_start k L FL na nb nc wa wb wc :
  cstr na wa -> cstr nb wb -> cstr nc wc -> can_start wf RQ 3 k L FL -> L (RQ 0 PRIORITY_HIGH) = [] ->
  exists a b c k' L' rest,
    start (spawn 0 printpid_addr PRIORITY_HIGH na [5] false ;;==
           spawn 0 printpid_addr PRIORITY_MED nb [5] false ;;==
           spawn 0 printpid_addr PRIORITY_LOW nc [5] true ;;== tret tt) k =
      Ret (inr (rest ;;== tret tt), k') /\ quiet rest /\ kinv settled k' L' /\
    slot_free k a /\ slot_free k b /\ slot_free k c /\ NoDup [a; b; c] /\
    running_task k' a (printer PRIORITY_HIGH wa) /\
    ready_task k' b (printer PRIORITY_MED wb) /\ ready_task k' c (printer PRIORITY_LOW wc) /\
    devs k' = devs k.
Proof.
  intros Hna Hnb Hnc Hcs HL.
  destruct (spawn_run wf RQ 2 k L FL (printer PRIORITY_HIGH wa) na [] Hcs) as (a & k1 & FL1 & R1 & C1 & J1 & _); [done..|].
  destruct (spawn_run wf RQ 1 k1 _ FL1 (printer PRIORITY_MED wb) nb [] C1) as (b & k2 & FL2 & R2 & C2 & J2 & _); [done..|].
  destruct (nthZ_lt_Some (cpsr k2) 0) as [im Him]; [by rewrite (si_cpsr _ _ _ _ _ (cs_sched _ _ _ _ _ _ C2))|].
  destruct (spawn_prefix wf RQ 0 k2 _ FL2 (printer PRIORITY_LOW wc) nc [] true im C2)
    as (c & k3 & FL3 & R3 & C3 & J3 & _); [done..|].
  pose proof (joined_new _ _ _ _ _ _ J2 (jn_entry _ _ _ _ J1)) as Hab.
  pose proof (joined_keeps _ _ _ _ _ _ J2 Hab (jn_entry _ _ _ _ J1)) as Ha2.
  pose proof (joined_new _ _ _ _ _ _ J3 Ha2) as Hac.
  pose proof (joined_new _ _ _ _ _ _ J3 (jn_entry _ _ _ _ J2)) as Hbc.
  pose proof (si_rq _ _ _ _ _ (cs_sched _ _ _ _ _ _ Hcs)) as Hrq. cbn [t_priority printer] in *.
  set (L3 := push RQ c PRIORITY_LOW _) in *.
  assert (L3 (RQ 0 PRIORITY_HIGH) = [a]) as HL3.
  { unfold L3. rewrite !(push_other RQ k) by (done || unfold prio; klia). unfold push. by rewrite fn_lookup_insert, HL. }
  destruct (task_runs wf RQ 0 k3 L3 FL3 a (printer PRIORITY_HIGH wa) C3) as (im3 & k4 & s4 & Hsw & C4 & _ & Hpr & Ed & _ & Hkeep).
  { by apply (joined_keeps _ _ _ _ _ _ J3). }
  { intros new s' (x & p & _ & _ & Hs). exact (spec_high _ _ (abs RQ k3 L3 0) a [] new s' HL3 Hs). }
  exists a, b, c, k4, (setq RQ 0 s4 L3), (resched_rest 0 im3 ;;== lift (restore 0 im ;;; ret OK)).
  assert (slot_free k b) as Hfb by apply (joined_slots _ _ _ _ _ J1), J2.
  assert (slot_free k c) as Hfc by apply (joined_slots _ _ _ _ _ J1), (joined_slots _ _ _ _ _ J2), J3.
  split; [|split; [by apply quiet_restore, resched_rest_quiet|split; [apply C4|]]].
  - rewrite (start_bind_inl _ _ _ _ _ R1), (start_bind_inl _ _ _ _ _ R2), (start_bind_eq _ _ _ _ _ R3).
    by apply start_bind_inr, start_bind_inr.
  - split; [apply J1|]. split; [done|]. split; [done|]. split; [by apply nodup3|]. split; [done|].
    split; [apply Hkeep; [congruence|]; by apply (joined_keeps _ _ _ _ _ _ J3), J2|].
    split; [apply Hkeep; [congruence|apply J3]|].
    by rewrite Ed, (jn_devs _ _ _ _ J3), (jn_devs _ _ _ _ J2), (jn_devs _ _ _ _ J1).
Qed.

(** The test has given up the core to the first printer, from [k]; [rest] is
    what is left of it. *)
Record test_started (k : kernel) (rest : thread unit) (k' : kernel) : Prop := {
  ts_sched : exists L', kinv settled k' L';
  ts_printers : exists a b c,
    slot_free k a /\ slot_free k b /\ slot_free k c /\ NoDup [a; b; c] /\
    running_task k' a (printer PRIORITY_HIGH (chars "PRINTER-A")) /\
    ready_task k' b (printer PRIORITY_MED (chars "PRINTER-B")) /\
    ready_task k' c (printer PRIORITY_LOW (chars "PRINTER-C"));
  ts_console : devs k' = devs (taken (console_out menu k));
  ts_rest : forall k2, lenZ (cpsr k2) = NCORES -> serial_free k2 ->
    exists ps, start rest k2 = Ret (inl tt, console_out farewell (set_cpsr ps k2))
}.

(** When [0] is typed and core 0 has three free process slots, room in its
    first free block for three stacks and no process of high priority waiting,
    the test starts its printers and gives up the core. *)
Lemma testcases_start k L FL x l :
  can_start wf RQ 3 k L FL -> L (RQ 0 PRIORITY_HIGH) = [] ->
  unget_ok k -> serial_free k -> pending_in k = x :: l -> u8 x = chr "0" ->
  exists rest k', start (testcases printpid_addr 0) k = Ret (inr rest, k') /\ test_started k rest k'.
Proof.
  intros Hcs HL Hu Hs Hp Hx.
  assert (can_start wf RQ 3 (taken (console_out menu k)) L FL) as Hcs0 by (by apply (can_start_frame wf RQ 3 k)).
  destruct (printers_start _ L FL _ _ _ _ _ _ (cstr_lit "PRINTER-A" ltac:(plainly)) (cstr_lit "PRINTER-B" ltac:(plainly))
    (cstr_lit "PRINTER-C" ltac:(plainly)) Hcs0 HL) as (a & b & c & k' & L' & rest & Hrun & Hq & Hi & Hrest).
  eexists _, k'. split.
  - unfold testcases. rewrite (testcases_asks 0 k x l _ Hu Hs Hp). cbv zeta.
    rewrite (proj2 (Z.eqb_eq _ _) Hx). apply start_bind_inr. exact Hrun.
  - destruct Hrest as (H1 & H2 & H3 & H4 & H5 & H6 & H7 & H8).
    constructor; [by exists L'|by exists a, b, c|done|]. intros k2 Hk2 Hs2. destruct (Hq k2 Hk2) as (ps & _ & Hr). exists ps.
    rewrite (start_bind_inl _ _ _ tt (set_cpsr ps k2)) by (by rewrite (start_bind_inl _ _ _ _ _ Hr)).
    rewrite start_lift. by say.
Qed.

End PriorityTest.
