(* ===== verification/Startup.v ===== *)
(** * From the loader to the tests

    [nulluser] brings the system up and creates the first process; the next
    turn of its loop lets that process run, and [main] starts the tests.
    Here the start of Init and the programs of Programs are put together. *)

From Stdlib Require Import Ascii String.
From stdpp Require Import base numbers functions list gmap.
From S2P Require Import Prelude Kernel Spinlock Queue Memory CString Doprnt Kio Thread Proc ProcOps Message Interrupt.
From S2P Require Import Effects Checks Init Programs.

(** ** Operations that only touch devices *)

(** What is typed and where the console's lock is have not changed. *)
Record same_console (d d' : devices) : Prop := {
  sc_unget : ungetArray d' = ungetArray d;
  sc_bufp : bufp d' = bufp d;
  sc_rx : uart_rx d' = uart_rx d;
  sc_serial : serial_lock d' = serial_lock d;
  sc_family : family d' = family d;
  sc_name : plt_name d' = plt_name d;
  sc_start : lenZ (corestart d') = lenZ (corestart d);
  sc_args : lenZ (init_args d') = lenZ (init_args d)
}.

Definition only_devs (k k' : kernel) : Prop := k' = set_devs (devs k') k /\ same_console (devs k) (devs k').

#[export] Instance only_devs_preorder : PreOrder only_devs.
Proof.
  split; [intros k; split; [by destruct k|done]|]. intros k k1 k2 [E1 []] [E2 []].
  split; [rewrite E2, E1; by destruct k|constructor; congruence].
Qed.

Lemma only_devs_out s k : only_devs k (console_out s k).
Proof. done. Qed.

Lemma only_devs_serial k k' : only_devs k k' -> serial_free k -> serial_free k'.
Proof. intros [E []] [H1 H2]. unfold serial_free, at_rest in *. rewrite E. cbn. by rewrite sc_serial0. Qed.

(** [m] returns from [k], having changed devices only. *)
Definition shows {A} (m : K A) (k : kernel) : Prop := exists a k', m k = Ret (a, k') /\ only_devs k k'.

Lemma shows_bind {A B} (m : K A) (f : A -> K B) k :
  shows m k -> (forall a k', only_devs k k' -> shows (f a) k') -> shows (bind m f) k.
Proof.
  intros (a & k1 & H1 & D1) Hf. destruct (Hf a k1 D1) as (b & k2 & H2 & D2).
  exists b, k2. split; [by rewrite (bind_Ret _ _ _ _ _ H1)|by etrans].
Qed.

Lemma shows_gets {A B} (f : kernel -> A) (c : A -> K B) k : shows (c (f k)) k -> shows (bind (gets f) c) k.
Proof. intros (b & k' & H' & D'). exists b, k'. by rewrite bind_gets. Qed.

Definition printable (format : list Z) (ap : list varg) : Prop := exists out, formats format ap out.

Lemma shows_kprintf `{Uninit} cpu format ap k : serial_free k -> printable format ap -> shows (kprintf cpu format ap) k.
Proof. intros [Hl Hr] [out Hf]. do 2 eexists. split; [by apply kprintf_run|apply only_devs_out]. Qed.

(** *** The formats of [print_os_info] *)

Lemma printable_items items format ap :
  Forall item_ok items -> format = concat (item_text <$> items) ++ [0] -> ap = concat (item_args <$> items) ->
  printable format ap.
Proof. intros Hok -> ->. eexists. exists items, [], []. by rewrite app_nil_r. Qed.

Lemma lits_ok s : plain s -> Forall item_ok (Lit <$> s).
Proof. intros Hs. by apply Forall_fmap. Qed.

Lemma printable_plain s : plain s -> printable (s ++ [0]) [].
Proof. intros Hs. eexists. by apply formats_plain. Qed.

(** A number in ten columns and a text. *)
Lemma printable_bytes w t : 0 <= w < 2 ^ 31 -> plain t -> printable (chars "%10d" ++ t ++ [0]) [VInt w].
Proof.
  intros Hw Ht. destruct (lits_text t) as (E1 & E2 & E3).
  apply (printable_items (Dir (mkDirective [] (WNum 10) PNone REGULAR_SIZE (CSigned w)) :: (Lit <$> t))).
  - apply Forall_cons_2; [|by apply lits_ok]. repeat split; lia.
  - cbn. by rewrite E1.
  - cbn. by rewrite E2.
Qed.

(** An address range. *)
Lemma printable_range a b s : 0 <= a < 2 ^ 32 -> 0 <= b < 2 ^ 32 -> plain s ->
  printable (chars "           [0x%08X to 0x%08X" ++ s ++ [0]) [VInt a; VInt b].
Proof.
  intros Ha Hb Hs. destruct (lits_text s) as (E1 & E2 & E3).
  assert (forall v, 0 <= v < 2 ^ 32 -> item_ok (Dir (mkDirective [false] (WNum 8) PNone REGULAR_SIZE (CUnsigned TUX v)))) as Hok
    by (intros v Hv; repeat split; simpl; lia).
  apply (printable_items ((Lit <$> chars "           [0x") ++
    Dir (mkDirective [false] (WNum 8) PNone REGULAR_SIZE (CUnsigned TUX a)) :: (Lit <$> chars " to 0x") ++
    Dir (mkDirective [false] (WNum 8) PNone REGULAR_SIZE (CUnsigned TUX b)) :: (Lit <$> s))).
  - apply Forall_app. split; [apply lits_ok; plainly|]. apply Forall_cons_2; [by apply Hok|].
    apply Forall_app. split; [apply lits_ok; plainly|]. apply Forall_cons_2; [by apply Hok|by apply lits_ok].
  - rewrite !fmap_app, !concat_app, !fmap_cons, !concat_cons, !fmap_app, !concat_app, !fmap_cons, !concat_cons, E1.
    by rewrite <- !app_assoc.
  - rewrite !fmap_app, !concat_app, !fmap_cons, !concat_cons, !fmap_app, !concat_app, !fmap_cons, !concat_cons, E2. done.
Qed.

(** The platform. *)
Lemma printable_platform f wf n wn : cstr f wf -> lenZ wf < 2 ^ 30 -> cstr n wn -> lenZ wn < 2 ^ 30 ->
  printable (chars "Detected platform as: %s, %s" ++ [13; 10; 13; 10; 0]) [VStr f; VStr n].
Proof.
  intros Hf Hlf Hn Hln.
  apply (printable_items ((Lit <$> chars "Detected platform as: ") ++ Dir (plain_dir (CStr f wf)) ::
    (Lit <$> chars ", ") ++ Dir (plain_dir (CStr n wn)) :: (Lit <$> [13; 10; 13; 10]))).
  - apply Forall_app. split; [apply lits_ok; plainly|]. apply Forall_cons_2; [done|].
    apply Forall_app. split; [apply lits_ok; plainly|]. apply Forall_cons_2; [done|apply lits_ok; plainly].
  - reflexivity.
  - reflexivity.
Qed.

(** *** [print_os_info] and [unparkcore] *)

Record os_ok (k : kernel) : Prop := {
  os_serial : serial_free k;
  os_family : cstr (family (devs k)) platform_family;
  os_name : cstr (plt_name (devs k)) platform_name
}.

Lemma os_ok_devs k k' : only_devs k k' -> os_ok k -> os_ok k'.
Proof.
  intros Hd [H1 H2 H3]. pose proof (only_devs_serial _ _ Hd H1). destruct Hd as [_ []]. constructor; [done|..]; congruence.
Qed.

Lemma shows_print `{Uninit} {B} cpu format ap (c : K B) k :
  os_ok k -> printable format ap -> (forall k', only_devs k k' -> os_ok k' -> shows c k') ->
  shows (kprintf cpu format ap ;;; c) k.
Proof.
  intros Hk Hp Hc. apply shows_bind; [apply shows_kprintf; [apply Hk|done]|]. intros _ k' Hd.
  apply Hc; [done|by eapply os_ok_devs].
Qed.

Ltac print_plain s := apply shows_print; [done|apply (printable_plain s); plainly|].
Ltac print_bytes t := apply shows_print; [done|apply (printable_bytes _ t); [|plainly]|].
Ltac print_range s := apply shows_print; [done|apply (printable_range _ _ s); [| |plainly]|].

Section OsInfo.
Context `{Layout} `{Uninit}.
Context (Hlay : 0 <= start_addr <= end_addr).

(** The memory map, for the end [mx] of the memory and the start [mh] of the heap. *)
Lemma print_map_shows cpu mx mh k :
  os_ok k -> end_addr <= mh <= mx -> mx < 2 ^ 31 ->
  shows (
    kprintf cpu (chars "%10d bytes physical memory." ++ [13; 10; 0]) [VInt mx] ;;;
    kprintf cpu (chars "           [0x%08X to 0x%08X]" ++ [13; 10; 0]) [VInt 0; VInt (u32 (mx - 1))] ;;;
    kprintf cpu (chars "%10d bytes reserved system area." ++ [13; 10; 0]) [VInt start_addr] ;;;
    kprintf cpu (chars "           [0x%08X to 0x%08X]" ++ [13; 10; 0]) [VInt 0; VInt (u32 (start_addr - 1))] ;;;
    kprintf cpu (chars "%10d bytes Xinu code." ++ [13; 10; 0]) [VInt (u32 (end_addr - start_addr))] ;;;
    kprintf cpu (chars "           [0x%08X to 0x%08X]" ++ [13; 10; 0]) [VInt start_addr; VInt (u32 (end_addr - 1))] ;;;
    kprintf cpu (chars "%10d bytes stack space." ++ [13; 10; 0]) [VInt (u32 (mh - end_addr))] ;;;
    kprintf cpu (chars "           [0x%08X to 0x%08X]" ++ [13; 10; 0]) [VInt end_addr; VInt (u32 (mh - 1))] ;;;
    kprintf cpu (chars "%10d bytes heap space." ++ [13; 10; 0]) [VInt (u32 (mx - mh))] ;;;
    kprintf cpu (chars "           [0x%08X to 0x%08X]" ++ [13; 10; 13; 10; 0]) [VInt mh; VInt (u32 (mx - 1))] ;;;
    kprintf cpu [13; 10; 0] [] ;;;
    ret tt) k.
Proof.
  intros Hk Hmh Hmx. assert (forall v, 0 <= u32 v < 2 ^ 32) as Hu by (intros v; apply wrap_range; lia).
  rewrite (wrap_small 32 (end_addr - start_addr)), (wrap_small 32 (mh - end_addr)), (wrap_small 32 (mx - mh)) by lia.
  print_bytes (chars " bytes physical memory." ++ [13; 10]); [lia|]. clear Hk. intros k1 _ Hk.
  print_range (chars "]" ++ [13; 10]); [lia|done|]. clear Hk. intros k2 _ Hk.
  print_bytes (chars " bytes reserved system area." ++ [13; 10]); [lia|]. clear Hk. intros k3 _ Hk.
  print_range (chars "]" ++ [13; 10]); [lia|done|]. clear Hk. intros k4 _ Hk.
  print_bytes (chars " bytes Xinu code." ++ [13; 10]); [lia|]. clear Hk. intros k5 _ Hk.
  print_range (chars "]" ++ [13; 10]); [lia|done|]. clear Hk. intros k6 _ Hk.
  print_bytes (chars " bytes stack space." ++ [13; 10]); [lia|]. clear Hk. intros k7 _ Hk.
  print_range (chars "]" ++ [13; 10]); [lia|done|]. clear Hk. intros k8 _ Hk.
  print_bytes (chars " bytes heap space." ++ [13; 10]); [lia|]. clear Hk. intros k9 _ Hk.
  print_range (chars "]" ++ [13; 10; 13; 10]); [lia|done|]. clear Hk. intros k10 _ Hk.
  print_plain [13; 10]. intros k11 _ _. by exists tt, k11.
Qed.

Lemma print_os_info_shows s cpu k :
  os_ok k -> plain s -> end_addr <= memheap k <= maxaddr k -> maxaddr k < 2 ^ 31 ->
  shows (print_os_info (s ++ [0]) cpu) k.
Proof.
  intros Hk Hs Hmh Hmx. unfold print_os_info.
  apply shows_print; [done|by apply printable_plain|]. intros k1 D1 Hk1.
  print_plain [13; 10; 13; 10]. intros k2 D2 Hk2. apply shows_gets, shows_gets.
  apply shows_print; [done|eapply printable_platform; [apply Hk2|done|apply Hk2|done]|]. intros k3 D3 Hk3.
  assert (maxaddr k3 = maxaddr k /\ memheap k3 = memheap k) as [E1 E2].
  { destruct D3 as [-> _], D2 as [-> _], D1 as [-> _]. done. }
  apply shows_gets, shows_gets. rewrite E1, E2. by apply print_map_shows.
Qed.

Lemma unparkcore_shows num procaddr args k :
  0 < num < 4 -> lenZ (corestart (devs k)) = 4 -> lenZ (init_args (devs k)) = 4 ->
  shows (unparkcore num procaddr args) k.
Proof.
  intros Hn H1 H2. unfold shows, unparkcore. rewrite (proj2 (Z.ltb_lt 0 num)), (proj2 (Z.ltb_lt num 4)) by lia. cbn [andb]. cbv iota.
  destruct (nthZ_lt_Some (corestart (devs k)) num) as [a Ha]; [lia|].
  destruct (nthZ_lt_Some (init_args (devs k)) num) as [b Hb]; [lia|].
  rewrite (bind_Ret (rd_dev corestart num) _ _ a k) by (unfold rd_dev; by rewrite Ha).
  unfold upd_devs at 1. rewrite bind_modify.
  rewrite (bind_Ret (rd_dev init_args num) _ _ b (set_devs (set_corestart (updZ num procaddr (corestart (devs k))) (devs k)) k))
    by (unfold rd_dev; cbn; by rewrite Hb).
  do 2 eexists. split; [done|]. split; [done|]. constructor; try done; cbn; apply lenZ_updZ.
Qed.
End OsInfo.

(** ** The booted kernel can start processes *)

(** Each core has room for more than 400 kilobytes of stacks. *)
Lemma heap_len_large mh mx : 0 < mh -> mh + 0x200000 <= mx -> mx < 2 ^ 31 -> 4 * 65536 <= heap_len mh mx.
Proof.
  intros H1 H2 H3. unfold heap_len. rewrite swrap_small by (change (2 ^ (32 - 1)) with (2 ^ 31); lia).
  unfold NCORES. rewrite Z.quot_div_nonneg by lia.
  assert (0x80000 <= (mx - mh) / 4) by (apply Z.div_le_lower_bound; lia).
  assert ((mx - mh) / 4 <= mx - mh) by (apply Z.div_le_upper_bound; lia).
  rewrite wrap_small by lia. destruct (truncmb_spec ((mx - mh) / 4)); lia.
Qed.

Section Start.
Context `{Layout} `{Uninit}.
Context (mh : Z) (m : gmap Z Z) (ps : list Z) (rf : list (list Z)) (d : devices).
Context (Hd : devices_ok d) (Hps : lenZ ps = NCORES) (Hrf : lenZ rf = NCORES)
  (Hregs : Forall (fun r => lenZ r = PREGS) rf) (Hmh : 0 < mh <= 0x3E000000).
Context (Hstart : lenZ (corestart d) = 4) (Hargs : lenZ (init_args d) = 4) (Hlay : 0 <= start_addr <= end_addr)
  (Hend : end_addr <= mh).
Local Abbreviation k0 := (bss mh m ps rf d).

Lemma boot_can_start k QL RQ MQ L :
  sys_inv QL RQ MQ k L -> heaps_wf k (heap_free (roundmb mh) 0x3EFFFFF8) -> nextpid k = 0 ->
  Idx (fun i p => boot_entry i p) (proctab k) -> regfile k = rf ->
  can_start (queues_at QL) RQ 4 k L (heap_free (roundmb mh) 0x3EFFFFF8).
Proof using Hregs Hmh.
  intros [Hi _] Hhs Hn Hp Er. pose proof (fun i p => Idx_nthZ _ _ i p Hp) as Hpe.
  destruct (roundmb_spec mh) as (R1 & _ & _); [lia|]. constructor; try done.
  - split; [intros i p Hip; by destruct (Hpe i p Hip) as (? & ? & _)|]. rewrite Er. intros c r Hr.
    rewrite Forall_forall in Hregs. apply Hregs. unfold nthZ in Hr. destruct (0 <=? c); [|done].
    by eapply list_elem_of_lookup_2.
  - rewrite Hn. klia.
  - exists [4; 5; 6; 7]. split; [done|]. split; [plainly|]. apply Forall_forall. intros i Hin.
    assert (4 <= i < 8) as Hir by (rewrite !elem_of_cons, elem_of_nil in Hin; lia).
    destruct (nthZ_lt_Some (proctab k) i) as [p Hip]; [rewrite (si_proctab _ _ _ _ _ Hi); klia|].
    exists p. split; [done|]. destruct (Hpe i p Hip) as (_ & _ & _ & [?|[? _]]); [done|klia].
  - right. eexists _, []. split; [done|]. cbn [snd]. change (roundmb (stack_size INITSTK)) with 65536.
    apply heap_len_large; lia.
Qed.

(** The first process. *)
Definition main_task : task := mkTask main_addr 0 PRIORITY_LOW (chars "MAIN").

Lemma start_lift_assoc {A B C} (n : K A) (f : A -> thread B) (g : B -> thread C) k :
  start (tbind (tbind (lift n) f) g) k = start (tbind (lift n) (fun x => tbind (f x) g)) k.
Proof. simpl. destruct (n k) as [[a k']|]; [|done]. by destruct (f a). Qed.

(** [nulluser] up to the creation of the first process. *)
Lemma nulluser_prefix s : plain s -> exists k1 QL RQ L,
  start (nulluser (s ++ [0]) 0) k0 =
    start (spawn 0 main_addr PRIORITY_LOW (lit "MAIN") (0 :: [NULL]) false ;;== tret tt) k1 /\
  can_start (queues_at QL) RQ 4 k1 L (heap_free (roundmb mh) 0x3EFFFFF8) /\
  (forall q, prio q -> L (RQ 0 q) = []) /\ serial_free k1 /\ currpid k1 = [0; 1; 2; 3] /\
  (forall p, nthZ (proctab k1) 0 = Some p -> p_state p = PRCURR -> p_priority p = PRIORITY_LOW) /\ lenZ (cpsr k1) = NCORES /\
  ungetArray (devs k1) = ungetArray d /\ bufp (devs k1) = bufp d /\ uart_rx (devs k1) = uart_rx d.
Proof using Hd Hps Hrf Hregs Hmh Hstart Hargs Hlay Hend.
  intros Hs. destruct (boot_kernel mh m ps rf d Hd Hps Hrf ltac:(lia)) as
    (k & QL & RQ & MQ & L & Hrun & Hk & He & Hh & _ & _ & Hup & _ & _ & Hn & Hcur & Hcp & _ & _ & Hp & Er & Hu & Em & Ex).
  destruct Hup as [Hser _ _ _ _ [Hfam Hname]]. destruct Hu as [U1 U2 U3 U4 U5].
  assert (os_ok k) as Hos by done. destruct (roundmb_spec mh) as (R1 & _ & _); [lia|].
  assert (forall num k', 0 < num < 4 -> only_devs k k' -> exists k'', unparkcore num core_nulluser_addr NULL k' = Ret (tt, k'') /\
    only_devs k k'') as Hun.
  { intros num k' Hnum D. destruct (unparkcore_shows num core_nulluser_addr NULL k' Hnum) as ([] & k'' & E & D').
    - by rewrite (sc_start _ _ (proj2 D)), U4.
    - by rewrite (sc_args _ _ (proj2 D)), U5.
    - exists k''. split; [done|by etrans]. }
  destruct (Hun 1 k) as (ka & Ra & Da); [lia|done|]. destruct (Hun 2 ka) as (kb & Rb & Db); [lia|done|].
  destruct (Hun 3 kb) as (kc & Rc & Dc); [lia|done|].
  destruct (print_os_info_shows Hlay s 0 kc) as ([] & k1 & Rp & Dp); [by eapply os_ok_devs|done|..].
  { rewrite (proj1 Dc). cbn. rewrite Em, Ex. lia. } { rewrite (proj1 Dc). cbn. rewrite Ex. lia. }
  pose proof (transitivity Dc Dp) as D1. destruct (nthZ_lt_Some ps 0) as [p0 Hp0]; [rewrite Hps; klia|].
  assert (cpsr k1 = ps) as Ec by (rewrite (proj1 D1); exact Hcp).
  set (k2 := set_cpsr (updZ 0 (Z.ldiff p0 ARM_I_BIT) ps) k1).
  assert (enable 0 k1 = Ret (tt, k2)) as Ren by (unfold enable; rewrite (bind_Ret _ _ _ p0 k1) by (by rewrite Ec, Hp0); unfold modify, k2; by rewrite Ec).
  assert (k2 = set_cpsr (updZ 0 (Z.ldiff p0 ARM_I_BIT) ps) (set_devs (devs k1) k)) as Ek2 by (unfold k2; by rewrite (proj1 D1)).
  destruct D1 as [_ [C1 C2 C3 C4 _ _ _ _]]. exists k2, QL, RQ, L. split; [|split].
  - unfold nulluser, spawn. rewrite start_lift_assoc, !start_lift_bind.
    match goal with |- match ?A k0 with _ => _ end = _ => assert (A k0 = create 0 main_addr INITSTK PRIORITY_LOW (lit "MAIN") [0; NULL] k2) as -> end; [|done].
    rewrite <- bind_assoc, (bind_Ret _ _ _ _ _ Hrun), (bind_Ret _ _ _ _ _ Ra), (bind_Ret _ _ _ _ _ Rb), (bind_Ret _ _ _ _ _ Rc).
    by rewrite (bind_Ret _ _ _ _ _ Rp), (bind_Ret _ _ _ _ _ Ren).
  - apply (can_start_frame _ _ 4 k); try (by rewrite Ek2); [by apply (boot_can_start k QL RQ MQ L)|].
    rewrite Ek2. cbn. by rewrite lenZ_updZ, Hcp.
  - assert (proctab k2 = proctab k /\ currpid k2 = currpid k) as [E1 E2] by (by rewrite Ek2). rewrite E1, E2.
    split; [intros q Hq; apply He, (rq_head RQ k (si_rq _ _ _ _ _ (proj1 Hk))); done|].
    split; [rewrite Ek2; unfold serial_free, at_rest in *; cbn; by rewrite C4|]. split; [done|].
    split; [|split; [rewrite Ek2; cbn; by rewrite lenZ_updZ|]].
    + intros p Hp' Hst. destruct (Idx_nthZ _ _ _ _ Hp Hp') as (_ & _ & _ & [Hf|(_ & _ & _ & ?)]); [klia|done].
    + change (devs k2) with (devs k1). rewrite C1, C2, C3. done.
Qed.
End Start.

Section PowerOn.
Context `{Layout} `{Uninit} (printpid_addr : Z).
Context (mh : Z) (m : gmap Z Z) (ps : list Z) (rf : list (list Z)) (d : devices).
Context (Hd : devices_ok d) (Hps : lenZ ps = NCORES) (Hrf : lenZ rf = NCORES)
  (Hregs : Forall (fun r => lenZ r = PREGS) rf) (Hmh : 0 < mh <= 0x3E000000).
Context (Hstart : lenZ (corestart d) = 4) (Hargs : lenZ (init_args d) = 4) (Hlay : 0 <= start_addr <= end_addr)
  (Hend : end_addr <= mh).
Local Abbreviation k0 := (bss mh m ps rf d).

(** The system comes up: [nulluser] reaches its loop, and the first turn of
    it gives core 0 to the main process. *)
Lemma boot_main s : plain s -> exists k1 QL RQ L im k2 FL pid,
  start (nulluser (s ++ [0]) 0) k0 = Ret (inl tt, k1) /\
  start (resched 0) k1 = Ret (inr (resched_rest 0 im), k2) /\
  running_task k2 pid main_task /\ can_start (queues_at QL) RQ 3 k2 L FL /\ L (RQ 0 PRIORITY_HIGH) = [] /\
  serial_free k2 /\ ungetArray (devs k2) = ungetArray d /\ bufp (devs k2) = bufp d /\ uart_rx (devs k2) = uart_rx d.
Proof using Hd Hps Hrf Hregs Hmh Hstart Hargs Hlay Hend.
  intros Hs. destruct (nulluser_prefix mh m ps rf d Hd Hps Hrf Hregs Hmh Hstart Hargs Hlay Hend s Hs) as
    (k1 & QL & RQ & L & Hrun & Hcs & HL & Hser & Hcur & Hprio & Hcp & I1 & I2 & I3).
  destruct (spawn_run (queues_at QL) RQ 3 k1 L _ main_task (lit "MAIN") [NULL] Hcs) as (pid & k2 & FL & Hsp & Hcs2 & J & _);
    [done|apply cstr_lit; plainly|done|].
  pose proof (si_rq _ _ _ _ _ (cs_sched _ _ _ _ _ _ Hcs)) as Hrq. cbn [t_priority main_task] in *.
  set (L2 := push RQ pid PRIORITY_LOW L) in *.
  assert (forall q, prio q -> L2 (RQ 0 q) = if q =? PRIORITY_LOW then [pid] else []) as HL2.
  { intros q Hq. destruct (Z.eqb_spec q PRIORITY_LOW) as [->|Hne]; [unfold L2, push; by rewrite fn_lookup_insert, HL|].
    unfold L2. rewrite (push_other RQ k1) by (done || congruence). by apply HL. }
  assert (forall new s', decides RQ k2 L2 new s' -> new = pid /\ a_high s' = []) as Hdec.
  { intros new s' (x & p & Hx & Hp & Hsp'). rewrite (jn_current _ _ _ _ J), Hcur in Hx. injection Hx as <-.
    apply (spec_low _ _ (abs RQ k2 L2 0) pid [] new s') in Hsp'; [done|by apply HL2..|].
    destruct (Z.eqb_spec PRCURR (p_state p)) as [E|E]; [right|by left]. f_equal.
    destruct (decide (0 = pid)) as [<-|Hne].
    - destruct (jn_entry _ _ _ _ J) as (q & Hq & _ & Hqs & _). replace q with p in Hqs by congruence. klia.
    - apply Hprio; [by rewrite <- (jn_others _ _ _ _ J 0 Hne)|done]. }
  destruct (task_runs (queues_at QL) RQ 3 k2 L2 FL pid main_task Hcs2 (jn_entry _ _ _ _ J)) as
    (im & k3 & s3 & Hsw & Hcs3 & Hd3 & Hmain & Ed & El & _); [intros new s' Hdc; by apply (Hdec new s')|].
  exists k2, QL, RQ, (setq RQ 0 s3 L2), im, k3, FL, pid. split; [|split; [done|split; [done|split; [done|split]]]].
  - rewrite Hrun. by rewrite (start_bind_inl _ _ _ _ _ Hsp).
  - rewrite setq_high. by apply (Hdec pid s3).
  - rewrite Ed, (jn_devs _ _ _ _ J). split; [|done]. unfold serial_free, at_rest.
    by rewrite Ed, El, (jn_devs _ _ _ _ J), (jn_locks _ _ _ _ J).
Qed.

(** The state in which [main] has switched interrupts on. *)
Definition unmasked (k : kernel) : kernel :=
  set_cpsr (updZ 0 (Z.ldiff (default 0 (nthZ (cpsr k) 0)) ARM_I_BIT) (cpsr k)) k.

(** C5: From power-on to the tests.  Started in the state the loader leaves,
    with a heap, [nulluser] brings the system up, prints its banner, creates
    the main process and reaches its loop; the first [resched] of the loop
    gives core 0 to the main process, set to run [main].  When [0] has been
    typed, [main] starts the priority test: the three printers exist, the one
    of high priority runs and the others are ready; what is left of [main] is
    the end of the test, after which it returns 0. *)
Theorem power_on s x l :
  plain s -> unget_ok k0 -> pending_in k0 = x :: l -> u8 x = chr "0" ->
  exists k1 r1 k2 pid r2 k3 QL RQ,
    start (nulluser (s ++ [0]) 0) k0 = Ret (inl tt, k1) /\
    start (resched 0) k1 = Ret (inr r1, k2) /\ running_task k2 pid main_task /\
    start (main printpid_addr 0) k2 = Ret (inr (r2 ;;== tret 0), k3) /\
    test_started (queues_at QL) RQ printpid_addr (unmasked k2) r2 k3.
Proof using Hd Hps Hrf Hregs Hmh Hstart Hargs Hlay Hend.
  intros Hs Hu Hp Hx. destruct (boot_main s Hs) as
    (k1 & QL & RQ & L & im & k2 & FL & pid & R1 & R2 & Hmain & Hcs & HL & Hser & I1 & I2 & I3).
  destruct (nthZ_lt_Some (cpsr k2) 0) as [v Hv]; [by rewrite (si_cpsr _ _ _ _ _ (cs_sched _ _ _ _ _ _ Hcs))|].
  assert (enable 0 k2 = Ret (tt, unmasked k2)) as Ren.
  { unfold enable, unmasked. rewrite (bind_Ret _ _ _ v k2) by (by rewrite Hv). by rewrite Hv. }
  destruct (testcases_start (queues_at QL) RQ printpid_addr (unmasked k2) L FL x l) as (r2 & k3 & Ht & Hst); try done.
  - apply (can_start_frame _ _ 3 k2); try done. simpl. by rewrite lenZ_updZ.
  - unfold unget_ok in *. change (devs (unmasked k2)) with (devs k2). by rewrite I1, I2.
  - unfold pending_in in *. change (devs (unmasked k2)) with (devs k2). by rewrite I1, I2, I3.
  - exists k1, (resched_rest 0 im), k2, pid, r2, k3, QL, RQ. split; [done|]. split; [done|]. split; [done|]. split; [|done].
    unfold main. rewrite (start_lift_Ret _ _ _ _ _ Ren). by apply start_bind_inr.
Qed.
End PowerOn.
