(* ===== verification/Syscall.v ===== *)
(** * System calls (system/syscall_dispatch.c, include/syscall.h)

    The handlers and the dispatch through the table, on the core [cpu].  The
    arguments are the words of [args]; reading behind them is an access out
    of bounds. *)

From Stdlib Require Import Ascii String.
From stdpp Require Import base numbers list.
From S2P Require Import Prelude Kernel Spinlock Queue CString Doprnt Kio Thread Proc.

(** ** Definitions *)

Definition SYSCALL_NONE : Z := 0.
Definition SYSCALL_YIELD : Z := 1.
Definition SYSCALL_KILL : Z := 3.
Definition SYSCALL_GETC : Z := 8.
Definition SYSCALL_PUTC : Z := 9.

(** SCARG: an argument and the rest. *)
Definition SCARG (args : list Z) : K (Z * list Z) :=
  match args with a :: args' => ret (a, args') | [] => failwith OutOfBounds end.

Section Syscalls.
Context `{Layout} `{Uninit}.

Definition sc_none (cpu : Z) (args : list Z) : thread Z := tret OK.

Definition sc_yield (cpu : Z) (args : list Z) : thread Z :=
  resched cpu ;;==
  tret OK.

Definition sc_getc (cpu : Z) (args : list Z) : thread Z :=
  lift (
    '(a, args) <-- SCARG args ;;
    let descrp := s32 a in
    if 0 =? descrp then kgetc else ret SYSERR).

Definition sc_putc (cpu : Z) (args : list Z) : thread Z :=
  lift (
    '(a, args) <-- SCARG args ;;
    let descrp := s32 a in
    '(a, args) <-- SCARG args ;;
    let character := u8 a in
    if 0 =? descrp then kputc character else ret SYSERR).

Definition sc_kill (cpu : Z) (args : list Z) : thread Z :=
  a <== lift (SCARG args) ;;
  let pid := s32 (fst a) in
  kill cpu pid.

(** struct syscall_info: the number of arguments and the handler. *)
Definition syscall_table : list (Z * (Z -> list Z -> thread Z)) :=
  [(5, sc_none); (0, sc_yield); (1, sc_none); (1, sc_kill); (2, sc_none); (1, sc_none); (3, sc_none); (3, sc_none);
   (1, sc_getc); (2, sc_putc); (2, sc_none); (4, sc_none); (1, sc_none); (4, sc_none); (2, sc_none); (1, sc_none);
   (1, sc_none)].
Definition nsyscall : Z := lenZ syscall_table.

Definition syscall_dispatch (cpu code : Z) (args : list Z) : thread Z :=
  if (0 <=? code) && (code <? nsyscall) then
    h <== lift (must (nthZ syscall_table code)) ;;
    snd h cpu args
  else
    lift (kprintf cpu (chars "ERROR: unknown syscall %d!" ++ [13; 10; 0]) [VInt code]) ;;==
    tret SYSERR.

(** ** What the calls do *)

Lemma syscall_none_run cpu code args k : 0 <= code < nsyscall ->
  code ∉ [SYSCALL_YIELD; SYSCALL_KILL; SYSCALL_GETC; SYSCALL_PUTC] ->
  start (syscall_dispatch cpu code args) k = Ret (inl OK, k).
Proof.
  intros Hc Hn. assert (code ∈ seqZ 0 17) as Hin by (apply elem_of_seqZ; exact Hc). vm_compute in Hin.
  repeat (apply elem_of_cons in Hin as [->|Hin];
    [first [reflexivity|exfalso; apply Hn; refine (bool_decide_unpack _ _); vm_compute; exact I]|]).
  by apply elem_of_nil in Hin.
Qed.

Lemma kill_bad_pid cpu pid k : lenZ (proctab k) = NPROC -> pid < 4 \/ NPROC <= pid -> start (kill cpu pid) k = Ret (inl SYSERR, k).
Proof.
  intros Hl Hp. unfold kill. rewrite (start_lift_Ret _ _ _ true k); [done|].
  unfold kill_refused, isbadpid. destruct (Z.ltb_spec pid 0), (Z.leb_spec NPROC pid); try done. cbn [orb].
  destruct (nthZ_lt_Some (proctab k) pid) as [p Hpid]; [lia|].
  rewrite bind_assoc, (bind_rd_proc _ _ _ _ Hpid), bind_ret_l.
  destruct (PRFREE =? p_state p); [done|]. cbn [orb].
  destruct (Z.eqb_spec 0 pid), (Z.eqb_spec 1 pid), (Z.eqb_spec 2 pid), (Z.eqb_spec 3 pid); done || lia.
Qed.

Definition unknown_items (code : Z) : list item :=
  (Lit <$> chars "ERROR: unknown syscall ") ++ [Dir (plain_dir (CSigned code))] ++ [Lit (chr "!"); Lit 13; Lit 10].
Definition unknown_text (code : Z) : list Z :=
  chars "ERROR: unknown syscall " ++ ((if code <? 0 then [chr "-"] else []) ++ dec_text (Z.abs code)) ++ [chr "!"; 13; 10].

Lemma unknown_formats code : - 2 ^ 31 <= code < 2 ^ 31 ->
  formats (chars "ERROR: unknown syscall %d!" ++ [13; 10; 0]) [VInt code] (unknown_text code).
Proof.
  intros Hc. exists (unknown_items code), [], []. split; [|split; [done|split; [done|]]].
  - unfold unknown_items. cbn. repeat (apply Forall_cons; split; [done|]). constructor.
  - unfold unknown_items. rewrite !fmap_app, !concat_app. cbn [fmap list_fmap concat item_out]. by rewrite render_plain, app_nil_r.
Qed.

(** What the system calls refuse: a code outside of the table is reported
    on the console, a descriptor other than the console's is not read or
    written, and an argument that is no process of the user's, taken as a
    32-bit number, is not killed.  Each returns [SYSERR] and changes nothing
    else. *)
Theorem syscall_refuses cpu k :
  0 <= serial_lock (devs k) < NLOCK -> at_rest k (serial_lock (devs k)) -> lenZ (proctab k) = NPROC ->
  (forall code args, - 2 ^ 31 <= code < 2 ^ 31 -> code < 0 \/ 17 <= code ->
     start (syscall_dispatch cpu code args) k =
     Ret (inl SYSERR, console_out (unknown_text code) k)) /\
  (forall a b args, s32 a <> 0 ->
     start (syscall_dispatch cpu SYSCALL_GETC (a :: args)) k = Ret (inl SYSERR, k) /\
     start (syscall_dispatch cpu SYSCALL_PUTC (a :: b :: args)) k = Ret (inl SYSERR, k)) /\
  (forall a args, s32 a < 4 \/ NPROC <= s32 a ->
     start (syscall_dispatch cpu SYSCALL_KILL (a :: args)) k = Ret (inl SYSERR, k)).
Proof.
  intros Hs Hr Hl. split; [|split].
  - intros code args Hc Hbad. unfold syscall_dispatch. change nsyscall with 17.
    assert ((0 <=? code) && (code <? 17) = false) as ->.
    { apply andb_false_iff. rewrite Z.leb_gt, Z.ltb_ge. lia. }
    by rewrite (start_lift_Ret _ _ _ _ _ (kprintf_run cpu k _ _ _ Hs Hr (unknown_formats code Hc))).
  - intros a b args Ha. assert (0 =? s32 a = false) as E by (apply Z.eqb_neq; congruence).
    unfold syscall_dispatch. simpl. unfold bind, SCARG, ret. rewrite E. by split.
  - intros a args Ha. change (start (kill cpu (s32 a)) k = Ret (inl SYSERR, k)). by apply kill_bad_pid.
Qed.
End Syscalls.
