(* ===== verification/Runtime.v ===== *)
(** * Stacks from the top of memory and the MiniJava runtime
      (system/getstk.c, system/minijava.c)

    [kgetc] and [kputc] ignore the argument that minijava.c passes to them.
    [currpid] in _BADPTR and _BADSUB is the address of the array. *)

From Stdlib Require Import Ascii String.
From stdpp Require Import base numbers list gmap.
From S2P Require Import Prelude Kernel Spinlock Queue Memory CString Doprnt Kio Thread Proc.

(** ** Definitions *)

Section Runtime.
Context `{Layout} `{Uninit}.

Definition getstk (nbytes : Z) : K Z :=
  if nbytes =? 0 then ret (u32 SYSERR)
  else
    let nbytes := Z.land (u32 (nbytes + 15)) (Z.lnot 0x0F) in
    max <-- gets maxaddr ;;
    if u32 (max - nbytes) <? end_addr then ret (u32 SYSERR)
    else
      let newstk := Z.land (u32 (max - 4)) 0xFFFFFFF0 in
      modify (set_maxaddr (u32 (max - nbytes))) ;;;
      ret newstk.

(** The loop of [_readint]; every turn takes a character. *)
Fixpoint readint_loop (fuel : nat) (i c : Z) : K (Z * Z) :=
  match fuel with
  | O => failwith OutOfFuel
  | S fuel' =>
      if negb (10 =? c) && negb (13 =? c) && negb (EOF =? c) then
        let i := if (48 <=? c) && (c <=? 57) then s32 (i * 10 + c - 48) else i in
        c <-- kgetc ;;
        kputc c ;;;
        readint_loop fuel' i c
      else ret (i, c)
  end.

Definition crlf : list Z := [13; 10; 0].

Definition _readint (cpu : Z) : K Z :=
  fuel <-- gets (fun k => S (Z.to_nat (bufp (devs k)) + length (uart_rx (devs k)))) ;;
  c <-- kgetc ;;
  kputc c ;;;
  '(i, c) <-- readint_loop fuel 0 c ;;
  kprintf cpu crlf [] ;;;
  if EOF =? c then ret c else ret i.

Definition _printint (cpu i : Z) : K Z := kprintf cpu (chars "%d" ++ crlf) [VInt i].
Definition _print (cpu : Z) (s : list Z) : K Z := kprintf cpu (lit "%s") [VStr s].
Definition _println (cpu : Z) : K Z := kprintf cpu crlf [].

(** [bzero] of [n] words. *)
Fixpoint bzero_words (n : nat) (p : Z) : K unit :=
  match n with
  | O => ret tt
  | S n' => store p 0 ;;; bzero_words n' (u32 (p + 4))
  end.

(** A pointer that is no multiple of 4 is the [SYSERR] of [getmem], which
    the code does not test: writing from there on runs over the end of the
    address space. *)
Definition _new (cpu n init : Z) : K Z :=
  let size := s32 ((n + 2) * 4) in
  p <-- getmem cpu (u32 size) ;;
  if negb (p mod 4 =? 0) then failwith OutOfBounds
  else
    bzero_words (Z.to_nat (u32 size / 4)) p ;;;
    store (u32 (p + 4)) (u32 init) ;;;
    ret (u32 (p + 8)).

(** [currpid_addr]: where the array [currpid] lies. *)
Context (currpid_addr : Z).

Definition _BADPTR (cpu : Z) : thread unit :=
  lift (kprintf cpu (chars "FATAL ERROR: Null Pointer Exception!" ++ [10; 0]) []) ;;==
  kill cpu (s32 currpid_addr) ;;==
  tret tt.

Definition _BADSUB (cpu : Z) : thread unit :=
  lift (kprintf cpu (chars "FATAL ERROR: Index Out Of Bounds Exception!" ++ [10; 0]) []) ;;==
  kill cpu (s32 currpid_addr) ;;==
  tret tt.
End Runtime.

(** ** Stacks *)

Lemma round16 n : 0 <= n < 2 ^ 32 -> Z.land n (Z.lnot 0x0F) = 16 * (n / 16).
Proof.
  intros Hn. change (Z.lnot 0x0F) with (Z.lnot (Z.ones 4)). rewrite land_lnot_ones by lia.
  change (2 ^ 4) with 16. pose proof (Z.div_mod n 16). lia.
Qed.

Lemma mask16 n : 0 <= n < 2 ^ 32 -> Z.land n 0xFFFFFFF0 = 16 * (n / 16).
Proof.
  intros Hn. rewrite <- round16 by done. apply Z.bits_inj'. intros i Hi. rewrite !Z.land_spec.
  destruct (Z.ltb_spec i 32).
  - replace (Z.testbit 0xFFFFFFF0 i) with (Z.testbit (Z.lnot 0x0F) i); [done|].
    assert (i ∈ seqZ 0 32) as Hin by (apply elem_of_seqZ; lia). vm_compute in Hin.
    repeat (apply elem_of_cons in Hin as [->|Hin]; [done|]). by apply elem_of_nil in Hin.
  - by rewrite (proj2 (proj1 (bits_bound n 32 ltac:(lia)) Hn) i) by lia.
Qed.

(** [getstk], with the top of memory at a multiple of 16, takes the
    request, rounded up to 16 bytes, from the top when what it takes lies
    above the kernel: the new top is that much lower, still a multiple of 16,
    and the address returned is that of the last 16 bytes taken.  Otherwise,
    and for a request of 0, it returns [SYSERR] and takes nothing.  A request
    within 15 bytes of 2^32 rounds to 0: it succeeds and takes nothing. *)
Theorem getstk_takes `{Layout} nbytes k :
  0 <= nbytes < 2 ^ 32 -> 16 <= maxaddr k < 2 ^ 32 -> maxaddr k mod 16 = 0 -> 0 < end_addr ->
  let n := 16 * ((nbytes + 15) / 16) in let top := maxaddr k in
  (nbytes + 15 < 2 ^ 32 -> n <= top -> nbytes <> 0 -> end_addr <= top - n ->
     getstk nbytes k = Ret (top - 16, set_maxaddr (top - n) k) /\
     top - n <= top - 16 /\ nbytes <= n < nbytes + 16 /\ (top - n) mod 16 = 0) /\
  (nbytes + 15 < 2 ^ 32 -> n <= top -> nbytes = 0 \/ top - n < end_addr -> getstk nbytes k = Ret (u32 SYSERR, k)) /\
  (2 ^ 32 <= nbytes + 15 -> end_addr <= top -> getstk nbytes k = Ret (top - 16, set_maxaddr top k)).
Proof.
  intros Hn Hm Ha He n top. fold top in Hm, Ha.
  pose proof (Z.div_mod (nbytes + 15) 16). pose proof (Z.mod_pos_bound (nbytes + 15) 16).
  assert (Z.land (u32 (top - 4)) 0xFFFFFFF0 = top - 16) as Hstk.
  { rewrite wrap_small, mask16 by lia. pose proof (Z.div_mod top 16).
    rewrite <- (Z.div_unique (top - 4) 16 (top / 16 - 1) 12) by lia. lia. }
  unfold getstk. split; [|split]; intros Hw Hle.
  - intros Hnz Hend. rewrite (proj2 (Z.eqb_neq nbytes 0) Hnz). cbv zeta. rewrite (wrap_small 32 (nbytes + 15)), round16 by lia. fold n.
    rewrite bind_gets. fold top. rewrite (wrap_small 32 (top - n)) by lia. rewrite (proj2 (Z.ltb_ge _ _)), Hstk by lia.
    split; [done|]. split; [lia|]. split; [lia|]. unfold n. rewrite Z.mul_comm. by rewrite <- Zminus_mod_idemp_r, Z.mod_mul, Z.sub_0_r by lia.
  - intros Hcase. destruct (Z.eqb_spec nbytes 0); [done|]. cbv zeta. rewrite (wrap_small 32 (nbytes + 15)), round16 by lia. fold n.
    rewrite bind_gets. fold top. rewrite (wrap_small 32 (top - n)) by lia. by rewrite (proj2 (Z.ltb_lt _ _)) by lia.
  - rewrite (proj2 (Z.eqb_neq nbytes 0)) by lia. cbv zeta.
    assert (u32 (nbytes + 15) = nbytes + 15 - 2 ^ 32) as -> by (unfold wrap; symmetry; apply Z.mod_unique with 1; lia).
    rewrite round16 by lia. rewrite (Z.div_small (nbytes + 15 - 2 ^ 32) 16) by lia.
    rewrite bind_gets. fold top. rewrite Z.mul_0_r, Z.sub_0_r, (wrap_small 32 top) by lia. rewrite (proj2 (Z.ltb_ge _ _)), Hstk by lia.
    done.
Qed.

(** ** MiniJava *)

(** The writes to peripheral registers. *)
Definition writes (l : list access) : list (Z * Z) :=
  omap (fun a => match a with Wr addr v => Some (addr, v) | Rd _ _ => None end) l.

(** A character taken from the input. *)
Lemma kgetc_next k x l : unget_ok k -> pending_in k = x :: l ->
  exists d, kgetc k = Ret (x, set_devs d k) /\ pending_in (set_devs d k) = l /\ unget_ok (set_devs d k) /\
    writes (mmio d) = writes (mmio (devs k)) /\ serial_lock d = serial_lock (devs k).
Proof.
  intros [Hlen Hb] Hp. unfold pending_in, unget_ok, UNGETMAX in *.
  set (b := bufp (devs k)) in *. set (buf := ungetArray (devs k)) in *.
  unfold kgetc, rd_devs. rewrite bind_gets. fold b. destruct (Z.ltb_spec 0 b).
  - destruct (nthZ_lt_Some buf (b - 1)) as [y Hy]; [lia|].
    assert (buf !! Z.to_nat (b - 1) = Some y) as Hy' by (unfold nthZ in Hy; by rewrite (proj2 (Z.leb_le 0 _)) in Hy by lia).
    replace (Z.to_nat b) with (S (Z.to_nat (b - 1))) in Hp by lia.
    rewrite (take_S_r _ _ _ Hy'), reverse_app in Hp. injection Hp as -> Hl.
    unfold upd_devs. rewrite bind_modify, bind_gets. simpl. fold buf. rewrite wrap_small by lia. unfold rdi. rewrite Hy.
    eexists. split; [done|]. simpl. split; [done|]. split; [|done]. split; [done|lia].
  - assert (b = 0) as Eb by lia. rewrite Eb in *. simpl in Hp. rewrite bind_gets, Hp.
    eexists. split; [done|]. simpl. fold buf b. rewrite Eb. split; [done|]. split; [|done]. split; [done|lia].
Qed.

Lemma kputc_out c k : kputc c k = Ret (u8 c, console_out [c] k).
Proof. done. Qed.

(** [k'] is [k] after [cs] has been echoed and the input is [l]. *)
Definition echoed (k : kernel) (cs l : list Z) (k' : kernel) : Prop :=
  exists d, k' = set_devs d k /\ pending_in k' = l /\ unget_ok k' /\
    writes (mmio d) = writes (mmio (devs (console_out cs k))) /\ serial_lock d = serial_lock (devs k).

Lemma echo_next k x l : unget_ok k -> pending_in k = x :: l ->
  exists k', bind kgetc (fun c => kputc c ;;; ret c) k = Ret (x, k') /\ echoed k [x] l k'.
Proof.
  intros Hu Hp. destruct (kgetc_next k x l Hu Hp) as (d & Hr & Hp' & Hu' & Hm & Hs).
  rewrite (bind_Ret _ _ _ _ _ Hr), (bind_Ret _ _ _ _ _ (kputc_out x _)). eexists. split; [done|].
  eexists. split; [done|]. split; [exact Hp'|]. split; [exact Hu'|]. simpl. by rewrite Hm.
Qed.

Lemma echoed_trans k1 k2 k3 a b l1 l2 : echoed k1 a l1 k2 -> echoed k2 b l2 k3 -> echoed k1 (a ++ b) l2 k3.
Proof.
  intros (d1 & -> & _ & _ & Hm1 & Hs1) (d2 & -> & Hp & Hu & Hm2 & Hs2). exists d2. split; [done|]. split; [done|]. split; [done|].
  split; [|simpl in *; congruence]. rewrite Hm2. cbn [devs console_out set_devs mmio set_mmio]. unfold writes in *.
  rewrite !omap_app, Hm1. cbn [devs console_out set_devs mmio set_mmio]. by rewrite fmap_app, reverse_app, !omap_app, <- app_assoc.
Qed.

Definition digits (l : list Z) : list Z := (fun c => c - 48) <$> filter (fun c => 48 <= c <= 57) l.
Definition line_end (c : Z) : Prop := c = 10 \/ c = 13.

Lemma s32_step a d : s32 (s32 a * 10 + d) = s32 (a * 10 + d).
Proof.
  unfold swrap at 1 3. assert (u32 (s32 a * 10 + d) = u32 (a * 10 + d)) as ->; [|done].
  pose proof (wrap_swrap 32 a ltac:(lia)) as E. unfold wrap in *.
  rewrite <- (Z.add_mod_idemp_l (s32 a * 10)), <- Z.mul_mod_idemp_l, E, Z.mul_mod_idemp_l, Z.add_mod_idemp_l by lia. done.
Qed.

Lemma readint_loop_run e rest : line_end e -> forall line fuel n c k,
  Forall (fun c => ~ line_end c /\ c <> EOF) line -> unget_ok k -> c :: pending_in k = line ++ e :: rest ->
  (length line < fuel)%nat ->
  exists k', readint_loop fuel (s32 n) c k = Ret ((s32 (foldl (fun n d => n * 10 + d) n (digits line)), e), k') /\
    echoed k (tail (line ++ [e])) rest k'.
Proof.
  intros He. induction line as [|x line IH]; intros fuel n c k Hl Hu Hp Hf; (destruct fuel as [|fuel]; [simpl in Hf; lia|]);
    cbn [readint_loop]; injection Hp as -> Hp.
  - exists k. split; [by destruct He as [-> | ->]|]. exists (devs k). destruct k. split; [done|]. split; [done|]. split; [done|].
    split; [|done]. done.
  - apply Forall_cons in Hl as [[Hx HE] Hl]. unfold line_end in Hx.
    rewrite (proj2 (Z.eqb_neq 10 x)), (proj2 (Z.eqb_neq 13 x)), (proj2 (Z.eqb_neq EOF x)) by (unfold EOF in *; lia).
    change (negb false && negb false && negb false) with true. cbv iota zeta. destruct (pending_in k) as [|y l] eqn:Ep; [by destruct line|].
    destruct (echo_next k y l Hu Ep) as (k1 & Hr & Hk1).
    set (n' := if (48 <=? x) && (x <=? 57) then n * 10 + (x - 48) else n).
    assert ((if (48 <=? x) && (x <=? 57) then s32 (s32 n * 10 + x - 48) else s32 n) = s32 n') as ->.
    { unfold n'. destruct (_ && _); [|done]. rewrite <- s32_step. f_equal. lia. }
    destruct (IH fuel n' y k1) as (k' & Hr' & Hk'); [done|by destruct Hk1 as (? & _ & _ & ? & _)| |simpl in Hf; lia|].
    { destruct Hk1 as (? & _ & -> & _). done. }
    exists k'. split.
    + apply bind_inv in Hr as (y' & k0 & Hg & Hr). rewrite (bind_Ret _ _ _ _ _ Hg).
      apply bind_inv in Hr as (? & k0' & Hpc & [= -> ->]). rewrite (bind_Ret _ _ _ _ _ Hpc).
      rewrite Hr'. do 4 f_equal. unfold digits, n'. rewrite filter_cons.
      destruct (decide (48 <= x <= 57)) as [Hd|Hd].
      * rewrite (proj2 (Z.leb_le 48 x)), (proj2 (Z.leb_le x 57)) by lia. done.
      * destruct (Z.leb_spec 48 x), (Z.leb_spec x 57); try lia; done.
    + change (tail ((x :: line) ++ [e])) with (line ++ [e]).
      assert (line ++ [e] = [y] ++ tail (line ++ [e])) as ->.
      { destruct line; simpl in *; congruence. }
      by eapply echoed_trans.
Qed.

Lemma crlf_formats ap : formats crlf ap [13; 10].
Proof. exists [Lit 13; Lit 10], [], ap. split; [repeat constructor; done|done]. Qed.

(** [_readint] reads a line, echoes it with a line feed behind it, and
    returns the number that its decimal digits denote, whatever else is
    between them, reduced to 32 bits; the rest of the input stays. *)
Theorem readint_line `{Uninit} cpu k line e rest :
  unget_ok k -> 0 <= serial_lock (devs k) < NLOCK -> at_rest k (serial_lock (devs k)) ->
  pending_in k = line ++ e :: rest -> line_end e -> Forall (fun c => ~ line_end c /\ c <> EOF) line ->
  exists k', _readint cpu k = Ret (s32 (valof 10 (digits line)), k') /\
    echoed k (line ++ [e; 13; 10]) rest k'.
Proof.
  intros Hu Hs Hr Hp He Hl. unfold _readint. rewrite bind_gets.
  set (fuel := S _).
  assert (length line < fuel)%nat as Hf.
  { unfold fuel. pose proof (f_equal length Hp) as HL. unfold pending_in in HL.
    rewrite !length_app, length_reverse, length_take in HL. simpl in HL. lia. }
  destruct (pending_in k) as [|y l] eqn:Ep; [by destruct line|].
  destruct (echo_next k y l Hu Ep) as (k1 & Hg & Hk1).
  destruct (readint_loop_run e rest He line fuel 0 y k1) as (k2 & Hr2 & Hk2);
    [done|by destruct Hk1 as (? & _ & _ & ? & _)|by destruct Hk1 as (? & _ & -> & _)|done|].
  apply bind_inv in Hg as (y' & k0 & Hg & Hg2). rewrite (bind_Ret _ _ _ _ _ Hg).
  apply bind_inv in Hg2 as (? & k0' & Hpc & [= -> ->]). rewrite (bind_Ret _ _ _ _ _ Hpc).
  change 0 with (s32 0) at 1. rewrite (bind_Ret _ _ _ _ _ Hr2).
  pose proof (echoed_trans _ _ _ _ _ _ _ Hk1 Hk2) as Hk. clear Hk1 Hk2 Hr2 Hg Hpc k0.
  assert ([y] ++ tail (line ++ [e]) = line ++ [e]) as Ey by (destruct line; simpl in *; congruence). rewrite Ey in Hk.
  pose proof Hk as (d & -> & Hp2 & Hu2 & Hm2 & Hs2).
  rewrite (bind_Ret _ _ _ _ _ (kprintf_run cpu (set_devs d k) crlf [] [13; 10] ltac:(simpl; by rewrite Hs2)
    ltac:(unfold at_rest in *; simpl; by rewrite Hs2) (crlf_formats []))).
  rewrite (proj2 (Z.eqb_neq EOF e)) by (destruct He as [-> | ->]; done). eexists. split; [done|].
  replace (line ++ [e; 13; 10]) with ((line ++ [e]) ++ [13; 10]) by (by rewrite <- app_assoc).
  eapply echoed_trans; [exact Hk|]. eexists. split; [done|]. split; [exact Hp2|]. split; [exact Hu2|]. done.
Qed.

Lemma bzero_words_run n : forall p k, 0 <= p -> p + 4 * Z.of_nat n < 2 ^ 32 ->
  exists m, bzero_words n p k = Ret (tt, set_memory m k) /\
    (forall i, 0 <= i < Z.of_nat n -> mload m (p + 4 * i) = 0) /\
    (forall x, (forall i, 0 <= i < Z.of_nat n -> x <> p + 4 * i) -> mload m x = mload (memory k) x).
Proof.
  induction n as [|n IH]; intros p k H0 H1; cbn [bzero_words].
  - exists (memory k). split; [by destruct k|]. split; [lia|done].
  - unfold store. rewrite bind_modify, wrap_small by lia.
    destruct (IH (p + 4) (set_memory (<[p := 0]> (memory k)) k)) as (m & Hr & Hz & Ho); [lia|lia|].
    exists m. split; [rewrite Hr; by destruct k|]. simpl in Ho. split.
    + intros i Hi. destruct (Z.eq_dec i 0) as [->|Hi0].
      * rewrite Ho by lia. replace (p + 4 * 0) with p by lia. apply mload_insert_eq.
      * replace (p + 4 * i) with (p + 4 + 4 * (i - 1)) by lia. apply Hz. lia.
    + intros x Hx. rewrite Ho.
      * apply mload_insert_ne. specialize (Hx 0 ltac:(lia)). lia.
      * intros i Hi. specialize (Hx (i + 1) ltac:(lia)). lia.
Qed.

(** [_new] of an object of [n] words takes a fresh block from the heap of
    the core, with the initial word before the object and zeroes in it, and
    leaves the free list and all other memory of the programs alone.  When
    the heap has no block large enough the failure of [getmem] is not
    noticed, and the writes leave the address space. *)
Theorem new_object cpu k FL n init :
  heaps_wf k FL -> lenZ (cpsr k) = NCORES -> 0 <= cpu < NCORES -> 0 <= n < 2 ^ 29 - 2 ->
  let len := roundmb (4 * (n + 2)) in
  (_new cpu n init k = Fault OutOfBounds /\ forall b, b ∈ FL cpu -> snd b < 4 * (n + 2)) \/
  exists p k' l', _new cpu n init k = Ret (p + 8, k') /\ block_of k cpu (p, len) /\ 4 * (n + 2) <= len /\
    heaps_wf k' (<[cpu := l']> FL) /\
    (forall x, (covers (FL cpu) x <-> inb (p, len) x \/ covers l' x) /\ ~ (inb (p, len) x /\ covers l' x)) /\
    mload (memory k') (p + 4) = u32 init /\ (forall i, 0 <= i < n -> mload (memory k') (p + 8 + 4 * i) = 0).
Proof.
  intros Hhs Hcp Hc Hn len. destruct (nthZ_lt_Some (cpsr k) cpu) as [im Him]; [lia|].
  destruct (roundmb_spec (4 * (n + 2)) ltac:(lia)) as (Hlen & _). fold len in Hlen.
  unfold _new. cbv zeta. replace ((n + 2) * 4) with (4 * (n + 2)) by lia.
  rewrite wrap_swrap, (wrap_small 32 (4 * (n + 2))) by lia.
  destruct (getmem_heaps cpu k FL im (4 * (n + 2))) as [[Hr Hnone]|(p & k1 & l' & Hr & Hhs' & Hfr & Hb & Hx)];
    [done|done|done|lia|left|right].
  - by rewrite (bind_Ret _ _ _ _ _ Hr).
  - pose proof Hb as (h & Hh & Hb1 & Hb2 & [y Hy] & _). simpl in Hb1, Hb2, Hy.
    destruct (hs_each _ _ Hhs cpu h Hh) as ([_ _ _ _ Hbase [_ Hbound] _ _] & _). fold len in Hb2, Hb, Hx.
    rewrite (bind_Ret _ _ _ _ _ Hr). replace (p mod 4) with 0 by (subst p; replace (y * 8) with (y * 2 * 4) by lia; by rewrite Z.mod_mul).
    change (negb (0 =? 0)) with false. cbv iota. rewrite (Z.mul_comm 4), Z.div_mul by lia.
    destruct (bzero_words_run (Z.to_nat (n + 2)) p k1) as (m & Hz & Hz0 & Ho); [lia|lia|].
    rewrite (bind_Ret _ _ _ _ _ Hz). unfold store. rewrite bind_modify. rewrite !wrap_small with (x := p + _) by lia.
    do 2 eexists. exists l'. split; [done|]. split; [done|]. split; [lia|]. split; [|split; [done|split]].
    + apply (heaps_wf_memory (set_memory m k1)); [apply (heaps_wf_memory k1); [done|]|]; intros x Hf;
        apply (free_byte_insert _ _ _ _ Hc) in Hf;
        (assert (~ inb (p, len) x) as Hni by
          (intros Hbx; destruct Hf as [Hf|(i & Hne & Hi & Hf)]; [by apply (proj2 (Hx x))|];
           exact (block_of_other _ _ _ _ _ _ Hhs Hb Hbx Hi Hne Hf))); unfold inb in Hni; simpl in Hni.
      * apply Ho. intros i Hi. lia.
      * simpl. apply mload_insert_ne. lia.
    + simpl. apply mload_insert_eq.
    + intros i Hi. simpl. rewrite mload_insert_ne by lia. replace (p + 8 + 4 * i) with (p + 4 * (i + 2)) by lia. apply Hz0. lia.
Qed.
