(* ===== verification/Paging.v ===== *)
(** * The page allocator and the page tables of the 64-bit RISC-V port
      (system/safeInit.c, system/safeKmapInit.c, include/safemem.h)

    Pages are kept in a list threaded through their first words; Sv39 page
    tables are trees of such pages.  The state [vm] has the variables of the
    two files and RAM as page frames of 512 words of 64 bits.  [kprintf] is
    a call recorded in [console]. *)

From Stdlib Require Import Ascii String.
From stdpp Require Import base numbers list gmap.
From S2P Require Import Prelude.

(** ** Data *)

Definition PAGE_SIZE : Z := 4096.

Record vm := mkVm {
  pgfreelist : Z;
  pgtbl_nents : Z;
  frames : gmap Z (list Z);            (** RAM, by address of the page *)
  maxaddr : Z;                         (** platform.maxaddr *)
  kernpgtbl : Z;                       (** _kernpgtbl *)
  pcb_pagetable : Z;                   (** [pagetable] of the running process *)
  satp : Z;
  console : list (string * list Z)     (** calls of [kprintf], last first *)
}.

Definition set_pgfreelist p s := mkVm p (pgtbl_nents s) (frames s) (maxaddr s) (kernpgtbl s) (pcb_pagetable s) (satp s) (console s).
Definition set_nents n s := mkVm (pgfreelist s) n (frames s) (maxaddr s) (kernpgtbl s) (pcb_pagetable s) (satp s) (console s).
Definition set_frames f s := mkVm (pgfreelist s) (pgtbl_nents s) f (maxaddr s) (kernpgtbl s) (pcb_pagetable s) (satp s) (console s).
Definition set_root p s := mkVm (pgfreelist s) (pgtbl_nents s) (frames s) (maxaddr s) p p (satp s) (console s).
Definition write_satp v s := mkVm (pgfreelist s) (pgtbl_nents s) (frames s) (maxaddr s) (kernpgtbl s) (pcb_pagetable s) v (console s).
Definition set_console c s := mkVm (pgfreelist s) (pgtbl_nents s) (frames s) (maxaddr s) (kernpgtbl s) (pcb_pagetable s) (satp s) c.

Abbreviation V := (M vm).

Definition OK : Z := 1.
Definition SYSERR : Z := -1.
(** [(void * )SYSERR] and [(ulong * )SYSERR]. *)
Definition SYSERR_PTR : Z := u64 SYSERR.
Definition NULL : Z := 0.

Definition kprintf (fmt : string) (args : list Z) : V unit := modify (fun s => set_console ((fmt, args) :: console s) s).

(** *** Words of RAM *)

Definition frame_of (a : Z) : Z := a - a mod PAGE_SIZE.
Definition slot_of (a : Z) : Z := a mod PAGE_SIZE / 8.

(** Words are accessed at multiples of their size. *)
Definition word_at (f : gmap Z (list Z)) (a : Z) : option Z :=
  if a mod 8 =? 0 then f !! frame_of a ≫= fun ws => nthZ ws (slot_of a) else None.
Definition rd64 (a : Z) : V Z := f <-- gets frames ;; must (word_at f a).
Definition wr64 (a v : Z) : V unit :=
  rd64 a ;;;
  modify (fun s => set_frames (alter (updZ (slot_of a) v) (frame_of a) (frames s)) s).

(** [bzero(a, PAGE_SIZE)] of a page. *)
Definition bzero_page (a : Z) : V unit :=
  f <-- gets frames ;;
  match f !! a with
  | Some _ => modify (set_frames (<[a := replicate 512 0]> f))
  | None => failwith OutOfBounds
  end.

(** *** Macros *)

Definition roundpage (x : Z) : Z := Z.land (u64 (4095 + x)) (Z.lnot 0x0FFF).
Definition truncpage (x : Z) : Z := Z.land (u64 x) (Z.lnot 0x0FFF).

Definition PTE_V : Z := 1.
Definition PTE_R : Z := Z.shiftl 1 1.
Definition PTE_W : Z := Z.shiftl 1 2.
Definition PTE_X : Z := Z.shiftl 1 3.
Definition PTE_G : Z := Z.shiftl 1 5.

Definition SATP_SV39_ON : Z := u64 (Z.shiftl 0x8 60).
Definition MAKE_SATP (asid pagetable : Z) : Z :=
  Z.lor (Z.lor SATP_SV39_ON (u64 (Z.shiftl asid 44))) (Z.shiftr pagetable 12).

Definition PTE2PA (pte : Z) : Z := u64 (Z.shiftr pte 10 * PAGE_SIZE).
Definition PA2PTE (pa : Z) : Z := u64 (Z.shiftl (pa / PAGE_SIZE) 10).
Definition VAOFFSET : Z := 12.
Definition PXMASK : Z := 0x1FF.
Definition PXSHIFT (level : Z) : Z := VAOFFSET + 9 * level.
Definition PX (level addr : Z) : Z := Z.land (Z.shiftr addr (PXSHIFT level)) PXMASK.

(** ** The page allocator (safeInit.c) *)

Definition pgfree (addr : Z) : V Z :=
  if negb (addr mod PAGE_SIZE =? 0) then ret SYSERR
  else
    bzero_page addr ;;;
    let page := addr in
    l <-- gets pgfreelist ;;
    wr64 page l ;;;
    modify (set_pgfreelist page) ;;;
    ret OK.

Definition pgalloc : V Z :=
  l <-- gets pgfreelist ;;
  if l =? NULL then
    kprintf "Returning SYSERR" [] ;;;
    ret SYSERR_PTR
  else
    page <-- gets pgfreelist ;;
    next <-- rd64 page ;;
    modify (set_pgfreelist next) ;;;
    bzero_page page ;;;
    ret page.

(** The loop of [pgfreerange]; a page of the range is freed in every turn. *)
Fixpoint pgfreerange_loop (fuel : nat) (pgstart end_ : Z) : V Z :=
  match fuel with
  | O => failwith OutOfFuel
  | S fuel' =>
      if u64 (pgstart + PAGE_SIZE) <? end_ then
        r <-- pgfree pgstart ;;
        if r =? SYSERR then ret SYSERR
        else pgfreerange_loop fuel' (u64 (pgstart + PAGE_SIZE)) end_
      else ret OK
  end.

Section Memheap.
Context (memheap : Z).

Definition pgfreerange (start end_ : Z) : V Z :=
  max <-- gets maxaddr ;;
  if (max <? end_) || (start <? memheap) || (end_ <? start) then ret SYSERR
  else pgfreerange_loop (S (Z.to_nat (end_ / PAGE_SIZE))) (roundpage start) end_.

Definition safeInit : V unit :=
  max <-- gets maxaddr ;;
  modify (set_nents (u32 (roundpage (u64 (max - memheap)) / PAGE_SIZE))) ;;;
  pgfreerange memheap max ;;;
  ret tt.
End Memheap.

(** ** Page tables (safeKmapInit.c) *)

(** The loop of [pgTraverseAndCreate] from [level] down to 1. *)
Fixpoint traverse_loop (level : nat) (pagetable virtualaddr : Z) : V (option Z) :=
  match level with
  | O => ret (Some pagetable)
  | S level' =>
      let pte := u64 (pagetable + 8 * PX (Z.of_nat level) virtualaddr) in
      e <-- rd64 pte ;;
      if negb (Z.land e PTE_V =? 0) then traverse_loop level' (PTE2PA e) virtualaddr
      else
        pagetable <-- pgalloc ;;
        if pagetable =? SYSERR_PTR then ret None
        else
          wr64 pte (Z.lor (PA2PTE pagetable) PTE_V) ;;;
          traverse_loop level' pagetable virtualaddr
  end.

Definition pgTraverseAndCreate (pagetable virtualaddr : Z) : V Z :=
  r <-- traverse_loop 2 pagetable virtualaddr ;;
  match r with
  | None => ret SYSERR_PTR
  | Some pagetable => ret (u64 (pagetable + 8 * PX 0 virtualaddr))
  end.

Definition mapPage (pagetable page virtualaddr attr : Z) : V Z :=
  let addr := truncpage virtualaddr in
  pte <-- pgTraverseAndCreate pagetable addr ;;
  if pte =? SYSERR_PTR then ret SYSERR
  else
    e <-- rd64 pte ;;
    (if negb (Z.land e PTE_V =? 0) then kprintf "REMAPPED 0x%08X!!!\r\n" [addr] else ret tt) ;;;
    wr64 pte (Z.lor (Z.lor (PA2PTE page) attr) PTE_V) ;;;
    ret OK.

(** The loop of [mapAddress]. *)
Fixpoint mapAddress_loop (fuel : nat) (pagetable addr end_ physicaladdr attr : Z) : V Z :=
  match fuel with
  | O => failwith OutOfFuel
  | S fuel' =>
      if addr <? end_ then
        pte <-- pgTraverseAndCreate pagetable addr ;;
        if pte =? SYSERR_PTR then ret SYSERR
        else
          e <-- rd64 pte ;;
          (if negb (Z.land e PTE_V =? 0) then kprintf "REMAPPED 0x%16X!!!\r\n" [addr] else ret tt) ;;;
          wr64 pte (Z.lor (Z.lor (PA2PTE physicaladdr) attr) PTE_V) ;;;
          mapAddress_loop fuel' pagetable (u64 (addr + PAGE_SIZE)) end_ (u64 (physicaladdr + PAGE_SIZE)) attr
      else ret OK
  end.

Definition mapAddress (pagetable virtualaddr physicaladdr length attr : Z) : V Z :=
  if length =? 0 then ret SYSERR
  else
    let nlength := roundpage length in
    let addr := truncpage virtualaddr in
    let end_ := u64 (addr + nlength) in
    mapAddress_loop (S (Z.to_nat (nlength / PAGE_SIZE))) pagetable addr end_ physicaladdr attr.

Definition UART_BASE : Z := 0x10000000.
Definition INTERRUPTADDR : Z := 0x3FFFFFC000.

(** The addresses that the linker script defines. *)
Record symbols := mkSymbols {
  _start : Z; _ctxsws : Z; _interrupts : Z; _interrupte : Z; _datas : Z; memheap : Z
}.

Definition safeKmapInit (y : symbols) : V unit :=
  pagetable <-- pgalloc ;;
  mapAddress pagetable UART_BASE UART_BASE 0x100 (Z.lor PTE_R PTE_W) ;;;
  mapAddress pagetable (_start y) (_start y) (u64 (_ctxsws y - _start y)) (Z.lor PTE_R PTE_X) ;;;
  mapAddress pagetable INTERRUPTADDR (_interrupts y) PAGE_SIZE (Z.lor (Z.lor PTE_R PTE_X) PTE_G) ;;;
  mapAddress pagetable (_interrupte y) (_interrupte y) (u64 (_datas y - _interrupte y)) (Z.lor PTE_R PTE_X) ;;;
  mapAddress pagetable (_datas y) (_datas y) (u64 (memheap y - _datas y)) (Z.lor PTE_R PTE_W) ;;;
  max <-- gets maxaddr ;;
  mapAddress pagetable (memheap y) (memheap y) (u64 (max - memheap y)) (Z.lor PTE_R PTE_W) ;;;
  modify (set_root pagetable) ;;;
  modify (write_satp (MAKE_SATP 0 pagetable)).

(** *** Printing *)

Fixpoint repeatM (n : nat) (m : V unit) : V unit :=
  match n with O => ret tt | S n' => m ;;; repeatM n' m end.

Definition printSpaces (spaces : Z) : V unit := repeatM (Z.to_nat spaces) (kprintf " " []).

(** The entries from the [n]th last on; [print] is the recursive call. *)
Fixpoint print_entries (print : Z -> Z -> V unit) (n : nat) (pagetable spaces : Z) : V unit :=
  match n with
  | O => ret tt
  | S n' =>
      let i := 512 - Z.of_nat n in
      e <-- rd64 (u64 (pagetable + 8 * i)) ;;
      (if negb (Z.land e PTE_V =? 0) then
         printSpaces (s32 (spaces + 2)) ;;;
         if Z.land e (Z.lor (Z.lor PTE_R PTE_W) PTE_X) =? 0 then
           kprintf "Link PTE (0x%016lX)| Address 0x%016lX\r\n" [e; PTE2PA e] ;;;
           print (PTE2PA e) (s32 (spaces + 2))
         else kprintf "Leaf PTE (0x%016lX)| Address 0x%016lX\r\n" [e; PTE2PA e]
       else ret tt) ;;;
      print_entries print n' pagetable spaces
  end.

(** [fuel] bounds the depth of the recursion: 3 for the trees of this file. *)
Fixpoint printPageTable (fuel : nat) (pagetable spaces : Z) : V unit :=
  match fuel with
  | O => failwith OutOfFuel
  | S fuel' =>
      printSpaces spaces ;;;
      kprintf "Table at 0x%08X:\r\n" [pagetable] ;;;
      print_entries (printPageTable fuel') 512 pagetable spaces
  end.

(** ** Arithmetic of pages and entries *)

Definition page_ok (a : Z) : Prop := a mod PAGE_SIZE = 0 /\ 0 < a < 2 ^ 64.

#[local] Ltac page_unfold := unfold page_ok, PAGE_SIZE, PXSHIFT, VAOFFSET, PXMASK, PTE_V in *.

Lemma truncpage_eq x : 0 <= x < 2 ^ 64 -> truncpage x = x - x mod 4096.
Proof.
  intros Hx. unfold truncpage. rewrite wrap_small by done. change 0x0FFF with (Z.ones 12). by rewrite land_lnot_ones by lia.
Qed.

Lemma roundpage_eq x : 0 <= x < 2 ^ 64 - 4095 -> roundpage x = 4096 * ((x + 4095) / 4096).
Proof.
  intros Hx. unfold roundpage. rewrite wrap_small by lia. change (Z.lnot 0x0FFF) with (Z.lnot (Z.ones 12)).
  rewrite land_lnot_ones by lia. change (2 ^ 12) with 4096. replace (4095 + x) with (x + 4095) by lia.
  pose proof (Z.div_mod (x + 4095) 4096). lia.
Qed.

Lemma roundpage_aligned x : 0 <= x < 2 ^ 64 - 4095 -> x mod 4096 = 0 -> roundpage x = x.
Proof.
  intros Hx Ha. rewrite roundpage_eq by done.
  assert (x = x / 4096 * 4096) as E by (pose proof (Z.div_mod x 4096); lia). rewrite E at 1.
  rewrite Z.div_add_l by lia. change (4095 / 4096) with 0. lia.
Qed.

Lemma PX_range level va : 0 <= PX level va < 512.
Proof. unfold PX, PXMASK. change 0x1FF with (Z.ones 9). rewrite Z.land_ones by lia. by apply Z.mod_pos_bound. Qed.

Lemma PX_eq level va : 0 <= level -> PX level va = va / 2 ^ (12 + 9 * level) mod 512.
Proof.
  intros Hl. unfold PX. page_unfold. change 0x1FF with (Z.ones 9). rewrite Z.land_ones, Z.shiftr_div_pow2 by lia. done.
Qed.

(** A Sv39 address is its three indices and its offset. *)
Lemma va_split va : 0 <= va < 2 ^ 39 ->
  va = PX 2 va * 2 ^ 30 + PX 1 va * 2 ^ 21 + PX 0 va * 2 ^ 12 + va mod 4096.
Proof.
  intros H. rewrite !PX_eq by lia.
  change (2 ^ (12 + 9 * 2)) with (4096 * 512 * 512). change (2 ^ (12 + 9 * 1)) with (4096 * 512).
  change (2 ^ (12 + 9 * 0)) with 4096. rewrite <- !Z.div_div by lia.
  pose proof (Z.div_mod va 4096). pose proof (Z.div_mod (va / 4096) 512).
  pose proof (Z.div_mod (va / 4096 / 512) 512). pose proof (Z.div_mod (va / 4096 / 512 / 512) 512).
  assert (va / 4096 / 512 / 512 / 512 = 0) as E by (rewrite !Z.div_div by lia; apply Z.div_small; lia).
  lia.
Qed.

Lemma lor_1_range attr : 0 <= attr < 1024 -> 1 <= Z.lor attr 1 < 1024 /\ Z.testbit (Z.lor attr 1) 0 = true.
Proof.
  intros Ha. split; [|by rewrite Z.lor_spec, orb_true_r].
  assert (0 <= Z.lor attr 1 < 2 ^ 10) as [H0 H1].
  { apply bits_bound; [lia|]. split; [apply Z.lor_nonneg; lia|]. intros j Hj. rewrite Z.lor_spec.
    rewrite (proj2 (proj1 (bits_bound attr 10 ltac:(lia)) ltac:(lia)) j Hj).
    by rewrite (proj2 (proj1 (bits_bound 1 10 ltac:(lia)) ltac:(lia)) j Hj). }
  change (2 ^ 10) with 1024 in H1. split; [|done]. destruct (Z.eq_dec (Z.lor attr 1) 0) as [E|]; [|lia].
  exfalso. apply Z.lor_eq_0_iff in E. lia.
Qed.

(** The entry for page [p] with attributes below the page number. *)
Lemma pte_eq p attr : 0 <= p < 2 ^ 64 -> 0 <= attr < 1024 ->
  Z.lor (Z.lor (PA2PTE p) attr) PTE_V = p / 4096 * 1024 + Z.lor attr 1.
Proof.
  intros Hp Ha. assert (0 <= p / 4096 < 2 ^ 52) as Hd.
  { split; [apply Z.div_pos; lia|]. apply Z.div_lt_upper_bound; lia. }
  unfold PA2PTE, PAGE_SIZE, PTE_V. rewrite wrap_small.
  2:{ rewrite Z.shiftl_mul_pow2 by lia. change (2 ^ 10) with 1024. lia. }
  rewrite <- Z.lor_assoc. rewrite shiftl_lor_disjoint; [done|lia|].
  pose proof (lor_1_range attr Ha). change (2 ^ 10) with 1024. lia.
Qed.

Lemma land_PTE_V e : Z.land e PTE_V = if Z.testbit e 0 then 1 else 0.
Proof.
  apply Z.bits_inj'. intros n Hn. rewrite Z.land_spec. unfold PTE_V.
  destruct (Z.eq_dec n 0) as [->|Hn0]; [destruct (Z.testbit e 0); by rewrite ?andb_true_r|].
  rewrite (proj2 (proj1 (bits_bound 1 1 ltac:(lia)) ltac:(lia)) n ltac:(lia)), andb_false_r.
  destruct (Z.testbit e 0); [|by rewrite Z.testbit_0_l].
  by rewrite (proj2 (proj1 (bits_bound 1 1 ltac:(lia)) ltac:(lia)) n ltac:(lia)).
Qed.

Lemma pte_fields p attr : 0 <= p < 2 ^ 64 -> 0 <= attr < 1024 ->
  let e := Z.lor (Z.lor (PA2PTE p) attr) PTE_V in
  Z.land e PTE_V <> 0 /\ PTE2PA e = p - p mod 4096 /\ Z.land e (Z.ones 10) = Z.lor attr 1.
Proof.
  intros Hp Ha e. unfold e. rewrite pte_eq by done. destruct (lor_1_range attr Ha) as [Hr Hb].
  assert ((p / 4096 * 1024 + Z.lor attr 1) mod 2 ^ 10 = Z.lor attr 1) as Hm.
  { change (2 ^ 10) with 1024. rewrite Z.add_comm, Z.mod_add by lia. apply Z.mod_small. lia. }
  split; [|split].
  - rewrite land_PTE_V, <- (Z.mod_pow2_bits_low _ 10) by lia. by rewrite Hm, Hb.
  - unfold PTE2PA, PAGE_SIZE. rewrite Z.shiftr_div_pow2 by lia. change (2 ^ 10) with 1024.
    rewrite Z.div_add_l by lia. rewrite (Z.div_small (Z.lor attr 1)) by lia. pose proof (Z.div_mod p 4096).
    pose proof (Z.mod_pos_bound p 4096). rewrite wrap_small by lia. lia.
  - rewrite Z.land_ones by lia. exact Hm.
Qed.

(** A link to a table. *)
Lemma link_fields b : page_ok b ->
  let e := Z.lor (PA2PTE b) PTE_V in
  Z.land e PTE_V <> 0 /\ PTE2PA e = b /\ Z.land e (Z.lor (Z.lor PTE_R PTE_W) PTE_X) = 0.
Proof.
  intros [Hm Hb] e. destruct (pte_fields b 0) as (H1 & H2 & H3); [lia|lia|]. rewrite Z.lor_0_r in *.
  unfold e. split; [done|]. split; [rewrite H2; unfold PAGE_SIZE in Hm; lia|].
  replace (Z.lor (Z.lor PTE_R PTE_W) PTE_X) with (Z.land (Z.ones 10) 14) by reflexivity.
  by rewrite Z.land_assoc, H3.
Qed.

(** *** Words of a page *)

Lemma word_at_slot f a i : a mod 4096 = 0 -> 0 <= i < 512 -> word_at f (a + 8 * i) = f !! a ≫= fun ws => nthZ ws i.
Proof.
  intros Ha Hi. unfold word_at, frame_of, slot_of, PAGE_SIZE.
  assert ((a + 8 * i) mod 4096 = 8 * i) as ->.
  { rewrite Z.add_mod, Ha by lia. rewrite Z.add_0_l, Z.mod_mod by lia. apply Z.mod_small. lia. }
  assert ((a + 8 * i) mod 8 = 0) as ->.
  { pose proof (Z.div_mod a 4096). replace (a + 8 * i) with ((512 * (a / 4096) + i) * 8) by lia. apply Z.mod_mul. lia. }
  replace (a + 8 * i - 8 * i) with a by lia. by rewrite Z.mul_comm, Z.div_mul by lia.
Qed.

Lemma frame_slot a i : a mod 4096 = 0 -> 0 <= i < 512 -> frame_of (a + 8 * i) = a /\ slot_of (a + 8 * i) = i.
Proof.
  intros Ha Hi. unfold frame_of, slot_of, PAGE_SIZE.
  assert ((a + 8 * i) mod 4096 = 8 * i) as ->.
  { rewrite Z.add_mod, Ha by lia. rewrite Z.add_0_l, Z.mod_mod by lia. apply Z.mod_small. lia. }
  split; [lia|]. by rewrite Z.mul_comm, Z.div_mul by lia.
Qed.

Lemma slot_addr a i : page_ok a -> 0 <= i < 512 -> u64 (a + 8 * i) = a + 8 * i.
Proof.
  intros [Hm Ha] Hi. apply wrap_small. unfold PAGE_SIZE in Hm. pose proof (Z.div_mod a 4096).
  assert (a / 4096 < 2 ^ 52) by (apply Z.div_lt_upper_bound; lia). lia.
Qed.

Lemma rd64_slot a i ws w s {B} (k : Z -> V B) : page_ok a -> 0 <= i < 512 -> frames s !! a = Some ws -> nthZ ws i = Some w ->
  bind (rd64 (a + 8 * i)) k s = k w s.
Proof.
  intros [Ha _] Hi Hw Hi'. unfold rd64. apply bind_Ret. rewrite bind_gets, word_at_slot by done. rewrite Hw. simpl. by rewrite Hi'.
Qed.

Lemma wr64_slot a i v ws s : page_ok a -> 0 <= i < 512 -> frames s !! a = Some ws -> lenZ ws = 512 ->
  wr64 (a + 8 * i) v s = Ret (tt, set_frames (<[a := updZ i v ws]> (frames s)) s).
Proof.
  intros Hok Hi Hw Hl. destruct (nthZ_lt_Some ws i) as [w Hn]; [lia|]. unfold wr64.
  rewrite (rd64_slot a i ws w s _ Hok Hi Hw Hn). destruct Hok as [Ha _]. unfold modify.
  destruct (frame_slot a i Ha Hi) as [-> ->]. do 2 f_equal. f_equal.
  apply map_eq. intros b. destruct (decide (a = b)) as [<-|Hb].
  - by rewrite lookup_alter_eq, Hw, lookup_insert_eq.
  - by rewrite lookup_alter_ne, lookup_insert_ne by done.
Qed.

(** ** The representation *)

(** The free list from [p] on. *)
Fixpoint chain (f : gmap Z (list Z)) (p : Z) (l : list Z) : Prop :=
  match l with
  | [] => p = NULL
  | a :: l' => p = a /\ page_ok a /\ exists ws n, f !! a = Some ws /\ lenZ ws = 512 /\ nthZ ws 0 = Some n /\ chain f n l'
  end.

Lemma free_chain_frame f f' p l : (forall a, a ∈ l -> f' !! a = f !! a) -> chain f p l -> chain f' p l.
Proof.
  revert p. induction l as [|a l IH]; intros p Hf H; [done|]. destruct H as (-> & Hok & ws & n & Hw & Hl & Hn & Hc).
  split; [done|]. split; [done|]. exists ws, n. rewrite Hf by left. repeat (split; [done|]).
  apply IH; [|done]. intros b Hb. apply Hf. by right.
Qed.

(** The tables of a tree by path: the root at [[]], the table that entry [i]
    of the table at [p] links to at [p ++ [i]]. *)
Abbreviation tree := (gmap (list Z) Z).

Record tree_wf (f : gmap Z (list Z)) (root : Z) (T : tree) : Prop := {
  tree_root : T !! [] = Some root;
  tree_page p a : T !! p = Some a -> page_ok a /\ exists ws, f !! a = Some ws /\ lenZ ws = 512;
  tree_up p i b : T !! (p ++ [i]) = Some b -> (length p < 2)%nat /\ is_Some (T !! p);
  tree_links p a ws i : T !! p = Some a -> (length p < 2)%nat -> f !! a = Some ws -> 0 <= i < 512 ->
    exists e, nthZ ws i = Some e /\
      match T !! (p ++ [i]) with Some b => e = Z.lor (PA2PTE b) PTE_V | None => Z.land e PTE_V = 0 end;
  tree_inj p q a : T !! p = Some a -> T !! q = Some a -> p = q
}.

Record vm_wf (s : vm) (root : Z) (T : tree) (free : list Z) : Prop := {
  vm_tree : tree_wf (frames s) root T;
  vm_free : chain (frames s) (pgfreelist s) free;
  vm_nodup : NoDup free;
  vm_apart p a : T !! p = Some a -> a ∉ free
}.

(** Entry [i] of the lowest table at [q], 0 when there is none. *)
Definition entry (f : gmap Z (list Z)) (T : tree) (q : list Z) (i : Z) : Z :=
  match T !! q with
  | Some a => default 0 (f !! a ≫= fun ws => nthZ ws i)
  | None => 0
  end.

Definition path (va : Z) : list Z := [PX 2 va; PX 1 va].
Definition entry_of (s : vm) (T : tree) (va : Z) : Z := entry (frames s) T (path va) (PX 0 va).

(** The walk of the hardware: the entry that maps an address. *)
Fixpoint walk (f : gmap Z (list Z)) (level : nat) (table va : Z) : option Z :=
  ws ← f !! table;
  e ← nthZ ws (PX (Z.of_nat level) va);
  if Z.land e PTE_V =? 0 then None
  else match level with
       | O => Some e
       | S level' =>
           if Z.land e (Z.lor (Z.lor PTE_R PTE_W) PTE_X) =? 0 then walk f level' (PTE2PA e) va else Some e
       end.

Definition sv39_walk (s : vm) (root va : Z) : option Z := walk (frames s) 2 root va.

Lemma walk_entry s root T va : tree_wf (frames s) root T ->
  sv39_walk s root va = if Z.land (entry_of s T va) PTE_V =? 0 then None else Some (entry_of s T va).
Proof.
  intros HT.
  assert (forall n p a, (length p + S n = 3)%nat -> T !! p = Some a ->
    path va = p ++ drop (length p) (path va) ->
    walk (frames s) n a va = if Z.land (entry_of s T va) PTE_V =? 0 then None else Some (entry_of s T va)) as H.
  2:{ apply (H _ []); [done|apply (tree_root _ _ _ HT)|done]. }
  induction n as [|n IH]; intros p a Hl Hp Hpath;
    destruct (tree_page _ _ _ HT _ _ Hp) as (Hok & ws & Hw & Hlen); cbn [walk]; rewrite Hw; simpl.
  - pose proof (PX_range 0 va) as Hi. destruct (nthZ_lt_Some ws (PX 0 va)) as [e He]; [lia|].
    change (Z.of_nat 0) with 0. rewrite He. simpl. unfold entry_of, entry.
    rewrite drop_ge, app_nil_r in Hpath by (simpl; lia). by rewrite Hpath, Hp, Hw; simpl; rewrite He.
  - set (i := PX (Z.of_nat (S n)) va). pose proof (PX_range (Z.of_nat (S n)) va) as Hi. fold i in Hi.
    destruct (tree_links _ _ _ HT p a ws i) as (e & He & HL); [done|lia|done|done|]. rewrite He. simpl.
    assert (drop (length p) (path va) = i :: drop (S (length p)) (path va)) as Hd.
    { destruct p as [|x [|y [|z p]]]; simpl in Hl; try lia; unfold i; [assert (n = 1%nat) as -> by lia|assert (n = 0%nat) as -> by lia]; done. }
    rewrite Hd in Hpath. destruct (T !! (p ++ [i])) as [b|] eqn:Eb.
    + destruct (tree_page _ _ _ HT _ _ Eb) as [Hokb _]. destruct (link_fields b Hokb) as (H1 & H2 & H3).
      rewrite HL. rewrite (proj2 (Z.eqb_neq _ _) H1), H3, H2. simpl. apply (IH (p ++ [i])); [rewrite length_app; simpl; lia|done|].
      rewrite length_app. simpl. rewrite Nat.add_1_r, <- app_assoc. exact Hpath.
    + rewrite HL. simpl. unfold entry_of, entry. destruct (T !! path va) as [b|] eqn:Ev; [exfalso|done].
      rewrite Hpath in Ev. destruct p as [|x [|y [|z p]]]; simpl in Hl; try lia; simpl in Ev, Eb.
      * apply (tree_up _ _ _ HT [i]) in Ev as [_ Ev]. rewrite Eb in Ev. by destruct Ev.
      * by rewrite Eb in Ev.
Qed.

(** ** Growing a tree *)

Definition zero_page : list Z := replicate 512 0.

Lemma zero_page_nth i : 0 <= i < 512 -> nthZ zero_page i = Some 0.
Proof.
  intros Hi. unfold nthZ, zero_page. rewrite (proj2 (Z.leb_le 0 i)) by lia. apply lookup_replicate_2. lia.
Qed.

Lemma entry_zero f T q a i : T !! q = Some a -> f !! a = Some zero_page -> entry f T q i = 0.
Proof.
  intros HT Hf. unfold entry. rewrite HT, Hf. simpl. destruct (nthZ zero_page i) eqn:E; [|done]. simpl.
  pose proof (nthZ_Some_lt _ _ _ E) as Hi. unfold lenZ, zero_page in Hi. rewrite length_replicate in Hi.
  rewrite zero_page_nth in E by lia. congruence.
Qed.

Section Grow.
Context (f : gmap Z (list Z)) (root : Z) (T : tree) (p : list Z) (a i b : Z) (ws : list Z).
Context (HT : tree_wf f root T) (Hp : T !! p = Some a) (Hlp : (length p < 2)%nat) (Hi : 0 <= i < 512).
Context (Hnew : T !! (p ++ [i]) = None) (Hb : page_ok b) (Hfresh : forall q, T !! q <> Some b).
Context (Hw : f !! a = Some ws).

Definition grown : gmap Z (list Z) := <[a := updZ i (Z.lor (PA2PTE b) PTE_V) ws]> (<[b := zero_page]> f).
Definition grown_tree : tree := <[p ++ [i] := b]> T.

Lemma grown_lookup q c : T !! q = Some c -> c <> a -> grown !! c = f !! c.
Proof.
  intros Hq Hc. unfold grown. rewrite !lookup_insert_ne; [done|intros ->; by apply (Hfresh q)|done].
Qed.

Lemma ab_ne : a <> b.
Proof. intros ->. by apply (Hfresh p). Qed.

Lemma snoc_inj (q r : list Z) x y : q ++ [x] = r ++ [y] -> q = r /\ x = y.
Proof. apply app_inj_tail. Qed.

Lemma grow_tree : tree_wf grown root grown_tree.
Proof.
  destruct (tree_page _ _ _ HT _ _ Hp) as (_ & ws' & Hw' & Hlen). assert (ws' = ws) as -> by congruence.
  pose proof ab_ne as Hab. constructor.
  - unfold grown_tree. rewrite lookup_insert_ne; [apply (tree_root _ _ _ HT)|by destruct p].
  - intros q c Hq. unfold grown_tree in Hq. apply lookup_insert_Some in Hq as [[<- <-]|[_ Hq]].
    + split; [done|]. exists zero_page. unfold grown. rewrite lookup_insert_ne, lookup_insert_eq by done. done.
    + destruct (tree_page _ _ _ HT _ _ Hq) as (Hok & wq & Hwq & Hlq). split; [done|]. destruct (decide (c = a)) as [->|Hc].
      * eexists. unfold grown. rewrite lookup_insert_eq. by rewrite lenZ_updZ.
      * exists wq. by rewrite (grown_lookup q).
  - intros q j c Hq. unfold grown_tree in *. apply lookup_insert_Some in Hq as [[E _]|[_ Hq]].
    + apply snoc_inj in E as [<- <-]. split; [done|]. rewrite lookup_insert_ne; [done|].
      intros E. apply (f_equal length) in E. rewrite length_app in E. simpl in E. lia.
    + destruct (tree_up _ _ _ HT _ _ _ Hq) as [Hl Hs]. split; [done|]. rewrite lookup_insert_is_Some. destruct (decide (p ++ [i] = q)); [by left|by right].
  - intros q c wq j Hq Hlq Hwq Hj. unfold grown_tree in *. apply lookup_insert_Some in Hq as [[<- <-]|[Hne Hq]].
    + unfold grown in Hwq. rewrite lookup_insert_ne, lookup_insert_eq in Hwq by done. injection Hwq as <-.
      exists 0. rewrite zero_page_nth by done. split; [done|]. rewrite lookup_insert_ne.
      2:{ intros E. apply (f_equal length) in E. rewrite !length_app in E. simpl in E. lia. }
      destruct (T !! ((p ++ [i]) ++ [j])) as [c|] eqn:E; [|done]. apply (tree_up _ _ _ HT) in E as [_ E].
      rewrite Hnew in E. by destruct E.
    + destruct (decide (q = p)) as [->|Hqp].
      * assert (c = a) as -> by congruence. unfold grown in Hwq. rewrite lookup_insert_eq in Hwq. injection Hwq as <-.
        rewrite nthZ_updZ by lia. destruct (decide (i = j)) as [<-|Hij].
        { eexists. split; [done|]. by rewrite lookup_insert_eq. }
        rewrite lookup_insert_ne by (intros E; by apply snoc_inj in E as [_ ?]). by apply (tree_links _ _ _ HT p a).
      * rewrite (grown_lookup q) in Hwq; [|done|intros ->; apply Hqp; by apply (tree_inj _ _ _ HT _ _ a)].
        rewrite lookup_insert_ne by (intros E; by apply snoc_inj in E as [? _]). by apply (tree_links _ _ _ HT q c).
  - intros q r c Hq Hr. unfold grown_tree in *. apply lookup_insert_Some in Hq as [[<- <-]|[_ Hq]];
      apply lookup_insert_Some in Hr as [[<- E]|[_ Hr]]; try done.
    + by apply Hfresh in Hr.
    + subst c. by apply Hfresh in Hq.
    + by apply (tree_inj _ _ _ HT _ _ c).
Qed.

Lemma grow_entry q j : length q = 2%nat -> entry grown grown_tree q j = entry f T q j.
Proof.
  intros Hq. pose proof ab_ne as Hab. unfold grown_tree. destruct (decide (p ++ [i] = q)) as [<-|Hne].
  - rewrite (entry_zero _ _ _ b); [|apply lookup_insert_eq|unfold grown; by rewrite lookup_insert_ne, lookup_insert_eq].
    unfold entry. by rewrite Hnew.
  - unfold entry. rewrite lookup_insert_ne by done. destruct (T !! q) as [c|] eqn:E; [|done].
    rewrite (grown_lookup q); [done|done|]. intros ->. rewrite (tree_inj _ _ _ HT q p a E Hp) in Hq. lia.
Qed.
End Grow.

(** ** The allocator *)

Lemma pgalloc_empty s : pgfreelist s = NULL -> pgalloc s = Ret (SYSERR_PTR, set_console (("Returning SYSERR"%string, []) :: console s) s).
Proof. intros H. unfold pgalloc. rewrite bind_gets, H. done. Qed.

Lemma pgalloc_take s b fr : chain (frames s) (pgfreelist s) (b :: fr) -> NoDup (b :: fr) ->
  exists n, pgalloc s = Ret (b, set_frames (<[b := zero_page]> (frames s)) (set_pgfreelist n s)) /\
    chain (<[b := zero_page]> (frames s)) n fr.
Proof.
  intros (Hp & Hok & ws & n & Hw & Hl & Hn & Hc) Hnd. exists n. split.
  - unfold pgalloc. rewrite bind_gets, Hp. rewrite (proj2 (Z.eqb_neq b NULL)) by (destruct Hok; unfold NULL; lia).
    rewrite bind_gets, Hp. replace b with (b + 8 * 0) at 1 by lia.
    rewrite (rd64_slot b 0 ws n) by (done || lia). rewrite bind_modify. unfold bzero_page.
    rewrite (bind_Ret _ _ _ tt (set_frames (<[b := zero_page]> (frames s)) (set_pgfreelist n s))); [done|].
    rewrite bind_gets. simpl. by rewrite Hw.
  - apply (free_chain_frame (frames s)); [|done]. intros c Hcf. apply NoDup_cons in Hnd as [Hnd _].
    rewrite lookup_insert_ne; [done|by intros ->].
Qed.

(** [pgfree] and [pgalloc] are a stack of pages. *)
Lemma pgfree_push s fr a ws : chain (frames s) (pgfreelist s) fr -> page_ok a -> frames s !! a = Some ws -> a ∉ fr ->
  exists s', pgfree a s = Ret (OK, s') /\ s' = set_pgfreelist a (set_frames (<[a := updZ 0 (pgfreelist s) zero_page]> (frames s)) s) /\
    chain (frames s') (pgfreelist s') (a :: fr).
Proof.
  intros Hc Hok Hw Ha. eexists. split; [|split; [reflexivity|]].
  - destruct Hok as [Hm Hr]. unfold pgfree. rewrite (proj2 (Z.eqb_eq _ _) Hm). simpl.
    rewrite (bind_Ret _ _ _ tt (set_frames (<[a := zero_page]> (frames s)) s)).
    2:{ unfold bzero_page. rewrite bind_gets. by rewrite Hw. }
    rewrite bind_gets. replace a with (a + 8 * 0) at 1 by lia.
    set (s1 := set_frames (<[a := zero_page]> (frames s)) s).
    rewrite (bind_Ret _ _ _ _ _ (wr64_slot a 0 (pgfreelist s) zero_page s1 (conj Hm Hr) ltac:(lia) (lookup_insert_eq _ _ _) ltac:(done))).
    rewrite bind_modify. unfold ret, s1. simpl. by rewrite insert_insert_eq.
  - simpl. split; [done|]. split; [done|]. exists (updZ 0 (pgfreelist s) zero_page), (pgfreelist s).
    rewrite lookup_insert_eq. split; [done|]. rewrite lenZ_updZ. split; [done|].
    rewrite nthZ_updZ_eq by (by unfold lenZ, zero_page; rewrite length_replicate). split; [done|].
    apply (free_chain_frame (frames s)); [|done]. intros b Hb. rewrite lookup_insert_ne; [done|by intros <-].
Qed.

(** ** Traversal *)

(** The tables that the address needs below the root. *)
Definition links (va : Z) : gset (list Z) := {[ [PX 2 va]; path va ]}.

(** What the page-table code leaves alone. *)
Definition others (s : vm) : Z * Z * Z * Z * Z := (pgtbl_nents s, maxaddr s, kernpgtbl s, pcb_pagetable s, satp s).

(** Pages have moved from the free list into the tree; no entry has changed
    and no page is lost. *)
Record extends (root : Z) (s : vm) (T : tree) (free : list Z) (s' : vm) (T' : tree) (free' : list Z) : Prop := {
  ext_wf : vm_wf s' root T' free';
  ext_tree : T ⊆ T';
  ext_entry q j : length q = 2%nat -> entry (frames s') T' q j = entry (frames s) T q j;
  ext_count : (size T' + length free' = size T + length free)%nat;
  ext_others : others s' = others s
}.

Lemma extends_refl root s T free : vm_wf s root T free -> extends root s T free s T free.
Proof. intros H. by constructor. Qed.

Lemma extends_trans root s1 T1 f1 s2 T2 f2 s3 T3 f3 :
  extends root s1 T1 f1 s2 T2 f2 -> extends root s2 T2 f2 s3 T3 f3 -> extends root s1 T1 f1 s3 T3 f3.
Proof.
  intros [_ H2 H3 H4 H5] [K1 K2 K3 K4 K5]. constructor; [done|by etrans| |congruence|congruence].
  intros q j Hq. by rewrite K3, H3.
Qed.

Lemma log_extends root s T free m : vm_wf s root T free -> extends root s T free (set_console m s) T free.
Proof. intros [H1 H2 H3 H4]. by constructor. Qed.

(** One new table. *)
Lemma grow_extends root s T b fr p a i ws n : vm_wf s root T (b :: fr) -> T !! p = Some a -> (length p < 2)%nat ->
  0 <= i < 512 -> T !! (p ++ [i]) = None -> frames s !! a = Some ws -> chain (<[b := zero_page]> (frames s)) n fr ->
  extends root s T (b :: fr) (set_frames (grown (frames s) a i b ws) (set_pgfreelist n s)) (grown_tree T p i b) fr.
Proof.
  intros [H1 H2 H3 H4] Hp Hl Hi Hn Hw Hc. apply NoDup_cons in H3 as [H3 H3'].
  assert (forall q, T !! q <> Some b) as Hfresh by (intros q Hq; apply (H4 _ _ Hq); left).
  assert (page_ok b) as Hb by (by destruct H2 as (_ & ? & _)).
  constructor.
  - constructor; [by apply grow_tree| |done|].
    + apply (free_chain_frame (<[b := zero_page]> (frames s))); [|done]. intros c Hcf. unfold grown.
      simpl. rewrite lookup_insert_ne; [done|]. intros <-. apply (H4 _ _ Hp), elem_of_cons. by right.
    + intros q c Hq. unfold grown_tree in Hq. apply lookup_insert_Some in Hq as [[<- <-]|[_ Hq]]; [done|].
      intros Hcf. apply (H4 _ _ Hq), elem_of_cons. by right.
  - by apply insert_subseteq.
  - intros q j Hq. by apply (grow_entry (frames s) root T p a i b ws).
  - unfold grown_tree. rewrite map_size_insert_None by done. simpl. lia.
  - done.
Qed.

Lemma path_step va p n : (length p + S n = 2)%nat -> path va = p ++ drop (length p) (path va) ->
  path va = (p ++ [PX (Z.of_nat (S n)) va]) ++ drop (length (p ++ [PX (Z.of_nat (S n)) va])) (path va) /\
  p ++ [PX (Z.of_nat (S n)) va] ∈ links va.
Proof.
  unfold links. intros Hl Hp. destruct p as [|x [|y p]]; simpl in Hl; try lia.
  - assert (n = 1%nat) as -> by lia. split; [done|]. set_solver.
  - assert (n = 0%nat) as -> by lia. unfold path in *. simpl in Hp. injection Hp as <-. split; [done|]. set_solver.
Qed.

Lemma traverse_run root va n : forall p a s T free, vm_wf s root T free -> T !! p = Some a ->
  (length p + n = 2)%nat -> path va = p ++ drop (length p) (path va) ->
  exists r s' T' free', traverse_loop n a va s = Ret (r, s') /\ extends root s T free s' T' free' /\
    dom T' ⊆ dom T ∪ links va /\
    match r with Some q => T' !! path va = Some q | None => free' = [] /\ T' !! path va = None end.
Proof.
  induction n as [|n IH]; intros p a s T free Hwf Hp Hl Hpath.
  { exists (Some a), s, T, free. split; [done|]. split; [by apply extends_refl|]. split; [set_solver|].
    rewrite drop_ge, app_nil_r in Hpath by (simpl; lia). by rewrite Hpath. }
  cbn [traverse_loop]. set (i := PX (Z.of_nat (S n)) va). pose proof (PX_range (Z.of_nat (S n)) va) as Hi. fold i in Hi.
  pose proof (vm_tree _ _ _ _ Hwf) as HT. destruct (tree_page _ _ _ HT _ _ Hp) as (Hok & ws & Hw & Hlen).
  destruct (tree_links _ _ _ HT p a ws i) as (e & He & HL); [done|lia|done|done|].
  destruct (path_step va p n Hl Hpath) as [Hpath' Hlink]. fold i in Hpath', Hlink.
  rewrite slot_addr by done. rewrite (rd64_slot a i ws e) by done.
  destruct (T !! (p ++ [i])) as [b|] eqn:Eb.
  - destruct (tree_page _ _ _ HT _ _ Eb) as [Hokb _]. destruct (link_fields b Hokb) as (H1 & H2 & _).
    rewrite HL, (proj2 (Z.eqb_neq _ _) H1), H2. simpl.
    apply (IH (p ++ [i])); [done|done|rewrite length_app; simpl; lia|done].
  - rewrite HL. simpl. destruct free as [|b fr].
    + pose proof (vm_free _ _ _ _ Hwf) as Hf. simpl in Hf. rewrite (bind_Ret _ _ _ _ _ (pgalloc_empty s Hf)).
      eexists None, _, T, []. split; [done|]. split; [by apply log_extends|]. split; [set_solver|]. split; [done|].
      destruct (T !! path va) eqn:E; [exfalso|done]. destruct p as [|x [|y p]]; simpl in Hl; try lia.
      * apply (tree_up _ _ _ HT [PX 2 va]) in E as [_ E]. assert (n = 1%nat) as -> by lia.
        simpl in Eb. unfold i in Eb. change (Z.of_nat 2) with 2 in Eb. rewrite Eb in E. by destruct E.
      * rewrite length_app, Nat.add_1_r in Hpath'. simpl in Hpath', Eb.
        unfold path in *. simpl in Hpath'. injection Hpath' as <- Hi2. rewrite <- Hi2 in Eb. by rewrite Eb in E.
    + destruct (pgalloc_take s b fr (vm_free _ _ _ _ Hwf) (vm_nodup _ _ _ _ Hwf)) as (m & Ha & Hc).
      rewrite (bind_Ret _ _ _ _ _ Ha). pose proof (vm_free _ _ _ _ Hwf) as (_ & Hokb & _).
      rewrite (proj2 (Z.eqb_neq b SYSERR_PTR)).
      2:{ destruct Hokb as [Hm _]. intros ->. by vm_compute in Hm. }
      assert (a <> b) as Hab by (intros ->; apply (vm_apart _ _ _ _ Hwf _ _ Hp); left).
      set (s1 := set_frames _ _). assert (frames s1 !! a = Some ws) as Hw1 by (simpl; by rewrite lookup_insert_ne).
      rewrite (bind_Ret _ _ _ _ _ (wr64_slot a i (Z.lor (PA2PTE b) PTE_V) ws s1 Hok Hi Hw1 Hlen)).
      pose proof (grow_extends root s T b fr p a i ws m Hwf Hp ltac:(lia) Hi Eb Hw Hc) as Hx.
      destruct (IH (p ++ [i]) b _ _ _ (ext_wf _ _ _ _ _ _ _ Hx)) as (r & s' & T' & free' & Hr & Hx' & Hd & Hq);
        [unfold grown_tree; apply lookup_insert_eq|rewrite length_app; simpl; lia|done|].
      exists r, s', T', free'. split; [exact Hr|]. split; [by eapply extends_trans|]. split; [|done].
      unfold grown_tree in Hd. rewrite dom_insert_L in Hd. set_solver.
Qed.

Lemma pgTraverseAndCreate_run root va s T free : vm_wf s root T free ->
  exists r s' T' free', pgTraverseAndCreate root va s = Ret (r, s') /\ extends root s T free s' T' free' /\
    ((exists q, T' !! path va = Some q /\ r = q + 8 * PX 0 va /\ r <> SYSERR_PTR /\ dom T' = dom T ∪ links va) \/
     (r = SYSERR_PTR /\ free' = [] /\ T' !! path va = None /\ dom T' ⊆ dom T ∪ links va)).
Proof.
  intros Hwf. destruct (traverse_run root va 2 [] root s T free Hwf) as (r & s' & T' & free' & Hr & Hx & Hd & Hq);
    [apply (tree_root _ _ _ (vm_tree _ _ _ _ Hwf))|done|done|].
  unfold pgTraverseAndCreate. rewrite (bind_Ret _ _ _ _ _ Hr). destruct r as [q|].
  - destruct (tree_page _ _ _ (vm_tree _ _ _ _ (ext_wf _ _ _ _ _ _ _ Hx)) _ _ Hq) as (Hok & _).
    pose proof (PX_range 0 va) as Hi. exists (q + 8 * PX 0 va), s', T', free'. rewrite slot_addr by done.
    split; [done|]. split; [done|]. left. exists q. split; [done|]. split; [done|]. split.
    + intros E. destruct Hok as [Hm _]. assert ((q + 8 * PX 0 va) mod 8 = 0) as Hm8.
      { unfold PAGE_SIZE in Hm. pose proof (Z.div_mod q 4096).
        replace (q + 8 * PX 0 va) with ((512 * (q / 4096) + PX 0 va) * 8) by lia. apply Z.mod_mul. lia. }
      rewrite E in Hm8. by vm_compute in Hm8.
    + apply (anti_symm (⊆)); [done|]. apply union_subseteq. split; [by apply subseteq_dom, (ext_tree _ _ _ _ _ _ _ Hx)|].
      unfold links. apply union_subseteq. rewrite !singleton_subseteq_l, !elem_of_dom. split; [|by eexists].
      by apply (tree_up _ _ _ (vm_tree _ _ _ _ (ext_wf _ _ _ _ _ _ _ Hx)) [PX 2 va] (PX 1 va) q).
  - destruct Hq as [-> Hq]. eexists _, s', T', []. split; [done|]. split; [done|]. by right.
Qed.

(** ** Mapping *)

Lemma PX_page x level : 0 <= level -> PX level (x - x mod 4096) = PX level x.
Proof.
  intros Hl. rewrite !PX_eq by done. replace (2 ^ (12 + 9 * level)) with (4096 * 2 ^ (9 * level)).
  2:{ change 4096 with (2 ^ 12). rewrite <- Z.pow_add_r by lia. done. }
  assert (0 < 2 ^ (9 * level)) by (apply Z.pow_pos_nonneg; lia).
  rewrite <- !Z.div_div by lia. do 2 f_equal. pose proof (Z.div_mod x 4096).
  replace (x - x mod 4096) with (x / 4096 * 4096) by lia. apply Z.div_mul. lia.
Qed.

Lemma same_page va x : va mod 4096 = 0 -> 0 <= va < 2 ^ 39 -> 0 <= x < 2 ^ 39 ->
  (path x = path va /\ PX 0 x = PX 0 va) <-> va <= x < va + 4096.
Proof.
  intros Ha Hv Hx. pose proof (Z.mod_pos_bound x 4096 ltac:(lia)). split.
  - intros [[= H2 H1] H0]. pose proof (va_split va Hv). pose proof (va_split x Hx). lia.
  - intros H'. assert (x - x mod 4096 = va) as <-; [|unfold path; by rewrite !PX_page by lia].
    pose proof (Z.div_mod x 4096). pose proof (Z.div_mod va 4096). lia.
Qed.

Lemma path_length va : length (path va) = 2%nat.
Proof. done. Qed.

Lemma set_entry root s T free q a i v ws : vm_wf s root T free -> T !! q = Some a -> length q = 2%nat ->
  0 <= i < 512 -> frames s !! a = Some ws ->
  let f' := <[a := updZ i v ws]> (frames s) in
  vm_wf (set_frames f' s) root T free /\
  forall r j, entry f' T r j = if decide (r = q /\ j = i) then v else entry (frames s) T r j.
Proof.
  intros [HT H2 H3 H4] Hq Hl Hi Hw f'. destruct (tree_page _ _ _ HT _ _ Hq) as (_ & ws' & Hw' & Hlen).
  assert (ws' = ws) as -> by congruence.
  assert (forall r c, T !! r = Some c -> r <> q -> f' !! c = frames s !! c) as Hother.
  { intros r c Hr Hne. unfold f'. rewrite lookup_insert_ne; [done|]. intros <-. apply Hne. by apply (tree_inj _ _ _ HT _ _ a). }
  split.
  - constructor; [|apply (free_chain_frame (frames s)); [|done]|done|done].
    + constructor; [apply HT| |apply HT| |apply HT].
      * intros r c Hr. destruct (tree_page _ _ _ HT _ _ Hr) as (Hok & wr & Hwr & Hlr). split; [done|].
        destruct (decide (r = q)) as [->|Hne]; [|exists wr; simpl; by rewrite (Hother r)].
        assert (c = a) as -> by congruence. eexists. simpl. unfold f'. rewrite lookup_insert_eq. by rewrite lenZ_updZ.
      * intros r c wr j Hr Hlr Hwr Hj. simpl in Hwr. rewrite (Hother r) in Hwr by (done || intros ->; lia).
        by apply (tree_links _ _ _ HT r c wr).
    + intros c Hc. simpl. unfold f'. rewrite lookup_insert_ne; [done|]. intros <-. by apply (H4 _ _ Hq).
  - intros r j. unfold entry. case_decide as Hd.
    + destruct Hd as [-> ->]. rewrite Hq. unfold f'. rewrite lookup_insert_eq. simpl. by rewrite nthZ_updZ_eq by lia.
    + destruct (T !! r) as [c|] eqn:Hr; [|done]. destruct (decide (r = q)) as [->|Hne]; [|by rewrite (Hother r)].
      assert (c = a) as -> by congruence. unfold f'. rewrite lookup_insert_eq, Hw. simpl.
      rewrite nthZ_updZ_ne; [done|]. intros ->. by apply Hd.
Qed.

(** What a mapping of [n] pages has done after [k] of them. *)
Record mapped (root va pa attr : Z) (k : nat) (s : vm) (T : tree) (free : list Z) (s' : vm) (T' : tree) (free' : list Z) : Prop := {
  map_wf : vm_wf s' root T' free';
  map_tree : T ⊆ T';
  map_entry x : 0 <= x < 2 ^ 39 ->
    entry_of s' T' x = if (va <=? x) && (x <? va + 4096 * Z.of_nat k)
                       then Z.lor (Z.lor (PA2PTE (pa + (x - x mod 4096 - va))) attr) PTE_V
                       else entry_of s T x;
  map_count : (size T' + length free' = size T + length free)%nat;
  map_others : others s' = others s
}.

Lemma extends_mapped root va pa attr s T free s' T' free' :
  extends root s T free s' T' free' -> mapped root va pa attr 0 s T free s' T' free'.
Proof.
  intros [H1 H2 H3 H4 H5]. constructor; try done. intros x Hx.
  replace ((va <=? x) && (x <? va + 4096 * Z.of_nat 0)) with false.
  - unfold entry_of. by rewrite H3.
  - symmetry. apply andb_false_iff. rewrite Z.leb_gt, Z.ltb_ge. lia.
Qed.

(** The body of [mapAddress] and [mapPage] after the traversal. *)
Definition write_entry (msg : string) (pte addr v : Z) : V unit :=
  e <-- rd64 pte ;;
  (if negb (Z.land e PTE_V =? 0) then kprintf msg [addr] else ret tt) ;;;
  wr64 pte v.

Lemma write_entry_run root s T free q a i msg addr v : vm_wf s root T free -> T !! q = Some a -> length q = 2%nat ->
  0 <= i < 512 ->
  exists s', write_entry msg (a + 8 * i) addr v s = Ret (tt, s') /\ vm_wf s' root T free /\ others s' = others s /\
    forall r j, entry (frames s') T r j = if decide (r = q /\ j = i) then v else entry (frames s) T r j.
Proof.
  intros Hwf Hq Hl Hi. destruct (tree_page _ _ _ (vm_tree _ _ _ _ Hwf) _ _ Hq) as (Hok & ws & Hw & Hlen).
  destruct (nthZ_lt_Some ws i) as [e He]; [lia|]. unfold write_entry. rewrite (rd64_slot a i ws e) by done.
  set (s1 := if negb (Z.land e PTE_V =? 0) then set_console ((msg, [addr]) :: console s) s else s).
  rewrite (bind_Ret _ _ s tt s1) by (unfold s1; by destruct (negb _)).
  assert (frames s1 = frames s) as Hf by (unfold s1; by destruct (negb _)).
  assert (vm_wf s1 root T free) as Hwf1 by (unfold s1; destruct (negb _); [destruct Hwf; by constructor|done]).
  rewrite <- Hf in Hw. rewrite (wr64_slot a i v ws) by done.
  destruct (set_entry root s1 T free q a i v ws) as [H1 H2]; [done..|].
  eexists. split; [done|]. split; [done|]. split; [unfold s1; by destruct (negb _)|].
  intros r j. simpl. by rewrite H2, Hf.
Qed.

(** One page. *)
Lemma map_step root va pa attr msg s T free : vm_wf s root T free -> va mod 4096 = 0 -> 0 <= va < 2 ^ 39 ->
  exists pte s' T' free', pgTraverseAndCreate root va s = Ret (pte, s') /\
    ((pte <> SYSERR_PTR /\ dom T' = dom T ∪ links va /\
      exists s'', write_entry msg pte va (Z.lor (Z.lor (PA2PTE pa) attr) PTE_V) s' = Ret (tt, s'') /\
        mapped root va pa attr 1 s T free s'' T' free') \/
     (pte = SYSERR_PTR /\ free' = [] /\ dom T' ⊆ dom T ∪ links va /\ path va ∉ dom T' /\
      mapped root va pa attr 0 s T free s' T' free')).
Proof.
  intros Hwf Ha Hv. destruct (pgTraverseAndCreate_run root va s T free Hwf) as (r & s' & T' & free' & Hr & Hx & H).
  exists r, s', T', free'. split; [done|]. destruct H as [(q & Hq & -> & Hne & Hd)|(-> & -> & Hq & Hd)]; [left|right].
  - split; [done|]. split; [done|]. destruct Hx as [H1 H2 H3 H4 H5].
    destruct (write_entry_run root s' T' free' (path va) q (PX 0 va) msg va (Z.lor (Z.lor (PA2PTE pa) attr) PTE_V))
      as (s'' & Hw & Hwf' & Ho & He); [done|done|done|apply PX_range|].
    exists s''. split; [done|]. constructor; [done|done| |done|congruence].
    intros x Hxr. unfold entry_of. rewrite He. pose proof (same_page va x Ha Hv Hxr) as Hsp.
    change (4096 * Z.of_nat 1) with 4096. case_decide as Hc.
    + apply Hsp in Hc. rewrite (proj2 (Z.leb_le _ _)), (proj2 (Z.ltb_lt _ _)) by lia. simpl. do 3 f_equal.
      pose proof (Z.div_mod x 4096). pose proof (Z.div_mod va 4096). pose proof (Z.mod_pos_bound x 4096). lia.
    + rewrite H3 by done. destruct (va <=? x) eqn:E1, (x <? va + 4096) eqn:E2; simpl; try done. btest. exfalso. apply Hc, Hsp. lia.
  - split; [done|]. split; [done|]. split; [done|]. split; [by apply not_elem_of_dom|]. by apply extends_mapped.
Qed.

Lemma write_entry_inline msg pte addr v {A} (k : V A) s :
  (e <-- rd64 pte ;;
   (if negb (Z.land e PTE_V =? 0) then kprintf msg [addr] else ret tt) ;;;
   wr64 pte v ;;;
   k) s = bind (write_entry msg pte addr v) (fun _ => k) s.
Proof.
  unfold write_entry. rewrite bind_assoc. unfold bind. destruct (rd64 pte s) as [[e s1]|]; [|done].
  by destruct (negb _); simpl; destruct (wr64 _ _ _) as [[? ?]|].
Qed.

(** The tables that [n] pages from [va] on need. *)
Fixpoint links_range (va : Z) (n : nat) : gset (list Z) :=
  match n with O => ∅ | S n' => links va ∪ links_range (va + 4096) n' end.

Lemma path_links_range va n : path va ∈ links_range va (S n).
Proof. simpl. unfold links. set_solver. Qed.

Lemma mapped_step root va pa attr k s1 T1 f1 s2 T2 f2 s3 T3 f3 : va mod 4096 = 0 ->
  mapped root va pa attr 1 s1 T1 f1 s2 T2 f2 -> mapped root (va + 4096) (pa + 4096) attr k s2 T2 f2 s3 T3 f3 ->
  mapped root va pa attr (S k) s1 T1 f1 s3 T3 f3.
Proof.
  intros Ha [_ H2 H3 H4 H5] [K1 K2 K3 K4 K5]. constructor; [done|by etrans| |congruence|congruence].
  intros x Hx. rewrite K3, H3 by done. change (4096 * Z.of_nat 1) with 4096.
  replace (pa + 4096 + (x - x mod 4096 - (va + 4096))) with (pa + (x - x mod 4096 - va)) by lia.
  destruct (va + 4096 <=? x) eqn:E1, (x <? va + 4096 + 4096 * Z.of_nat k) eqn:E2,
    (va <=? x) eqn:E3, (x <? va + 4096) eqn:E4, (x <? va + 4096 * Z.of_nat (S k)) eqn:E5; simpl; btest; lia || done.
Qed.

Lemma mapped_0 root va pa attr s T free : vm_wf s root T free -> mapped root va pa attr 0 s T free s T free.
Proof. intros H. by apply extends_mapped, extends_refl. Qed.

Lemma mapAddress_loop_run root attr n : forall fuel va pa s T free, vm_wf s root T free ->
  va mod 4096 = 0 -> 0 <= va -> va + 4096 * Z.of_nat n <= 2 ^ 39 -> 0 <= pa -> pa + 4096 * Z.of_nat n < 2 ^ 64 ->
  (n < fuel)%nat ->
  exists k r s' T' free', mapAddress_loop fuel root va (va + 4096 * Z.of_nat n) pa attr s = Ret (r, s') /\
    mapped root va pa attr k s T free s' T' free' /\
    ((r = OK /\ k = n /\ dom T' = dom T ∪ links_range va n) \/
     (r = SYSERR /\ (k < n)%nat /\ free' = [] /\ dom T' ⊆ dom T ∪ links_range va n /\ ~ links_range va n ⊆ dom T')).
Proof.
  induction n as [|n IH]; intros fuel va pa s T free Hwf Ha Hv Hend Hp Hpend Hfuel;
    (destruct fuel as [|fuel]; [lia|]); cbn [mapAddress_loop].
  - rewrite (proj2 (Z.ltb_ge _ _)) by lia. exists O, OK, s, T, free. split; [done|]. split; [by apply mapped_0|].
    left. split; [done|]. split; [done|]. simpl. set_solver.
  - rewrite (proj2 (Z.ltb_lt _ _)) by lia.
    destruct (map_step root va pa attr "REMAPPED 0x%16X!!!\r\n" s T free Hwf Ha ltac:(lia)) as (pte & s1 & T1 & f1 & Hr & H).
    rewrite (bind_Ret _ _ _ _ _ Hr). destruct H as [(Hne & Hd & s2 & Hw & Hm)|(-> & -> & Hd & Hn & Hm)].
    + rewrite (proj2 (Z.eqb_neq _ _) Hne), write_entry_inline, (bind_Ret _ _ _ _ _ Hw).
      unfold PAGE_SIZE. rewrite !wrap_small by lia.
      destruct (IH fuel (va + 4096) (pa + 4096) s2 T1 f1) as (k & r & s' & T' & free' & Hr' & Hm' & H);
        [apply Hm|by rewrite Z.add_mod, Ha by lia|lia|lia|lia|lia|lia|].
      replace (va + 4096 * Z.of_nat (S n)) with (va + 4096 + 4096 * Z.of_nat n) by lia.
      exists (S k), r, s', T', free'. split; [done|]. split; [by eapply mapped_step|].
      destruct H as [(-> & -> & Hd')|(-> & Hk & -> & Hd' & Hn')]; [left|right].
      * split; [done|]. split; [done|]. simpl. rewrite Hd', Hd. set_solver.
      * split; [done|]. split; [lia|]. split; [done|]. simpl. split; [rewrite Hd in Hd'; set_solver|]. set_solver.
    + rewrite Z.eqb_refl. exists O, SYSERR, s1, T1, []. split; [done|]. split; [exact Hm|]. right.
      split; [done|]. split; [lia|]. split; [done|]. split; [simpl; set_solver|]. intros Hs. apply Hn, Hs, path_links_range.
Qed.

(** The attributes and the frame that a mapping of [va] to [pa] gives to [x]. *)
Definition mapping (va pa attr x : Z) : Z := Z.lor (Z.lor (PA2PTE (pa + (x - x mod 4096 - va))) attr) PTE_V.

Lemma pte_valid p attr : Z.land (Z.lor (Z.lor (PA2PTE p) attr) PTE_V) PTE_V =? 0 = false.
Proof. rewrite land_PTE_V, Z.lor_spec. change (Z.testbit PTE_V 0) with true. by rewrite orb_true_r. Qed.

Lemma mapped_walk root va pa attr k s T free s' T' free' x : vm_wf s root T free ->
  mapped root va pa attr k s T free s' T' free' -> 0 <= x < 2 ^ 39 ->
  sv39_walk s' root x = if (va <=? x) && (x <? va + 4096 * Z.of_nat k) then Some (mapping va pa attr x) else sv39_walk s root x.
Proof.
  intros Hwf [H1 H2 H3 _ _] Hx. rewrite (walk_entry s' root T') by apply H1. rewrite H3 by done.
  destruct ((va <=? x) && (x <? va + 4096 * Z.of_nat k)); [by rewrite pte_valid|].
  by rewrite (walk_entry s root T) by apply Hwf.
Qed.

Lemma missing_tables (T T' : tree) (L : gset (list Z)) (free free' : list Z) : T ⊆ T' ->
  (size T' + length free' = size T + length free)%nat ->
  (dom T' = dom T ∪ L -> (size (L ∖ dom T) <= length free)%nat) /\
  (free' = [] -> dom T' ⊆ dom T ∪ L -> ~ L ⊆ dom T' -> (length free < size (L ∖ dom T))%nat).
Proof.
  intros Hs Hc. rewrite <- !size_dom in Hc.
  assert (forall X : gset (list Z), size (dom T ∪ X) = (size (dom T) + size (X ∖ dom T))%nat) as HU.
  { intros X. rewrite <- size_union by set_solver. f_equal. apply leibniz_equiv. intros x.
    rewrite !elem_of_union, elem_of_difference. destruct (decide (x ∈ dom T)); naive_solver. }
  split.
  - intros Hd. rewrite Hd, HU in Hc. lia.
  - intros -> Hd Hn. simpl in Hc. assert (size (dom T') < size (dom T ∪ L))%nat as Hlt.
    { apply subset_size. split; [done|]. set_solver. }
    rewrite HU in Hlt. lia.
Qed.

Definition pages (length : Z) : nat := Z.to_nat (roundpage length / PAGE_SIZE).

Lemma pages_eq length : 0 <= length < 2 ^ 39 -> roundpage length = 4096 * Z.of_nat (pages length) /\ (length = 0 -> pages length = O).
Proof.
  intros H. unfold pages, PAGE_SIZE. rewrite roundpage_eq by lia.
  assert (0 <= (length + 4095) / 4096) by (apply Z.div_pos; lia).
  rewrite (Z.mul_comm 4096), Z.div_mul by lia. split; [lia|]. by intros ->.
Qed.

Lemma map_region_run root va pa length attr s T free :
  vm_wf s root T free -> va mod 4096 = 0 -> 0 <= va -> 0 <= length < 2 ^ 39 -> va + roundpage length <= 2 ^ 39 ->
  0 <= pa -> pa + roundpage length < 2 ^ 64 ->
  let n := pages length in
  exists k r s' T' free', mapAddress root va pa length attr s = Ret (r, s') /\
    mapped root va pa attr k s T free s' T' free' /\
    (((size (links_range va n ∖ dom T) <= List.length free)%nat /\ (length <> 0 -> r = OK) /\ k = n /\
       dom T' = dom T ∪ links_range va n) \/
     ((List.length free < size (links_range va n ∖ dom T))%nat /\ r = SYSERR /\ (k < n)%nat /\ free' = [])).
Proof.
  intros Hwf Ha Hv Hlen Hend Hp Hpend n. destruct (pages_eq length Hlen) as [Hr H0]. fold n in Hr, H0.
  unfold mapAddress. destruct (Z.eqb_spec length 0) as [E|E].
  - rewrite H0 by done. exists O, SYSERR, s, T, free. split; [done|]. split; [by apply mapped_0|]. left. simpl. split.
    { assert (∅ ∖ dom T =@{gset (list Z)} ∅) as -> by set_solver. rewrite size_empty. lia. }
    split; [done|]. split; [done|]. set_solver.
  - rewrite truncpage_eq, Ha, Z.sub_0_r by lia. rewrite Hr, wrap_small by lia. unfold PAGE_SIZE.
    rewrite (Z.mul_comm 4096), Z.div_mul, Nat2Z.id, (Z.mul_comm _ 4096) by lia.
    destruct (mapAddress_loop_run root attr n (S n) va pa s T free Hwf Ha) as (k & r & s' & T' & free' & Hrun & Hm & H); [lia..|].
    exists k, r, s', T', free'. split; [done|]. split; [done|].
    destruct (missing_tables T T' (links_range va n) free free' (map_tree _ _ _ _ _ _ _ _ _ _ _ Hm) (map_count _ _ _ _ _ _ _ _ _ _ _ Hm)) as [M1 M2].
    destruct H as [(-> & -> & Hd)|(-> & Hk & -> & Hd & Hn)]; [left|right].
    + split; [by apply M1|]. by split.
    + split; [by apply M2|]. by split.
Qed.

(** C29: [mapAddress] of a page-aligned range maps exactly its pages: afterwards
    the hardware's walk finds, for an address of the range, the entry of its
    frame with the attributes, and for every other address what it found
    before.  It takes from the free list the tables that were missing and no
    more; when there are not enough it returns [SYSERR] with the list used up
    and a prefix of the range mapped.  The tables remain a tree, apart from
    the free list. *)
Theorem mapAddress_maps root va pa length attr s T free :
  vm_wf s root T free -> va mod 4096 = 0 -> 0 <= va -> 0 < length < 2 ^ 39 -> va + roundpage length <= 2 ^ 39 ->
  0 <= pa -> pa + roundpage length < 2 ^ 64 ->
  let n := pages length in
  let enough := (size (links_range va n ∖ dom T) <= List.length free)%nat in
  exists k r s' T' free', mapAddress root va pa length attr s = Ret (r, s') /\
    vm_wf s' root T' free' /\ T ⊆ T' /\ (size T' + List.length free' = size T + List.length free)%nat /\
    (forall x, 0 <= x < 2 ^ 39 -> sv39_walk s' root x =
       if (va <=? x) && (x <? va + 4096 * Z.of_nat k) then Some (mapping va pa attr x) else sv39_walk s root x) /\
    ((enough /\ r = OK /\ k = n) \/ (~ enough /\ r = SYSERR /\ (k < n)%nat /\ free' = [])).
Proof.
  intros Hwf Ha Hv Hlen Hend Hp Hpend n enough.
  destruct (map_region_run root va pa length attr s T free) as (k & r & s' & T' & free' & Hr & Hm & H); [done|done|done|lia|done..|].
  exists k, r, s', T', free'. split; [done|]. split; [apply Hm|]. split; [apply Hm|]. split; [apply Hm|].
  split; [intros x Hx; by eapply mapped_walk|].
  destruct H as [(H1 & H2 & H3 & _)|(H1 & H2 & H3 & H4)]; [left|right].
  - split; [done|]. split; [apply H2; lia|done].
  - split; [unfold enough, n; lia|]. by split.
Qed.

(** [mapPage] maps the page of the address. *)
Lemma mapPage_run root page va attr s T free : vm_wf s root T free -> 0 <= va < 2 ^ 39 ->
  exists k r s' T' free', mapPage root page va attr s = Ret (r, s') /\
    mapped root (va - va mod 4096) page attr k s T free s' T' free' /\
    ((r = OK /\ k = 1%nat) \/ (r = SYSERR /\ k = O /\ free' = [])).
Proof.
  intros Hwf Hv. unfold mapPage. rewrite truncpage_eq by lia. pose proof (Z.mod_pos_bound va 4096 ltac:(lia)).
  set (a := va - va mod 4096).
  assert (a mod 4096 = 0) as Ha.
  { unfold a. pose proof (Z.div_mod va 4096). replace (va - va mod 4096) with (va / 4096 * 4096) by lia. apply Z.mod_mul. lia. }
  assert (0 <= a) by (unfold a; pose proof (Z.div_mod va 4096); assert (0 <= va / 4096) by (apply Z.div_pos; lia); lia).
  destruct (map_step root a page attr "REMAPPED 0x%08X!!!\r\n" s T free Hwf Ha ltac:(lia)) as (pte & s1 & T1 & f1 & Hr & H').
  rewrite (bind_Ret _ _ _ _ _ Hr). destruct H' as [(Hne & _ & s2 & Hw & Hm)|(-> & -> & _ & _ & Hm)].
  - rewrite (proj2 (Z.eqb_neq _ _) Hne), write_entry_inline, (bind_Ret _ _ _ _ _ Hw).
    exists 1%nat, OK, s2, T1, f1. split; [done|]. split; [done|]. by left.
  - rewrite Z.eqb_refl. exists O, SYSERR, s1, T1, []. split; [done|]. split; [done|]. by right.
Qed.

(** ** Start *)

(** The pages of a range, in the order in which they are freed. *)
Definition page_list (start : Z) (n : nat) : list Z := (fun i => start + 4096 * i) <$> seqZ 0 (Z.of_nat n).

Lemma page_list_elem start n x : x ∈ page_list start n <-> exists i, x = start + 4096 * i /\ 0 <= i < Z.of_nat n.
Proof. unfold page_list. rewrite list_elem_of_fmap. setoid_rewrite elem_of_seqZ. naive_solver lia. Qed.

Lemma page_list_S start n : page_list start (S n) = start :: page_list (start + 4096) n.
Proof.
  unfold page_list. rewrite seqZ_cons by lia. simpl. f_equal; [lia|].
  replace (Z.pred (Z.of_nat (S n))) with (Z.of_nat n) by lia. rewrite <- (fmap_add_seqZ 1 0), <- list_fmap_compose.
  apply list_fmap_ext. intros i x _. simpl. lia.
Qed.

(** RAM has every page from [lo] to [hi]. *)
Definition ram (f : gmap Z (list Z)) (lo hi : Z) : Prop :=
  forall a, a mod 4096 = 0 -> lo <= a -> a + 4096 <= hi -> is_Some (f !! a).

Lemma pgfreerange_loop_run hi n : forall fuel start s fr,
  start mod 4096 = 0 -> 0 < start <= 2 ^ 63 -> hi < 2 ^ 63 -> (n < fuel)%nat ->
  hi <= start + 4096 * (Z.of_nat n + 1) -> (n <> O -> start + 4096 * Z.of_nat n < hi) ->
  ram (frames s) start hi -> chain (frames s) (pgfreelist s) fr -> NoDup fr -> (forall x, x ∈ fr -> x < start) ->
  exists s', pgfreerange_loop fuel start hi s = Ret (OK, s') /\
    chain (frames s') (pgfreelist s') (reverse (page_list start n) ++ fr) /\
    NoDup (reverse (page_list start n) ++ fr) /\ others s' = others s.
Proof.
  induction n as [|n IH]; intros fuel start s fr Ha H0 Hhi Hf Hn1 Hn2 Hram Hc Hnd Hlt; (destruct fuel as [|fuel]; [lia|]);
    cbn [pgfreerange_loop]; unfold PAGE_SIZE; rewrite wrap_small by lia.
  - rewrite (proj2 (Z.ltb_ge _ _)) by lia. by exists s.
  - rewrite (proj2 (Z.ltb_lt _ _)) by lia. destruct (Hram start) as [ws Hw]; [done|lia|lia|].
    assert (start ∉ fr) as Hnew by (intros Hx; specialize (Hlt _ Hx); lia).
    destruct (pgfree_push s fr start ws) as (s1 & Hr & Hs1 & Hc1); [done|split; [done|lia]|done|done|].
    rewrite (bind_Ret _ _ _ _ _ Hr). change (OK =? SYSERR) with false. cbn [negb].
    destruct (IH fuel (start + 4096) s1 (start :: fr)) as (s' & Hr' & Hc' & Hnd' & Ho); [..|done| | |].
    + by rewrite Z.add_mod, Ha by lia.
    + assert (start + 4096 <= 2 ^ 63); [|lia]. lia.
    + lia.
    + lia.
    + lia.
    + intros _. lia.
    + intros a Ha' Hl Hh. rewrite Hs1. simpl. rewrite lookup_insert_ne by lia. apply Hram; lia.
    + by constructor.
    + intros x Hx. apply elem_of_cons in Hx as [->|Hx]; [lia|]. specialize (Hlt _ Hx). lia.
    + exists s'. rewrite page_list_S, reverse_cons, <- app_assoc. split; [done|]. split; [done|]. split; [done|].
      rewrite Ho, Hs1. done.
Qed.

(** The number of pages that [safeInit] frees: the loop stops a page short
    when the memory ends on a page boundary. *)
Definition free_pages (lo hi : Z) : nat := Z.to_nat ((hi - 1 - roundpage lo) / 4096).

Lemma safeInit_run lo s : pgfreelist s = NULL -> 0 < lo -> lo <= maxaddr s -> maxaddr s < 2 ^ 63 ->
  ram (frames s) lo (maxaddr s) ->
  let free := reverse (page_list (roundpage lo) (free_pages lo (maxaddr s))) in
  exists s', safeInit lo s = Ret (tt, s') /\ chain (frames s') (pgfreelist s') free /\ NoDup free /\
    maxaddr s' = maxaddr s /\ pgtbl_nents s' = u32 (roundpage (maxaddr s - lo) / 4096).
Proof.
  intros Hnil Hlo Hle Hmax Hram free. set (hi := maxaddr s) in *.
  assert (roundpage lo mod 4096 = 0) as Ha by (rewrite roundpage_eq by lia; rewrite Z.mul_comm; apply Z.mod_mul; lia).
  assert (lo <= roundpage lo < lo + 4096) as Hr.
  { rewrite roundpage_eq by lia. pose proof (Z.div_mod (lo + 4095) 4096). pose proof (Z.mod_pos_bound (lo + 4095) 4096). lia. }
  set (n := free_pages lo hi) in *.
  assert (hi <= roundpage lo + 4096 * (Z.of_nat n + 1) /\ (n <> O -> roundpage lo + 4096 * Z.of_nat n < hi)) as [Hn1 Hn2].
  { unfold n, free_pages. pose proof (Z.div_mod (hi - 1 - roundpage lo) 4096).
    pose proof (Z.mod_pos_bound (hi - 1 - roundpage lo) 4096). lia. }
  set (s0 := set_nents (u32 (roundpage (hi - lo) / 4096)) s).
  destruct (pgfreerange_loop_run hi n (S (Z.to_nat (hi / 4096))) (roundpage lo) s0 []) as (s' & Hrun & Hc & Hnd & Ho);
    [done| |done| |done|done| |done|constructor|by intros x Hx%elem_of_nil|].
  - split; [lia|]. pose proof (Z.div_mod (roundpage lo) 4096). lia.
  - unfold n, free_pages. assert ((hi - 1 - roundpage lo) / 4096 <= hi / 4096) by (apply Z.div_le_mono; lia). lia.
  - intros a Ha' Hl Hh. apply Hram; [done|lia|done].
  - rewrite app_nil_r in Hc, Hnd. exists s'. split; [|split; [done|split; [done|]]].
    + unfold safeInit. rewrite bind_gets, bind_modify. fold hi. rewrite (wrap_small 64 (hi - lo)) by lia.
      change PAGE_SIZE with 4096. fold s0. unfold pgfreerange. rewrite (bind_Ret _ _ s0 OK s'); [done|].
      rewrite bind_gets. change (maxaddr s0) with hi. rewrite !(proj2 (Z.ltb_ge _ _)) by lia. exact Hrun.
    + injection Ho as E1 E2 _ _ _. rewrite E1, E2. done.
Qed.

(** The ranges that [safeKmapInit] maps, in its order: virtual address,
    physical address, length, attributes. *)
Definition region : Type := Z * Z * Z * Z.
Definition fixed_regions (y : symbols) : list region :=
  [(UART_BASE, UART_BASE, 0x100, Z.lor PTE_R PTE_W);
   (_start y, _start y, _ctxsws y - _start y, Z.lor PTE_R PTE_X);
   (INTERRUPTADDR, _interrupts y, PAGE_SIZE, Z.lor (Z.lor PTE_R PTE_X) PTE_G);
   (_interrupte y, _interrupte y, _datas y - _interrupte y, Z.lor PTE_R PTE_X);
   (_datas y, _datas y, memheap y - _datas y, Z.lor PTE_R PTE_W)].
Definition kernel_regions (y : symbols) (max : Z) : list region :=
  fixed_regions y ++ [(memheap y, memheap y, max - memheap y, Z.lor PTE_R PTE_W)].

Definition region_ok (r : region) : Prop :=
  let '(va, pa, len, _) := r in
  va mod 4096 = 0 /\ 0 <= va /\ 0 <= len < 2 ^ 38 /\ va + roundpage len <= 2 ^ 39 /\ 0 <= pa < 2 ^ 63.
#[export] Instance region_ok_dec r : Decision (region_ok r).
Proof. destruct r as [[[??]?]?]. unfold region_ok. apply _. Defined.

Definition region_tables (r : region) : gset (list Z) := let '(va, _, len, _) := r in links_range va (pages len).
Definition tables (rs : list region) : gset (list Z) := ⋃ (region_tables <$> rs).

Lemma tables_app r1 r2 : tables (r1 ++ r2) = tables r1 ∪ tables r2.
Proof. unfold tables. by rewrite fmap_app, union_list_app_L. Qed.

(** What the ranges map an address to: the last range that has it counts. *)
Definition map_region (x : Z) (w : option Z) (r : region) : option Z :=
  let '(va, pa, len, attr) := r in
  if (va <=? x) && (x <? va + roundpage len) then Some (mapping va pa attr x) else w.

Fixpoint map_all (root : Z) (rs : list region) : V unit :=
  match rs with
  | [] => ret tt
  | (va, pa, len, attr) :: rs' => mapAddress root va pa len attr ;;; map_all root rs'
  end.

Lemma map_all_run root rs : forall s T free, vm_wf s root T free -> Forall region_ok rs ->
  (size (tables rs ∖ dom T) <= length free)%nat ->
  exists s' T' free', map_all root rs s = Ret (tt, s') /\ vm_wf s' root T' free' /\ dom T' = dom T ∪ tables rs /\
    (size T' + length free' = size T + length free)%nat /\ others s' = others s /\
    forall x, 0 <= x < 2 ^ 39 -> sv39_walk s' root x = foldl (map_region x) (sv39_walk s root x) rs.
Proof.
  induction rs as [|[[[va pa] len] attr] rs IH]; intros s T free Hwf Hok Hfree; cbn [map_all].
  { exists s, T, free. unfold tables. simpl. split; [done|]. split; [done|]. split; [set_solver|]. done. }
  apply Forall_cons in Hok as [(Ha & Hv & Hl & He & Hp) Hok].
  assert (tables (@cons region (va, pa, len, attr) rs) = links_range va (pages len) ∪ tables rs) as Ht by done. rewrite Ht in Hfree.
  destruct (map_region_run root va pa len attr s T free) as (k & r & s1 & T1 & f1 & Hr & Hm & H); [done|done|done|lia|done|lia|lia|].
  rewrite (bind_Ret _ _ _ _ _ Hr). pose proof (map_count _ _ _ _ _ _ _ _ _ _ _ Hm) as Hcount.
  destruct H as [(H1 & _ & -> & Hd)|(H1 & _)]; [|exfalso].
  - destruct (IH s1 T1 f1) as (s' & T' & free' & Hr' & Hwf' & Hd' & Hc' & Ho' & Hx'); [apply Hm|done| |].
    + assert (size (tables rs ∖ dom T1) + size (dom T1) <= length f1 + size T1)%nat; [|pose proof (size_dom T1); lia].
      rewrite (Nat.add_comm (length f1)), Hcount, Hd. rewrite <- (size_dom T), <- size_union by set_solver.
      assert (tables rs ∖ (dom T ∪ links_range va (pages len)) ∪ (dom T ∪ links_range va (pages len)) =
        ((links_range va (pages len) ∪ tables rs) ∖ dom T) ∪ dom T) as ->.
      { apply leibniz_equiv. intros x. rewrite !elem_of_union, !elem_of_difference, !elem_of_union.
        destruct (decide (x ∈ dom T)), (decide (x ∈ links_range va (pages len))); naive_solver. }
      rewrite size_union by set_solver. lia.
    + exists s', T', free'. split; [done|]. split; [done|]. split; [rewrite Ht, Hd', Hd; set_solver|].
      split; [lia|]. split; [by rewrite Ho', (map_others _ _ _ _ _ _ _ _ _ _ _ Hm)|].
      intros x Hx. rewrite Hx' by done. simpl. f_equal.
      rewrite (mapped_walk _ _ _ _ _ _ _ _ _ _ _ x Hwf Hm Hx). by rewrite (proj1 (pages_eq len ltac:(lia))).
  - assert (size (links_range va (pages len) ∖ dom T) <= size ((links_range va (pages len) ∪ tables rs) ∖ dom T))%nat; [|lia].
    apply subseteq_size. set_solver.
Qed.

Lemma root_wf s root fr n : page_ok root -> NoDup (root :: fr) -> chain (<[root := zero_page]> (frames s)) n fr ->
  let s' := set_frames (<[root := zero_page]> (frames s)) (set_pgfreelist n s) in
  vm_wf s' root {[ [] := root ]} fr /\ forall x, sv39_walk s' root x = None.
Proof.
  intros Hok Hnd Hc s'. apply NoDup_cons in Hnd as [Hnew Hnd].
  assert (vm_wf s' root {[ [] := root ]} fr) as Hwf.
  { constructor; [constructor| done|done|].
    - apply lookup_insert_eq.
    - intros p a [<- <-]%lookup_singleton_Some. split; [done|]. exists zero_page. simpl. by rewrite lookup_insert_eq.
    - intros p i b [E _]%lookup_singleton_Some. by destruct p.
    - intros p a ws i [<- <-]%lookup_singleton_Some _ Hw Hi. simpl in Hw. rewrite lookup_insert_eq in Hw. injection Hw as <-.
      exists 0. rewrite zero_page_nth by done. split; [done|]. by rewrite lookup_singleton_ne.
    - by intros p q a [<- _]%lookup_singleton_Some [<- _]%lookup_singleton_Some.
    - by intros p a [_ <-]%lookup_singleton_Some. }
  split; [done|]. intros x. rewrite (walk_entry s' root {[ [] := root ]}) by apply Hwf.
  unfold entry_of, entry. by rewrite lookup_singleton_ne.
Qed.

Lemma map_all_app root r1 r2 s s' : map_all root r1 s = Ret (tt, s') -> map_all root (r1 ++ r2) s = map_all root r2 s'.
Proof.
  revert s. induction r1 as [|[[[va pa] len] attr] r1 IH]; intros s; simpl; [by intros [= ->]|].
  intros H. apply bind_inv in H as (r & s1 & Hr & H). rewrite (bind_Ret _ _ _ _ _ Hr). by apply IH.
Qed.

Lemma map_all_last root r1 va pa len attr s s' : map_all root (r1 ++ [(va, pa, len, attr)]) s = Ret (tt, s') ->
  exists s1 r, map_all root r1 s = Ret (tt, s1) /\ mapAddress root va pa len attr s1 = Ret (r, s').
Proof.
  revert s. induction r1 as [|[[[va' pa'] len'] attr'] r1 IH]; intros s; cbn [map_all app].
  - intros (r & s1 & Hr & [= ->])%bind_inv. by exists s, r.
  - intros (r & s1 & Hr & H)%bind_inv. destruct (IH _ H) as (s2 & r2 & H1 & H2). exists s2, r2.
    split; [|done]. by rewrite (bind_Ret _ _ _ _ _ Hr).
Qed.

Lemma safeKmapInit_run y s root s2 s4 r s3 : pgalloc s = Ret (root, s2) ->
  0 < _start y <= _ctxsws y -> 0 < _interrupte y <= _datas y -> 0 < _datas y <= memheap y -> memheap y <= maxaddr s4 < 2 ^ 38 ->
  map_all root (fixed_regions y) s2 = Ret (tt, s4) ->
  mapAddress root (memheap y) (memheap y) (maxaddr s4 - memheap y) (Z.lor PTE_R PTE_W) s4 = Ret (r, s3) ->
  _ctxsws y < 2 ^ 64 ->
  safeKmapInit y s = Ret (tt, write_satp (MAKE_SATP 0 root) (set_root root s3)).
Proof.
  intros Ha H1 H2 H3 H4 Hm Hl Hc. unfold safeKmapInit. rewrite (bind_Ret _ _ _ _ _ Ha). unfold fixed_regions in Hm. cbn [map_all] in Hm.
  rewrite !(wrap_small 64 (_ctxsws y - _)), !(wrap_small 64 (_datas y - _)), !(wrap_small 64 (memheap y - _)) by lia.
  do 5 (apply bind_inv in Hm as (? & ? & E & Hm); rewrite (bind_Ret _ _ _ _ _ E); clear E). injection Hm as ->.
  rewrite bind_gets, wrap_small by lia. by rewrite (bind_Ret _ _ _ _ _ Hl).
Qed.

(** Writable pages are not executable. *)
Definition w_xor_x (e : Z) : Prop := Z.land e PTE_W = 0 \/ Z.land e PTE_X = 0.

Lemma mapping_attr va pa attr x m : 0 <= attr < 1024 -> 0 <= pa + (x - x mod 4096 - va) < 2 ^ 64 -> 0 <= m < 1024 ->
  Z.land m 1 = 0 -> Z.land (mapping va pa attr x) m = Z.land attr m.
Proof.
  intros Ha Hp Hm Hm1. destruct (pte_fields _ attr Hp Ha) as (_ & _ & H3).
  assert (Z.land (Z.ones 10) m = m) as E by (rewrite Z.land_comm, Z.land_ones by lia; by apply Z.mod_small).
  rewrite <- E at 1. unfold mapping. rewrite Z.land_assoc, H3, Z.land_lor_distr_l. rewrite (Z.land_comm 1 m), Hm1. apply Z.lor_0_r.
Qed.

Lemma regions_w_xor_x y max x e : Forall region_ok (kernel_regions y max) -> 0 <= x ->
  foldl (map_region x) None (kernel_regions y max) = Some e -> w_xor_x e.
Proof.
  intros Hok Hx.
  assert (Forall (fun r : region => let '(_, _, _, attr) := r in 0 <= attr < 1024 /\ w_xor_x attr) (kernel_regions y max)) as Hat.
  { repeat constructor; try done; by (left + right). }
  assert (forall w, (forall e, w = Some e -> w_xor_x e) -> foldl (map_region x) w (kernel_regions y max) = Some e -> w_xor_x e) as H.
  2:{ by apply H. }
  induction Hok as [|[[[va pa] len] attr] rs (Ha & Hv & Hl & He & Hp) _ IH]; intros w Hw; simpl; [by apply Hw|].
  apply Forall_cons in Hat as [[Hr Hat] Hats]. apply (IH Hats). unfold map_region.
  destruct ((va <=? x) && (x <? va + roundpage len)) eqn:Ein; [|done]. btest. intros e' [= <-].
  assert (0 <= pa + (x - x mod 4096 - va) < 2 ^ 64) as Hpa.
  { pose proof (Z.div_mod x 4096). pose proof (Z.div_mod va 4096). pose proof (Z.mod_pos_bound x 4096). lia. }
  unfold w_xor_x. rewrite !mapping_attr; done || lia.
Qed.

Record symbols_ok (y : symbols) (max : Z) : Prop := {
  symbols_order : 0 < _start y <= _ctxsws y /\ _ctxsws y <= _interrupts y <= _interrupte y /\
    _interrupte y <= _datas y <= memheap y /\ memheap y <= max < 2 ^ 38;
  symbols_regions : Forall region_ok (kernel_regions y max)
}.

(** C28: From a state with RAM behind the kernel, no free list and symbols in
    the order and with the alignment of the linker script, [safeInit] and
    [safeKmapInit] leave page tables that map exactly the ranges listed, each
    with its attributes, the later range where two overlap: the kernel's
    table is the highest page, [satp], the running process and the kernel all
    name it, no page is both writable and executable, and the pages left over
    are the free list, apart from the tables.  Enough memory means one page
    for the root and one for each table that the ranges need. *)
Theorem paging_boot y s :
  pgfreelist s = NULL -> symbols_ok y (maxaddr s) -> ram (frames s) (memheap y) (maxaddr s) ->
  let regions := kernel_regions y (maxaddr s) in
  let free := reverse (page_list (roundpage (memheap y)) (free_pages (memheap y) (maxaddr s))) in
  (size (tables regions ∖ {[ [] ]}) < length free)%nat ->
  exists root s' T free', (safeInit (memheap y) ;;; safeKmapInit y) s = Ret (tt, s') /\
    head free = Some root /\ vm_wf s' root T free' /\ (size T + length free' = length free)%nat /\
    kernpgtbl s' = root /\ pcb_pagetable s' = root /\ satp s' = MAKE_SATP 0 root /\
    forall x, 0 <= x < 2 ^ 39 -> sv39_walk s' root x = foldl (map_region x) None regions /\
      forall e, sv39_walk s' root x = Some e -> w_xor_x e.
Proof.
  intros Hnil [Hord Hok] Hram regions free Hsize.
  destruct (safeInit_run (memheap y) s) as (s1 & Hi & Hc & Hnd & Hmax & _); [done|lia|lia|lia|done|]. fold free in Hc, Hnd.
  rewrite (bind_Ret _ _ _ _ _ Hi). destruct free as [|root fr]; [simpl in Hsize; lia|].
  destruct (pgalloc_take s1 root fr Hc Hnd) as (n & Ha & Hc'). destruct Hc as (_ & Hroot & _).
  destruct (root_wf s1 root fr n Hroot Hnd Hc') as [Hwf Hnone]. set (s2 := set_frames _ _) in *.
  destruct (map_all_run root regions s2 {[ [] := root ]} fr Hwf Hok) as (s3 & T & free' & Hr & Hwf3 & _ & Hcnt & Ho & Hx).
  { rewrite dom_singleton_L. simpl in Hsize. lia. }
  unfold regions, kernel_regions in Hr. destruct (map_all_last _ _ _ _ _ _ _ _ Hr) as (s4 & r & H4 & H5).
  exists root, (write_satp (MAKE_SATP 0 root) (set_root root s3)), T, free'. split; [|split; [done|split]].
  - destruct (map_all_run root (fixed_regions y) s2 {[ [] := root ]} fr Hwf) as (s4' & _ & _ & H4' & _ & _ & _ & Ho' & _).
    + by apply Forall_app in Hok as [? _].
    + rewrite dom_singleton_L. simpl in Hsize.
      assert (tables (fixed_regions y) ⊆ tables regions) as Hsub by (unfold regions, kernel_regions; rewrite tables_app; set_solver).
      assert (size (tables (fixed_regions y) ∖ {[ [] ]}) <= size (tables regions ∖ {[ [] ]}))%nat; [|lia].
      apply subseteq_size. set_solver.
    + rewrite H4 in H4'. injection H4' as <-. injection Ho' as _ Em _ _ _.
      assert (maxaddr s4 = maxaddr s) as Em' by (rewrite Em; exact Hmax). rewrite <- Em' in H5.
      apply (safeKmapInit_run y s1 root s2 s4 r s3); done || lia.
  - destruct Hwf3. by constructor.
  - rewrite map_size_singleton in Hcnt. simpl in *. split; [lia|]. split; [done|]. split; [done|]. split; [done|].
    intros x Hxr. change (sv39_walk (write_satp _ _) root x) with (sv39_walk s3 root x). rewrite Hx, Hnone by done.
    split; [done|]. intros e. apply regions_w_xor_x; [done|lia].
Qed.
