(* ===== verification/Dtb.v ===== *)
(** * The device tree of the 64-bit RISC-V port (system/dtb.c,
      include/dtb.h, include/endianness.h)

    The flattened device tree is a list of bytes [blob] at [dtb_addr]; a
    pointer into it is the list of the bytes from there on, [None] is [NULL].
    The processor is little-endian, [int] has 32 bits, [long] and pointers 64.
    The state is what the code sets of [platform] and the calls of [kprintf]. *)

From Stdlib Require Import Ascii String.
From stdpp Require Import base numbers list.
From S2P Require Import Prelude CString Doprnt.

(** ** Definitions *)

Record board := mkBoard {
  minaddr : Z; maxaddr : Z; uart_addr : Z; uart_clock : Z;
  family : list Z; manufacturer : list Z;
  console : list (string * list Z)
}.
Definition set_memory lo hi b := mkBoard lo hi (uart_addr b) (uart_clock b) (family b) (manufacturer b) (console b).
Definition set_uart_addr a b := mkBoard (minaddr b) (maxaddr b) a (uart_clock b) (family b) (manufacturer b) (console b).
Definition set_uart_clock c b := mkBoard (minaddr b) (maxaddr b) (uart_addr b) c (family b) (manufacturer b) (console b).
Definition set_family f b := mkBoard (minaddr b) (maxaddr b) (uart_addr b) (uart_clock b) f (manufacturer b) (console b).
Definition set_manufacturer m b := mkBoard (minaddr b) (maxaddr b) (uart_addr b) (uart_clock b) (family b) m (console b).
Definition log c b := mkBoard (minaddr b) (maxaddr b) (uart_addr b) (uart_clock b) (family b) (manufacturer b) (c :: console b).

Abbreviation P := (M board).
Definition kprintf (fmt : string) (args : list Z) : P unit := modify (log (fmt, args)).

Definition OK : Z := 1.
Definition SYSERR : Z := -1.
Definition PLT_STRMAX : Z := 18.
Definition FDT_MAGIC : Z := 0xd00dfeed.
Definition FDT_BEGIN_NODE : Z := 1.
Definition FDT_END_NODE : Z := 2.
Definition FDT_PROP : Z := 3.
Definition FDT_NOP : Z := 4.
Definition FDT_END : Z := 9.

(** The words that the processor reads at a pointer. *)
Definition ld32 (p : list Z) : outcome Z :=
  match p with
  | b0 :: b1 :: b2 :: b3 :: _ => Ret (b0 + b1 * 2 ^ 8 + b2 * 2 ^ 16 + b3 * 2 ^ 24)
  | _ => Fault OutOfBounds
  end.
Definition ld64 (p : list Z) : outcome Z :=
  lo <~ ld32 p ;;
  hi <~ ld32 (drop 4 p) ;;
  Ret (lo + hi * 2 ^ 32).

Definition bswap32 (n : Z) : Z :=
  Z.lor (Z.lor (Z.lor (u32 (Z.shiftl n 24)) (u32 (Z.shiftl (Z.land n 0xff00) 8)))
           (Z.shiftr (Z.land n 0xff0000) 8)) (Z.shiftr n 24).
Definition be32_to_cpu (n : Z) : Z := bswap32 (u32 n).
Definition cpu_to_be32 (n : Z) : Z := bswap32 (u32 n).

Definition c2ioff (charoff : Z) : Z := u32 (charoff / 4 + (if negb (charoff mod 4 =? 0) then 1 else 0)).

Section Dtb.
(** [shl32] is what the compiled code gives for the shift of a 32-bit number
    by 32 places, which C leaves undefined. *)
Context (shl32 : Z -> Z) (dtb_addr : Z) (blob : list Z).

(** The pointer at an address: outside of the tree there is nothing to read. *)
Definition ptr (a : Z) : outcome (list Z) :=
  if (dtb_addr <=? a) && (a <=? dtb_addr + lenZ blob) then Ret (drop (Z.to_nat (a - dtb_addr)) blob)
  else Fault OutOfBounds.

Definition dtb_read_long (dataptr : list Z) : outcome Z :=
  d <~ ld64 dataptr ;;
  Ret (Z.lor (shl32 (be32_to_cpu (Z.shiftr d 32))) (be32_to_cpu (Z.shiftr d 32))).

(** [rsv] moves on by one entry of 16 bytes. *)
Fixpoint parseRsvMap_loop (fuel : nat) (rsv : Z) : P Z :=
  match fuel with
  | O => failwith OutOfFuel
  | S fuel' =>
      p <-- pure (ptr rsv) ;;
      address <-- pure (ld64 p) ;;
      if address =? 0 then ret OK
      else
        size <-- pure (ld64 (drop 8 p)) ;;
        if size =? 0 then ret OK
        else
          kprintf "Address: 0x%016X\r\n" [address] ;;;
          kprintf "Size: %d\r\n" [size] ;;;
          parseRsvMap_loop fuel' (u64 (rsv + 16))
  end.
Definition parseRsvMap (rsv : Z) : P Z :=
  kprintf "Reserved System Areas:\r\n" [] ;;;
  parseRsvMap_loop (S (length blob)) rsv.

Definition memoryHandler (name pname prop_val : list Z) (plen : Z) : P Z :=
  c <-- pure (strcmp pname (lit "reg")) ;;
  if (c =? 0) && (plen =? 16) then
    let data := prop_val in
    min <-- pure (dtb_read_long data) ;;
    n <-- pure (dtb_read_long (drop 8 data)) ;;
    let max := u64 (min + n) in
    modify (set_memory min max) ;;;
    ret OK
  else ret OK.

Definition uartHandler (name pname prop_val : list Z) (plen : Z) : P Z :=
  c <-- pure (strcmp pname (lit "reg")) ;;
  if c =? 0 then
    addr <-- pure (dtb_read_long prop_val) ;;
    modify (set_uart_addr addr) ;;;
    ret OK
  else
    c <-- pure (strcmp pname (lit "clock-frequency")) ;;
    if c =? 0 then
      f <-- pure (ld32 prop_val) ;;
      modify (set_uart_clock f) ;;;
      ret OK
    else ret OK.

Definition baseHandler (name pname prop_val : list Z) (plen : Z) : P Z :=
  c <-- pure (strcmp pname (lit "model")) ;;
  (if c =? 0 then
     m <-- pure (strrchr prop_val (chr ",")) ;;
     match m with
     | Some m =>
         f <-- gets family ;;
         f <-- pure (strncpy f prop_val (Z.to_nat m)) ;;
         modify (set_family f) ;;;
         d <-- gets manufacturer ;;
         d <-- pure (strncpy d (drop (Z.to_nat (m + 1)) prop_val) (Z.to_nat PLT_STRMAX)) ;;
         modify (set_manufacturer d)
     | None =>
         d <-- gets manufacturer ;;
         d <-- pure (strncpy d prop_val (Z.to_nat PLT_STRMAX)) ;;
         modify (set_manufacturer d)
     end
   else ret tt) ;;;
  ret OK.

(** [name] is [NULL] outside of a node. *)
Definition handleProp (name : option (list Z)) (pname prop_val : list Z) (plen : Z) : P Z :=
  match name with
  | None => failwith OutOfBounds
  | Some name =>
      c <-- pure (strncmp name (lit "memory@") 7) ;;
      if c =? 0 then memoryHandler name pname prop_val plen
      else
        c <-- pure (strncmp name (lit "uart@") 5) ;;
        if c =? 0 then uartHandler name pname prop_val plen
        else
          n <-- pure (strnlen name (Z.to_nat PLT_STRMAX)) ;;
          if n =? 0 then baseHandler name pname prop_val plen
          else ret SYSERR
  end.

(** The loop of [parseDtbNodes]; [index] grows in every turn. *)
Fixpoint parseDtbNodes_loop (fuel : nat) (struct_base string_base index : Z) (name : option (list Z)) : P Z :=
  match fuel with
  | O => failwith OutOfFuel
  | S fuel' =>
      tokptr <-- pure (ptr (u64 (struct_base + 4 * index))) ;;
      t <-- pure (ld32 tokptr) ;;
      let token := be32_to_cpu t in
      if token =? FDT_BEGIN_NODE then
        let name := drop 4 tokptr in
        n <-- pure (strlen (drop 4 tokptr)) ;;
        parseDtbNodes_loop fuel' struct_base string_base (u32 (index + (1 + c2ioff (u32 (1 + n))))) (Some name)
      else if token =? FDT_PROP then
        let prop := drop 4 tokptr in
        l <-- pure (ld32 prop) ;;
        let plen := be32_to_cpu l in
        o <-- pure (ld32 (drop 4 prop)) ;;
        pname <-- pure (ptr (u64 (string_base + be32_to_cpu o))) ;;
        let prop_val := drop 8 prop in
        let index := u32 (index + (1 + c2ioff (u32 (8 + plen)))) in
        handleProp name pname prop_val plen ;;;
        parseDtbNodes_loop fuel' struct_base string_base index name
      else if token =? FDT_END_NODE then
        parseDtbNodes_loop fuel' struct_base string_base (u32 (index + 1)) None
      else if token =? FDT_NOP then
        parseDtbNodes_loop fuel' struct_base string_base (u32 (index + 1)) name
      else if token =? FDT_END then ret OK
      else
        kprintf "ERROR: Unknown device tree token 0x%08X\r\n" [token] ;;;
        ret SYSERR
  end.

(** A field of the header, by its offset. *)
Definition header (off : Z) : outcome Z := p <~ ptr (dtb_addr + off) ;; ld32 p.

Definition parseDtbNodes : P Z :=
  off_dt_struct <-- pure (header 8) ;;
  let struct_base := u32 (u32 dtb_addr + be32_to_cpu off_dt_struct) in
  off_dt_strings <-- pure (header 12) ;;
  let string_base := u64 (dtb_addr + be32_to_cpu off_dt_strings) in
  parseDtbNodes_loop (S (length blob)) struct_base string_base 0 None.

Definition parseDtb : P Z :=
  magic <-- pure (header 0) ;;
  if negb (FDT_MAGIC =? cpu_to_be32 magic) then
    kprintf "ERROR: Invalid Device Tree!" [] ;;;
    ret SYSERR
  else
    off_mem_rsvmap <-- pure (header 16) ;;
    parseRsvMap (u64 (dtb_addr + be32_to_cpu off_mem_rsvmap)) ;;;
    parseDtbNodes ;;;
    ret OK.
End Dtb.

(** ** Byte order *)

(** The four bytes of a number, most significant first. *)
Definition be32 (n : Z) : list Z := [n / 2 ^ 24; n / 2 ^ 16 mod 256; n / 2 ^ 8 mod 256; n mod 256].

Lemma land_byte n k : 0 <= k -> Z.land n (Z.shiftl 255 k) = n / 2 ^ k mod 256 * 2 ^ k.
Proof.
  intros Hk. change 256 with (2 ^ 8). rewrite <- Z.land_ones, <- Z.shiftl_mul_pow2, <- Z.shiftr_div_pow2 by lia.
  apply Z.bits_inj'. intros i Hi. rewrite Z.land_spec, !Z.shiftl_spec by lia.
  destruct (Z.ltb_spec i k); [by rewrite !(Z.testbit_neg_r _ (i - k)), andb_false_r by lia|].
  rewrite Z.land_spec, Z.shiftr_spec by lia. by replace (i - k + k) with i by lia.
Qed.

Lemma bswap32_bytes b0 b1 b2 b3 : 0 <= b0 < 256 -> 0 <= b1 < 256 -> 0 <= b2 < 256 -> 0 <= b3 < 256 ->
  bswap32 (b0 + b1 * 2 ^ 8 + b2 * 2 ^ 16 + b3 * 2 ^ 24) = b0 * 2 ^ 24 + b1 * 2 ^ 16 + b2 * 2 ^ 8 + b3.
Proof.
  intros H0 H1 H2 H3. set (n := _ + _ + _ + _). unfold bswap32.
  change 0xff00 with (Z.shiftl 255 8). change 0xff0000 with (Z.shiftl 255 16). rewrite !land_byte by lia.
  assert (n / 2 ^ 8 mod 256 = b1) as ->.
  { symmetry. replace (n / 2 ^ 8) with (b1 + (b2 + b3 * 2 ^ 8) * 256); [by rewrite Z.mod_add, Z.mod_small by lia|].
    apply Z.div_unique with b0; unfold n; lia. }
  assert (n / 2 ^ 16 mod 256 = b2) as ->.
  { symmetry. replace (n / 2 ^ 16) with (b2 + b3 * 256); [by rewrite Z.mod_add, Z.mod_small by lia|].
    apply Z.div_unique with (b0 + b1 * 2 ^ 8); unfold n; lia. }
  rewrite (Z.shiftr_div_pow2 n) by lia.
  assert (n / 2 ^ 24 = b3) as -> by (symmetry; apply Z.div_unique with (b0 + b1 * 2 ^ 8 + b2 * 2 ^ 16); unfold n; lia).
  assert (u32 (Z.shiftl n 24) = Z.shiftl b0 24) as ->.
  { rewrite !Z.shiftl_mul_pow2 by lia. unfold wrap. symmetry.
    apply Z.mod_unique with (b1 + b2 * 2 ^ 8 + b3 * 2 ^ 16); unfold n; lia. }
  rewrite (wrap_small 32) by (rewrite Z.shiftl_mul_pow2; lia).
  rewrite <- !Z.lor_assoc. rewrite Z.shiftr_div_pow2, (Z.shiftl_mul_pow2 (b1 * 2 ^ 8)) by lia.
  replace (b2 * 2 ^ 16 / 2 ^ 8) with (Z.shiftl b2 8) by (rewrite Z.shiftl_mul_pow2 by lia; apply Z.div_unique with 0; lia).
  replace (b1 * 2 ^ 8 * 2 ^ 8) with (Z.shiftl b1 16) by (rewrite Z.shiftl_mul_pow2 by lia; lia).
  rewrite (shiftl_lor_disjoint b2), (shiftl_lor_disjoint b1), (shiftl_lor_disjoint b0) by lia. lia.
Qed.

Lemma be32_range n : 0 <= n < 2 ^ 32 -> Forall (fun b => 0 <= b < 256) (be32 n).
Proof.
  intros Hn. repeat constructor; try (apply Z.mod_pos_bound; lia); [apply Z.div_pos; lia|apply Z.div_lt_upper_bound; lia].
Qed.

(** A big-endian word, read and swapped, is the number. *)
Lemma ld32_be32 n r : 0 <= n < 2 ^ 32 -> exists m, ld32 (be32 n ++ r) = Ret m /\ be32_to_cpu m = n.
Proof.
  intros Hn. pose proof (be32_range n Hn) as Hb. eexists. split; [done|].
  apply Forall_cons in Hb as [H0 Hb]. apply Forall_cons in Hb as [H1 Hb]. apply Forall_cons in Hb as [H2 Hb].
  apply Forall_cons in Hb as [H3 _]. unfold be32_to_cpu. rewrite wrap_small by lia. rewrite bswap32_bytes by done.
  pose proof (Z.div_mod n 256). pose proof (Z.div_mod (n / 256) 256). pose proof (Z.div_mod (n / 256 / 256) 256).
  change (2 ^ 8) with 256. change (2 ^ 16) with (256 * 256). change (2 ^ 24) with (256 * 256 * 256).
  rewrite <- !Z.div_div by lia. lia.
Qed.

Lemma c2ioff_words n : 0 <= n < 2 ^ 32 -> c2ioff n = (n + 3) / 4.
Proof.
  intros Hn. unfold c2ioff. pose proof (Z.div_mod n 4). pose proof (Z.mod_pos_bound n 4).
  assert (0 <= n / 4 < 2 ^ 30) by (split; [apply Z.div_pos; lia|apply Z.div_lt_upper_bound; lia]).
  destruct (Z.eqb_spec (n mod 4) 0) as [E|E]; simpl; (rewrite wrap_small by lia).
  - apply Z.div_unique with 3; lia.
  - apply Z.div_unique with (n mod 4 - 1); lia.
Qed.

(** ** Trees *)

(** The structure block: a property has the offset of its name in the
    strings block. *)
Inductive token :=
  | TBegin (name : list Z)
  | TProp (off : Z) (pname val : list Z)
  | TEnd
  | TNop.

Definition pad4 (l : list Z) : list Z := l ++ replicate (Z.to_nat ((- lenZ l) mod 4)) 0.

Definition tag (t : token) : Z :=
  match t with TBegin _ => FDT_BEGIN_NODE | TProp _ _ _ => FDT_PROP | TEnd => FDT_END_NODE | TNop => FDT_NOP end.
Definition body (t : token) : list Z :=
  match t with
  | TBegin name => name ++ [0]
  | TProp off _ val => be32 (lenZ val) ++ be32 off ++ val
  | TEnd | TNop => []
  end.
Definition encode (t : token) : list Z := be32 (tag t) ++ pad4 (body t).

Lemma lenZ_pad4 l : lenZ (pad4 l) = 4 * ((lenZ l + 3) / 4).
Proof.
  unfold pad4. rewrite lenZ_app, lenZ_replicate. pose proof (Z.mod_pos_bound (- lenZ l) 4).
  rewrite Z2Nat.id by lia. pose proof (Z.div_mod (- lenZ l) 4). pose proof (Z.div_mod (lenZ l + 3) 4).
  pose proof (Z.mod_pos_bound (lenZ l + 3) 4). lia.
Qed.

Section Effect.
Context (shl32 : Z -> Z).

(** What a pair of big-endian words is read as: the first word is lost. *)
Definition long_of (v : list Z) : Z :=
  match v with
  | _ :: _ :: _ :: _ :: b0 :: b1 :: b2 :: b3 :: _ =>
      let lo := b0 * 2 ^ 24 + b1 * 2 ^ 16 + b2 * 2 ^ 8 + b3 in Z.lor (shl32 lo) lo
  | _ => 0
  end.
(** A word as it lies, not swapped. *)
Definition word_of (v : list Z) : Z :=
  match v with b0 :: b1 :: b2 :: b3 :: _ => b0 + b1 * 2 ^ 8 + b2 * 2 ^ 16 + b3 * 2 ^ 24 | _ => 0 end.

(** A string cut at the last [c]. *)
Fixpoint rcut (c : Z) (w : list Z) : option (list Z * list Z) :=
  match w with
  | [] => None
  | d :: w' =>
      match rcut c w' with
      | Some (a, b) => Some (d :: a, b)
      | None => if d =? c then Some ([], w') else None
      end
  end.

(** [strncpy] into a field: the string, cut or filled up to [n]. *)
Definition copied (f w : list Z) (n : nat) : list Z := take n w ++ replicate (n - length w) 0 ++ drop n f.

(** What a property sets, by the names of its node and its own. *)
Definition effect (node pname val : list Z) (b : board) : board :=
  if decide (take 7 node = chars "memory@") then
    if decide (pname = chars "reg" /\ lenZ val = 16)
    then set_memory (long_of val) (u64 (long_of val + long_of (drop 8 val))) b
    else b
  else if decide (take 5 node = chars "uart@") then
    if decide (pname = chars "reg") then set_uart_addr (long_of val) b
    else if decide (pname = chars "clock-frequency") then set_uart_clock (word_of val) b
    else b
  else if decide (node = [] /\ pname = chars "model") then
    let w := removelast val in
    match rcut (chr ",") w with
    | Some (w1, w2) =>
        set_manufacturer (copied (manufacturer b) w2 18) (set_family (copied (family b) w1 (length w1)) b)
    | None => set_manufacturer (copied (manufacturer b) w 18) b
    end
  else b.

(** What the value must have for [effect] to be meant: enough bytes, and for
    the model a terminated string that fits. *)
Definition value_ok (node pname val : list Z) (b : board) : Prop :=
  (18 <= length (manufacturer b))%nat /\ Forall (fun c => 0 <= c < 256) val /\
  (take 5 node = chars "uart@" -> pname = chars "reg" -> 8 <= lenZ val) /\
  (take 5 node = chars "uart@" -> pname = chars "clock-frequency" -> 4 <= lenZ val) /\
  (node = [] -> pname = chars "model" -> exists w, val = w ++ [0] /\ Forall (fun c => c <> 0) w /\
     (forall w1 w2, rcut (chr ",") w = Some (w1, w2) -> (length w1 <= length (family b))%nat)).
End Effect.

Lemma strrchr_rcut s w c : cstr s w -> 0 < c < 256 -> strrchr s c = Ret (option_map (fun p => lenZ p.1) (rcut c w)).
Proof.
  intros H Hc. unfold strrchr. rewrite wrap_small by lia.
  assert (forall s i r, cstr s w -> strrchr_loop s c i r =
    Ret (match rcut c w with Some (a, _) => Some (i + lenZ a) | None => r end)) as HL.
  2:{ rewrite (HL s 0 None H). by destruct (rcut c w) as [[a b]|]. }
  clear H s. induction w as [|d w IH]; intros s i r H; cstr_case H; simpl; ctest.
  - rewrite (proj2 (Z.eqb_neq 0 c)) by lia. done.
  - rewrite (IH _ _ _ H). destruct (rcut c w) as [[a b]|].
    + f_equal. f_equal. rewrite lenZ_cons. lia.
    + destruct (d =? c); [|done]. f_equal. f_equal. unfold lenZ. simpl. lia.
Qed.

Lemma rcut_Some c w w1 w2 : rcut c w = Some (w1, w2) -> w = w1 ++ c :: w2.
Proof.
  revert w1. induction w as [|d w IH]; intros w1; simpl; [done|]. destruct (rcut c w) as [[a b]|].
  - intros [= <- <-]. simpl. f_equal. by apply IH.
  - destruct (Z.eqb_spec d c) as [->|]; [|done]. by intros [= <- <-].
Qed.

(** ** The handlers *)

Lemma strncmp_test s w k n : cstr s w -> Forall (fun c => c <> 0) k ->
  exists d, strncmp s (k ++ [0]) n = Ret d /\ (d =? 0) = bool_decide (take n w = take n k).
Proof.
  intros Hs Hk. eexists. split; [apply (strncmp_cstr _ _ w k); [done|by split; [exists []|]]|].
  destruct Hs as [_ Hw]. apply Bool.eq_iff_eq_true. rewrite Z.eqb_eq, bool_decide_eq_true.
  by apply lexcmp_eq; apply Forall_take.
Qed.

Lemma strcmp_test s w k : cstr s w -> Forall (fun c => c <> 0) k ->
  exists d, strcmp s (k ++ [0]) = Ret d /\ (d =? 0) = bool_decide (w = k).
Proof.
  intros Hs Hk. eexists. split; [apply (strcmp_cstr _ _ w k); [done|by split; [exists []|]]|].
  destruct Hs as [_ Hw]. apply Bool.eq_iff_eq_true. rewrite Z.eqb_eq, bool_decide_eq_true. by apply lexcmp_eq.
Qed.

Lemma dtb_read_long_run shl32 v r : 8 <= lenZ v -> Forall (fun c => 0 <= c < 256) v ->
  dtb_read_long shl32 (v ++ r) = Ret (long_of shl32 v).
Proof.
  intros Hl Hb. destruct v as [|a0 [|a1 [|a2 [|a3 [|b0 [|b1 [|b2 [|b3 v]]]]]]]]; try (unfold lenZ in Hl; simpl in Hl; lia).
  rewrite !Forall_cons in Hb. destruct Hb as (H0 & H1 & H2 & H3 & H4 & H5 & H6 & H7 & _).
  unfold dtb_read_long, ld64. simpl. set (hi := b0 + _ + _ + _). set (lo := a0 + _ + _ + _).
  assert (Z.shiftr (lo + hi * 2 ^ 32) 32 = hi) as ->.
  { rewrite Z.shiftr_div_pow2 by lia. symmetry. apply Z.div_unique with lo; unfold lo; lia. }
  unfold be32_to_cpu. rewrite wrap_small by (unfold hi; lia). unfold hi. by rewrite bswap32_bytes.
Qed.

Lemma ld32_run v r : 4 <= lenZ v -> ld32 (v ++ r) = Ret (word_of v).
Proof. intros Hl. destruct v as [|a0 [|a1 [|a2 [|a3 v]]]]; try (unfold lenZ in Hl; simpl in Hl; lia). done. Qed.

Lemma strnlen_0 s w n : cstr s w -> (0 < n)%nat -> exists d, strnlen s n = Ret d /\ (d =? 0) = bool_decide (w = []).
Proof.
  intros H Hn. destruct n as [|n]; [lia|]. destruct w as [|c w]; cstr_case H; simpl; ctest; [by exists 0|].
  assert (exists d, strnlen x n = Ret d /\ 0 <= d) as (d & -> & Hd).
  { clear -H. revert n x H. induction w as [|c w IH]; intros n x H; cstr_case H; simpl;
      (destruct n as [|n]; [by exists 0|]); ctest; [by exists 0|].
    destruct (IH n _ H) as (d & -> & Hd). simpl. exists (d + 1). split; [done|lia]. }
  simpl. exists (d + 1). split; [done|]. by rewrite (proj2 (Z.eqb_neq _ _)) by lia.
Qed.

Section Handlers.
Context (shl32 : Z -> Z) (node pname val rest name pn : list Z) (b : board).
Context (Hname : cstr name node) (Hpn : cstr pn pname) (Hok : value_ok node pname val b).

#[local] Ltac test lem :=
  let d := fresh "d" in let H := fresh in let E := fresh "E" in
  destruct lem as (d & H & E); [done|repeat constructor; done|]; rewrite (bind_pure _ _ _ _ H), E; clear H E d.

Lemma memoryHandler_run : memoryHandler shl32 name pn (val ++ rest) (lenZ val) b =
  Ret (OK, if decide (pname = chars "reg" /\ lenZ val = 16)
           then set_memory (long_of shl32 val) (u64 (long_of shl32 val + long_of shl32 (drop 8 val))) b else b).
Proof.
  unfold memoryHandler. test (strcmp_test pn pname (chars "reg")). destruct Hok as (_ & Hb & _).
  destruct (decide (pname = chars "reg" /\ lenZ val = 16)) as [[H1 H2]|Hn].
  - rewrite bool_decide_eq_true_2, H2 by done. simpl.
    rewrite (bind_pure _ _ _ _ (dtb_read_long_run shl32 val rest ltac:(lia) Hb)).
    change (skipn 8) with (@drop Z 8). rewrite drop_app_le by (unfold lenZ in H2; lia).
    rewrite (bind_pure _ _ _ _ (dtb_read_long_run shl32 (drop 8 val) rest ltac:(unfold lenZ in *; rewrite length_drop; lia)
      ltac:(by apply Forall_drop))). done.
  - destruct (bool_decide (pname = chars "reg")) eqn:E1, (lenZ val =? 16) eqn:E2; simpl; try done. exfalso. apply Hn.
    btest. split; [by apply bool_decide_eq_true in E1|done].
Qed.

Lemma uartHandler_run : take 5 node = chars "uart@" -> uartHandler shl32 name pn (val ++ rest) (lenZ val) b =
  Ret (OK, if decide (pname = chars "reg") then set_uart_addr (long_of shl32 val) b
           else if decide (pname = chars "clock-frequency") then set_uart_clock (word_of val) b else b).
Proof.
  intros Hn. unfold uartHandler. destruct Hok as (_ & Hb & H8 & H4 & _). test (strcmp_test pn pname (chars "reg")).
  destruct (decide (pname = chars "reg")) as [E|E].
  - rewrite bool_decide_eq_true_2 by done. by rewrite (bind_pure _ _ _ _ (dtb_read_long_run shl32 val rest (H8 Hn E) Hb)).
  - rewrite bool_decide_eq_false_2 by done. test (strcmp_test pn pname (chars "clock-frequency")).
    destruct (decide (pname = chars "clock-frequency")) as [E'|E'].
    + rewrite bool_decide_eq_true_2 by done. by rewrite (bind_pure _ _ _ _ (ld32_run val rest (H4 Hn E'))).
    + by rewrite bool_decide_eq_false_2 by done.
Qed.

Lemma strncpy_copied f s w n : cstr s w -> (n <= length f)%nat -> strncpy f s n = Ret (copied f w n).
Proof. intros. by apply strncpy_cstr. Qed.

(** Up to a character within the string. *)
Lemma strncpy_within f w1 c w2 r : Forall (fun c => c <> 0) w1 -> c <> 0 -> (length w1 <= length f)%nat ->
  strncpy f (w1 ++ c :: w2 ++ 0 :: r) (length w1) = Ret (copied f w1 (length w1)).
Proof.
  intros Hw Hc Hl. unfold copied. rewrite Nat.sub_diag, take_ge by done. simpl. revert f Hl.
  induction Hw as [|d w1 Hd Hw IH]; intros f Hl; simpl; ctest; [by rewrite drop_0|].
  destruct f as [|x f]; simpl in *; [lia|]. by rewrite (IH f) by lia.
Qed.

Lemma baseHandler_run : node = [] -> baseHandler name pn (val ++ rest) (lenZ val) b =
  Ret (OK, if decide (pname = chars "model") then
             let w := removelast val in
             match rcut (chr ",") w with
             | Some (w1, w2) =>
                 set_manufacturer (copied (manufacturer b) w2 18) (set_family (copied (family b) w1 (length w1)) b)
             | None => set_manufacturer (copied (manufacturer b) w 18) b
             end
           else b).
Proof.
  intros Hn. unfold baseHandler. destruct Hok as (Hm & _ & _ & _ & Hmodel).
  test (strcmp_test pn pname (chars "model")).
  destruct (decide (pname = chars "model")) as [E|E]; [|by rewrite bool_decide_eq_false_2].
  rewrite bool_decide_eq_true_2 by done. destruct (Hmodel Hn E) as (w & -> & Hw & Hfit). cbv zeta.
  rewrite removelast_last, <- app_assoc. simpl app.
  assert (cstr (w ++ 0 :: rest) w) as Hs by (split; [by exists rest|done]).
  rewrite ?bind_assoc. rewrite (bind_pure _ _ _ _ (strrchr_rcut _ _ (chr ",") Hs ltac:(done))).
  destruct (rcut (chr ",") w) as [[w1 w2]|] eqn:Ec; simpl option_map; cbv iota beta.
  - pose proof (rcut_Some _ _ _ _ Ec) as ->. apply Forall_app in Hw as [Hw1 Hw2]. apply Forall_cons in Hw2 as [_ Hw2].
    rewrite ?bind_assoc, bind_gets. simpl fst. rewrite <- app_assoc. simpl app. unfold lenZ at 1. rewrite Nat2Z.id.
    rewrite ?bind_assoc, (bind_pure _ _ _ _ (strncpy_within (family b) w1 (chr ",") w2 rest Hw1 ltac:(done) ltac:(by eapply Hfit))).
    rewrite ?bind_assoc, bind_modify, ?bind_assoc, bind_gets, ?bind_assoc.
    assert (drop (Z.to_nat (lenZ w1 + 1)) (w1 ++ chr "," :: w2 ++ 0 :: rest) = w2 ++ 0 :: rest) as ->.
    { replace (Z.to_nat (lenZ w1 + 1)) with (length (w1 ++ [chr ","])) by (rewrite length_app; unfold lenZ; simpl; lia).
      change (chr "," :: w2 ++ 0 :: rest) with ([chr ","] ++ (w2 ++ 0 :: rest)). rewrite app_assoc. apply drop_app_length. }
    rewrite (bind_pure _ _ _ _ (strncpy_copied (manufacturer b) (w2 ++ 0 :: rest) w2 18 ltac:(split; [by exists rest|done]) Hm)).
    done.
  - rewrite ?bind_assoc, bind_gets, ?bind_assoc. by rewrite (bind_pure _ _ _ _ (strncpy_copied (manufacturer b) _ w 18 Hs Hm)).
Qed.

Lemma handleProp_run : exists r, handleProp shl32 (Some name) pn (val ++ rest) (lenZ val) b = Ret (r, effect shl32 node pname val b).
Proof.
  unfold handleProp, effect. test (strncmp_test name node (chars "memory@") 7).
  destruct (decide (take 7 node = chars "memory@")) as [E|E].
  { rewrite bool_decide_eq_true_2 by done. rewrite memoryHandler_run. by eexists. }
  rewrite bool_decide_eq_false_2 by done. test (strncmp_test name node (chars "uart@") 5).
  destruct (decide (take 5 node = chars "uart@")) as [E'|E'].
  { rewrite bool_decide_eq_true_2 by done. rewrite uartHandler_run by done. by eexists. }
  rewrite bool_decide_eq_false_2 by done.
  destruct (strnlen_0 name node (Z.to_nat PLT_STRMAX) Hname) as (d & Hd & Ed); [vm_compute; lia|].
  rewrite (bind_pure _ _ _ _ Hd), Ed. destruct (decide (node = [])) as [En|En].
  - rewrite bool_decide_eq_true_2 by done. rewrite baseHandler_run by done. eexists. do 2 f_equal.
    by repeat case_decide; naive_solver.
  - rewrite bool_decide_eq_false_2 by done. eexists. rewrite decide_False by tauto. done.
Qed.
End Handlers.

(** ** The structure block *)

Section Parse.
Context (shl32 : Z -> Z) (dtb_addr : Z) (blob : list Z).
Context (Haddr : 0 <= dtb_addr) (Hend : dtb_addr + lenZ blob < 2 ^ 32).

Lemma ptr_at p1 p2 : blob = p1 ++ p2 -> ptr dtb_addr blob (dtb_addr + lenZ p1) = Ret p2.
Proof.
  intros ->. unfold ptr. rewrite lenZ_app, !(proj2 (Z.leb_le _ _)) by (unfold lenZ; lia). simpl. f_equal.
  replace (Z.to_nat (dtb_addr + lenZ p1 - dtb_addr)) with (length p1) by (unfold lenZ; lia). apply drop_app_length.
Qed.

(** The state after the tokens. *)
Fixpoint visit (toks : list token) (node : option (list Z)) (b : board) : board :=
  match toks with
  | [] => b
  | TBegin name :: toks' => visit toks' (Some name) b
  | TProp _ pname val :: toks' =>
      match node with Some nd => visit toks' node (effect shl32 nd pname val b) | None => b end
  | TEnd :: toks' => visit toks' None b
  | TNop :: toks' => visit toks' node b
  end.

(** Properties come before the nodes below theirs, with names in the strings
    block and meaningful values. *)
Fixpoint tree_ok (string_base : Z) (toks : list token) (node : option (list Z)) (b : board) : Prop :=
  match toks with
  | [] => True
  | TBegin name :: toks' => Forall (fun c => c <> 0) name /\ tree_ok string_base toks' (Some name) b
  | TProp off pname val :: toks' =>
      0 <= off < 2 ^ 32 /\ (exists p, ptr dtb_addr blob (u64 (string_base + off)) = Ret p /\ cstr p pname) /\
      match node with
      | Some nd => value_ok nd pname val b /\ tree_ok string_base toks' node (effect shl32 nd pname val b)
      | None => False
      end
  | TEnd :: toks' => tree_ok string_base toks' None b
  | TNop :: toks' => tree_ok string_base toks' node b
  end.

Definition names (name node : option (list Z)) : Prop :=
  match name, node with Some s, Some w => cstr s w | None, None => True | _, _ => False end.

Lemma lenZ_be32 n : lenZ (be32 n) = 4.
Proof. done. Qed.

Lemma lenZ_encode t : lenZ (encode t) = 4 * (1 + (lenZ (body t) + 3) / 4).
Proof. unfold encode. rewrite lenZ_app, lenZ_be32, lenZ_pad4. lia. Qed.

(** The index after a token. *)
Lemma next_index p1 t rest off0 index : blob = p1 ++ encode t ++ rest -> lenZ p1 = off0 + 4 * index ->
  0 <= off0 -> 0 <= index ->
  u32 (index + (1 + c2ioff (u32 (lenZ (body t))))) = index + (1 + (lenZ (body t) + 3) / 4) /\
  lenZ (p1 ++ encode t) = off0 + 4 * (index + (1 + (lenZ (body t) + 3) / 4)).
Proof.
  intros Hb Hl H0 Hi. assert (lenZ blob = lenZ p1 + lenZ (encode t) + lenZ rest) as HL by (rewrite Hb, !lenZ_app; lia).
  rewrite lenZ_encode in HL. assert (0 <= lenZ (body t) /\ 0 <= lenZ rest) as [HB HR] by (unfold lenZ; lia).
  assert (lenZ (body t) <= 4 * ((lenZ (body t) + 3) / 4)).
  { pose proof (Z.div_mod (lenZ (body t) + 3) 4). pose proof (Z.mod_pos_bound (lenZ (body t) + 3) 4). lia. }
  assert (0 <= (lenZ (body t) + 3) / 4) by (apply Z.div_pos; lia).
  rewrite (wrap_small 32 (lenZ _)), c2ioff_words, wrap_small by lia. split; [done|]. rewrite lenZ_app, lenZ_encode. lia.
Qed.

Lemma parse_loop_run string_base off0 post : 0 <= off0 -> forall toks fuel p1 index name node b,
  blob = p1 ++ concat (encode <$> toks) ++ be32 FDT_END ++ post -> lenZ p1 = off0 + 4 * index -> 0 <= index ->
  names name node -> tree_ok string_base toks node b -> (length toks < fuel)%nat ->
  parseDtbNodes_loop shl32 dtb_addr blob fuel (dtb_addr + off0) string_base index name b = Ret (OK, visit toks node b).
Proof.
  intros H0. induction toks as [|t toks IH]; intros fuel p1 index name node b Hb Hl Hi Hn Hok Hf;
    (destruct fuel as [|fuel]; [simpl in Hf; lia|]); cbn [parseDtbNodes_loop];
    assert (u64 (dtb_addr + off0 + 4 * index) = dtb_addr + lenZ p1) as ->
      by (rewrite wrap_small; [lia|]; pose proof (f_equal lenZ Hb) as HL; rewrite lenZ_app in HL;
          match type of HL with _ = _ + ?r => assert (0 <= r) by (unfold lenZ; lia) end; lia);
    rewrite (bind_pure _ _ _ _ (ptr_at _ _ Hb)).
  { cbn [fmap list_fmap concat app]. destruct (ld32_be32 FDT_END post ltac:(done)) as (m & Hm & Em).
    rewrite (bind_pure _ _ _ _ Hm), Em. done. }
  cbn [fmap list_fmap concat] in Hb |- *. rewrite <- app_assoc in Hb |- *.
  set (R := concat _ ++ _) in *.
  destruct (next_index p1 t R off0 index Hb Hl H0 Hi) as [Hnext Hlen].
  assert (blob = (p1 ++ encode t) ++ R) as Hb' by (rewrite Hb; by rewrite app_assoc).
  assert (0 <= tag t < 2 ^ 32) as Htag by (by destruct t).
  destruct (ld32_be32 (tag t) (pad4 (body t) ++ R) Htag) as (m & Hm & Em).
  assert (encode t ++ R = be32 (tag t) ++ pad4 (body t) ++ R) as Henc by (unfold encode; by rewrite <- app_assoc).
  rewrite Henc, (bind_pure _ _ _ _ Hm), Em. change (drop 4 (be32 (tag t) ++ pad4 (body t) ++ R)) with (pad4 (body t) ++ R).
  simpl in Hf. destruct t as [nm|off pn val| |]; cbn [tag] in *.
  - destruct Hok as [Hnm Hok].
    assert (cstr (pad4 (nm ++ [0]) ++ R) nm) as Hs.
    { unfold pad4. split; [|done]. eexists. rewrite <- !app_assoc. simpl. reflexivity. }
    change (FDT_BEGIN_NODE =? FDT_BEGIN_NODE) with true. cbv iota zeta. cbn [body] in *.
    rewrite (bind_pure _ _ _ _ (strlen_cstr _ _ Hs)).
    replace (1 + lenZ nm) with (lenZ (nm ++ [0])) by (rewrite lenZ_app; unfold lenZ; simpl; lia). rewrite Hnext.
    apply (IH fuel (p1 ++ encode (TBegin nm))); [done|exact Hlen| |exact Hs|done|lia].
    assert (0 <= (lenZ (nm ++ [0]) + 3) / 4) by (apply Z.div_pos; unfold lenZ; lia). lia.
  - destruct Hok as (Hoff & (p & Hp & Hpn) & Hok). destruct node as [nd|]; [|done]. destruct Hok as [Hv Hok].
    destruct name as [nm|]; [|done]. cbn [body] in *. unfold pad4. set (pad := replicate _ 0).
    change (((be32 (lenZ val) ++ be32 off ++ val) ++ pad) ++ R) with (be32 (lenZ val) ++ be32 off ++ (val ++ pad) ++ R).
    destruct (ld32_be32 (lenZ val) (be32 off ++ (val ++ pad) ++ R)) as (ml & Hml & El).
    { rewrite !lenZ_app, lenZ_be32 in Hlen. pose proof (f_equal lenZ Hb) as HL. rewrite Henc in HL. unfold pad4 in HL.
      rewrite !lenZ_app in HL. unfold lenZ in *. lia. }
    destruct (ld32_be32 off ((val ++ pad) ++ R) Hoff) as (mo & Hmo & Eo).
    change (FDT_PROP =? FDT_BEGIN_NODE) with false. change (FDT_PROP =? FDT_PROP) with true. cbv iota zeta.
    change (drop 4 (be32 (lenZ val) ++ be32 off ++ (val ++ pad) ++ R)) with (be32 off ++ (val ++ pad) ++ R).
    change (drop 8 (be32 (lenZ val) ++ be32 off ++ (val ++ pad) ++ R)) with ((val ++ pad) ++ R).
    rewrite (bind_pure _ _ _ _ Hml), (bind_pure _ _ _ _ Hmo), El, Eo, (bind_pure _ _ _ _ Hp), <- app_assoc.
    destruct (handleProp_run shl32 nd pn val (pad ++ R) nm p b Hn Hpn Hv) as [r Hr]. rewrite (bind_Ret _ _ _ _ _ Hr).
    assert (lenZ (be32 (lenZ val) ++ be32 off ++ val) = 8 + lenZ val) as EL by (rewrite !lenZ_app, !lenZ_be32; lia).
    rewrite EL in Hnext, Hlen. rewrite Hnext.
    apply (IH fuel (p1 ++ encode (TProp off pn val))); [done|exact Hlen| |exact Hn|done|lia].
    assert (0 <= (8 + lenZ val + 3) / 4) by (apply Z.div_pos; unfold lenZ; lia). lia.
  - change (1 + c2ioff (u32 (lenZ (body TEnd)))) with 1 in Hnext. rewrite Hnext. change (1 + (lenZ (body TEnd) + 3) / 4) with 1 in *.
    by apply (IH fuel (p1 ++ encode TEnd)); [done|exact Hlen|lia| | |lia].
  - change (1 + c2ioff (u32 (lenZ (body TNop)))) with 1 in Hnext. rewrite Hnext. change (1 + (lenZ (body TNop) + 3) / 4) with 1 in *.
    by apply (IH fuel (p1 ++ encode TNop)); [done|exact Hlen|lia| | |lia].
Qed.

(** ** The reservation map and the header *)

Definition le32 (n : Z) : list Z := [n mod 256; n / 2 ^ 8 mod 256; n / 2 ^ 16 mod 256; n / 2 ^ 24].
Definition le64 (n : Z) : list Z := le32 (n mod 2 ^ 32) ++ le32 (n / 2 ^ 32).

Lemma ld32_le32 n r : ld32 (le32 n ++ r) = Ret n.
Proof.
  simpl. f_equal. pose proof (Z.div_mod n 256). pose proof (Z.div_mod (n / 256) 256). pose proof (Z.div_mod (n / 256 / 256) 256).
  change (2 ^ 8) with 256. change (2 ^ 16) with (256 * 256). change (2 ^ 24) with (256 * 256 * 256).
  rewrite <- !Z.div_div by lia. lia.
Qed.

Lemma ld64_le64 n r : ld64 (le64 n ++ r) = Ret n.
Proof.
  unfold ld64, le64. rewrite <- app_assoc, ld32_le32.
  change (drop 4 (le32 (n mod 2 ^ 32) ++ le32 (n / 2 ^ 32) ++ r)) with (le32 (n / 2 ^ 32) ++ r).
  cbn [obind]. rewrite ld32_le32. cbn [obind]. f_equal. pose proof (Z.div_mod n (2 ^ 32)). lia.
Qed.

(** Each entry is printed as it lies. *)
Definition rsv_entry (e : Z * Z) : list Z := le64 e.1 ++ le64 e.2.
Definition rsv_log (b : board) (e : Z * Z) : board :=
  log ("Size: %d\r\n"%string, [e.2]) (log ("Address: 0x%016X\r\n"%string, [e.1]) b).

Lemma rsv_loop_run es : forall fuel p1 post b, blob = p1 ++ concat (rsv_entry <$> es) ++ le64 0 ++ post ->
  Forall (fun e => e.1 <> 0 /\ e.2 <> 0) es -> (length es < fuel)%nat ->
  parseRsvMap_loop dtb_addr blob fuel (dtb_addr + lenZ p1) b = Ret (OK, foldl rsv_log b es).
Proof.
  induction es as [|[a n] es IH]; intros fuel p1 post b Hb Hes Hf; (destruct fuel as [|fuel]; [simpl in Hf; lia|]);
    cbn [parseRsvMap_loop]; rewrite (bind_pure _ _ _ _ (ptr_at _ _ Hb)); cbn [fmap list_fmap concat app].
  - rewrite (bind_pure _ _ _ _ (ld64_le64 0 post)). done.
  - apply Forall_cons in Hes as [[Ha Hn] Hes]. simpl in Ha, Hn. unfold rsv_entry. simpl fst. simpl snd. rewrite <- !app_assoc.
    rewrite (bind_pure _ _ _ _ (ld64_le64 a _)), (proj2 (Z.eqb_neq a 0) Ha).
    change (drop 8 (le64 a ++ ?r)) with r. rewrite (bind_pure _ _ _ _ (ld64_le64 n _)), (proj2 (Z.eqb_neq n 0) Hn).
    unfold kprintf. rewrite !bind_modify. simpl foldl. cbn [fmap list_fmap concat] in Hb. rewrite <- app_assoc in Hb.
    pose proof (f_equal lenZ Hb) as HL. rewrite !lenZ_app in HL. change (lenZ (rsv_entry (a, n))) with 16 in HL.
    rewrite wrap_small by (unfold lenZ in *; lia).
    replace (dtb_addr + lenZ p1 + 16) with (dtb_addr + lenZ (p1 ++ rsv_entry (a, n))) by (rewrite lenZ_app; change (lenZ (rsv_entry (a, n))) with 16; lia).
    apply (IH _ _ post); [by rewrite Hb, <- app_assoc|done|simpl in Hf; lia].
Qed.

Lemma header_run i l post n : blob = concat (be32 <$> l) ++ post -> nth_error l i = Some n -> 0 <= n < 2 ^ 32 ->
  exists m, header dtb_addr blob (4 * Z.of_nat i) = Ret m /\ be32_to_cpu m = n.
Proof.
  intros Hb Hi Hn. apply nth_error_split in Hi as (l1 & l2 & -> & Hl1). rewrite fmap_app, concat_app in Hb.
  cbn [fmap list_fmap concat] in Hb. rewrite <- !app_assoc in Hb. unfold header.
  assert (4 * Z.of_nat i = lenZ (concat (be32 <$> l1))) as ->.
  { clear -Hl1. subst i. induction l1 as [|x l1 IH]; [done|]. cbn [fmap list_fmap concat length]. rewrite lenZ_app, lenZ_be32, <- IH. lia. }
  rewrite (ptr_at _ _ Hb). cbn [obind]. by apply ld32_be32.
Qed.
End Parse.

(** A flattened tree: the header, the reservation map with its end, and the
    tokens with theirs, at the offsets that the header gives. *)
Record flattened (dtb_addr : Z) (blob : list Z) (es : list (Z * Z)) (toks : list token) (string_off : Z) (b : board) : Prop := {
  flat_addr : 0 <= dtb_addr /\ dtb_addr + lenZ blob < 2 ^ 32;
  flat_header : exists total off off_rsv post pre pre' post' post'',
    blob = concat (be32 <$> [FDT_MAGIC; total; off; string_off; off_rsv]) ++ post /\ 0 <= string_off < 2 ^ 32 /\
    blob = pre ++ concat (encode <$> toks) ++ be32 FDT_END ++ post' /\ lenZ pre = off /\
    blob = pre' ++ concat (rsv_entry <$> es) ++ le64 0 ++ post'' /\ lenZ pre' = off_rsv;
  flat_rsv : Forall (fun e => e.1 <> 0 /\ e.2 <> 0) es
}.

Lemma concat_length_le {A} (l : list (list A)) : Forall (fun x => x <> []) l -> (length l <= length (concat l))%nat.
Proof. induction 1 as [|x l Hx _ IH]; simpl; [done|]. rewrite length_app. destruct x; [done|]. simpl. lia. Qed.

(** C30: [parseDtb] of a flattened tree below 4 GB reads it to its end: it
    prints the reservation map and applies, in order, the effect of every
    property, found under the name of its node and its own, to the platform.
    The effect shows what is read: of a number of two words only the second
    (with the undefined shift for the first), and the clock frequency with
    its bytes not swapped. *)
Theorem dtb_parses shl32 dtb_addr blob es toks string_off b :
  flattened dtb_addr blob es toks string_off b ->
  let b0 := foldl rsv_log (log ("Reserved System Areas:\r\n"%string, []) b) es in
  tree_ok shl32 dtb_addr blob (u64 (dtb_addr + string_off)) toks None b0 ->
  parseDtb shl32 dtb_addr blob b = Ret (OK, visit shl32 toks None b0).
Proof.
  intros [[Ha He] (total & off & off_rsv & post & pre & pre' & post' & post'' & Hb1 & Hs & Hb2 & Hoff & Hb3 & Hrsv) Hes] b0 Hok.
  assert (0 <= lenZ blob) as Hpos by (unfold lenZ; lia).
  assert (0 <= off < 2 ^ 32 /\ 0 <= off_rsv < 2 ^ 32) as [Hoff' Hrsv'].
  { pose proof (f_equal lenZ Hb2) as H2. pose proof (f_equal lenZ Hb3) as H3. rewrite lenZ_app in H2, H3.
    unfold lenZ in *. lia. }
  destruct (header_run dtb_addr blob He 0 _ _ FDT_MAGIC Hb1) as (m0 & H0 & E0); [done|done|].
  destruct (header_run dtb_addr blob He 2 _ _ off Hb1) as (m2 & H2 & E2); [done|done|].
  destruct (header_run dtb_addr blob He 3 _ _ string_off Hb1) as (m3 & H3 & E3); [done|done|].
  destruct (header_run dtb_addr blob He 4 _ _ off_rsv Hb1) as (m4 & H4 & E4); [done|done|].
  change (4 * Z.of_nat 0) with 0 in H0. change (4 * Z.of_nat 2) with 8 in H2.
  change (4 * Z.of_nat 3) with 12 in H3. change (4 * Z.of_nat 4) with 16 in H4.
  unfold parseDtb. rewrite (bind_pure _ _ _ _ H0). change (cpu_to_be32 m0) with (be32_to_cpu m0). rewrite E0, Z.eqb_refl. change (negb true) with false. cbv iota.
  rewrite (bind_pure _ _ _ _ H4), E4. rewrite (wrap_small 64) by lia. rewrite <- Hrsv.
  rewrite (bind_Ret _ _ _ OK b0).
  - unfold parseDtbNodes. rewrite (bind_Ret _ _ _ OK (visit shl32 toks None b0)); [done|].
    rewrite (bind_pure _ _ _ _ H2), (bind_pure _ _ _ _ H3), E2, E3.
    rewrite (wrap_small 32 dtb_addr), (wrap_small 32) by (pose proof (f_equal lenZ Hb2) as HL; rewrite lenZ_app in HL; unfold lenZ in *; lia).
    apply (parse_loop_run shl32 dtb_addr blob Ha He _ off post' ltac:(lia) toks _ pre); [done|lia|lia|done|done|].
    pose proof (concat_length_le (encode <$> toks) ltac:(by apply Forall_fmap, Forall_true)) as Hle.
    rewrite length_fmap in Hle. pose proof (f_equal length Hb2) as HL. rewrite !length_app in HL. lia.
  - unfold parseRsvMap, kprintf. rewrite bind_modify.
    apply (rsv_loop_run dtb_addr blob Ha He es _ pre' post''); [done|done|].
    pose proof (concat_length_le (rsv_entry <$> es) ltac:(by apply Forall_fmap, Forall_true)) as Hle.
    rewrite length_fmap in Hle. pose proof (f_equal length Hb3) as HL. rewrite !length_app in HL. lia.
Qed.
