(* ===== verification/Scenario.v ===== *)
(** * Concrete kernels

    Kernels obtained by running the modelled code on a given platform: the
    one [sysinit] leaves, then kernels in which processes have been created,
    made ready, run, sent and received messages.  The invariants hold of them
    by evaluation of the conditions of Checks. *)

From Stdlib Require Import Ascii String.
From stdpp Require Import base numbers functions list gmap.
From S2P Require Import Prelude Kernel Spinlock Queue Memory CString Doprnt Kio Thread Proc ProcOps.
From S2P Require Import Message Interrupt Mmu Checks Init.

#[export] Instance rpi3_layout : Layout := {|
  proctab_addr := 0x20000; userret_addr := 0x9000; clkhandler_addr := 0x9100; main_addr := 0x9200;
  core_nulluser_addr := 0x9300; setupCore_addr := 0x9400; start_addr := 0x8000; end_addr := 0x30000 |}.

#[export] Program Instance zero_stack : Uninit := {| uninit := replicate 33 0 |}.
Next Obligation. done. Qed.

Definition rpi3_devices : devices :=
  mkDevices 0 (replicate 18 0) (replicate 18 0) 0 (replicate 72 0) [0; 0; 0] [0; 0; 0] [0; 0; 0; 0]
    5000 0 [7; 7; 7; 7] [0; 0; 0; 0] (replicate 10 0) 0 0 [104; 105] [0; 0; 0; 0] [0; 0; 0; 0] [].

Definition loaded : kernel :=
  bss 0x38000 ∅ (replicate 4 0x1DF) (replicate 4 (replicate 16 0)) rpi3_devices.

Definition state_of {A} (r : outcome (A * kernel)) (k : kernel) : kernel :=
  match r with Ret (_, k') => k' | Fault _ => k end.
Definition after {A} (m : K A) (k : kernel) : kernel := state_of (m k) k.
Definition afterT {A} (t : thread A) (k : kernel) : kernel := state_of (start t k) k.

(** After the lock table and [sysinit] on core 0. *)
Definition booted : kernel :=
  after (init_locks (Z.to_nat NLOCK) 0 ;;; sysinit 0) (set_maxaddr 0x3EFFFFFC loaded).

(** Processes 4 and 5, suspended. *)
Definition spawned : kernel :=
  after (create 0 0x8100 8192 PRIORITY_HIGH (lit "shell") [1; 2; 3; 4; 5; 6] ;;;
         create 0 0x8200 100 PRIORITY_MED (lit "worker") []) booted.
(** Both ready on core 0. *)
Definition queued : kernel := afterT (ready 0 5 false 0) (afterT (ready 0 4 false 0) spawned).
(** Process 4 runs on core 0. *)
Definition running : kernel := afterT (resched 0) queued.
(** Process 4 waits for a message, process 5 runs. *)
Definition waiting : kernel := afterT (recv 0) running.
(** Process 4 runs, process 5 has a message. *)
Definition mailed : kernel := afterT (send 1 5 77) running.
(** Process 4 waits to send a second message to process 5, which runs. *)
Definition crowded : kernel := afterT (send 0 5 78) mailed.

Ltac evaluate := refine (bool_decide_unpack _ _); vm_compute; exact I.

Lemma booted_ok : sched_ok booted /\ mail_ok booted /\ heaps_ok booted.
Proof. evaluate. Qed.
Lemma spawned_ok : sched_ok spawned /\ mail_ok spawned /\ heaps_ok spawned.
Proof. evaluate. Qed.
Lemma queued_ok : sched_ok queued /\ mail_ok queued /\ heaps_ok queued.
Proof. evaluate. Qed.
Lemma running_ok : sched_ok running /\ mail_ok running /\ heaps_ok running.
Proof. evaluate. Qed.
Lemma waiting_ok : sched_ok waiting /\ mail_ok waiting /\ heaps_ok waiting.
Proof. evaluate. Qed.
Lemma mailed_ok : sched_ok mailed /\ mail_ok mailed /\ heaps_ok mailed.
Proof. evaluate. Qed.
Lemma crowded_ok : sched_ok crowded /\ mail_ok crowded /\ heaps_ok crowded.
Proof. evaluate. Qed.
