(* ===== verification/Witnesses.v ===== *)
(** * The theorems at work

    For each theorem with hypotheses, an input that meets them: the kernels
    of Scenario, and small strings, formats, masks and schedules. *)

From Stdlib Require Import Ascii String.
From stdpp Require Import base numbers functions list gmap relations.
From S2P Require Import Prelude Kernel Spinlock Queue Memory CString Doprnt Kio Thread Proc ProcOps.
From S2P Require Import Message Interrupt Mmu Checks Init Scenario Syscall Runtime.

(** ** Automation and the invariants at the kernels of Scenario *)

Ltac run := vm_compute; reflexivity.
Ltac check := refine (bool_decide_unpack _ _); vm_compute; exact I.
(** The hypotheses give each part of the goal; nothing is evaluated. *)
Ltac have := repeat match goal with |- _ /\ _ => split end; assumption.
Ltac some := eexists; split; [run|check].

Definition pcb_of (k : kernel) (i : Z) : pcb := default zero_pcb (nthZ (proctab k) i).

Notation sched k := (sched_inv (queues_at (qlock_of k)) (ready_of k) settled k (lists_of k)).
Notation sys k := (sys_inv (qlock_of k) (ready_of k) (mail_of k) k (lists_of k)).

Lemma sched_at k : sched_ok k /\ mail_ok k /\ heaps_ok k -> sched k.
Proof. intros (? & _). by apply sched_ok_inv. Qed.
Lemma sys_at k : sched_ok k /\ mail_ok k /\ heaps_ok k -> sys k.
Proof. intros (? & ? & _). by apply sys_ok_inv. Qed.
Lemma heaps_at k : sched_ok k /\ mail_ok k /\ heaps_ok k -> heaps_wf k (free_of k).
Proof. intros (_ & _ & ?). by apply heaps_ok_wf. Qed.
Lemma queues_wf_at k : sched_ok k /\ mail_ok k /\ heaps_ok k -> queues_wf k (lists_of k).
Proof. intros ((? & _) & _). by apply queues_ok_at. Qed.

Lemma unqueued_at k x : Forall (fun h => x ∉ lists_of k h) (heads k) -> unqueued k (lists_of k) x.
Proof. intros HF h Hh. by apply (heads_all _ _ HF h Hh). Qed.

Create HintDb scenario discriminated.
#[export] Hint Constants Opaque : scenario.
#[export] Hint Resolve sched_at sys_at heaps_at queues_wf_at booted_ok spawned_ok queued_ok running_ok
  waiting_ok mailed_ok crowded_ok : scenario.
Ltac known := solve [eauto with scenario].

(** ** Scheduler and processes *)

Lemma resched_refines_witness : exists rest k' L',
  start (resched 0) queued = Ret (inr rest, k') /\ nthZ (currpid k') 0 = Some 4 /\
  sched_inv (queues_at (qlock_of queued)) (ready_of queued) settled k' L'.
Proof.
  destruct (resched_refines (queues_at (qlock_of queued)) (ready_of queued) settled 0 queued (lists_of queued))
    as (x & p & im & r & new & s' & k' & L' & rest & Hx & Hp & _ & _ & Hs & Hr & Hi & _ & Hn & _);
    [known|check|by right|].
  exists rest, k', L'. split; [done|]. split; [|done]. rewrite Hn. f_equal.
  assert (x = 0) as -> by (apply (inj Some); rewrite <- Hx; run).
  assert (p = pcb_of queued 0) as -> by (apply (inj Some); rewrite <- Hp; run).
  apply (f_equal (option_map fst)) in Hs. apply (inj Some).
  etransitivity; [symmetry; exact Hs|run].
Defined.

Lemma ready_appends_witness : exists k',
  start (ready 1 4 false 2) spawned = Ret (inl OK, k') /\
  lists_of k' (ready_of k' 2 PRIORITY_HIGH) = [4].
Proof.
  destruct (ready_appends (queues_at (qlock_of spawned)) (ready_of spawned) 1 spawned (lists_of spawned)
    4 (pcb_of spawned 4) false 2 0x1DF) as (tab & Hr & _); [known|run|run|check|check|..|check|run|].
  - apply unqueued_at. check.
  - eexists. split; [exact Hr|]. apply (f_equal (fun o => state_of o spawned)) in Hr. cbn [state_of] in Hr.
    rewrite <- Hr. run.
Defined.

Lemma create_spec_witness : exists pid k',
  create 0 0x8100 8192 PRIORITY_HIGH (lit "shell") [1; 2; 3; 4; 5; 6] booted = Ret (pid, k') /\
  numproc k' = 5.
Proof.
  destruct (create_spec (queues_at (qlock_of booted)) (ready_of booted) 0 booted (lists_of booted)
    (free_of booted) 0x8100 8192 PRIORITY_HIGH (lit "shell") (chars "shell") [1; 2; 3; 4; 5; 6])
    as (pid & saddr & p & k' & l' & Hr & _ & _ & _ & _ & Hn & _);
    [known|known|..|check|check|check| |].
  - assert (Idx (fun _ p => lenZ (p_name p) = PNMLEN /\ lenZ (p_regs p) = PREGS) (proctab booted)) as HI by check.
    intros i p Hp. exact (Idx_nthZ _ _ _ _ HI Hp).
  - check.
  - check.
  - exists 10. some.
  - check.
  - split; [by exists []|check].
  - exists (mh_base (default (mkMemhead 0 0 0 0 0) (nthZ (freelist booted) 0)),
            mh_bound (default (mkMemhead 0 0 0 0 0) (nthZ (freelist booted) 0))). split; check.
  - exists pid, k'. split; [done|]. rewrite Hn. run.
Defined.

Definition stack_check (k : kernel) (n pid : Z) : Prop :=
  let p := pcb_of k pid in let b := (p_stkbase p, roundmb (u32 (p_stklen p))) in
  0 < u32 (p_stklen p) <= 2 ^ 32 - 8 /\ core n /\
  holds (nthZ (freelist k) n) (fun h => mh_base h <= fst b /\ fst b + snd b <= mh_base h + mh_bound h /\
    (8 | fst b) /\ 0 < snd b) /\
  Forall (fun b' => fst b' + snd b' <= fst b \/ fst b + snd b <= fst b') (free_of k n).

#[export] Instance stack_check_dec k n pid : Decision (stack_check k n pid).
Proof. unfold stack_check. apply _. Defined.

Lemma owns_stack_at k n pid : stack_check k n pid -> owns_stack k (free_of k) (pcb_of k pid) n.
Proof.
  intros (H1 & H2 & H3 & H4). split; [done|]. split; [done|]. split.
  - apply holds_ex in H3 as (h & ? & ?). by exists h.
  - intros x Hx (b' & Hb' & Hx'). rewrite Forall_forall in H4. specialize (H4 b' Hb'). unfold inb in Hx.
    simpl in *. lia.
Qed.

Lemma kill_ready_witness : exists k' l1 l2,
  start (kill 0 5) queued = Ret (inl OK, k') /\
  lists_of queued (ready_of queued 0 PRIORITY_MED) = l1 ++ 5 :: l2.
Proof.
  destruct (kill_ready (queues_at (qlock_of queued)) (ready_of queued) 0 queued (lists_of queued)
    (free_of queued) 5 (pcb_of queued 5) 0) as (k' & _ & _ & _ & _ & Hr & _);
    [known|known|check|run|run|run|check|exact (owns_stack_at queued 0 5 ltac:(check))|].
  exists k', [], []. split; [exact Hr|run].
Defined.

Lemma kill_current_witness : exists rest k' new,
  start (kill 0 4) running = Ret (inr rest, k') /\ nthZ (currpid k') 0 = Some new /\ new <> 4.
Proof.
  destruct (kill_current (queues_at (qlock_of running)) (ready_of running) 0 running (lists_of running)
    (free_of running) 4 (pcb_of running 4) 0)
    as (rest & k' & L' & l' & new & p' & Hr & _ & _ & Hn & Hne & _);
    [known|known|check|run|run|check|exact (owns_stack_at running 0 4 ltac:(check))|].
  exists rest, k', new. have.
Defined.

Lemma kill_refuses_witness :
  start (kill 1 4) running = Ret (inl SYSERR, running) /\ start (kill 0 0) running = Ret (inl SYSERR, running).
Proof.
  split; apply kill_refuses; [run|check| |run|check|by left].
  right. right. exists (pcb_of running 4). split; [run|]. right. check.
Defined.

(** ** Messages *)

Notation box k := (mbox (mail_of k) k (lists_of k)).

Lemma send_deposits_witness : exists k', start (send 0 5 42) running = Ret (inl OK, k') /\
  mbox (mail_of running) k' (lists_of running) 5 = [42].
Proof.
  destruct (send_deposits (qlock_of running) (ready_of running) (mail_of running) 0 running (lists_of running)
    5 (pcb_of running 5) 4 42) as (k' & Hr & _ & Hm & _); [known|run|run|check|check|run|].
  exists k'. have.
Defined.

Lemma send_wakes_witness : exists k' p', start (send 1 4 42) waiting = Ret (inl OK, k') /\
  nthZ (proctab k') 4 = Some p' /\ p_state p' = PRREADY.
Proof.
  destruct (send_wakes (qlock_of waiting) (ready_of waiting) (mail_of waiting) 1 waiting (lists_of waiting)
    4 (pcb_of waiting 4) 1 42) as (k' & p' & Hr & _ & _ & Hp & Hs); [known|check|run|run|run|check|check|run|].
  exists k', p'. have.
Defined.

Lemma send_blocks_witness : exists rest k' L', start (send 0 5 78) mailed = Ret (inr rest, k') /\
  mbox (mail_of mailed) k' L' 5 = [77; 78].
Proof.
  destruct (send_blocks (qlock_of mailed) (ready_of mailed) (mail_of mailed) 0 mailed (lists_of mailed)
    5 (pcb_of mailed 5) 4 (pcb_of mailed 4) 78) as (rest & k' & L' & im & Hr & _ & _ & _ & Hm & _);
    [known|check|run|run|run|check|check|check|check|].
  exists rest, k', L'. split; [exact Hr|]. rewrite Hm. run.
Defined.

Lemma recv_fifo_witness : exists k' L', start (recv 0) crowded = Ret (inl 77, k') /\
  mbox (mail_of crowded) k' L' 5 = [78].
Proof.
  destruct (recv_fifo (qlock_of crowded) (ready_of crowded) (mail_of crowded) 0 crowded (lists_of crowded)
    5 77 [78]) as (k' & L' & Hr & _ & Hm & _); [known|check|run|run|].
  exists k', L'. have.
Defined.

Lemma recv_blocks_witness : exists rest k' q, start (recv 0) running = Ret (inr rest, k') /\
  nthZ (proctab k') 4 = Some q /\ p_state q = PRRECV.
Proof.
  destruct (recv_blocks (qlock_of running) (ready_of running) (mail_of running) 0 running (lists_of running) 4)
    as (rest & k' & L' & im & Hr & _ & (q & Hq & Hs) & _); [known|check|run|check|run|].
  exists rest, k', q. have.
Defined.

Lemma recvnow_spec_witness : recvnow 0 running = Ret (SYSERR, running).
Proof.
  exact (recvnow_spec (qlock_of running) (ready_of running) (mail_of running) 0 running (lists_of running) 4
    ltac:(known) ltac:(check) ltac:(run) ltac:(run)).
Defined.

(** ** Locks and queues *)

Lemma locks_at k : lenZ (locktab k) = NLOCK -> 0 <= nextlock k < NLOCK ->
  Idx (fun _ e => l_state e <> SPINLOCK_FREE \/ (l_lock e = SPINLOCK_UNLOCKED /\ l_core e = -1)) (locktab k) ->
  locks_wf k.
Proof.
  intros H1 H2 H3. constructor; [done|done|]. intros i e He Hs.
  by destruct (Idx_nthZ _ _ _ _ H3 He).
Qed.

Lemma booted_locks : locks_wf booted.
Proof. apply locks_at; check. Qed.

Lemma lock_create_total_witness : exists l, lock_is_free booted l /\
  exists k', lock_create booted = Ret (l, k') /\ at_rest k' l.
Proof.
  destruct (lock_create_total booted booted_locks) as [[Hn _]|(l & Hl & Hr & Ha & _)].
  - exfalso. apply (Hn 149). some.
  - exists l. split; [exact Hl|]. eexists. split; [exact Hr|exact Ha].
Defined.

Lemma lock_free_reusable_witness : exists k', lock_free 5 booted = Ret (OK, k') /\ lock_is_free k' 5.
Proof.
  destruct (lock_free_reusable 0 booted 5) as (k' & Hr & _ & Hf & _); [exact booted_locks|check|check|].
  exists k'. have.
Defined.

Lemma lock_acquire_release_witness :
  (lock_acquire 2 5 ;;; lock_acquire 2 5) booted = Fault Deadlock.
Proof.
  destruct (lock_acquire_release 2 booted 5) as [_ H]; [check|check|exact H].
Defined.

(** Core 1 goes through [_lock_acquire]. *)
Definition entered : LockStep.st :=
  LockStep.mkSt SPINLOCK_UNLOCKED (<[1 := LockStep.Loading]> (fun _ => LockStep.Idle)) (fun _ => false).
Definition reserved : LockStep.st :=
  LockStep.mkSt SPINLOCK_UNLOCKED (<[1 := LockStep.Storing]> (LockStep.pc entered))
    (<[1 := true]> (LockStep.monitor entered)).
Definition held : LockStep.st :=
  LockStep.mkSt SPINLOCK_LOCKED (<[1 := LockStep.Holding]> (LockStep.pc reserved)) LockStep.no_monitor.

Lemma mutual_exclusion_witness :
  LockStep.word held = SPINLOCK_LOCKED /\ forall d, LockStep.pc held d = LockStep.Holding -> 1 = d.
Proof.
  destruct (LockStep.mutual_exclusion held) as [H1 H2].
  - apply (LockStep.r_step reserved); [|by apply (LockStep.s_strex_ok reserved 1)].
    apply (LockStep.r_step entered); [|by apply (LockStep.s_ldrex_free entered 1)].
    apply (LockStep.r_step LockStep.init); [|by apply (LockStep.s_enter LockStep.init 1)]. apply LockStep.r_init.
  - split; [apply H2; by exists 1|]. intros d. by apply H1.
Defined.

Definition high0 : Z := ready_of spawned 0 PRIORITY_HIGH.

Lemma is_qhead_at k h : bool_decide (is_qhead k h) = true -> is_qhead k h.
Proof. apply bool_decide_eq_true_1. Qed.

Definition five_ops (h : Z) : list qop := [Enq 4 h; Enq 5 h; Deq h; Rem 5; Deq h].

Lemma five_ops_spec k L h :
  is_qhead k h -> live k 4 -> live k 5 -> unqueued k L 4 -> unqueued k L 5 -> L h = [] ->
  spec_qops k L (five_ops h) [4; 5; 4; 5; EMPTY]
    (<[h := []]> (<[h := [5]]> (<[h := [4; 5]]> (<[h := [4]]> L)))).
Proof.
  intros Hh H4 H5 U4 U5 E.
  apply (spec_cons _ _ _ _ (<[h := [4]]> L)).
  { replace [4] with (L h ++ [4]) by by rewrite E. by apply spec_enq. }
  apply (spec_cons _ _ _ _ (<[h := [4; 5]]> (<[h := [4]]> L))).
  { replace [4; 5] with ((<[h := [4]]> L) h ++ [5]) by by rewrite fn_lookup_insert.
    apply spec_enq; [done|done|]. intros h' Hq. destruct (decide (h' = h)) as [-> | Hne].
    - rewrite fn_lookup_insert. set_solver.
    - rewrite fn_lookup_insert_ne by done. by apply U5. }
  apply (spec_cons _ _ _ _ (<[h := [5]]> (<[h := [4; 5]]> (<[h := [4]]> L)))).
  { apply spec_deq; [done|]. by rewrite fn_lookup_insert. }
  eapply spec_cons; [apply (spec_rem _ _ h [] 5 []); [done|done|by rewrite fn_lookup_insert]|].
  eapply spec_cons; [|apply spec_nil]. apply spec_deq_empty; [done|by rewrite fn_lookup_insert].
Qed.

Lemma queue_refinement_witness : exists tab',
  run_qops 0 (five_ops high0) spawned = Ret ([4; 5; 4; 5; EMPTY], set_queuetab tab' spawned).
Proof.
  edestruct (queue_refinement 0 spawned (lists_of spawned) (five_ops high0) [4; 5; 4; 5; EMPTY])
    as (tab' & Hr & _); [known| |exists tab'; exact Hr].
  apply five_ops_spec; [apply is_qhead_at; run|split; [check|some]|split; [check|some]| | |run];
    apply unqueued_at; check.
Defined.

Lemma remove_anywhere_witness : exists tab', remove 0 5 queued = Ret (5, set_queuetab tab' queued).
Proof.
  destruct (remove_anywhere 0 queued (lists_of queued) (ready_of queued 0 PRIORITY_MED) [] 5 [])
    as (tab' & Hr & _); [known|apply is_qhead_at; run|split; [check|some]|run|].
  exists tab'. have.
Defined.

Lemma enqueue_rejects_witness : enqueue 0 20 (qid high0) spawned = Ret (SYSERR, spawned).
Proof. apply enqueue_rejects; [run|]. right. right. right. run. Defined.

(** With one more entry of the queue table to give away. *)
Definition roomy : kernel := set_nextqueue (NQENT - 2) booted.

Lemma roomy_ok : queues_ok roomy.
Proof. refine (@bool_decide_unpack _ (queues_ok_dec roomy) _). vm_compute. exact I. Qed.

Lemma newqueue_fresh_witness : exists k', newqueue roomy = Ret (qid (NQENT - 2), k') /\ nextqueue k' = NQENT.
Proof.
  destruct (newqueue_fresh roomy (lists_of roomy) 149) as (k' & Hr & Hn & _).
  - apply (queues_ok_at roomy roomy_ok).
  - apply locks_at; check.
  - some.
  - check.
  - check.
  - exists k'. split; [exact Hr|]. rewrite Hn. run.
Defined.

(** ** Memory *)

Definition head_of (k : kernel) (n : Z) : memhead := default (mkMemhead 0 0 0 0 0) (nthZ (freelist k) n).

Lemma heap_at k n : heaps_wf k (free_of k) -> nthZ (freelist k) n = Some (head_of k n) ->
  heap_wf k n (head_of k n) (free_of k n).
Proof. intros Hk Hn. apply (hs_each _ _ Hk n _ Hn). Qed.

Lemma getmem_first_fit_witness : exists k', getmem 0 100 booted = Ret (0x38000, k').
Proof.
  pose proof (getmem_first_fit 0 booted (head_of booted 0) (free_of booted 0) 0x1DF 100
    (heap_at booted 0 (heaps_at _ booted_ok) ltac:(run)) ltac:(run) ltac:(check)) as H.
  assert (first_fit (roundmb 100) (free_of booted 0) = Some ([], (0x38000, mh_bound (head_of booted 0)), []))
    as E by run.
  rewrite E in H. destruct H as (m' & h' & Hr & _). eexists. exact Hr.
Defined.

(** A block given away by [getmem]. *)
Definition used : kernel := after (getmem 0 100) booted.

Lemma used_heaps : heaps_wf used (free_of used).
Proof. apply heaps_ok_wf. refine (@bool_decide_unpack _ (heaps_ok_dec used) _). vm_compute. exact I. Qed.

Lemma owner_at k p n : 0 <= n < NCORES -> lenZ (freelist k) = NCORES ->
  Idx (fun i h => 0 <= mh_base h /\ mh_base h + mh_bound h < 2 ^ 32 /\ 0 <= mh_bound h /\
    (~ i < n \/ ~ (mh_base h <= p < mh_base h + mh_bound h)) /\
    (i <> n \/ mh_base h <= p < mh_base h + mh_bound h)) (freelist k) -> owner k p n.
Proof.
  intros H1 H2 H3. split; [done|]. split; [done|]. intros i h Hh. unfold in_region.
  destruct (Idx_nthZ _ _ _ _ H3 Hh) as (? & ? & ? & ? & ?). lia.
Qed.

Lemma freemem_coalesces_witness :
  freemem 2 0x38000 100 booted = Ret (SYSERR, booted) /\
  exists m' h' l', freemem 2 0x38000 100 used = Ret (OK, set_memory m' (set_freelist (updZ 0 h' (freelist used)) used)) /\
    heap_wf (set_memory m' (set_freelist (updZ 0 h' (freelist used)) used)) 0 h' l'.
Proof.
  split.
  - destruct (freemem_coalesces 2 0 booted (head_of booted 0) (free_of booted 0) 0x1DF 0x38000 100)
      as [[_ H]|[H _]]; [|run|apply owner_at; check|check|check|check|check|exact H|].
    + apply heap_at; [known|run].
    + exfalso. apply (H 0x38000); [check|]. exists (0x38000, mh_bound (head_of booted 0)). split; check.
  - destruct (freemem_coalesces 2 0 used (head_of used 0) (free_of used 0) 0x1DF 0x38000 100)
      as [[(x & Hx & b & Hb & Hbx) _]|[_ (m' & h' & l' & H & Hw & _)]];
      [|run|apply owner_at; check|check|check|check|check| |exists m', h', l'; have].
    + apply heap_at; [exact used_heaps|run].
    + exfalso. assert (Forall (fun b => 0x38000 + roundmb 100 <= fst b) (free_of used 0)) as HF by check.
      rewrite Forall_forall in HF. specialize (HF b Hb). lia.
Defined.

Lemma allocator_safe_witness : apart [(0x38000, 104)] /\ exists FL, heaps_wf used FL.
Proof.
  destruct (allocator_safe booted (free_of booted) used [(0x38000, 104)]) as (H1 & _ & FL & H2 & _);
    [known|run| |split; [exact H1|exists FL; exact H2]].
  apply rtc_once. change [(0x38000, 104)] with ((0x38000, roundmb 100) :: []).
  apply (alloc_ok booted [] 0 100 0x38000 used); [check|check|run|check].
Defined.

Lemma getmem_freemem_roundtrip_witness : exists k2,
  freemem 3 0x38000 100 used = Ret (OK, k2) /\ heaps_wf k2 (free_of booted).
Proof.
  apply (getmem_freemem_roundtrip 0 3 booted (free_of booted) 100 0x38000 used);
    [known|run|check|check|check|run|check].
Defined.

Lemma malloc_free_roundtrip_witness : exists p k1 k2,
  malloc 1 50 booted = Ret (p, k1) /\ free 2 p k1 = Ret (OK, k2) /\ heaps_wf k2 (free_of booted).
Proof.
  destruct (malloc_free_roundtrip 1 2 booted (free_of booted) 50)
    as [H|(p & k1 & Hm & _ & _ & _ & Hf)]; [known|run|check|check|check|..].
  - exfalso. apply (f_equal (fun o => match o with Ret (p, _) => p =? NULL | _ => true end)) in H.
    vm_compute in H. discriminate H.
  - destruct (Hf (memory k1)) as (k2 & Hr & Hw); [done|].
    exists (p + sizeof_memblock), k1, k2. split; [exact Hm|]. split; [|exact Hw].
    rewrite <- Hr. by destruct k1.
Defined.

(** ** Strings and formatted output *)

Lemma strcmp_order_witness : exists d, strcmp (lit "abc") (lit "abd") = Ret d /\ d <> 0.
Proof.
  destruct (strcmp_order (lit "abc") (lit "abd") (lit "") (chars "abc") (chars "abd") [])
    as (d & d1 & d2 & d3 & H & _ & _ & _ & Hz & _); [split; [by exists []|check]..|check|].
  exists d. split; [exact H|]. by rewrite Hz.
Defined.

Lemma bounded_copies_witness :
  strncpy [9; 9; 9; 9; 9; 9] (lit "hey") 5 = Ret [104; 101; 121; 0; 0; 9] /\
  strlcpy [9; 9; 9; 9; 9; 9] (lit "hey") 3 = Ret (3, [104; 101; 0; 9; 9; 9]) /\
  strncat [72; 0; 9; 9; 9; 9] (chars "hey") 2 = Ret [72; 104; 101; 0; 9; 9].
Proof.
  split; [|split].
  - destruct (bounded_copies [9; 9; 9; 9; 9; 9] (lit "hey") 5) as (H & _).
    destruct H as (H & _); [simpl; lia|].
    apply (H (chars "hey")); [apply (cstr_upto 5 _ (chars "hey")); split; [by exists []|check]|vm_compute; lia].
  - destruct (bounded_copies [9; 9; 9; 9; 9; 9] (lit "hey") 3) as (H & _).
    destruct H as (_ & _ & H); [simpl; lia|]. apply (H (chars "hey")). split; [by exists []|check].
  - destruct (bounded_copies [72; 0; 9; 9; 9; 9] (chars "hey") 2) as (_ & H).
    apply (H [72] [104; 101]); [split; [by exists [9; 9; 9; 9]|check]| |simpl; lia].
    split; [check|]. split; [simpl; lia|]. split; [by exists [121]|by left].
Defined.

Lemma strstr_first_witness : exists i, strstr (lit "banana") (lit "an") = Ret (Some i).
Proof.
  destruct (strstr_first (lit "banana") (lit "an") (chars "banana") (chars "an")) as ([i|] & H & Hn);
    [split; [by exists []|check]..|by exists i|].
  exfalso. specialize (Hn (chars "b") (chars "anana") ltac:(done)).
  discriminate Hn. by exists (chars "ana").
Defined.

Lemma ulong_to_string_correct_witness : exists str' ds,
  ulong_to_string (replicate 33 0) 255 (replicate 33 7) 16 false = Ret str' /\ valof 16 ds = 255 /\
  cstr str' (digit_char false <$> ds).
Proof.
  destruct (ulong_to_string_correct (replicate 33 0) 255 (replicate 33 7) 16 false)
    as (str' & ds & H & _ & Hc & _ & Hv & _); [|lia|done|done|].
  - unfold conv_base. tauto.
  - exists str', ds. have.
Defined.

(** "x=%05d|%-4s" with -42 and "ab". *)
Definition sample_items : list item :=
  [Lit (chr "x"); Lit (chr "=");
   Dir (mkDirective [false] (WNum 5) PNone REGULAR_SIZE (CSigned (-42))); Lit (chr "|");
   Dir (mkDirective [true] (WNum 4) PNone REGULAR_SIZE (CStr (lit "ab") (chars "ab")))].

Lemma sprintf_renders_witness :
  sprintf (replicate 33 0) (replicate 20 9) (lit "x=%05d|%-4s") [VInt (-42); VStr (lit "ab")] =
  Ret (12, chars "x=-0042|ab  " ++ 0 :: replicate 7 9).
Proof.
  refine (sprintf_renders (replicate 33 0) (replicate 20 9) sample_items [] [] _ _ _); [run| |check].
  repeat constructor; try check; by exists [].
Defined.

Lemma console_stream_witness : exists k', kgetc booted = Ret (104, k') /\ pending_in k' = [105].
Proof.
  destruct (console_stream booted 33) as (H & _); [split; check|].
  assert (pending_in booted = [104; 105]) as E by run. rewrite E in H.
  destruct H as (k' & Hr & Hp & _). exists k'. have.
Defined.

(** ** Interrupts, clock and start *)

Lemma irq_lines_witness : exists k', enable_irq 29 booted = Ret (tt, k') /\ irq_on k' 29 = true.
Proof.
  destruct (irq_lines booted 29) as ((k' & Hr & _ & _ & Hm) & _); [|lia|].
  - split; [run|]. assert (Idx (fun _ m => 0 <= m < 2 ^ 32) (arm_enabled_irqs (devs booted))) as HI by check.
    intros i m Hm. exact (Idx_nthZ _ _ _ _ HI Hm).
  - exists k'. split; [exact Hr|]. rewrite Hm by lia. apply orb_true_l.
Defined.

Lemma dispatch_word_order_witness :
  dispatch_word (fun _ => tret tt) 33 0 32 0x8000001 =
  foreach (fun b => check_irq_pending (fun _ => tret tt) 0 (u8 (b + 32))) [27; 0].
Proof.
  destruct (dispatch_word_order (fun _ => tret tt) 0 32 0x8000001) as [H _]; [lia|exact H].
Defined.

Lemma booted_clock : clock_wf booted.
Proof.
  assert (Idx (fun _ t => 0 <= t < CLKTICKS_PER_SEC) (clkticks booted)) as H1 by check.
  assert (Idx (fun _ p => 0 < p <= QUANTUM) (preempt booted)) as H2 by check.
  constructor; [split; [run|split; run]|split; [check|split; run]|intros c t Ht; exact (Idx_nthZ _ _ _ _ H1 Ht)|
    intros c t Ht; exact (Idx_nthZ _ _ _ _ H2 Ht)].
Qed.

Lemma clock_preempts_witness : exists r k', start (clkhandler 2) booted = Ret (r, k') /\ clock_wf k'.
Proof.
  destruct (clock_preempts (queues_at (qlock_of booted)) (ready_of booted) 2 booted (lists_of booted))
    as (s & p & _ & _ & _ & r & k' & L' & Hr & _ & Hw & _); [known|exact booted_clock|check|].
  exists r, k'. have.
Defined.

(** The counter advances 500 cycles per reading and wraps. *)
Lemma udelay_waits_witness : exists i,
  udelay 20 1000000 2 (counter (2 ^ 32 - 700) (fun i => 500 * Z.of_nat i)) = Ret i /\
  2000 <= 500 * Z.of_nat (i - 1).
Proof.
  destruct (udelay_waits 20 1000000 2 (2 ^ 32 - 700) (fun i => 500 * Z.of_nat i) 4)
    as (i & Hr & _ & Hd & _); [lia|lia|lia|lia|vm_compute; discriminate|lia|lia|].
  exists i. split; [exact Hr|]. apply Hd. intros (_ & Ht & _). lia.
Defined.

Lemma boot_establishes_witness : exists k, (platforminit ;;; sysinit 0) loaded = Ret (OK, k) /\
  locks_wf k /\ heaps_wf k (heap_free 0x38000 0x3EFFFFF8).
Proof.
  destruct (boot_establishes 0x38000 ∅ (replicate 4 0x1DF) (replicate 4 (replicate 16 0)) rpi3_devices)
    as (k & QL & RQ & MQ & L & Hr & _ & _ & Hh & Hl & _); [split; [run|run|run|run|check|split; run]|run|run|check|].
  exists k. have.
Defined.

(** ** System calls and the MiniJava runtime *)

Lemma syscall_refuses_witness :
  start (syscall_dispatch 0 SYSCALL_KILL [2]) running = Ret (inl SYSERR, running).
Proof.
  destruct (syscall_refuses 0 running) as (_ & _ & H); [check|check|run|apply H; left; reflexivity].
Defined.

(** "1x2" and a carriage return are received. *)
Definition typed : kernel := set_devs (set_uart_rx [49; 120; 50; 13; 104] (devs booted)) booted.

Lemma readint_line_witness : exists k', _readint 0 typed = Ret (12, k') /\ pending_in k' = [104].
Proof.
  destruct (readint_line 0 typed [49; 120; 50] 13 [104]) as (k' & Hr & d & _ & Hp & _);
    [split; check|check|check|run|right; reflexivity| |].
  - repeat constructor; unfold line_end, EOF; lia.
  - exists k'. split; [exact Hr|exact Hp].
Defined.

Lemma new_object_witness : exists p k', _new 0 3 7 booted = Ret (p + 8, k') /\
  mload (memory k') (p + 4) = 7 /\ mload (memory k') (p + 16) = 0.
Proof.
  destruct (new_object 0 booted (free_of booted) 3 7) as [[_ Hb]|(p & k' & l' & Hr & _ & _ & _ & _ & Hi & Hz)];
    [known|run|check|lia| |].
  - exfalso. assert (exists b, head (free_of booted 0) = Some b /\ 20 <= snd b) as (b & Hin & Hle) by some.
    specialize (Hb b). destruct (free_of booted 0) as [|b' l]; [discriminate Hin|]. injection Hin as ->.
    specialize (Hb ltac:(left)). lia.
  - exists p, k'. split; [exact Hr|]. split; [exact Hi|]. specialize (Hz 2 ltac:(lia)).
    replace (p + 8 + 4 * 2) with (p + 16) in Hz by lia. exact Hz.
Defined.

Definition at_top : kernel := set_maxaddr 0x3EFFFFF0 booted.
Lemma getstk_takes_witness : getstk 100 at_top = Ret (maxaddr at_top - 16, set_maxaddr (maxaddr at_top - 112) at_top).
Proof.
  destruct (getstk_takes 100 at_top) as (H & _); [lia|check|run|check|].
  exact (proj1 (H ltac:(lia) ltac:(check) ltac:(lia) ltac:(check))).
Defined.
