(* ===== verification/LibWitnesses.v ===== *)
(** * The theorems of the C library at work

    For the theorems on sorting, character classes, formatted input and
    standard input and output, an input that meets their hypotheses. *)

From Stdlib Require Import Ascii String.
From stdpp Require Import base numbers list sorting.
From S2P Require Import Prelude Kernel CString Doprnt Qsort Ctype Doscan Stdio.

Ltac run := vm_compute; reflexivity.
Ltac check := refine (bool_decide_unpack _ _); vm_compute; exact I.

(** ** Sorting *)

(** Two-byte elements, compared by their first byte. *)
Definition by_first (x y : list Z) : Z := hd 0 x - hd 0 y.

Lemma qsort_sorts_witness :
  let xs := [[5; 0]; [3; 1]; [9; 2]; [3; 3]; [7; 4]] in
  exists ys, qsort by_first 1 5 2 ([77] ++ concat xs ++ [88]) = Ret (tt, [77] ++ concat ys ++ [88]) /\
    ys ≡ₚ xs /\ StronglySorted (fun x y => by_first x y <= 0) ys.
Proof.
  intros xs. refine (qsort_sorts by_first 2 [77] [88] xs _ _ _ _); [lia|check|unfold by_first; lia..].
Defined.

(** ** Characters *)

Lemma ctype_ascii_witness : isalnum (chr "G") = true /\ tolower (chr "G") = chr "g" /\ toupper (chr "g") = chr "G".
Proof.
  destruct (ctype_ascii (chr "G")) as (_ & _ & _ & _ & Ha & _ & (Hl & Hu) & _); [by compute|run|].
  split; [rewrite Ha; run|]. split; [run|exact Hu].
Defined.

(** ** Formatted input *)

(** "%d,%x;" with -42 and 0xBEEF. *)
Lemma printf_scanf_roundtrip_witness :
  let fs := [(CSigned (-42), chr ","); (CUnsigned TX 0xBEEF, chr ";")] in
  exists buf',
    sprintf (replicate 33 0) (replicate 20 9) (lit "%d,%x;") (concat (cnv_args ∘ fst <$> fs)) = Ret (9, buf') /\
    sscanf (replicate 256 0) buf' (lit "%d,%x;") [1; 2] [DInt 7; DInt 7] = Ret (2, [DInt (-42); DInt 0xBEEF]).
Proof.
  intros fs. apply (printf_scanf_roundtrip (replicate 33 0) (replicate 256 0) (replicate 20 9) fs [7; 7]);
    [run| |run|run|run].
  repeat constructor; try (by vm_compute); try (vm_compute; congruence).
Defined.

(** "%[^,]" on "ab,c". *)
Lemma scan_set_witness :
  sscanf (replicate 256 9) (lit "ab,c") (lit "%[^,]") [1] [DBuf (replicate 8 9)] =
  Ret (1, [DBuf (chars "ab" ++ 0 :: replicate 5 9)]).
Proof.
  refine (scan_set (replicate 256 9) true [chr ","] (chars "ab") (chr ",") (lit "c") (replicate 8 9) _ _ _ _ _ _ _);
    [run|check|check|check|right; run|vm_compute; lia|run].
Defined.

(** ** Standard input and output *)

(** A device that delivers the bytes of a list. *)
Definition tape_getc (dev : Z) : M (list Z) Z := fun l =>
  match l with [] => Ret (EOF, []) | c :: l' => Ret (c, l') end.

#[local] Program Instance tape_in dev : InputDevice tape_getc dev := {| pending := id |}.
Next Obligation.
  intros dev [|c l]; simpl; [exists EOF; split; [by right|done]|by exists l].
Defined.

Lemma fgets_line_witness : exists d',
  fgets tape_getc (replicate 8 9) 8 0 (chars "ab" ++ 10 :: chars "cd") =
    Ret ((true, chars "ab" ++ [10; 0] ++ replicate 4 9), d') /\ d' = chars "cd".
Proof.
  destruct (fgets_line tape_getc 0 (replicate 8 9) 8 (chars "ab" ++ 10 :: chars "cd")) as (_ & d' & H & Hp);
    [check|lia|vm_compute; lia|].
  exists d'. split; [exact H|exact Hp].
Defined.

Lemma atol_parses_witness : atoi (replicate 256 0) (lit "  -17 apples") = Ret (-17).
Proof.
  destruct (atol_parses (replicate 256 0) (chars "  ") [chr "-"] 1 [7] (chr " ") (chars "apples" ++ [0])) as [_ H];
    [check|right; left; reflexivity|check|check|run|run|exact H].
Defined.

Lemma rand_abs_range_witness : abs (- 2 ^ 31) = - 2 ^ 31 /\ labs (-5) = 5.
Proof.
  destruct (rand_abs_range 1 2 (- 2 ^ 31)) as (_ & H & _); [lia|lia|lia|].
  destruct (rand_abs_range 1 2 (-5)) as (_ & H' & H''); [lia|lia|lia|].
  split; [exact H|rewrite H''; exact H'].
Defined.
