(* ===== verification/RiscvWitnesses.v ===== *)
(** * The theorems of the RISC-V port at work

    For the theorems on the device tree and on page tables, an input that
    meets their hypotheses: a small device tree, and a machine with twelve
    pages behind the kernel. *)

From Stdlib Require Import Ascii String.
From stdpp Require Import base numbers list gmap.
From S2P Require Import Prelude CString Doprnt Dtb Paging.

Ltac run := vm_compute; reflexivity.
Ltac check := refine (bool_decide_unpack _ _); vm_compute; exact I.

(** ** Device tree *)

(** 128 MB of memory from 2 GB on, reserved 7 bytes at 5. *)
Definition sample_tokens : list token :=
  [TBegin []; TProp 0 (chars "model") (lit "riscv,qemu"); TNop;
   TBegin (chars "memory@80000000");
   TProp 6 (chars "reg") (Dtb.be32 0 ++ be32 0x80000000 ++ be32 0 ++ be32 0x8000000); TEnd; TEnd].
Definition sample_struct : list Z := concat (encode <$> sample_tokens).
Definition sample_strings : list Z := lit "model" ++ lit "reg".
Definition sample_header : list Z := concat (be32 <$> [FDT_MAGIC; 200; 64; 64 + lenZ sample_struct + 4; 40]).
Definition sample_rsv : list Z := concat (rsv_entry <$> [(5, 7)]) ++ le64 0.
Definition sample_blob : list Z :=
  sample_header ++ replicate 20 0 ++ sample_rsv ++ sample_struct ++ be32 FDT_END ++ sample_strings.
Definition sample_board : board := mkBoard 0 0 0 0 (replicate 18 0) (replicate 18 0) [].

Lemma dtb_parses_witness : exists b,
  parseDtb (fun _ => 0) 0x1000 sample_blob sample_board = Ret (Dtb.OK, b) /\
  minaddr b = 0x80000000 /\ Dtb.maxaddr b = 0x88000000 /\ take 6 (family b) = lit "riscv" /\
  take 5 (manufacturer b) = lit "qemu".
Proof.
  eexists. split; [|split; [|split; [|split]]].
  - refine (dtb_parses (fun _ => 0) 0x1000 sample_blob [(5, 7)] sample_tokens (64 + lenZ sample_struct + 4) sample_board _ _).
    + split; [vm_compute; repeat split; discriminate| |check].
      exists 200, 64, 40, (replicate 20 0 ++ sample_rsv ++ sample_struct ++ be32 FDT_END ++ sample_strings),
        (sample_header ++ replicate 20 0 ++ sample_rsv), (sample_header ++ replicate 20 0), sample_strings,
        (sample_struct ++ be32 FDT_END ++ sample_strings).
      split; [run|]. split; [vm_compute; repeat split; discriminate|]. split; [run|]. split; [run|]. split; run.
    + split; [constructor|]. split; [vm_compute; repeat split; discriminate|].
      split; [exists sample_strings; split; [run|split; [by exists (lit "reg")|check]]|].
      split.
      { split; [vm_compute; lia|]. split; [check|]. split; [done|]. split; [done|].
        intros _ _. exists (chars "riscv,qemu"). split; [run|]. split; [check|].
        intros w1 w2 [= <- _]. vm_compute. lia. }
      split; [check|]. split; [vm_compute; repeat split; discriminate|].
      split; [exists (lit "reg"); split; [run|split; [by exists []|check]]|]. split; [|done].
      split; [vm_compute; lia|]. split; [check|]. split; [done|]. split; [done|]. done.
  - run.
  - run.
  - run.
  - run.
Defined.

(** ** Page tables *)

Definition rv_symbols : symbols := mkSymbols 0x80000000 0x80002000 0x80003000 0x80004000 0x80005000 0x80008000.
Definition rv_ram : gmap Z (list Z) := list_to_map ((fun a => (a, replicate 512 7)) <$> page_list 0x80008000 12).
Definition rv_loaded : vm := mkVm NULL 0 rv_ram 0x80014000 0 0 0 [].

Lemma paging_boot_witness : exists s' T free',
  (safeInit 0x80008000 ;;; safeKmapInit rv_symbols) rv_loaded = Ret (tt, s') /\ vm_wf s' 0x80012000 T free' /\
  sv39_walk s' 0x80012000 0x10000123 = Some (mapping 0x10000000 0x10000000 6 0x10000123) /\
  sv39_walk s' 0x80012000 0x80003000 = None.
Proof.
  destruct (paging_boot rv_symbols rv_loaded) as (root & s' & T & free' & Hr & Hh & Hwf & _ & _ & _ & _ & Hx).
  - reflexivity.
  - split; [vm_compute; repeat split; discriminate|check].
  - intros a Ha Hl Hh. unfold is_Some. simpl.
    assert (a ∈ page_list 0x80008000 12) as Hin.
    { apply page_list_elem. exists ((a - 0x80008000) / 4096). simpl in *. pose proof (Z.div_mod a 4096).
      replace (a - 0x80008000) with ((a / 4096 - 0x80008) * 4096) by lia. rewrite Z.div_mul by lia. lia. }
    exists (replicate 512 7). unfold rv_ram. apply elem_of_list_to_map_1.
    + rewrite <- list_fmap_compose, list_fmap_id. check.
    + apply list_elem_of_fmap. by exists a.
  - check.
  - assert (root = 0x80012000) as -> by (apply (inj Some); rewrite <- Hh; run).
    exists s', T, free'. split; [exact Hr|]. split; [exact Hwf|].
    destruct (Hx 0x10000123) as [H1 _]; [lia|]. destruct (Hx 0x80003000) as [H2 _]; [lia|].
    rewrite H1, H2. split; run.
Defined.

(** A root table at the first of three pages; two megabytes from 1 GB on need
    one table on each of the two levels below. *)
Definition three_pages : vm :=
  mkVm 0x5000 0 (list_to_map [(0x5000, 0x6000 :: replicate 511 7); (0x6000, 0x7000 :: replicate 511 7);
    (0x7000, 0 :: replicate 511 7)]) 0x8000 0 0 0 [].
Definition first_table (s : vm) : vm := match pgalloc s with Ret (_, s') => s' | Fault _ => s end.

Lemma three_pages_root : vm_wf (first_table three_pages) 0x5000 {[ [] := 0x5000 ]} [0x6000; 0x7000].
Proof.
  assert (forall a, a ∈ [0x5000; 0x6000; 0x7000] -> page_ok a) as Hp.
  { intros a Ha. rewrite !elem_of_cons, elem_of_nil in Ha. destruct Ha as [-> | [-> | [-> | []]]]; vm_compute; done. }
  destruct (pgalloc_take three_pages 0x5000 [0x6000; 0x7000]) as (n & Hr & Hc).
  - repeat (split; [first [run|apply Hp; check]|]); try (eexists _, _; split; [run|split; [run|split; [run|]]]).
    repeat (split; [first [run|apply Hp; check]|]); try (eexists _, _; split; [run|split; [run|split; [run|]]]).
    repeat (split; [first [run|apply Hp; check]|]); try (eexists _, _; split; [run|split; [run|split; [run|]]]).
    run.
  - check.
  - unfold first_table. rewrite Hr. apply root_wf; [apply Hp; check|check|done].
Qed.

Lemma mapAddress_maps_witness : exists s',
  mapAddress 0x5000 0x40000000 0x90000000 0x200000 6 (first_table three_pages) = Ret (OK, s') /\
  sv39_walk s' 0x5000 0x40123456 = Some (mapping 0x40000000 0x90000000 6 0x40123456) /\
  sv39_walk s' 0x5000 0x40200000 = sv39_walk (first_table three_pages) 0x5000 0x40200000.
Proof.
  destruct (mapAddress_maps 0x5000 0x40000000 0x90000000 0x200000 6 (first_table three_pages) {[ [] := 0x5000 ]} [0x6000; 0x7000])
    as (k & r & s' & T' & free' & Hr & _ & _ & _ & Hx & H);
    [exact three_pages_root|run|lia|lia|vm_compute; discriminate|lia|vm_compute; reflexivity|].
  assert (pages 0x200000 = 512%nat) as Hpg by run. rewrite Hpg in H.
  destruct H as [(_ & -> & ->)|(Hn & _)].
  - exists s'. split; [exact Hr|]. rewrite !Hx by lia. split; reflexivity.
  - exfalso. apply Hn. check.
Defined.
