(* ===== verification/SystemWitnesses.v ===== *)
(** * A run of the whole system

    The theorems of Run on one run: after the start, the null process of
    core 0 creates two processes, which exchange messages, wait for each
    other and kill, while core 1 takes clock interrupts. *)

From Stdlib Require Import Ascii String.
From stdpp Require Import base numbers functions list gmap.
From S2P Require Import Prelude Kernel Spinlock Queue Memory CString Doprnt Kio Thread Proc ProcOps.
From S2P Require Import Message Interrupt Mmu Checks Effects System Init Run Programs Startup Scenario.

(** The kernel [sysinit] leaves. *)
Definition up : kernel := after (platforminit ;;; sysinit 0) loaded.

Lemma rpi3_ok : devices_ok rpi3_devices.
Proof.
  split; [vm_compute; reflexivity..|refine (bool_decide_unpack _ _); vm_compute; exact I|split; vm_compute; reflexivity].
Qed.

Lemma rpi3_regs : Forall (fun r => lenZ r = PREGS) (replicate 4 (replicate 16 0)).
Proof. repeat constructor. Qed.

Lemma up_boots : (platforminit ;;; sysinit 0) loaded = Ret (OK, up).
Proof.
  destruct (boot_sound 0x38000 ∅ (replicate 4 0x1DF) (replicate 4 (replicate 16 0)) rpi3_devices
    rpi3_ok eq_refl eq_refl rpi3_regs ltac:(lia)) as (k & _ & _ & _ & _ & _ & Hk & _).
  unfold up, after, loaded. by rewrite Hk.
Qed.

Definition chat : list cmd :=
  [Do 0 (Create 0x8100 8192 PRIORITY_HIGH (lit "shell") []);
   Do 0 (Create 0x8200 100 PRIORITY_MED (lit "worker") [1; 2; 3; 4; 5; 6]);
   Do 0 (Create 0x8300 100 PRIORITY_LOW (lit "idle") []);
   Do 0 (Ready 4 false 0); Do 0 (Ready 5 false 0); Do 0 (Ready 6 false 1); Do 1 Tick; Do 0 Yield;
   (* 4 waits; 5 sends to it and gives way *)
   Do 0 Recv; Do 0 (Send 4 77); Resume 0;
   (* 4 sends twice to 5 and waits for it to collect *)
   Do 0 (Send 5 1); Do 1 Yield; Do 0 (Send 5 2); Resume 0; Do 0 Recv; Do 0 (SendNow 5 3); Do 0 (SendNow 4 4);
   Do 0 Recv; Do 0 (Kill 4); Do 1 (Kill 6); Do 0 (Send 4 9); Do 0 (SendNow 5 5)].

Definition the {A} (a : A) (o : outcome A) : A := match o with Ret b => b | Fault _ => a end.
Definition chatted : list event * sys := the ([], at_start up) (run chat (at_start up)).

Lemma chat_legal : legal_run chat (at_start up) = true.
Proof. vm_compute. reflexivity. Qed.

Lemma chat_runs : run chat (at_start up) = Ret chatted.
Proof.
  assert (match run chat (at_start up) with Ret _ => true | Fault _ => false end = true) as H by (vm_compute; reflexivity).
  unfold chatted, the. by destruct (run chat (at_start up)).
Qed.

Lemma Ret_inj {A} (a b : A) : Ret a = Ret b -> a = b.
Proof. congruence. Qed.

Definition rpi3_reaches := reaches 0x38000 ∅ (replicate 4 0x1DF) (replicate 4 (replicate 16 0)) rpi3_devices.

Lemma chat_reaches : rpi3_reaches chat (fst chatted) (snd chatted).
Proof. exists up. split; [exact up_boots|]. split; [exact chat_legal|]. rewrite chat_runs. by destruct chatted. Qed.

(** The last six calls: process 6 does not return from killing itself. *)
Lemma kernel_safe_witness : exists es s QL RQ MQ L FL,
  run chat (at_start up) = Ret (es, s) /\ sound QL RQ MQ s L FL /\
  ev_result <$> drop 17 es = [Some OK; Some 2; Some OK; None; Some SYSERR; Some OK].
Proof.
  destruct (kernel_safe 0x38000 ∅ (replicate 4 0x1DF) (replicate 4 (replicate 16 0)) rpi3_devices
    rpi3_ok eq_refl eq_refl rpi3_regs ltac:(lia) chat) as (k & Hk & Hrun).
  assert (k = up) as -> by (pose proof up_boots; unfold loaded in *; congruence).
  destruct (Hrun chat_legal) as (es & s & QL & RQ & MQ & L & FL & Hr & Hs).
  exists es, s, QL, RQ, MQ, L, FL. split; [exact Hr|]. split; [exact Hs|].
  replace es with (fst chatted); [vm_compute; reflexivity|]. by rewrite (Ret_inj _ _ (eq_trans (eq_sym chat_runs) Hr)).
Defined.

Lemma messages_in_order_witness :
  sent (mails_of (fst chatted)) 5 = received (mails_of (fst chatted)) 5 ++ [5] /\
  received (mails_of (fst chatted)) 5 = [1; 2].
Proof.
  split; [|vm_compute; reflexivity].
  rewrite (messages_in_order 0x38000 ∅ (replicate 4 0x1DF) (replicate 4 (replicate 16 0)) rpi3_devices
    rpi3_ok eq_refl eq_refl rpi3_regs ltac:(lia) chat _ _ 5 chat_reaches ltac:(vm_compute; done)).
  apply (f_equal (app _)). vm_compute. reflexivity.
Defined.

Lemma nobody_stranded_witness :
  placed (ker (snd chatted)) 5 (default zero_pcb (nthZ (proctab (ker (snd chatted))) 5)).
Proof.
  destruct (nobody_stranded 0x38000 ∅ (replicate 4 0x1DF) (replicate 4 (replicate 16 0)) rpi3_devices
    rpi3_ok eq_refl eq_refl rpi3_regs ltac:(lia) chat _ _ chat_reaches) as (Hp & _).
  apply Hp. vm_compute. reflexivity.
Defined.

Lemma calls_return_witness : exists x, nthZ (currpid (ker (snd chatted))) 0 = Some x /\ jobs (snd chatted) x = None /\
  exists e s', exec (Do 0 Yield) (snd chatted) = Ret (e, s').
Proof.
  destruct (calls_return 0x38000 ∅ (replicate 4 0x1DF) (replicate 4 (replicate 16 0)) rpi3_devices
    rpi3_ok eq_refl eq_refl rpi3_regs ltac:(lia) chat _ _ 0 chat_reaches ltac:(unfold core; klia)) as (x & Hx & Hj).
  assert (x = 5) as -> by (apply (inj Some); rewrite <- Hx; vm_compute; reflexivity).
  assert (jobs (snd chatted) 5 = None) as E by (vm_compute; reflexivity).
  rewrite E in Hj. exists 5. split; [exact Hx|]. split; [exact E|]. by apply Hj.
Defined.

(** *** For ever

    Process 4, of low priority, is made ready; then core 0 does nothing but
    take clock interrupts and go on with the calls they cut short. *)





Section Forever.
Context (QL : Z -> Z) (RQ : Z -> Z -> Z) (MQ : Z -> Z).
Local Abbreviation sound := (sound QL RQ MQ).









Context (L0 : Z -> list Z) (FL0 : Z -> list block) (Hup : sound (at_start up) L0 FL0).



End Forever.




(** ** The programs *)

Ltac sure := refine (bool_decide_unpack _ _); vm_compute; exact I.

(** [0] has been typed. *)
Definition typed_zero : devices := set_uart_rx [48] rpi3_devices.

Lemma typed_zero_ok : devices_ok typed_zero.
Proof. destruct rpi3_ok. by constructor. Qed.

Lemma power_on_witness : exists k1 r1 k2 pid r2 k3 a,
  start (nulluser (chars "Embedded Xinu" ++ [0]) 0)
    (bss 0x38000 ∅ (replicate 4 0x1DF) (replicate 4 (replicate 16 0)) typed_zero) = Ret (inl tt, k1) /\
  start (resched 0) k1 = Ret (inr r1, k2) /\ running_task k2 pid main_task /\
  start (main 0x9500 0) k2 = Ret (inr r2, k3) /\
  running_task k3 a (printer 0x9500 PRIORITY_HIGH (chars "PRINTER-A")).
Proof.
  destruct (power_on 0x9500 0x38000 ∅ (replicate 4 0x1DF) (replicate 4 (replicate 16 0)) typed_zero
    typed_zero_ok eq_refl eq_refl rpi3_regs ltac:(lia) eq_refl eq_refl ltac:(vm_compute; split; discriminate) ltac:(vm_compute; discriminate)
    (chars "Embedded Xinu") 48 []) as (k1 & r1 & k2 & pid & r2 & k3 & QL & RQ & H1 & H2 & H3 & H4 & [_ (a & b & c & Hp) _ _]);
    [sure|split; sure|reflexivity|reflexivity|].
  exists k1, r1, k2, pid, (r2 ;;== tret 0), k3, a. destruct Hp as (_ & _ & _ & _ & Ha & _).
  exact (conj H1 (conj H2 (conj H3 (conj H4 Ha)))).
Defined.

(** [q] is typed: nothing belongs to it. *)
Definition typed_q : kernel := set_devs (set_uart_rx [113; 48] (devs up)) up.

Lemma typed_q_pending : pending_in typed_q = [113; 48].
Proof. vm_compute. reflexivity. Qed.

Lemma testcases_menu_witness : exists k',
  start (testcases 0x9500 0) typed_q = Ret (inl tt, k') /\
  mmio (devs k') = sent_out farewell ++ Rd UART_DR 113 :: sent_out menu ++ mmio (devs typed_q).
Proof.
  assert (unget_ok typed_q) as Hu by (split; sure). assert (serial_free typed_q) as Hs by (split; sure).
  pose proof (testcases_menu 0x9500 0 typed_q Hu Hs) as Hm. rewrite typed_q_pending in Hm.
  assert (u8 113 <> chr "0") as Hc by (vm_compute; discriminate). destruct (Hm Hc) as (Hr & _ & Ho).
  assert (answer (u8 113) = []) as Ea by (vm_compute; reflexivity). rewrite Ea in Hr, Ho.
  eexists. split; [exact Hr|]. apply Ho. vm_compute. reflexivity.
Defined.

Lemma up_freq : clkfreq (devs up) = 1000000.
Proof. vm_compute. reflexivity. Qed.

(** Two lines, the counter advancing by 400 cycles per reading. *)
Lemma printpid_prints_witness : exists k',
  printpid 10 (fun i => counter (7000 * i) (fun j => 400 * Z.of_nat j)) 0 2 up = Ret (tt, k') /\
  mmio (devs k') = reverse ((fun c => Wr UART_DR (u8 c)) <$>
    (line "This is process 0" ++ line "This is process 0")) ++ mmio (devs up).
Proof.
  eexists. split; [refine (printpid_prints 10 0 0 _ 2 up 0x1DF _ _ _ _ _)|].
  - split; sure.
  - vm_compute. reflexivity.
  - lia.
  - vm_compute. reflexivity.
  - intros j Hj. exists (7000 * j), (fun i => 400 * Z.of_nat i), 3%nat. rewrite up_freq.
    cbv zeta. change (u32 (1000000 / 1000 * 1)) with 1000. repeat split; try lia.
  - vm_compute. reflexivity.
Defined.
