(* ===== verification/ConfigWitnesses.v ===== *)
(** * The configuration generator on concrete files

    Witnesses of the theorems about the configuration generator: a file with
    two types of devices, and one the program rejects. *)

From Stdlib Require Import Ascii String.
From stdpp Require Import base numbers functions list sets.
From S2P Require Import Prelude CString Doprnt Config ConfigLang ConfigSpec ConfigScan ConfigParse ConfigGrammar ConfigOut.

(** Memory malloc may hand out: a null link, but bytes of other values, with
    a zero only at the end of each array. *)
Definition used (n : nat) : dev_ent :=
  mkDev (Some 7) (Some 8) (-1) (Some 9) (Z.of_nat n) 3 (fun _ => replicate 19 88 ++ [0]) 12 None.
(** The same with links that are not null, and with no zero in the arrays. *)
Definition wild (n : nat) : dev_ent := set_d_next (Some 5) (used n).
Definition endless (n : nat) : dev_ent := set_d_code (fun _ => replicate 20 88) (used n).

Definition sample : list Z := chars "/* serial ports */
null:
    on NOTHING  -i ionull -o ionull
uart:
    on HW -csr 0x10 -irq 057 -intr uartInt -g uartGetc
    on SW -w uartWrite
%%
DEVNULL  is null on NOTHING
SERIAL0  is uart on HW
SERIAL1  is uart on HW -irq 58
%%
#define LOG 1
"%string.

(** The input file as the only one, and output files that can be written. *)
Definition only (text : list Z) (name : list Z) : option (list Z) := if bool_decide (name = CONFIGIN) then Some text else None.
Definition writes (name : list Z) : bool := true.

Definition sample_end : conf :=
  match config used (only sample) writes [chars "config"] with Ret (_, c) => c | Fault _ => initial [] end.

(** The minor numbers and interrupt lines of the devices. *)
Example sample_numbers : (fun d => (d_minor d, d_irq d)) <$> drop 3 (nodes sample_end) = [(0, 0); (0, 47); (1, 58)].
Proof. vm_compute. reflexivity. Qed.

(** The row of a routine no attribute names shows what malloc left. *)
Example sample_default : code_text (default (used 0) (nthZ (nodes sample_end) 3)) Seek = chars "ioerrXXXXXXXXXXXXXX".
Proof. vm_compute. reflexivity. Qed.

Lemma sample_ends : match requested used (only sample) writes [chars "config"; chars "-v"] with
  | Good (_, _, sp) => forallb ended (devices sp)
  | _ => false
  end = true.
Proof. vm_compute. reflexivity. Qed.

Lemma config_generates_witness : exists verbose fin sp c,
  requested used (only sample) writes [chars "config"; chars "-v"] = Good (verbose, fin, sp) /\
  config used (only sample) writes [chars "config"; chars "-v"] = Ret (inl 0, c) /\
  confh c = conf_h sp (sc_brk fin) (sc_lit fin) /\ confc c = conf_c sp.
Proof.
  pose proof (config_generates used (only sample) writes [chars "config"; chars "-v"]) as H. pose proof sample_ends as He.
  destruct (requested used (only sample) writes _) as [[[verbose fin] sp]| | |]; [|discriminate He..].
  rewrite He in H. destruct H as (c & H1 & H2 & H3 & _). exists verbose, fin, sp, c.
  exact (conj eq_refl (conj H1 (conj H2 H3))).
Defined.

(** Without a terminator the rows cannot be written; with a link that is not
    null nothing is said of a second type. *)
Example sample_endless : config endless (only sample) writes [chars "config"] = Fault OutOfBounds.
Proof. vm_compute. reflexivity. Qed.
Example sample_wild : requested wild (only sample) writes [chars "config"] = Stray.
Proof. vm_compute. reflexivity. Qed.

Lemma sample_parses : match yyparse used (initial sample) with Ret (inl _, _) => true | _ => false end = true.
Proof. vm_compute. reflexivity. Qed.

Lemma tables_typed_witness :
  exists sp c, yyparse used (initial sample) = Ret (inl tt, c) /\ rep sp c /\ typed used sp.
Proof.
  destruct (tables_typed used sample) as [H|[(c & E)|[[E _]|[E _]]]]; [exact H|..].
  - pose proof sample_parses as Hp. rewrite E in Hp. discriminate Hp.
  - pose proof sample_parses as Hp. rewrite E in Hp. discriminate Hp.
  - exfalso. vm_compute in E. discriminate E.
Defined.

Lemma minor_numbers_witness : exists base, (0 < ndevs sample_end -> devs sample_end = Some base) /\
  forall k, 0 <= k < ndevs sample_end -> exists d e, nthZ (nodes sample_end) (base + k) = Some d /\
    nthZ (symtab sample_end) (d_tnum d) = Some e /\ 0 <= d_minor d < sy_occurs e /\
    d_next d = (if k + 1 =? ndevs sample_end then None else Some (base + k + 1)) /\
    forall k' d', 0 <= k' < ndevs sample_end -> nthZ (nodes sample_end) (base + k') = Some d' ->
      d_tnum d' = d_tnum d -> d_minor d' = d_minor d -> k' = k.
Proof.
  destruct (minor_numbers used (only sample) writes [chars "config"] sample_end) as [[E _]|H]; [| |exact H].
  - vm_compute. reflexivity.
  - exfalso. vm_compute in E. discriminate E.
Defined.

(** The file as a tree. *)
Definition sample_file : file := mkFile
  [mkTypeDecl (chars "null") (mkPlaced (chars "NOTHING")
     [Calls Init (chars "ionull"); Calls Open (chars "ionull")]) [];
   mkTypeDecl (chars "uart") (mkPlaced (chars "HW")
     [Csr 16; Irq 47; Calls Intr (chars "uartInt"); Calls Getc (chars "uartGetc")])
     [mkPlaced (chars "SW") [Calls Write (chars "uartWrite")]]]
  [mkDeviceDecl (chars "DEVNULL") (chars "null") (Some (chars "NOTHING")) [];
   mkDeviceDecl (chars "SERIAL0") (chars "uart") (Some (chars "HW")) [];
   mkDeviceDecl (chars "SERIAL1") (chars "uart") (Some (chars "HW")) [Irq 58]].

Example sample_tokens : tokens (start sample) = file_tokens sample_file.
Proof. vm_compute. reflexivity. Qed.

Lemma yyparse_language_witness : exists sp c,
  meaning used sample_file = Good sp /\ yyparse used (initial sample) = Ret (inl tt, c) /\ rep sp c.
Proof.
  destruct (yyparse_language used sample) as (H & Hf & _). specialize (Hf sample_file sample_tokens).
  assert (match parse_tokens used (tokens (start sample)) with Good _ => true | _ => false end = true) as Hg
    by (vm_compute; reflexivity).
  rewrite Hf in H, Hg. destruct (meaning used sample_file) as [sp| | |]; [|discriminate Hg..].
  destruct H as (c & H1 & H2). exists sp, c. exact (conj eq_refl (conj H1 H2)).
Defined.

(** A text that is not written as a file is refused. *)
Example half_refused : parse_tokens used (tokens (start (chars "uart: on HW -i"))) = Refused.
Proof. vm_compute. reflexivity. Qed.

Lemma lookup_interns_witness : exists i j c1 c2,
  lookup (chars "ethernetControllerRxA") (initial []) = Ret (inl i, c1) /\
  lookup (chars "ethernetControllerRxB") c1 = Ret (inl j, c2) /\
  (i = j <-> take 19 (chars "ethernetControllerRxA") = take 19 (chars "ethernetControllerRxB")) /\
  nthZ (symtab c2) i = Some (mkSym (Some (take 19 (chars "ethernetControllerRxA"))) 0) /\
  nthZ (symtab c2) j = Some (mkSym (Some (take 19 (chars "ethernetControllerRxB"))) 0) /\
  (forall k u, nthZ (names empty_spec) k = Some u -> nthZ (symtab c2) k = nthZ (symtab (initial [])) k) /\
  (take 19 (chars "ethernetControllerRxA") ∉ names empty_spec -> i = nsym (initial []) /\ nsym c1 = nsym (initial []) + 1) /\
  front c2 = front (initial []).
Proof.
  apply (lookup_interns used _ _ empty_spec); [by constructor|apply empty_typed|..]; try (vm_compute; discriminate);
    by apply (bool_decide_unpack _).
Defined.

(** Running the program on a text. *)
Definition on_text (text : string) : outcome ((Z + Z) * conf) := config used (only (chars text)) writes [chars "config"].

(** A declaration without [on] is looked up at the first name of the file,
    not at any device, and rejected. *)
Example bare_declaration_rejected : exists c,
  on_text "uart: on HW -i uartInit %% SERIAL0 is uart" = Ret (inr 1, c) /\
  errors c = chars "Bad type or device name in declaration of SERIAL0" ++ on_line 1.
Proof. eexists. split; [vm_compute; reflexivity|vm_compute; reflexivity]. Qed.

(** An unknown character is reported, and the file is accepted. *)
Example unknown_character_accepted : exists c, on_text "? %%" = Ret (inl 0, c) /\
  errors c = chars "Syntax error in device type declaration" ++ on_line 1.
Proof. eexists. split; [vm_compute; reflexivity|vm_compute; reflexivity]. Qed.

(** A comment that does not end hides the rest of the file, and nothing is
    reported. *)
Example open_comment_accepted : exists c, on_text "%% /* DEVNULL is null" = Ret (inl 0, c) /\ errors c = [].
Proof. eexists. split; [vm_compute; reflexivity|vm_compute; reflexivity]. Qed.

(** The declarations of the configuration of the Raspberry Pi 3
    (compile/platforms/arm-rpi3/xinu.conf), whose other devices are
    commented out: conf.h gets one device, of type null. *)
Definition rpi3 : string := "
/* null device */
null:
    on NOTHING  -i ionull       -o ionull        -c ionull
                -r ionull       -g ionull        -p ionull
                -w ionull
%%
/*
SERIAL0   is uart     on HARDWARE csr 0x3F201000 irq 57
*/
DEVNULL   is null     on NOTHING
%%
#define NCORES	4				/* number of cpu cores		    */
".

Definition rpi3_spec : spec :=
  match parse_tokens used (tokens (start (chars rpi3))) with Good sp => sp | _ => empty_spec end.

Example rpi3_devices : exists c, on_text rpi3 = Ret (inl 0, c) /\ errors c = [] /\
  parse_tokens used (tokens (start (chars rpi3))) = Good rpi3_spec /\ lenZ (devices rpi3_spec) = 1 /\
  name_lines (names rpi3_spec) 0 (devices rpi3_spec) = chars "#define DEVNULL     0       /* type null     */" ++ NL /\
  type_lines size_line (devices rpi3_spec) 0 (names rpi3_spec) = chars "#define NNULL 1" ++ NL.
Proof.
  eexists. split; [vm_compute; reflexivity|]. split; [vm_compute; reflexivity|]. split; [vm_compute; reflexivity|].
  split; [vm_compute; reflexivity|]. split; vm_compute; reflexivity.
Qed.
